(* ===== verification/_CoqProject ===== *)
-Q . S2P
Prelude.v
Interfaces.v
Locks.v
Palloc.v
Util.v
Strings.v
Utils.v
Paging.v
KList.v
Stream.v
Timer.v
Thread.v
Gdt.v
Interrupts.v
Scheduler.v
Kmalloc.v
Memory.v
Screen.v
Snake.v
Isr.v
Process.v
System.v
Drivers.v
Syscall.v
Elf.v
Mboot.v
Cpu.v
Devices.v
Libc.v
Token.v
Demos.v
SrvScreen.v
SrvFullscreen.v
SrvKeyboard.v
Game.v
Programs.v
Ring.v
Servers.v
Dirs.v
Spawn.v
Ready.v
Loading.v
Calls.v
Startup.v
Dumps.v
Kmain.v
Entry.v
Boot.v
