(* ===== verification/Prelude.v ===== *)
(** * VSOP: a model of the kernel and its servers

    VSOP is a 32-bit x86 microkernel in C (src/kernel) with a small C library
    (src/libc) and user processes (src/userspace).  Processes own threads;
    each processor schedules its threads from priority queues at timer
    interrupts.  Processes talk through byte streams that SYSCALL_CONNECT
    sets up between two of them; drivers are processes that read a byte per
    interrupt from such a stream and have device memory mapped.  The
    definitions follow the C functions one by one and keep their names.

    ** Parts

    What the parts share:

    - Prelude.v: outcomes of C code ([res]), machine integers at their width
      ([u8] to [s32]), arrays ([aget], [aset], [arr]), loops with fuel
      ([while*], [for_upto]), tactics ([dlia], [res_step], [res_inv]).
    - Interfaces.v: contracts between components: [FrameAlloc] (page frame
      allocator, used by paging, implemented by Palloc.v), [PageSource] (where
      the buddy allocator gets pages, implemented by Memory.v), [QueueStore]
      (FIFO queues, used by the scheduler, implemented by KList.v; its elements
      come from outside, see System.v), [Ports] (the two instructions that reach
      a device).

    The kernel's components:

    - Locks.v (kernel/locks.c): spin locks as steps of many processors.
    - Palloc.v (kernel/palloc.c): page frames; Paging.v and Dirs.v
      (kernel/paging.c): page tables, and directories side by side; Kmalloc.v
      (kernel/kmalloc.c): the buddy allocator; Memory.v (kernel/memory.c,
      message.c): the kernel's heap, from physical memory up to [kmalloc].
    - Util.v and Strings.v (kernel/util.c): filling, copying, comparing and
      formatting.
    - KList.v (kernel/list.c): the FIFO lists with their element cache.
    - Stream.v (kernel/stream.c): ring buffers and descriptor tables.
    - Timer.v (kernel/timer.c): ticks and times; Devices.v: the programming of
      the clock chip, and the interrupt handlers that print.
    - Thread.v (kernel/thread.h, process.h): threads, processes, events.
    - Scheduler.v (kernel/scheduler.c): queues of each processor, the tick,
      waiting and sleeping.
    - Process.v (kernel/process.c, thread.c): the process table and the first
      stack of a thread; Spawn.v: the same on the page tables, what a user
      process and its first thread have in memory.
    - Gdt.v (kernel/gdt.c), Interrupts.v (kernel/interrupts.c, isr_impl.c,
      isr_list.h), Isr.v (kernel/isr.s): segments, gates, controllers,
      dispatch, and the registers that an interrupt saves.
    - System.v: the states above joined into the state of the running kernel,
      with stream reads and writes that wait.  Here [sched_thread_ready] prints
      its message, and a queue that has no spare element is given one from the
      kernel's heap ([new_element]) before [list_push] runs on it, also when a
      thread yields; [list_push_given] of KList.v is why that is the same as
      NEW inside [list_push].  Ready.v: what [sched_thread_ready] does to
      console, heap and queues.
    - Drivers.v (kernel/drivers.c): interrupts turned into bytes; Syscall.v and
      Calls.v (kernel/syscall.c): interrupt 80, the calls that connect
      processes and the others.
    - Elf.v, Loading.v (kernel/elf.c): the sections of an image, and from the
      image to the message on the console and the thread in a queue.
    - Dumps.v: [mem_phys_dump] and [list_print].

    The boot, in the order in which it happens:

    - Entry.v (kernel/entry.s): the page tables the kernel starts with.
    - Mboot.v (kernel/mboot.c), Cpu.v (kernel/cpu.c): what the boot loader and
      the firmware leave in memory; Cpu.v has the barrier [cpu_sync] as well.
    - Startup.v (kernel/cpu.c, cpu_asm.s): waking the other processors.
    - Kmain.v (kernel/kmain.c): all of it on [kernel], the running kernel joined
      with tables, processors and their registers, and the calls behind
      [cpu_find].  Boot.v runs those before it and both halves.

    User processes:

    - Utils.v (libc/utils.c): memory and strings; Libc.v (libc/syscalls.c,
      libc/entry.c): programs as interaction trees of system calls.
    - A file for each program, its functions on its own data and its main
      function as a program: SrvScreen.v and SrvFullscreen.v (with the kernel's
      console, Screen.v for kernel/screen.c, below them), SrvKeyboard.v,
      Snake.v and Game.v (userspace/snake.c), Token.v (token_common.h and
      token_*.c), Demos.v (ping.c, srv_loop.c, streamer_*.c).
    - Programs.v: programs run on the kernel by [step]; Ring.v: the ring of
      token_0 and the other token programs on one processor, with the switches
      between them; Servers.v: a turn of the screen server on the kernel.

    ** How state and code correspond

    The static variables of a C file are the fields of one record: [palloc]
    (palloc.c), [mem_allocator] (kmalloc.c), [memory] (memory.c), [sched]
    (scheduler.c), [pstate] (process.c with memory), [screen], [game], and so
    on; [sys] of System.v and [kernel] of Kmain.v put them together.
    Structures that are allocated live in finite maps from addresses; linked
    structures keep their pointers.  Memory seen through the page tables is
    [vload] and [vstore] of Paging.v, memory of strings, stacks and buffers the
    byte map [mem8] of Strings.v.  Control registers, lgdt, lidt and ltr are
    fields of a record for each processor.  A C function becomes a function of
    its arguments and the state into [res]; what its text leaves undefined (an
    index outside a declared array, a byte no object has) is [Fault].
    A function that would wait returns what it waits for, and the continuation
    is a definition of its own ([resume_wait], [wait_again]).

    ** What the theorems show

    - Boot.  From the machine as entry.s and the boot loader leave it, kmain
      comes to its barrier with the boot information read, the processors of
      the firmware's table listed and started at the trampoline, and every
      table in order ([kmain_boot_runs]); from what [cpu_find] leaves, kmain
      and hello_world of every processor return and the modules are loaded
      ([kmain_runs]).  [cold], [found], [booted] (Kmain.v, Boot.v) and [usable]
      (Loading.v) are the invariants that connect the calls: what one call
      demands of frames, heap and directories, the one before it gives.
    - Memory.  The allocator of frames returns the lowest free one and keeps
      its set of frames; mapping a page changes one translation; a cloned
      directory shares the kernel's translations and keeps later private
      mappings private; the buddy allocator returns an aligned block of free
      bytes, gives it back, does not return for oversized requests; [kmalloc]
      clears what it returns; what [mboot_parse] leaves free excludes the kernel
      and its modules; SYSCALL_MMAP maps any physical address at any page below
      the window of the page tables.
    - Processes.  [proc_create] maps the sections at the addresses the process
      uses, a new thread starts at its entry with the registers of its ring
      ([leave_kernel] is the end of an interrupt, behind three words: a thread
      of the kernel's ring stays on its kernel stack), [elf_load] takes an image
      to a thread in a queue and says so on the console, a registered name is
      found, SYSCALL_EXIT leaves the thread where it is.
    - Scheduling.  [sched_tick] continues the first ready thread of the
      highest priority, neither loses nor duplicates threads, is round robin
      among equals and starves lower priorities; a thread that waits goes on
      when its event has happened, and otherwise gives the processor to the
      first thread that can run, unless all of the first queue are blocked.
    - Communication.  Lists and streams are FIFO, also when reader and writer
      interleave; SYSCALL_CONNECT links two processes crosswise; reads and
      writes move exactly the bytes asked for or wait with the rest; a
      driver's stream receives one byte for each interrupt.
    - Interrupts.  Gates lead to the interrupt's entry, an interrupt gives the
      code it interrupts its registers back, the dispatcher calls the handler
      and acknowledges.
    - Concurrency.  Locks exclude each other; [cpu_sync] is a barrier.
    - Text.  [kprintf] and [int2str] print, [kstrcmp] compares, consoles show
      what is written and where the code writes past the screen.
    - Programs.  One message goes round the ring of token programs, whose
      stations wait, hand the processor over and are resumed; the screen server
      puts what a client wrote into the cells of the screen; the snake moves and
      grows by its rule.

    ** Fuel and bounds

    A loop whose turns the code bounds runs for that many turns
    ([for_upto], or [while*] with the bound as fuel); theorems give the fuel
    that is enough, and [Spin] is never the result there.  Loops over strings
    need one unit more than the length.  [section_enter] has fuel 1 when no
    other processor runs: the lock is free or the call spins for ever.
    [sched_tick] needs one unit for each thread that waits.  A turn of the token
    ring is at most seven events: two system calls, a step of the loop, and three
    more for a report.  Buddy lists
    recur on the list number, below [ALOCATORS]; a request of at most a page needs
    fuel 2 ([KFUEL]).  The boot needs as many frames as its theorems name, one
    for each page it maps and for each page table on the way; loading a module
    takes at most nine pages of heap (process, thread and stack, list element).  Integers wrap at
    their width; [int] is [s32], pointers and [uint32] are [u32] and so is
    [uint64], which is [unsigned long] under -m32.

    ** Parameters

    Addresses the linker chooses ([kdir], [leave_kernel_at], [gdt_at], the
    entries [isr], the addresses [lit] of literals and of the buffer of
    [sched_thread_ready], [symbols] of Startup.v and Kmain.v) and the address [resume] a switched-out thread continues at are
    arguments, and so is what the boot loader leaves in memory.  Devices are
    parameters with what their documentation states: [Rtc] the clock chip,
    [Apic] and its start-up messages the interrupt controllers; each has a
    concrete device that behaves so.

    ** Not modelled

    Translations are not cached, so [invlpg] and the reload of the page
    directory have no effect but on the register.  Interrupts occur between
    system calls and kernel functions, not inside one, so sti, cli and hlt are
    no steps, and [sched_idle_loop], which only halts, is none.  in and out
    (kernel/ports.h, libc/ports.c) are single instructions.  The way from the
    boot loader or the start-up message to protected mode, the far jumps that
    reload the code segment, and cpuid, the value of which is an argument, have
    no counterpart in the state.  The processors of the boot run after each
    other; only locks, streams and the barrier are modelled access by access.
    [bytes] is memory as the running process sees it, so that what a process
    finds when it is switched to again is a hypothesis ([enters] in Ring.v).
    userspace/pong.c and srv_keyboard2.c do not compile.  *)

From Stdlib Require Import ZArith Lia.
From stdpp Require Import base option list gmap relations.
#[global] Open Scope Z_scope.

(** ** Outcomes of kernel code *)

(** The outcome of running a piece of C code: it returns a value, it performs
    an access outside the objects the C text gives it ([Fault]), or it is
    still running when the fuel of one of its loops is used up ([Spin]). *)
Inductive res (A : Type) :=
| Ok (a : A)
| Fault
| Spin.
Arguments Ok {A} a.
Arguments Fault {A}.
Arguments Spin {A}.

#[export] Instance res_ret : MRet res := λ A a, Ok a.
#[export] Instance res_bind : MBind res := λ A B f r,
  match r with Ok a => f a | Fault => Fault | Spin => Spin end.

Lemma res_bind_Ok {A B} (r : res A) (f : A → res B) b :
  r ≫= f = Ok b ↔ ∃ a, r = Ok a ∧ f a = Ok b.
Proof.
  unfold mbind, res_bind. destruct r; split; intros; destruct_and?; destruct_or?;
    repeat match goal with H : ∃ _, _ |- _ => destruct H end;
    destruct_and?; simplify_eq; eauto.
Qed.

Lemma bind_ok {A B} (f : A → res B) (r : res A) a : r = Ok a → r ≫= f = f a.
Proof. by intros ->. Qed.

Lemma res_bind_Spin {A B} (r : res A) (f : A → res B) :
  r ≫= f = Spin ↔ r = Spin ∨ ∃ a, r = Ok a ∧ f a = Spin.
Proof.
  unfold mbind, res_bind. destruct r; split; intros; destruct_and?; destruct_or?;
    repeat match goal with H : ∃ _, _ |- _ => destruct H end;
    destruct_and?; simplify_eq; eauto.
Qed.

(** [res_step] evaluates the leading statement of a monadic body whose value
    an equation in the context (or the given one) names. *)
Ltac res_step :=
  match goal with
  | |- context [mbind _ (Ok _)] => cbn [mbind res_bind]
  | H : ?r = Ok _ |- context [mbind _ ?r] => rewrite H; cbn [mbind res_bind]
  | H : ?r = Spin |- context [mbind _ ?r] => rewrite H; cbn [mbind res_bind]
  end.

(** [res_inv] takes a hypothesis saying that a monadic body returned apart
    into one equation for each of its statements. *)
Ltac res_inv :=
  repeat match goal with
  | H : mbind _ _ = Ok _ |- _ =>
      apply res_bind_Ok in H; destruct H as (? & ? & H)
  | H : mret _ = Ok _ |- _ => unfold mret, res_ret in H
  | H : Ok _ = Ok _ |- _ => injection H as H
  | H : (let '(_, _) := ?p in _) = Ok _ |- _ => destruct p
  | H : (match ?p with pair _ _ => _ end) = Ok _ |- _ => destruct p
  end; simplify_eq/=.

(** [dlia] is [lia] on goals with divisions and remainders. *)
Ltac dlia := Z.to_euclidean_division_equations; lia.

(** ** Machine integers *)

Definition u8 (z : Z) : Z := z mod 2 ^ 8.
Definition u16 (z : Z) : Z := z mod 2 ^ 16.
Definition u32 (z : Z) : Z := z mod 2 ^ 32.

(** Conversion to [int] and to (signed) [char], two's complement. *)
Definition s32 (z : Z) : Z := (z + 2 ^ 31) mod 2 ^ 32 - 2 ^ 31.
Definition s16 (z : Z) : Z := (z + 2 ^ 15) mod 2 ^ 16 - 2 ^ 15.
Definition s8 (z : Z) : Z := (z + 2 ^ 7) mod 2 ^ 8 - 2 ^ 7.

Create HintDb vsop.
Create Rewrite HintDb vsop.

Lemma u8_range z : 0 ≤ u8 z < 256.
Proof. apply Z.mod_pos_bound; lia. Qed.
Lemma u16_range z : 0 ≤ u16 z < 65536.
Proof. apply Z.mod_pos_bound; lia. Qed.
Lemma u32_range z : 0 ≤ u32 z < 4294967296.
Proof. apply Z.mod_pos_bound; lia. Qed.
#[export] Hint Resolve u8_range u16_range u32_range : vsop.

Lemma u8_small z : 0 ≤ z < 256 → u8 z = z.
Proof. apply Z.mod_small. Qed.
Lemma u16_small z : 0 ≤ z < 65536 → u16 z = z.
Proof. apply Z.mod_small. Qed.
Lemma u32_small z : 0 ≤ z < 4294967296 → u32 z = z.
Proof. apply Z.mod_small. Qed.
Lemma s32_small z : -2147483648 ≤ z < 2147483648 → s32 z = z.
Proof. intros ?. unfold s32. rewrite Z.mod_small; lia. Qed.
Lemma s8_small z : -128 ≤ z < 128 → s8 z = z.
Proof. intros ?. unfold s8. rewrite Z.mod_small; lia. Qed.
#[export] Hint Rewrite u8_small u16_small u32_small s32_small s8_small
  using lia : vsop.

Lemma u32_add_l a b : u32 (u32 a + b) = u32 (a + b).
Proof. unfold u32. apply Zplus_mod_idemp_l. Qed.
Lemma u32_add_r a b : u32 (a + u32 b) = u32 (a + b).
Proof. unfold u32. apply Zplus_mod_idemp_r. Qed.
#[export] Hint Rewrite u32_add_l u32_add_r : vsop.

(** ** Bits *)

Lemma bits_high w n i : 0 ≤ w < 2 ^ n → 0 ≤ n ≤ i → Z.testbit w i = false.
Proof.
  intros Hw Hi. destruct (decide (w = 0)) as [->|]; [apply Z.bits_0|].
  apply Z.bits_above_log2; [lia|]. apply Z.log2_lt_pow2; [lia|].
  apply Z.lt_le_trans with (2 ^ n); [lia|]. apply Z.pow_le_mono_r; lia.
Qed.

Lemma bits_bound w n :
  0 ≤ w → 0 ≤ n → (∀ i, n ≤ i → Z.testbit w i = false) → w < 2 ^ n.
Proof.
  intros Hw Hn Hbits. destruct (decide (w = 0)) as [->|].
  { apply Z.pow_pos_nonneg; lia. }
  apply Z.log2_lt_pow2; [lia|]. destruct (decide (Z.log2 w < n)); [done|].
  pose proof (Z.bit_log2 w ltac:(lia)) as Hb.
  rewrite Hbits in Hb by lia. discriminate.
Qed.

Lemma testbit_one_shift b i :
  0 ≤ b → Z.testbit (Z.shiftl 1 b) i = bool_decide (i = b).
Proof.
  intros Hb. rewrite Z.shiftl_1_l. case_bool_decide as He.
  - subst. by apply Z.pow2_bits_true.
  - apply Z.pow2_bits_false. lia.
Qed.

Lemma u32_testbit z i :
  0 ≤ i → Z.testbit (u32 z) i = Z.testbit z i && bool_decide (i < 32).
Proof.
  intros Hi. unfold u32. case_bool_decide.
  - rewrite Z.mod_pow2_bits_low by lia. by rewrite andb_true_r.
  - rewrite Z.mod_pow2_bits_high by lia. by rewrite andb_false_r.
Qed.

(** [w |= 1 << b] on a 32-bit word. *)
Lemma set_bit_spec w b i :
  0 ≤ b < 32 → 0 ≤ i →
  Z.testbit (Z.lor w (u32 (Z.shiftl 1 b))) i = Z.testbit w i || bool_decide (i = b).
Proof.
  intros Hb Hi. rewrite Z.lor_spec, u32_testbit, testbit_one_shift by lia.
  repeat case_bool_decide; try lia; by rewrite ?andb_true_r, ?andb_false_r.
Qed.

(** [w &= ~(1 << b)] on a 32-bit word. *)
Lemma clear_bit_spec w b i :
  0 ≤ w < 2 ^ 32 → 0 ≤ b < 32 → 0 ≤ i →
  Z.testbit (Z.land w (u32 (Z.lnot (Z.shiftl 1 b)))) i
  = Z.testbit w i && negb (bool_decide (i = b)).
Proof.
  intros Hw Hb Hi.
  rewrite Z.land_spec, u32_testbit, Z.lnot_spec, testbit_one_shift by lia.
  destruct (decide (i < 32)) as [?|?].
  - by rewrite (bool_decide_true (i < 32)), andb_true_r.
  - by rewrite (bits_high w 32) by lia.
Qed.

Lemma lor_bound a b n :
  0 ≤ n → 0 ≤ a < 2 ^ n → 0 ≤ b < 2 ^ n → 0 ≤ Z.lor a b < 2 ^ n.
Proof.
  intros Hn Ha Hb. split; [apply Z.lor_nonneg; lia|].
  apply bits_bound; [apply Z.lor_nonneg; lia|done|].
  intros i Hi. rewrite Z.lor_spec, (bits_high a n), (bits_high b n); lia || done.
Qed.

Lemma land_bound a b n :
  0 ≤ n → 0 ≤ a < 2 ^ n → 0 ≤ b → 0 ≤ Z.land a b < 2 ^ n.
Proof.
  intros Hn Ha Hb. split; [apply Z.land_nonneg; lia|].
  apply bits_bound; [apply Z.land_nonneg; lia|done|].
  intros i Hi. rewrite Z.land_spec, (bits_high a n); lia || done.
Qed.

(** ** C arrays *)

(** A C array of [n] words with static storage: its elements are zero until
    they are written; an index outside it is a [Fault]. *)
Definition aget {A} (d : A) (n : Z) (a : gmap Z A) (i : Z) : res A :=
  if bool_decide (0 ≤ i < n) then Ok (default d (a !! i)) else Fault.

Definition aset {A} (n : Z) (a : gmap Z A) (i : Z) (v : A) : res (gmap Z A) :=
  if bool_decide (0 ≤ i < n) then Ok (<[i := v]> a) else Fault.

(** The element at an index known to be in range. *)
Definition arr {A} (d : A) (a : gmap Z A) (i : Z) : A := default d (a !! i).

Lemma aget_in {A} (d : A) n a i : 0 ≤ i < n → aget d n a i = Ok (arr d a i).
Proof. intros ?. unfold aget. by rewrite bool_decide_true. Qed.

Lemma aget_out {A} (d : A) n a i : ¬ (0 ≤ i < n) → aget d n a i = Fault.
Proof. intros ?. unfold aget. by rewrite bool_decide_false. Qed.

Lemma aset_in {A} n (a : gmap Z A) i v :
  0 ≤ i < n → aset n a i v = Ok (<[i := v]> a).
Proof. intros ?. unfold aset. by rewrite bool_decide_true. Qed.

Lemma arr_insert {A} (d : A) a i j v :
  arr d (<[i := v]> a) j = if decide (i = j) then v else arr d a j.
Proof. unfold arr. rewrite lookup_insert. by case_decide. Qed.

Lemma arr_insert_eq {A} (d : A) a i v : arr d (<[i := v]> a) i = v.
Proof. rewrite arr_insert. by rewrite decide_True. Qed.

Lemma arr_insert_ne {A} (d : A) a i j v :
  i ≠ j → arr d (<[i := v]> a) j = arr d a j.
Proof. intros. rewrite arr_insert. by rewrite decide_False. Qed.

Lemma arr_empty {A} (d : A) i : arr d ∅ i = d.
Proof. done. Qed.
#[export] Hint Rewrite @arr_insert_eq @arr_empty : vsop.
#[export] Hint Rewrite @arr_insert_ne using lia : vsop.

(** ** Loops *)

(** [while (cond) body] with fuel. *)
Fixpoint while {S} (fuel : nat) (cond : S → res bool) (body : S → res S) (s : S)
    : res S :=
  match fuel with
  | O => Spin
  | Datatypes.S f =>
      b ← cond s;
      if (b : bool) then s' ← body s; while f cond body s' else Ok s
  end.

(** Total correctness of a loop: an invariant and a measure below the fuel. *)
Lemma while_total {S} (P : S → Prop) (μ : S → nat) cond body :
  (∀ s, P s → ∃ b, cond s = Ok b ∧
     (b = true → ∃ s', body s = Ok s' ∧ P s' ∧ (μ s' < μ s)%nat)) →
  ∀ fuel s, P s → (μ s < fuel)%nat →
  ∃ s', while fuel cond body s = Ok s' ∧ P s' ∧ cond s' = Ok false.
Proof.
  intros Hstep fuel. induction fuel as [|f IH]; intros s HP Hf; [lia|].
  destruct (Hstep s HP) as (b & Hc & Hb). simpl. rewrite Hc. simpl.
  destruct b; [|by exists s].
  destruct Hb as (s' & -> & HP' & Hlt); [done|]. simpl. apply IH; [done|lia].
Qed.

(** The same with the measure as an index of the invariant. *)
Lemma while_total_ix {S} (P : nat → S → Prop) cond body :
  (∀ n s, P n s → ∃ b, cond s = Ok b ∧
     (b = true → ∃ s' n', body s = Ok s' ∧ P n' s' ∧ (n' < n)%nat)) →
  ∀ fuel n s, P n s → (n < fuel)%nat →
  ∃ s' n', while fuel cond body s = Ok s' ∧ P n' s' ∧ cond s' = Ok false.
Proof.
  intros Hstep fuel. induction fuel as [|f IH]; intros n s HP Hf; [lia|].
  destruct (Hstep n s HP) as (b & Hc & Hb). simpl. rewrite Hc. simpl.
  destruct b; [|by exists s, n].
  destruct Hb as (s' & n' & -> & HP' & Hlt); [done|]. simpl. apply (IH n'); [done|lia].
Qed.

(** Partial correctness. *)
Lemma while_inv {S} (P : S → Prop) cond body fuel s s' :
  (∀ s s', P s → body s = Ok s' → P s') → while fuel cond body s = Ok s' → P s →
  P s' ∧ cond s' = Ok false.
Proof.
  intros Hstep. revert s. induction fuel as [|f IH]; intros s Hw HP; [done|].
  simpl in Hw. apply res_bind_Ok in Hw as (b & Hc & Hw). destruct b.
  - apply res_bind_Ok in Hw as (s1 & Hb & Hw). eapply IH; [exact Hw|]. by eapply Hstep.
  - injection Hw as <-. done.
Qed.

(** A loop that returns does so with any larger fuel, and with the same value. *)
Lemma while_mono {S} f1 f2 cond body (s s' : S) :
  (f1 ≤ f2)%nat → while f1 cond body s = Ok s' → while f2 cond body s = Ok s'.
Proof.
  revert f2 s. induction f1 as [|f1 IH]; intros f2 s Hle H; [done|].
  destruct f2 as [|f2]; [lia|]. simpl in *.
  apply res_bind_Ok in H as (b & -> & H). simpl.
  destruct b; [|done]. apply res_bind_Ok in H as (s1 & -> & H). simpl.
  apply IH; [lia|done].
Qed.

(** A loop whose condition and body keep it going never returns. *)
Lemma while_diverges {S} (P : S → Prop) cond body :
  (∀ s, P s → cond s = Ok true ∧ ∃ s', body s = Ok s' ∧ P s') →
  ∀ fuel s, P s → while fuel cond body s = Spin.
Proof.
  intros Hstep fuel. induction fuel as [|f IH]; intros s HP; [done|].
  destruct (Hstep s HP) as (Hc & s' & Hb & HP'). simpl.
  rewrite Hc. simpl. rewrite Hb. simpl. by apply IH.
Qed.

(** [for (i = a; i < a + k; ++i) body]. *)
Fixpoint for_from {S} (body : Z → S → res S) (k : nat) (i : Z) (s : S) : res S :=
  match k with
  | O => Ok s
  | Datatypes.S k' => s' ← body i s; for_from body k' (i + 1) s'
  end.

(** [for (i = 0; i < n; ++i) body]. *)
Definition for_upto {S} (n : Z) (body : Z → S → res S) (s : S) : res S :=
  for_from body (Z.to_nat n) 0 s.

Lemma for_from_inv {S} (P : Z → S → Prop) body k :
  ∀ i s, P i s →
  (∀ j s, i ≤ j < i + Z.of_nat k → P j s → ∃ s', body j s = Ok s' ∧ P (j + 1) s') →
  ∃ s', for_from body k i s = Ok s' ∧ P (i + Z.of_nat k) s'.
Proof.
  induction k as [|k IH]; intros i s HP Hstep.
  { exists s. split; [done|]. by replace (i + Z.of_nat 0) with i by lia. }
  destruct (Hstep i s) as (s1 & Hb & HP1); [lia|done|]. simpl. rewrite Hb. simpl.
  destruct (IH (i + 1) s1 HP1) as (s' & Hr & HP').
  { intros j t Hj. apply Hstep. lia. }
  exists s'. split; [done|]. by replace (i + Z.of_nat (Datatypes.S k)) with (i + 1 + Z.of_nat k) by lia.
Qed.

Lemma for_upto_inv {S} (P : Z → S → Prop) n body s :
  0 ≤ n → P 0 s →
  (∀ j s, 0 ≤ j < n → P j s → ∃ s', body j s = Ok s' ∧ P (j + 1) s') →
  ∃ s', for_upto n body s = Ok s' ∧ P n s'.
Proof.
  intros Hn HP Hstep. unfold for_upto.
  destruct (for_from_inv P body (Z.to_nat n) 0 s HP) as (s' & Hr & HP').
  { intros j t Hj. apply Hstep. lia. }
  exists s'. split; [done|]. by replace n with (0 + Z.of_nat (Z.to_nat n)) by lia.
Qed.

(** ** Lists *)

Lemma filter_ne_id (l : list Z) (q : Z) : q ∉ l → filter (λ r, r ≠ q) l = l.
Proof.
  induction l as [|x l IH]; intros Hq; [done|].
  apply not_elem_of_cons in Hq as [Hx Hq].
  rewrite filter_cons_True by done. by rewrite IH.
Qed.

(** Removing one element from a duplicate-free list of free frames. *)
Lemma length_filter_ne (l : list Z) (q : Z) :
  NoDup l → (length l ≤ S (length (filter (λ r, r ≠ q) l)))%nat.
Proof.
  induction 1 as [|x l Hx Hnd IH]; [simpl; lia|].
  destruct (decide (x = q)) as [->|Hne].
  - rewrite filter_cons_False by naive_solver. simpl.
    by rewrite filter_ne_id by done.
  - rewrite filter_cons_True by done. simpl. lia.
Qed.

(** One member of a family of lists grows by [e]. *)
Lemma flat_map_update {B} (f g : Z → list B) (l : list Z) p e :
  NoDup l → p ∈ l → (∀ x, x ∈ l → x ≠ p → g x = f x) → g p ≡ₚ f p ++ e →
  flat_map g l ≡ₚ flat_map f l ++ e.
Proof.
  induction l as [|x l IH]; intros Hnd Hin Hsame Hp; [by apply not_elem_of_nil in Hin|].
  apply NoDup_cons in Hnd as [Hx Hnd]. simpl.
  destruct (decide (x = p)) as [->|Hne].
  - assert (Heq : flat_map g l = flat_map f l).
    { clear -Hx Hsame. induction l as [|y l IH]; [done|]. simpl.
      rewrite (Hsame y) by set_solver. f_equal. apply IH; set_solver. }
    rewrite Heq, Hp, <- !app_assoc. f_equiv. by rewrite (Permutation_app_comm e).
  - rewrite IH; [|done|set_solver|set_solver|done].
    rewrite (Hsame x) by set_solver. by rewrite app_assoc.
Qed.

Lemma flat_map_same {B} (f g : Z → list B) (l : list Z) :
  (∀ x, x ∈ l → g x = f x) → flat_map g l = flat_map f l.
Proof.
  induction l as [|x l IH]; intros Hs; [done|]. simpl.
  rewrite (Hs x) by set_solver. f_equal. apply IH. set_solver.
Qed.

Lemma flat_map_NoDup_in {B} (f : Z → list B) (l : list Z) p :
  NoDup (flat_map f l) → p ∈ l → NoDup (f p).
Proof.
  intros Hnd (l1 & l2 & ->)%list_elem_of_split. rewrite flat_map_app in Hnd. simpl in Hnd.
  apply NoDup_app in Hnd as (_ & _ & Hnd). by apply NoDup_app in Hnd as (Hnd & _ & _).
Qed.

Lemma flat_map_NoDup_disj {B} (f : Z → list B) (l : list Z) p q x :
  NoDup (flat_map f l) → p ∈ l → q ∈ l → x ∈ f p → x ∈ f q → p = q.
Proof.
  induction l as [|y l IH]; intros Hnd Hp Hq Hxp Hxq; [by apply not_elem_of_nil in Hp|].
  simpl in Hnd. apply NoDup_app in Hnd as (_ & Hdisj & Hnd).
  assert (Hin : ∀ r, r ∈ l → x ∈ f r → x ∈ flat_map f l).
  { intros r Hr Hx. apply list_elem_of_In, in_flat_map. exists r.
    split; by apply list_elem_of_In. }
  apply elem_of_cons in Hp as [->|Hp], Hq as [->|Hq]; [done| | |by apply IH].
  - exfalso. apply (Hdisj x Hxp). by apply (Hin q).
  - exfalso. apply (Hdisj x Hxq). by apply (Hin p).
Qed.

(** ** Transition systems *)

(** A property of the initial states kept by every step holds in every
    reachable state. *)
Lemma rtc_invariant {S} (R : relation S) (P : S → Prop) s s' :
  (∀ x y, R x y → P x → P y) → rtc R s s' → P s → P s'.
Proof. intros Hstep Hr. induction Hr; eauto. Qed.

(** ** Constants of config.h *)

Definition MAX_CPU : Z := 8.
Definition PAGE_SHIFT : Z := 12.
Definition PAGE_SIZE : Z := Z.shiftl 1 PAGE_SHIFT.
Definition PAGES : Z := Z.shiftl 1 (32 - PAGE_SHIFT).
Definition MAX_PROCESSES : Z := Z.shiftl 1 16.
Definition MAX_PRIORITY : Z := 5.

Lemma PAGE_SIZE_eq : PAGE_SIZE = 4096.
Proof. done. Qed.
