(* ===== verification/Interfaces.v ===== *)
(** What components of the kernel promise to each other.

    [FrameAlloc] is the contract of the page frame allocator that the paging
    code is proved against; Palloc.v discharges it for kernel/palloc.c. *)

From Stdlib Require Import ZArith Lia.
From stdpp Require Import base option list.
From S2P Require Import Prelude.

(** A page frame allocator over states [S]: frames are page numbers, an
    allocation in a good state with a free frame returns the address of a
    frame that was free and takes exactly that frame. *)
Class FrameAlloc (S : Type) := {
  frame_alloc : S → res (Z * S);
  frame_free : S → Z → Prop;
  frame_ok : S → Prop;
  frame_alloc_spec (s : S) (p : Z) :
    frame_ok s → frame_free s p →
    ∃ q s', frame_alloc s = Ok (PAGE_SIZE * q, s') ∧ 0 ≤ q < PAGES ∧
      frame_free s q ∧ frame_ok s' ∧
      (∀ r, frame_free s' r ↔ frame_free s r ∧ r ≠ q)
}.

(** At least [k] frames are free. *)
Definition frames_left {S} `{FrameAlloc S} (k : nat) (s : S) : Prop :=
  ∃ ps : list Z, NoDup ps ∧ (k ≤ length ps)%nat ∧ Forall (frame_free s) ps.

Lemma frames_left_some {S} `{FrameAlloc S} k (s : S) :
  frames_left (Datatypes.S k) s → ∃ p, frame_free s p.
Proof.
  intros (ps & _ & Hlen & Hf). destruct ps as [|p ps]; [simpl in Hlen; lia|].
  exists p. by apply Forall_inv in Hf.
Qed.

Lemma frames_left_take {S} `{FrameAlloc S} k (s s' : S) q :
  frames_left (Datatypes.S k) s → (∀ r, frame_free s' r ↔ frame_free s r ∧ r ≠ q) →
  frames_left k s'.
Proof.
  intros (ps & Hnd & Hlen & Hf) Hr. exists (filter (λ r, r ≠ q) ps).
  split; [by apply NoDup_filter|].
  pose proof (length_filter_ne ps q Hnd). split; [lia|].
  rewrite Forall_forall in *. intros r [Hne Hin]%list_elem_of_filter.
  apply Hr. split; [by apply Hf|done].
Qed.

Lemma frames_left_le {S} `{FrameAlloc S} k k' (s : S) :
  (k' ≤ k)%nat → frames_left k s → frames_left k' s.
Proof. intros Hle (ps & Hnd & Hlen & Hf). exists ps. split; [done|]. split; [lia|done]. Qed.

(** An object allocator ([NEW(type)]: [kmalloc] of the object's size): in a
    good state it returns a non-null address at which no live object is.
    [obj_take] is the state when an object at that address was made by somebody
    else. *)
Class ObjAlloc (A : Type) := {
  obj_new : A → res (Z * A);
  obj_take : Z → A → A;
  obj_live : A → Z → Prop;
  obj_ok : A → Prop;
  obj_new_spec (s : A) :
    obj_ok s →
    ∃ a s', obj_new s = Ok (a, s') ∧ a ≠ 0 ∧ ¬ obj_live s a ∧ obj_ok s' ∧
      (∀ b, obj_live s' b ↔ obj_live s b ∨ b = a);
  obj_take_spec (s : A) (a : Z) :
    obj_ok s → a ≠ 0 → ¬ obj_live s a →
    obj_ok (obj_take a s) ∧ ∀ b, obj_live (obj_take a s) b ↔ obj_live s b ∨ b = a
}.

(** A family of FIFO queues of pointers, indexed by [K], in one memory: what
    the scheduler relies on; [qzero] fills one with zeroes (KList.v discharges it
    for kernel/list.c).  The queues are made of elements; a queue that has a
    spare one ([qspare]) needs no new one for the next push, and a queue that a
    pointer was taken from has one.  [qgive] gives a
    queue an element at an address that the caller got from its own allocator. *)
Class QueueStore (K M : Type) `{EqDecision K} := {
  qpush : K → Z → M → res M;
  qpop : K → M → res (Z * M);
  qzero : K → M → M;
  qspare : K → M → bool;
  qgive : K → Z → M → res M;
  qitems : M → K → list Z;
  qelem : M → Z → Prop;
  qok : M → Prop;
  qpush_spec (k : K) (t : Z) (m : M) :
    qok m → t ≠ 0 → Z.of_nat (length (qitems m k)) + 1 < 2 ^ 31 →
    ∃ m', qpush k t m = Ok m' ∧ qok m' ∧
      ∀ j, qitems m' j = if decide (j = k) then qitems m k ++ [t] else qitems m j;
  qpop_spec (k : K) (m : M) :
    qok m →
    ∃ m', qpop k m = Ok (hd 0 (qitems m k), m') ∧ qok m' ∧
      ∀ j, qitems m' j = if decide (j = k) then tl (qitems m k) else qitems m j;
  qzero_spec (k : K) (m : M) :
    qok m → qok (qzero k m) ∧
      ∀ j, qitems (qzero k m) j = if decide (j = k) then [] else qitems m j;
  qgive_spec (k : K) (a : Z) (m : M) :
    qok m → a ≠ 0 → ¬ qelem m a →
    ∃ m', qgive k a m = Ok m' ∧ qok m' ∧ qspare k m' = true ∧
      (∀ j, qitems m' j = qitems m j) ∧ ∀ b, qelem m' b ↔ qelem m b ∨ b = a;
  qpush_elems (k : K) (t : Z) (m m' : M) :
    qspare k m = true → qpush k t m = Ok m' → ∀ b, qelem m' b ↔ qelem m b;
  qpop_elems (k : K) (t : Z) (m m' : M) :
    qpop k m = Ok (t, m') → ∀ b, qelem m' b ↔ qelem m b;
  qzero_elems (k : K) (m : M) b : qelem (qzero k m) b ↔ qelem m b;
  qpop_spare (k : K) (t : Z) (m m' : M) :
    qpop k m = Ok (t, m') → t ≠ 0 → qspare k m' = true;
  qitems_nonnull (k : K) (m : M) : qok m → Forall (λ t, t ≠ 0) (qitems m k)
}.

(** The end of the kernel's heap: [kbrk1] is [kbrk(1)].  With room for one
    more page it returns the page at the end and moves the end behind it. *)
Class PageSource (B : Type) := {
  kbrk1 : B → res (Z * B);
  brk_at : B → Z;
  brk_room : B → nat → Prop;
  brk_bounds (b : B) (n : nat) :
    brk_room b n →
    0 < brk_at b ∧ brk_at b mod PAGE_SIZE = 0 ∧ brk_at b + PAGE_SIZE * Z.of_nat n < 2 ^ 32;
  kbrk1_spec (b : B) (n : nat) :
    brk_room b (Datatypes.S n) →
    ∃ b', kbrk1 b = Ok (brk_at b, b') ∧ brk_at b' = brk_at b + PAGE_SIZE ∧ brk_room b' n
}.

(** Devices behind ports: [inb] and [outb]. *)
Class Ports (D : Type) := {
  port_read_8 : Z → D → Z * D;
  port_write : Z → Z → D → D
}.
