(* ===== verification/Locks.v ===== *)
(** Spin locks (kernel/locks.c).

    [section_step] is one memory access of a processor that runs
    [section_enter] or [section_leave]; [lock_step] interleaves any number of
    processors on one lock word.  [section_enter] is the call as a single
    processor sees it when nobody else touches the lock: it returns with the
    lock taken or spins for ever; sequential models of the kernel use it. *)

From Stdlib Require Import ZArith Lia.
From stdpp Require Import base option list relations.
From S2P Require Import Prelude.

Module Locks.

(** Where a processor is: not in the section, about to execute the
    compare-and-swap, in the inner spin loop on the lock word, in the section. *)
Inductive pc := Outside | Trying | Waiting | Inside.

#[export] Instance pc_eq_dec : EqDecision pc.
Proof. solve_decision. Defined.

(** [__sync_bool_compare_and_swap(lock, old, new)] on the value [l]. *)
Definition cas (l old new : Z) : bool * Z :=
  if l =? old then (true, new) else (false, l).

Definition section_leave (l : Z) : Z := 0.

(** One memory access of a processor at [p]; [Outside] starts a call of
    [section_enter], [Inside] performs [section_leave]. *)
Definition section_step (l : Z) (p : pc) : Z * pc :=
  match p with
  | Outside => (l, Trying)
  | Trying => let '(ok, l') := cas l 0 1 in (l', if ok then Inside else Waiting)
  | Waiting => (l, if l =? 0 then Trying else Waiting)
  | Inside => (section_leave l, Outside)
  end.

(** [section_enter] run by one processor alone. *)
Fixpoint section_run (fuel : nat) (l : Z) (p : pc) : res Z :=
  match p with
  | Inside => Ok l
  | _ =>
      match fuel with
      | O => Spin
      | S f => let '(l', p') := section_step l p in section_run f l' p'
      end
  end.

Definition enter_fuel : nat := 1.

Definition section_enter (l : Z) : res Z := section_run enter_fuel l Trying.

(** ** Processors sharing a lock *)

Record config := Config { lock : Z; cpus : list pc }.

Definition cpu_step (i : nat) (c : config) : option config :=
  p ← cpus c !! i;
  let '(l, p') := section_step (lock c) p in
  Some (Config l (<[i := p']> (cpus c))).

Definition lock_step (c c' : config) : Prop := ∃ i, cpu_step i c = Some c'.

Definition lock_init (n : nat) : config := Config 0 (replicate n Outside).

(** The lock word says whether the section is occupied, by one processor. *)
Definition lock_inv (c : config) : Prop :=
  (lock c = 0 ∧ ∀ i, cpus c !! i ≠ Some Inside) ∨
  (lock c = 1 ∧ ∃ i, cpus c !! i = Some Inside ∧
     ∀ j, cpus c !! j = Some Inside → j = i).

(** ** Lemmas *)

Lemma section_enter_free : section_enter 0 = Ok 1.
Proof. done. Qed.

Lemma section_run_held fuel l p :
  l ≠ 0 → p ≠ Inside → p ≠ Outside → section_run fuel l p = Spin.
Proof.
  intros Hl. revert p. induction fuel as [|f IH]; intros p Hi Ho.
  { by destruct p. }
  destruct p; try done; simpl; unfold cas.
  - rewrite (proj2 (Z.eqb_neq l 0) Hl). by apply IH.
  - rewrite (proj2 (Z.eqb_neq l 0) Hl). by apply IH.
Qed.

Lemma section_enter_held l : l ≠ 0 → section_enter l = Spin.
Proof. intros. by apply section_run_held. Qed.

Lemma section_enter_Ok l l' : section_enter l = Ok l' → l = 0 ∧ l' = 1.
Proof.
  intros H. destruct (decide (l = 0)) as [->|Hl]; [by injection H|].
  by rewrite section_enter_held in H.
Qed.

Lemma lock_inv_init n : lock_inv (lock_init n).
Proof.
  left. split; [done|]. intros i H. simpl in H.
  apply lookup_replicate in H as [H _]. done.
Qed.

(** A processor that stays out of the section leaves the others alone. *)
Lemma insert_not_inside (ps : list pc) i p q :
  ps !! i = Some p → p ≠ Inside → q ≠ Inside →
  ∀ j, <[i := q]> ps !! j = Some Inside ↔ ps !! j = Some Inside.
Proof.
  intros Hp Hpn Hq j. pose proof (lookup_lt_Some _ _ _ Hp) as Hlt.
  destruct (decide (i = j)) as [<-|].
  - rewrite list_lookup_insert_eq by done. naive_solver.
  - by rewrite list_lookup_insert_ne.
Qed.

Lemma lock_inv_same l ps i p q :
  ps !! i = Some p → p ≠ Inside → q ≠ Inside →
  lock_inv (Config l ps) → lock_inv (Config l (<[i := q]> ps)).
Proof.
  intros Hp Hpn Hq Hinv.
  pose proof (insert_not_inside ps i p q Hp Hpn Hq) as Hiff.
  destruct Hinv as [[Hl Hno]|[Hl (k & Hk & Hu)]]; simpl in *; [left|right].
  - split; [done|]. intros j. simpl. by rewrite Hiff.
  - split; [done|]. exists k. simpl. setoid_rewrite Hiff. done.
Qed.

Lemma lock_inv_step c c' : lock_step c c' → lock_inv c → lock_inv c'.
Proof.
  intros [i Hs] Hinv. destruct c as [l ps]. unfold cpu_step in Hs. simpl in Hs.
  destruct (ps !! i) as [p|] eqn:Hp; [|done]. simpl in Hs.
  pose proof (lookup_lt_Some _ _ _ Hp) as Hlt.
  destruct p; simpl in Hs; unfold cas in Hs.
  - injection Hs as <-. by eapply lock_inv_same.
  - destruct (Z.eqb_spec l 0) as [->|Hl]; injection Hs as <-;
      [|by eapply lock_inv_same].
    destruct Hinv as [[_ Hno]|[? _]]; [|done]. right. split; [done|].
    exists i. simpl. rewrite list_lookup_insert_eq by done. split; [done|].
    intros j Hj. destruct (decide (i = j)); [done|].
    rewrite list_lookup_insert_ne in Hj by done. by destruct (Hno j).
  - injection Hs as <-. destruct (l =? 0); by eapply lock_inv_same.
  - injection Hs as <-. destruct Hinv as [[_ Hno]|[_ (k & Hk & Hu)]].
    { by destruct (Hno i). }
    left. split; [done|]. intros j Hj. simpl in Hj.
    destruct (decide (i = j)) as [<-|].
    { by rewrite list_lookup_insert_eq in Hj. }
    rewrite list_lookup_insert_ne in Hj by done.
    pose proof (Hu i Hp). pose proof (Hu j Hj). congruence.
Qed.

(** ** Properties *)

(** C16. Mutual exclusion of [section_enter] and
    [section_leave]: in every interleaving of any number of processors that
    start outside the section with the lock word 0, at most one is inside at a
    time, and the lock word is 1 exactly while one is. *)
Theorem locks_mutual_exclusion n c :
  rtc lock_step (lock_init n) c →
  (∀ i j, cpus c !! i = Some Inside → cpus c !! j = Some Inside → i = j) ∧
  (lock c = 0 ∨ lock c = 1) ∧
  (lock c = 1 ↔ ∃ i, cpus c !! i = Some Inside).
Proof.
  intros Hr.
  pose proof (rtc_invariant _ _ _ _ lock_inv_step Hr (lock_inv_init n)) as Hi.
  destruct Hi as [[Hl Hno]|[Hl (k & Hk & Hu)]]; rewrite Hl.
  - split; [intros i j Hi; by destruct (Hno i)|].
    split; [by left|]. split; [done|]. intros [i Hi]. by destruct (Hno i).
  - split; [intros i j Hi Hj; by rewrite (Hu i Hi), (Hu j Hj)|].
    split; [by right|]. naive_solver.
Qed.

Lemma locks_mutual_exclusion_witness :
  let c := Config 1 [Inside; Waiting] in
  lock c = 1 ∧ (∀ i j, cpus c !! i = Some Inside → cpus c !! j = Some Inside → i = j).
Proof.
  split; [done|].
  refine (proj1 (locks_mutual_exclusion 2 (Config 1 [Inside; Waiting]) _)).
  eapply rtc_l; [exists 0%nat; reflexivity|].
  eapply rtc_l; [exists 1%nat; reflexivity|].
  eapply rtc_l; [exists 0%nat; reflexivity|].
  eapply rtc_l; [exists 1%nat; reflexivity|].
  apply rtc_refl.
Defined.

End Locks.
