(* ===== verification/Palloc.v ===== *)
(** The page frame allocator (kernel/palloc.c).

    One bit of [memory_map] per page frame, 1 when the frame is free; the word
    after the last entry is a guard that stops the search of
    [mem_phys_alloc].  [page_free] is the abstract state (the set of free
    frames), [pwf] the invariant (the guard is in place, every word has 32
    bits), and the [FrameAlloc] instance at the end is the contract the
    paging code relies on. *)

From Stdlib Require Import ZArith Lia.
From stdpp Require Import base option list gmap.
From S2P Require Import Prelude Locks Interfaces.

Module Palloc.

Definition BITS : Z := 32.
Definition ENTRIES : Z := PAGES / BITS.

Record palloc := Palloc { lock : Z; memory_map : gmap Z Z }.

(** Static storage. *)
Definition palloc0 : palloc := Palloc 0 ∅.

Definition map_get (s : palloc) (i : Z) : res Z :=
  aget 0 (ENTRIES + 1) (memory_map s) i.

Definition map_set (s : palloc) (i v : Z) : res palloc :=
  m ← aset (ENTRIES + 1) (memory_map s) i v; mret (Palloc (lock s) m).

Definition mem_phys_init (s : palloc) : res palloc :=
  map_set s ENTRIES 0xFFFFFFFF.

Definition mem_phys_free (addr : Z) (s : palloc) : res palloc :=
  let page := addr / PAGE_SIZE in
  let id := page / BITS in
  let bit := page mod BITS in
  w ← map_get s id;
  map_set s id (Z.lor w (u32 (Z.shiftl 1 bit))).

Definition mem_phys_reserve (addr : Z) (s : palloc) : res palloc :=
  let page := addr / PAGE_SIZE in
  let id := page / BITS in
  let bit := page mod BITS in
  w ← map_get s id;
  map_set s id (Z.land w (u32 (Z.lnot (Z.shiftl 1 bit)))).

(** [while (!memory_map[i]) ++i;] *)
Definition scan_words (s : palloc) : res Z :=
  while (Z.to_nat (ENTRIES + 1))
    (λ i, w ← map_get s i; Ok (w =? 0))
    (λ i, Ok (u32 (i + 1))) 0.

(** [while (tmp % 2 == 0) { tmp >>= 1; ++bit; }] *)
Definition scan_bits (tmp : Z) : res (Z * Z) :=
  while 32
    (λ '(tmp, bit), Ok (tmp mod 2 =? 0))
    (λ '(tmp, bit), Ok (Z.shiftr tmp 1, u8 (bit + 1))) (tmp, 0).

Definition mem_phys_alloc (s : palloc) : res (Z * palloc) :=
  l ← Locks.section_enter (lock s);
  let s := Palloc l (memory_map s) in
  i ← scan_words s;
  if i =? ENTRIES then Ok (0xDEADC0DE, s)
  else
    tmp ← map_get s i;
    '(_, bit) ← scan_bits tmp;
    let addr := u32 (PAGE_SIZE * u32 (u32 (BITS * i) + bit)) in
    s ← mem_phys_reserve addr s;
    let tmp := u32 (PAGE_SIZE * u32 (u32 (BITS * i) + bit)) in
    Ok (tmp, Palloc (Locks.section_leave (lock s)) (memory_map s)).

Definition mem_phys_free_range (addr pages : Z) (s : palloc) : res palloc :=
  for_upto pages (λ i, mem_phys_free (u32 (addr + u32 (PAGE_SIZE * i)))) s.

Definition mem_phys_reserve_range (addr pages : Z) (s : palloc) : res palloc :=
  for_upto pages (λ i, mem_phys_reserve (u32 (addr + u32 (PAGE_SIZE * i)))) s.

(** ** Abstract state and invariant *)

(** Frame [p] is free. *)
Definition page_free (s : palloc) (p : Z) : Prop :=
  0 ≤ p < PAGES ∧ Z.testbit (arr 0 (memory_map s) (p / BITS)) (p mod BITS) = true.

(** Every word is a 32-bit value and the guard is in place. *)
Definition pwf (s : palloc) : Prop :=
  (∀ i, 0 ≤ arr 0 (memory_map s) i < 2 ^ 32) ∧
  arr 0 (memory_map s) ENTRIES = 0xFFFFFFFF.

(** [k] allocations one after the other. *)
Fixpoint alloc_many (k : nat) (s : palloc) : res (list Z * palloc) :=
  match k with
  | O => Ok ([], s)
  | S k' =>
      '(a, s) ← mem_phys_alloc s;
      '(l, s) ← alloc_many k' s;
      Ok (a :: l, s)
  end.

(** ** Lemmas *)

#[local] Instance page_free_dec s p : Decision (page_free s p).
Proof. unfold page_free. apply _. Defined.

Lemma ENTRIES_eq : ENTRIES = 32768.
Proof. done. Qed.
Lemma PAGES_eq : PAGES = 1048576.
Proof. done. Qed.
Lemma BITS_eq : BITS = 32.
Proof. done. Qed.

Ltac pconst :=
  rewrite ?ENTRIES_eq, ?PAGES_eq, ?BITS_eq, ?PAGE_SIZE_eq in *.

Lemma page_index addr :
  0 ≤ addr < 2 ^ 32 →
  0 ≤ addr / PAGE_SIZE < PAGES ∧ 0 ≤ addr / PAGE_SIZE / BITS < ENTRIES ∧
  0 ≤ (addr / PAGE_SIZE) mod BITS < 32.
Proof. intros H. pconst. dlia. Qed.

Lemma map_get_in s i :
  0 ≤ i ≤ ENTRIES → map_get s i = Ok (arr 0 (memory_map s) i).
Proof. intros. apply aget_in. lia. Qed.

Lemma map_set_in s i v :
  0 ≤ i ≤ ENTRIES → map_set s i v = Ok (Palloc (lock s) (<[i := v]> (memory_map s))).
Proof. intros. unfold map_set. by rewrite aset_in by lia. Qed.

(** Writing the word of a frame, below the guard. *)
Lemma pwf_insert l m i v :
  pwf (Palloc l m) → 0 ≤ i < ENTRIES → 0 ≤ v < 2 ^ 32 →
  pwf (Palloc l (<[i := v]> m)).
Proof.
  intros [Hw Hg] Hi Hv. split; simpl in *.
  - intros j. rewrite arr_insert. by case_decide.
  - rewrite arr_insert_ne by lia. done.
Qed.

Lemma mem_phys_free_ok addr s :
  0 ≤ addr < 2 ^ 32 → pwf s →
  ∃ s', mem_phys_free addr s = Ok s' ∧ pwf s' ∧ lock s' = lock s ∧
    ∀ p, page_free s' p ↔ page_free s p ∨ p = addr / PAGE_SIZE.
Proof.
  intros Ha Hwf. destruct (page_index addr Ha) as (Hp & Hid & Hb).
  unfold mem_phys_free. rewrite map_get_in by lia. simpl.
  rewrite map_set_in by lia. eexists. split; [done|].
  split; [|split; [done|]].
  - destruct s as [l m]. apply pwf_insert; [done|lia|].
    apply lor_bound; [lia|apply Hwf|apply u32_range].
  - intros p. unfold page_free. simpl. rewrite arr_insert.
    case_decide as Hd; [rewrite set_bit_spec, orb_true_iff, bool_decide_eq_true|];
      pconst; intuition (subst; dlia || congruence).
Qed.

Lemma mem_phys_reserve_ok addr s :
  0 ≤ addr < 2 ^ 32 → pwf s →
  ∃ s', mem_phys_reserve addr s = Ok s' ∧ pwf s' ∧ lock s' = lock s ∧
    ∀ p, page_free s' p ↔ page_free s p ∧ p ≠ addr / PAGE_SIZE.
Proof.
  intros Ha Hwf. destruct (page_index addr Ha) as (Hp & Hid & Hb).
  unfold mem_phys_reserve. rewrite map_get_in by lia. simpl.
  rewrite map_set_in by lia. eexists. split; [done|].
  split; [|split; [done|]].
  - destruct s as [l m]. apply pwf_insert; [done|lia|].
    apply land_bound; [lia|apply Hwf|apply u32_range].
  - intros p. unfold page_free. simpl. rewrite arr_insert.
    pose proof (proj1 Hwf (addr / PAGE_SIZE / BITS)) as Hw.
    case_decide as Hd;
      [rewrite clear_bit_spec, andb_true_iff, negb_true_iff, bool_decide_eq_false|];
      pconst; intuition (subst; dlia || congruence).
Qed.

(** The guard stops the search at the first non-zero word. *)
Lemma scan_words_ok s :
  pwf s →
  ∃ i, scan_words s = Ok i ∧ 0 ≤ i ≤ ENTRIES ∧
    arr 0 (memory_map s) i ≠ 0 ∧ ∀ j, 0 ≤ j < i → arr 0 (memory_map s) j = 0.
Proof.
  intros [Hw Hg]. unfold scan_words.
  destruct (while_total
    (λ i, 0 ≤ i ≤ ENTRIES ∧ ∀ j, 0 ≤ j < i → arr 0 (memory_map s) j = 0)
    (λ i, Z.to_nat (ENTRIES - i))
    (λ i, w ← map_get s i; Ok (w =? 0)) (λ i, Ok (u32 (i + 1))))
    with (fuel := Z.to_nat (ENTRIES + 1)) (s := 0) as (i & Hr & [Hi Hz] & Hc).
  - intros i [Hi Hz]. rewrite map_get_in by lia. simpl. eexists. split; [done|].
    intros He%Z.eqb_eq. assert (i ≠ ENTRIES) by (intros ->; congruence).
    rewrite u32_small by (pconst; lia). eexists. split; [done|].
    split; [|lia]. split; [lia|]. intros j Hj.
    destruct (decide (j = i)) as [->|]; [done|]. apply Hz. lia.
  - pconst. split; lia.
  - pconst. lia.
  - exists i. split; [done|]. rewrite map_get_in in Hc by lia. simpl in Hc.
    injection Hc as Hc%Z.eqb_neq. done.
Qed.

(** The lowest set bit of a non-zero 32-bit word. *)
Lemma scan_bits_ok w :
  0 < w < 2 ^ 32 →
  ∃ t b, scan_bits w = Ok (t, b) ∧ 0 ≤ b < 32 ∧ Z.testbit w b = true ∧
    ∀ j, 0 ≤ j < b → Z.testbit w j = false.
Proof.
  intros Hw. unfold scan_bits.
  destruct (while_total
    (λ '(t, b), 0 ≤ b < 32 ∧ t = Z.shiftr w b ∧ ∀ j, 0 ≤ j < b → Z.testbit w j = false)
    (λ '(t, b), Z.to_nat (31 - b))
    (λ '(tmp, bit), Ok (tmp mod 2 =? 0))
    (λ '(tmp, bit), Ok (Z.shiftr tmp 1, u8 (bit + 1))))
    with (fuel := 32%nat) (s := (w, 0)) as ([t b] & Hr & (Hb & -> & Hz) & Hc).
  - intros [t b] (Hb & -> & Hz). eexists. split; [done|].
    intros He%Z.eqb_eq. rewrite Zmod_even in He.
    assert (Hbit : Z.testbit w b = false).
    { destruct (Z.even (Z.shiftr w b)) eqn:Hev; [|done].
      rewrite <- (Z.add_0_l b), <- Z.shiftr_spec, Z.bit0_odd, <- Z.negb_even, Hev by lia.
      done. }
    assert (b ≠ 31).
    { intros ->. assert (w = 0); [|lia]. apply Z.bits_inj_0. intros i.
      destruct (decide (i < 0)); [by rewrite Z.testbit_neg_r|].
      destruct (decide (i < 31)); [apply Hz; lia|].
      destruct (decide (i = 31)) as [->|]; [done|]. apply (bits_high w 32); lia. }
    rewrite u8_small by lia. eexists. split; [done|]. split; [|lia].
    split; [lia|]. split; [by rewrite Z.shiftr_shiftr by lia|].
    intros j Hj. destruct (decide (j = b)) as [->|]; [done|]. apply Hz. lia.
  - split; [lia|]. split; [by rewrite Z.shiftr_0_r|]. lia.
  - lia.
  - exists (Z.shiftr w b), b. split; [done|]. split; [done|]. split; [|done].
    injection Hc as Hc%Z.eqb_neq. rewrite Zmod_even in Hc.
    destruct (Z.even (Z.shiftr w b)) eqn:Hev; [done|].
    rewrite <- (Z.add_0_l b), <- Z.shiftr_spec, Z.bit0_odd, <- Z.negb_even, Hev by lia.
    done.
Qed.

(** [mem_phys_alloc] on a good allocator whose lock is free. *)
Lemma mem_phys_alloc_some s p :
  pwf s → lock s = 0 → page_free s p →
  ∃ q s', mem_phys_alloc s = Ok (PAGE_SIZE * q, s') ∧ 0 ≤ q < PAGES ∧
    page_free s q ∧ (∀ r, page_free s r → q ≤ r) ∧ pwf s' ∧ lock s' = 0 ∧
    (∀ r, page_free s' r ↔ page_free s r ∧ r ≠ q).
Proof.
  intros Hwf Hl [Hp Hbit]. destruct s as [l m]. simpl in *. subst l.
  set (s1 := Palloc 1 m). assert (Hwf1 : pwf s1) by exact Hwf.
  destruct (scan_words_ok s1 Hwf1) as (i & Hi & Hir & Hnz & Hz). simpl in Hnz, Hz.
  assert (i ≤ p / BITS) as Hle.
  { destruct (decide (i ≤ p / BITS)); [done|]. rewrite Hz in Hbit; [|pconst; dlia].
    by rewrite Z.bits_0 in Hbit. }
  assert (i < ENTRIES) as Hlt by (pconst; dlia).
  pose proof (proj1 Hwf i) as Hw. simpl in Hw.
  destruct (scan_bits_ok (arr 0 m i)) as (t & b & Hs & Hb & Hbb & Hbz); [lia|].
  set (q := BITS * i + b).
  assert (Hq : 0 ≤ q < PAGES) by (subst q; pconst; lia).
  assert (Hqi : q / BITS = i ∧ q mod BITS = b) by (subst q; pconst; dlia).
  destruct Hqi as [Hqi Hqb].
  assert (Haddr : u32 (PAGE_SIZE * u32 (u32 (BITS * i) + b)) = PAGE_SIZE * q).
  { subst q. pconst. rewrite (u32_small (32 * i)), (u32_small (32 * i + b)), u32_small by lia.
    done. }
  destruct (mem_phys_reserve_ok (PAGE_SIZE * q) s1) as (s2 & Hres & Hwf2 & Hl2 & Hfree);
    [pconst; lia|done|].
  assert (Hdiv : PAGE_SIZE * q / PAGE_SIZE = q) by (pconst; dlia).
  rewrite Hdiv in Hfree.
  exists q, (Palloc 0 (memory_map s2)).
  split.
  { unfold mem_phys_alloc. cbn [lock]. rewrite Locks.section_enter_free. simpl. fold s1.
    rewrite Hi. simpl. rewrite (proj2 (Z.eqb_neq i ENTRIES)) by lia.
    rewrite map_get_in by lia. simpl. rewrite Hs. simpl. rewrite Haddr, Hres. done. }
  split; [done|]. split; [split; [done|]; by rewrite Hqi, Hqb|].
  split; [|split; [exact Hwf2|split; [done|exact Hfree]]].
  intros r [Hr Hrb]. simpl in Hrb.
  destruct (decide (r / BITS < i)).
  { rewrite Hz, Z.bits_0 in Hrb by (pconst; dlia). done. }
  destruct (decide (r / BITS = i)) as [He|]; [|subst q; pconst; dlia].
  destruct (decide (r mod BITS < b)); [|subst q; pconst; dlia].
  rewrite He, Hbz in Hrb by (pconst; dlia). done.
Qed.

Lemma mem_phys_alloc_none s :
  pwf s → lock s = 0 → (∀ p, ¬ page_free s p) →
  mem_phys_alloc s = Ok (0xDEADC0DE, Palloc 1 (memory_map s)).
Proof.
  intros Hwf Hl Hno. destruct s as [l m]. simpl in *. subst l.
  unfold mem_phys_alloc. cbn [lock]. rewrite Locks.section_enter_free. simpl.
  destruct (scan_words_ok (Palloc 1 m) Hwf) as (i & -> & Hir & Hnz & Hz). simpl in *.
  destruct (Z.eqb_spec i ENTRIES) as [|Hne]; [done|].
  pose proof (proj1 Hwf i) as Hw. simpl in Hw.
  destruct (scan_bits_ok (arr 0 m i)) as (t & b & _ & Hb & Hbb & _); [lia|].
  destruct (Hno (BITS * i + b)). split; [pconst; lia|]. simpl.
  replace ((BITS * i + b) / BITS) with i by (pconst; dlia).
  replace ((BITS * i + b) mod BITS) with b by (pconst; dlia). done.
Qed.

(** The ranges: frame numbers [u32 (addr + 4096 * i) / 4096] for [i < pages]. *)
Definition in_range (addr pages p : Z) : Prop :=
  ∃ i, 0 ≤ i < pages ∧ p = u32 (addr + u32 (PAGE_SIZE * i)) / PAGE_SIZE.

Lemma in_range_succ addr n p :
  0 ≤ n →
  in_range addr (n + 1) p ↔
  in_range addr n p ∨ p = u32 (addr + u32 (PAGE_SIZE * n)) / PAGE_SIZE.
Proof.
  intros Hn. split.
  - intros (i & Hi & ->). destruct (decide (i = n)) as [->|]; [by right|].
    left. exists i. split; [lia|done].
  - intros [(i & Hi & ->)| ->]; [exists i; split; [lia|done]|].
    exists n. split; [lia|done].
Qed.

Lemma in_range_0 addr p : ¬ in_range addr 0 p.
Proof. intros (i & Hi & _). lia. Qed.

(** Without wrap-around the range is an interval. *)
Lemma in_range_interval addr pages p :
  0 ≤ addr → 0 ≤ pages → addr + PAGE_SIZE * pages ≤ 2 ^ 32 →
  in_range addr pages p ↔ addr / PAGE_SIZE ≤ p < addr / PAGE_SIZE + pages.
Proof.
  intros Ha Hn Hb. unfold in_range. pconst. split.
  - intros (i & Hi & ->). rewrite u32_add_r, u32_small by lia. dlia.
  - intros Hp. exists (p - addr / 4096). split; [lia|].
    rewrite u32_add_r, u32_small by dlia. dlia.
Qed.

Lemma mem_phys_free_range_ok addr pages s :
  0 ≤ pages → pwf s →
  ∃ s', mem_phys_free_range addr pages s = Ok s' ∧ pwf s' ∧ lock s' = lock s ∧
    ∀ p, page_free s' p ↔ page_free s p ∨ in_range addr pages p.
Proof.
  intros Hn Hwf. unfold mem_phys_free_range.
  destruct (for_upto_inv (λ i t, 0 ≤ i ∧ pwf t ∧ lock t = lock s ∧
      ∀ p, page_free t p ↔ page_free s p ∨ in_range addr i p)
    pages (λ i, mem_phys_free (u32 (addr + u32 (PAGE_SIZE * i)))) s)
    as (s' & Hr & _ & Hw & Hl & Hp); [done|..].
  - split; [lia|]. split; [done|]. split; [done|]. intros p.
    pose proof (in_range_0 addr p). tauto.
  - intros i t Hi (_ & Hwt & Hlt & Hpt).
    destruct (mem_phys_free_ok (u32 (addr + u32 (PAGE_SIZE * i))) t)
      as (t' & Hf & Hw' & Hl' & Hp'); [apply u32_range|done|].
    exists t'. split; [done|]. split; [lia|]. split; [done|]. split; [congruence|].
    intros p. rewrite in_range_succ by lia. specialize (Hp' p). specialize (Hpt p). tauto.
  - by exists s'.
Qed.

Lemma mem_phys_reserve_range_ok addr pages s :
  0 ≤ pages → pwf s →
  ∃ s', mem_phys_reserve_range addr pages s = Ok s' ∧ pwf s' ∧ lock s' = lock s ∧
    ∀ p, page_free s' p ↔ page_free s p ∧ ¬ in_range addr pages p.
Proof.
  intros Hn Hwf. unfold mem_phys_reserve_range.
  destruct (for_upto_inv (λ i t, 0 ≤ i ∧ pwf t ∧ lock t = lock s ∧
      ∀ p, page_free t p ↔ page_free s p ∧ ¬ in_range addr i p)
    pages (λ i, mem_phys_reserve (u32 (addr + u32 (PAGE_SIZE * i)))) s)
    as (s' & Hr & _ & Hw & Hl & Hp); [done|..].
  - split; [lia|]. split; [done|]. split; [done|]. intros p.
    pose proof (in_range_0 addr p). tauto.
  - intros i t Hi (_ & Hwt & Hlt & Hpt).
    destruct (mem_phys_reserve_ok (u32 (addr + u32 (PAGE_SIZE * i))) t)
      as (t' & Hf & Hw' & Hl' & Hp'); [apply u32_range|done|].
    exists t'. split; [done|]. split; [lia|]. split; [done|]. split; [congruence|].
    intros p. rewrite in_range_succ by lia. specialize (Hp' p). specialize (Hpt p). tauto.
  - by exists s'.
Qed.

(** The contract of Interfaces.v. *)
Definition palloc_ok (s : palloc) : Prop := pwf s ∧ lock s = 0.

#[global] Instance palloc_frames : FrameAlloc palloc.
Proof.
  refine {| frame_alloc := mem_phys_alloc; frame_free := page_free;
            frame_ok := palloc_ok |}.
  intros s p [Hwf Hl] Hp.
  destruct (mem_phys_alloc_some s p Hwf Hl Hp)
    as (q & s' & Ha & Hq & Hf & _ & Hwf' & Hl' & Hr).
  by exists q, s'.
Defined.

(** The allocator after [mem_phys_init] has no free frame. *)
Definition booted : palloc := Palloc 0 (<[ENTRIES := 0xFFFFFFFF]> ∅).

Lemma booted_init : mem_phys_init palloc0 = Ok booted.
Proof. reflexivity. Qed.

Lemma booted_wf : pwf booted.
Proof.
  split; [|done]. intros i. simpl. rewrite arr_insert. case_decide; [|rewrite arr_empty]; lia.
Qed.

Lemma booted_none p : ¬ page_free booted p.
Proof.
  intros [Hp Hb]. simpl in Hb.
  rewrite arr_insert_ne, arr_empty, Z.bits_0 in Hb by (pconst; dlia). done.
Qed.

Lemma alloc_many_ok k : ∀ s,
  palloc_ok s → frames_left k s →
  ∃ qs s', alloc_many k s = Ok (map (Z.mul PAGE_SIZE) qs, s') ∧ palloc_ok s' ∧
    length qs = k ∧ NoDup qs ∧ Forall (page_free s) qs ∧
    (∀ r, page_free s' r ↔ page_free s r ∧ r ∉ qs).
Proof.
  induction k as [|k IH]; intros s Hok Hleft.
  { exists [], s. split; [done|]. split; [done|]. split; [done|].
    split; [constructor|]. split; [constructor|]. set_solver. }
  assert (Hok' : frame_ok s) by exact Hok.
  destruct (frames_left_some k s Hleft) as [p Hp].
  destruct (frame_alloc_spec s p Hok' Hp) as (q & s1 & Ha & Hq & Hqf & Hok1 & Hr).
  destruct (IH s1 Hok1 (frames_left_take k s s1 q Hleft Hr))
    as (qs & s' & Hm & Hok2 & Hl & Hnd' & Hf' & Hr').
  exists (q :: qs), s'. split.
  { simpl in Ha. simpl. rewrite Ha. simpl. rewrite Hm. done. }
  split; [done|]. split; [simpl; lia|]. rewrite Forall_forall in Hf'.
  split; [constructor; [|done]; intros Hin%Hf'%Hr; tauto|].
  split; [constructor; [done|]; apply Forall_forall; intros r Hin%Hf'%Hr; tauto|].
  intros r. rewrite Hr', not_elem_of_cons. specialize (Hr r). simpl in Hr. tauto.
Qed.

(** Two free frames, 5 and 37. *)
Definition two_frames : palloc :=
  Palloc 0 (<[0 := 32]> (<[1 := 32]> (memory_map booted))).

Lemma two_frames_ok : palloc_ok two_frames.
Proof.
  split; [|done].
  apply (pwf_insert 0 (<[1 := 32]> (memory_map booted))); [|by vm_compute|by vm_compute].
  apply pwf_insert; [apply booted_wf|by vm_compute|by vm_compute].
Qed.

Lemma two_frames_free : page_free two_frames 37 ∧ page_free two_frames 5.
Proof. by vm_compute. Qed.

(** The frames of one word of the map. *)
Definition word_frames (w : Z) : palloc := Palloc 0 (<[0 := w]> (memory_map booted)).

Lemma word_frames_ok w : 0 ≤ w < 2 ^ 32 → palloc_ok (word_frames w).
Proof.
  intros Hw. split; [|reflexivity].
  apply pwf_insert; [apply booted_wf|clear Hw; by vm_compute|exact Hw].
Qed.

(** Three free frames, 5, 6 and 7. *)
Definition three_frames : palloc := word_frames 0xE0.

Lemma three_frames_ok : palloc_ok three_frames.
Proof. apply word_frames_ok. split; [discriminate|reflexivity]. Qed.

Lemma three_frames_left : frames_left 3 three_frames.
Proof.
  exists [5; 6; 7]. split; [apply (bool_decide_unpack _); by vm_compute|].
  split; [done|]. repeat constructor; by vm_compute.
Qed.

(** ** Properties *)

(** C28. [mem_phys_alloc] finds a free frame whenever there is one: with the
    lock free it returns the address of the lowest free frame, marks exactly
    that frame as used, keeps the guard and the word sizes and releases the
    lock. *)
Theorem mem_phys_alloc_lowest s p :
  pwf s → lock s = 0 → page_free s p →
  ∃ q s', mem_phys_alloc s = Ok (PAGE_SIZE * q, s') ∧ 0 ≤ q < PAGES ∧
    page_free s q ∧ (∀ r, page_free s r → q ≤ r) ∧ pwf s' ∧ lock s' = 0 ∧
    (∀ r, page_free s' r ↔ page_free s r ∧ r ≠ q).
Proof. apply mem_phys_alloc_some. Qed.

Lemma mem_phys_alloc_lowest_witness :
  mem_phys_alloc two_frames
    = Ok (5 * 4096, Palloc 0 (<[0 := 0]> (memory_map two_frames))) ∧
  ∃ q s', mem_phys_alloc two_frames = Ok (PAGE_SIZE * q, s') ∧ lock s' = 0.
Proof.
  split; [by vm_compute|].
  destruct (mem_phys_alloc_lowest two_frames 37 (proj1 two_frames_ok) eq_refl
    (proj1 two_frames_free)) as (q & s' & H & _ & _ & _ & _ & Hl & _).
  exists q, s'. exact (conj H Hl).
Defined.

(** When no frame is free, [mem_phys_alloc] returns 0xDEADC0DE without
    releasing its lock, and every later call spins for ever. *)
Theorem mem_phys_alloc_exhausted s :
  pwf s → lock s = 0 → (∀ p, ¬ page_free s p) →
  ∃ s', mem_phys_alloc s = Ok (0xDEADC0DE, s') ∧ lock s' = 1 ∧
    mem_phys_alloc s' = Spin ∧
    ∀ fuel, Locks.section_run fuel (lock s') Locks.Trying = Spin.
Proof.
  intros Hwf Hl Hno. exists (Palloc 1 (memory_map s)).
  split; [by apply mem_phys_alloc_none|]. split; [done|]. split.
  - unfold mem_phys_alloc. cbn [lock].
    by rewrite Locks.section_enter_held by done.
  - intros fuel. by apply Locks.section_run_held.
Qed.

Lemma mem_phys_alloc_exhausted_witness :
  pwf booted ∧
  ∃ s', mem_phys_alloc booted = Ok (0xDEADC0DE, s') ∧ mem_phys_alloc s' = Spin.
Proof.
  split; [apply booted_wf|].
  destruct (mem_phys_alloc_exhausted booted booted_wf eq_refl booted_none)
    as (s' & H & _ & Hs & _).
  exact (ex_intro _ s' (conj H Hs)).
Defined.

(** [k] allocations in a row from an allocator with at least [k] free
    frames all succeed and return the addresses of [k] different frames that
    were free; afterwards exactly these frames are no longer free. *)
Theorem mem_phys_alloc_distinct k s :
  palloc_ok s → frames_left k s →
  ∃ qs s', alloc_many k s = Ok (map (Z.mul PAGE_SIZE) qs, s') ∧ palloc_ok s' ∧
    length qs = k ∧ NoDup qs ∧ Forall (page_free s) qs ∧
    (∀ r, page_free s' r ↔ page_free s r ∧ r ∉ qs).
Proof. apply alloc_many_ok. Qed.

Lemma mem_phys_alloc_distinct_witness :
  ∃ qs s', alloc_many 2 two_frames = Ok (map (Z.mul PAGE_SIZE) qs, s') ∧ NoDup qs.
Proof.
  destruct (mem_phys_alloc_distinct 2 two_frames)
    as (qs & s' & H & _ & _ & Hnd & _).
  - apply two_frames_ok.
  - exists [5; 37]. split; [apply (bool_decide_unpack _); by vm_compute|].
    split; [done|]. repeat constructor; by vm_compute.
  - exists qs, s'. exact (conj H Hnd).
Defined.

(** [mem_phys_free_range] and [mem_phys_reserve_range] change exactly
    the frames of the range: freeing adds the frames of the (32-bit,
    wrapping) addresses [addr + PAGE_SIZE * i] to the free ones, reserving
    removes them, every other frame, the guard and the lock stay as they
    are; a range that does not wrap is the interval of [pages] frames
    starting at that of [addr]. *)
Theorem mem_phys_ranges addr pages s :
  0 ≤ addr → 0 ≤ pages → pwf s →
  (∃ s', mem_phys_free_range addr pages s = Ok s' ∧ pwf s' ∧ lock s' = lock s ∧
     ∀ p, page_free s' p ↔ page_free s p ∨ in_range addr pages p) ∧
  (∃ s', mem_phys_reserve_range addr pages s = Ok s' ∧ pwf s' ∧ lock s' = lock s ∧
     ∀ p, page_free s' p ↔ page_free s p ∧ ¬ in_range addr pages p) ∧
  (addr + PAGE_SIZE * pages ≤ 2 ^ 32 → ∀ p,
     in_range addr pages p ↔ addr / PAGE_SIZE ≤ p < addr / PAGE_SIZE + pages).
Proof.
  intros Ha Hn Hwf. split; [by apply mem_phys_free_range_ok|].
  split; [by apply mem_phys_reserve_range_ok|].
  intros Hb p. by apply in_range_interval.
Qed.

Lemma mem_phys_ranges_witness :
  (∃ s', mem_phys_free_range 0x5000 3 booted = Ok s' ∧
     ∀ p, page_free s' p ↔ page_free booted p ∨ in_range 0x5000 3 p) ∧
  in_range 0x5000 3 7 ∧ ¬ in_range 0x5000 3 8.
Proof.
  destruct (mem_phys_ranges 0x5000 3 booted) as ((s' & H & _ & _ & Hp) & _ & Hi);
    [lia|lia|apply booted_wf|].
  split; [exact (ex_intro _ s' (conj H Hp))|].
  rewrite !Hi by done. change (0x5000 / PAGE_SIZE) with 5. lia.
Defined.

End Palloc.
