(* ===== verification/Util.v ===== *)
(** Memory and string routines (kernel/util.c).

    The routines work on a memory with a byte store and a byte load; the
    fill loops are generic in the store, because the paging code runs
    [kmemset32] on virtual addresses. *)

From Stdlib Require Import ZArith Lia.
From stdpp Require Import base option list gmap.
From S2P Require Import Prelude.

Module Util.

(** [KMEMSET_IMPL(name, type)]: [while(count--) *tmp++ = value;] with
    [size = sizeof(type)]. *)
Fixpoint kmemset_loop {S} (store : Z → Z → S → res S) (size : Z)
    (count : nat) (tmp value : Z) (s : S) : res S :=
  match count with
  | O => Ok s
  | Datatypes.S c =>
      s ← store tmp value s;
      kmemset_loop store size c (u32 (tmp + size)) value s
  end.

Definition KMEMSET_IMPL {S} (store : Z → Z → S → res S) (size : Z)
    (ptr value count : Z) (s : S) : res (Z * S) :=
  s ← kmemset_loop store size (Z.to_nat count) ptr value s; Ok (ptr, s).

Lemma kmemset_loop_inv {S} (P : Z → S → Prop) store size value count :
  ∀ i tmp (s : S), 0 ≤ tmp → 0 ≤ size →
  tmp + size * Z.of_nat count ≤ 2 ^ 32 → P i s →
  (∀ j t, i ≤ j < i + Z.of_nat count → P j t →
     ∃ t', store (u32 (tmp + size * (j - i))) value t = Ok t' ∧ P (j + 1) t') →
  0 ≤ tmp < 2 ^ 32 →
  ∃ s', kmemset_loop store size count tmp value s = Ok s' ∧ P (i + Z.of_nat count) s'.
Proof.
  induction count as [|c IH]; intros i tmp s Ht Hsz Hb HP Hstep Htb.
  { exists s. split; [done|]. by replace (i + Z.of_nat 0) with i by lia. }
  destruct (Hstep i s) as (s1 & Hs & HP1); [lia|done|].
  replace (tmp + size * (i - i)) with tmp in Hs by lia.
  rewrite u32_small in Hs by lia. simpl. rewrite Hs. simpl.
  destruct c as [|c].
  { exists s1. split; [done|]. by replace (i + Z.of_nat 1) with (i + 1) by lia. }
  destruct (decide (tmp + size < 2 ^ 32)) as [Hlt|]; [|nia].
  rewrite u32_small by lia.
  destruct (IH (i + 1) (tmp + size) s1) as (s' & Hr & HP'); [lia|lia|nia|done| |lia|].
  { intros j t Hj HPt. replace (tmp + size + size * (j - (i + 1)))
      with (tmp + size * (j - i)) by lia. apply Hstep; [lia|done]. }
  exists s'. split; [done|].
  by replace (i + Z.of_nat (Datatypes.S (Datatypes.S c)))
    with (i + 1 + Z.of_nat (Datatypes.S c)) by lia.
Qed.

End Util.
