(* ===== verification/Strings.v ===== *)
(** Strings and formatted output (kernel/util.c).

    Memory is a partial map of bytes: an access outside it is a [Fault].
    [cstr m p s] says that the zero-terminated string [s] is at [p].  The
    variable arguments of [kprintf] are the list of the words that follow the
    format pointer on the stack.  Loops over strings run with fuel. *)

From Stdlib Require Import ZArith Lia.
From stdpp Require Import base option list gmap.
From S2P Require Import Prelude Util.

Module Strings.

Notation mem8 := (gmap Z Z).

Definition load8 (a : Z) (m : mem8) : res Z :=
  match m !! a with Some v => Ok v | None => Fault end.

Definition store8 (a v : Z) (m : mem8) : res mem8 :=
  match m !! a with Some _ => Ok (<[a := u8 v]> m) | None => Fault end.

(** ** Comparison *)

(** [while((STAR str1 == STAR str2) && STAR str1 && STAR str2)] *)
Definition both_cond (m : mem8) (s : Z * Z) : res bool :=
  let '(p, q) := s in
  a ← load8 p m; b ← load8 q m;
  Ok (bool_decide (a = b) && negb (bool_decide (a = 0)) && negb (bool_decide (b = 0))).

Definition both_step (s : Z * Z) : res (Z * Z) := let '(p, q) := s in Ok (p + 1, q + 1).

Definition kstrcmp (fuel : nat) (m : mem8) (str1 str2 : Z) : res Z :=
  '(str1, str2) ← while fuel (both_cond m) both_step (str1, str2);
  a ← load8 str1 m; b ← load8 str2 m;
  if bool_decide (a = b) then Ok 0 else if s8 a <? s8 b then Ok (-1) else Ok 1.

Definition ksubstr (fuel : nat) (m : mem8) (str1 str2 : Z) : res Z :=
  '(str1, str2) ← while fuel (both_cond m) both_step (str1, str2);
  a ← load8 str1 m; b ← load8 str2 m;
  if bool_decide (a = b) then Ok 1 else
  if bool_decide (a = 0) || bool_decide (b = 0) then Ok 1 else Ok 0.

(** [cmdline_find] of kernel/mboot.c. *)
Definition cmdline_find (fuel : nat) (m : mem8) (cmdline txt : Z) : res Z :=
  '(cmdline, found) ← while fuel
    (λ '(cmdline, found), c ← load8 cmdline m;
       Ok (negb (bool_decide (c = 0)) && negb found))
    (λ '(cmdline, _), r ← ksubstr fuel m cmdline txt;
       if bool_decide (r ≠ 0) then Ok (cmdline, true) else Ok (cmdline + 1, false))
    (cmdline, false);
  if (found : bool) then Ok cmdline else Ok 0.

(** ** Copying and filling *)

Definition kmemset (m : mem8) (ptr value count : Z) : res (Z * mem8) :=
  Util.KMEMSET_IMPL store8 1 ptr value count m.

Fixpoint kmemcpy_loop (k : nat) (m : mem8) (dst src : Z) : res (Z * mem8) :=
  match k with
  | O => Ok (dst, m)
  | S k' => c ← load8 src m; m ← store8 dst c m; kmemcpy_loop k' m (dst + 1) (src + 1)
  end.

(** Without a wrap of [source + count] the loop runs [count] times. *)
Definition kmemcpy (m : mem8) (destination source count : Z) : res (Z * mem8) :=
  kmemcpy_loop (Z.to_nat count) m destination source.

(** The state is the destination, the source and the count. *)
Fixpoint kstrncpy (fuel : nat) (m : mem8) (destination source count : Z) : res mem8 :=
  match fuel with
  | O => Spin
  | S f =>
      c ← load8 source m;
      m ← store8 destination c m;
      if negb (bool_decide (c = 0)) && negb (bool_decide (count = 0))
      then kstrncpy f m (destination + 1) (source + 1) (u32 (count - 1))
      else Ok m
  end.

Definition truncate (value min max : Z) : Z :=
  if max <? value then max else if value <? min then min else value.

(** ** Numbers *)

(** "0123456789abcdef" *)
Definition digits : list Z :=
  [48; 49; 50; 51; 52; 53; 54; 55; 56; 57; 97; 98; 99; 100; 101; 102].

Definition get_digit (d : Z) : res Z :=
  match digits !! Z.to_nat d with Some c => Ok c | None => Fault end.

(** [char buf[32]] *)
Definition BUF : Z := 32.

(** The [do ... while (n > 0)] loop, from [count]. *)
Fixpoint digit_loop (fuel : nat) (base n count : Z) (buf : gmap Z Z) : res (gmap Z Z * Z) :=
  match fuel with
  | O => Spin
  | S f =>
      if bool_decide (base = 0) then Fault else
      d ← get_digit (n mod base);
      buf ← aset BUF buf count d;
      let n := n / base in
      if 0 <? n then digit_loop f base n (count + 1) buf else Ok (buf, count + 1)
  end.

(** [while((STAR str++ = STAR ptr--));] *)
Fixpoint copy_back (fuel : nat) (m : mem8) (buf : gmap Z Z) (str ptr : Z) : res mem8 :=
  match fuel with
  | O => Spin
  | S f =>
      c ← aget 0 BUF buf ptr;
      m ← store8 str c m;
      if bool_decide (c = 0) then Ok m else copy_back f m buf (str + 1) (ptr - 1)
  end.

(** Fuel: a word has at most 32 digits, the buffer 32 places. *)
Definition int2str (m : mem8) (str n base : Z) : res (Z * mem8) :=
  buf ← aset BUF ∅ 0 0;
  '(buf, count) ← digit_loop 33 base n 1 buf;
  m ← copy_back 33 m buf str (count - 1);
  Ok (count, m).

(** ** Formatted output *)

(** [while((STAR str++ = STAR tmp++));], returning the new [str]. *)
Fixpoint put_str (fuel : nat) (m : mem8) (str tmp : Z) : res (Z * mem8) :=
  match fuel with
  | O => Spin
  | S f =>
      c ← load8 tmp m;
      m ← store8 str c m;
      if bool_decide (c = 0) then Ok (str + 1, m) else put_str f m (str + 1) (tmp + 1)
  end.

(** The [switch] on the letter behind a per cent sign; [stack] is the word at
    the argument pointer. *)
Definition put_arg (fuel : nat) (m : mem8) (str c : Z) (stack : list Z) : res (Z * mem8) :=
  let arg := match stack with a :: _ => Ok a | [] => Fault end in
  if c =? 99 then a ← arg; m ← store8 str a m; Ok (str + 1, m) else
  if c =? 105 then a ← arg; '(r, m) ← int2str m str a 10; Ok (str + (r - 1), m) else
  if c =? 120 then
    m ← store8 str 48 m; m ← store8 (str + 1) 120 m;
    a ← arg; '(r, m) ← int2str m (str + 2) a 16; Ok (str + 2 + (r - 1), m) else
  if c =? 98 then a ← arg; '(r, m) ← int2str m str a 2; Ok (str + (r - 1), m) else
  if c =? 115 then a ← arg; '(str, m) ← put_str fuel m str a; Ok (str - 1, m)
  else Ok (str, m).

(** The [while] loop; returns the end of the output. *)
Fixpoint kprintf_loop (fuel : nat) (m : mem8) (str c : Z) (stack : list Z) : res (Z * mem8) :=
  match fuel with
  | O => Spin
  | S f =>
      x ← load8 c m;
      if bool_decide (x = 0) then Ok (str, m) else
      if bool_decide (x = 37) then
        let c := c + 1 in
        x ← load8 c m;
        '(str, m) ← put_arg fuel m str x stack;
        kprintf_loop f m str (c + 1) (tl stack)
      else
        m ← store8 str x m;
        kprintf_loop f m (str + 1) (c + 1) stack
  end.

Definition kprintf (fuel : nat) (m : mem8) (str format : Z) (args : list Z) : res (Z * mem8) :=
  '(e, m) ← kprintf_loop fuel m str format args;
  m ← store8 e 0 m;
  Ok (str, m).

(** ** Strings in memory *)

Definition char_ok (c : Z) : Prop := 0 < c < 256.

Fixpoint cstr (m : mem8) (p : Z) (s : list Z) : Prop :=
  match s with
  | [] => m !! p = Some 0
  | c :: s => m !! p = Some c ∧ char_ok c ∧ cstr m (p + 1) s
  end.

(** The bytes at [p]. *)
Fixpoint bytes_at (m : mem8) (p : Z) (s : list Z) : Prop :=
  match s with [] => True | c :: s => m !! p = Some c ∧ bytes_at m (p + 1) s end.

(** [k] bytes at [p] may be written. *)
Definition writable (m : mem8) (p : Z) (k : Z) : Prop :=
  ∀ a, p ≤ a < p + k → is_Some (m !! a).

(** [m'] differs from [m] in the [k] bytes at [p] only, where it has bytes too. *)
Definition changed (p k : Z) (m m' : mem8) : Prop :=
  (∀ a, ¬ (p ≤ a < p + k) → m' !! a = m !! a) ∧ (∀ a, is_Some (m !! a) → is_Some (m' !! a)).

Lemma load8_Some m a v : m !! a = Some v → load8 a m = Ok v.
Proof. intros H. unfold load8. by rewrite H. Qed.

Lemma store8_Some m a v : is_Some (m !! a) → store8 a v m = Ok (<[a := u8 v]> m).
Proof. intros [w H]. unfold store8. by rewrite H. Qed.

Lemma changed_refl p k m : changed p k m m.
Proof. by split. Qed.

Lemma changed_trans p k m1 m2 m3 :
  changed p k m1 m2 → changed p k m2 m3 → changed p k m1 m3.
Proof.
  intros [Hs1 Hd1] [Hs2 Hd2]. split; [|auto]. intros a Ha. rewrite Hs2, Hs1; done.
Qed.

Lemma changed_widen p k p' k' m m' :
  changed p k m m' → p' ≤ p → p + k ≤ p' + k' → changed p' k' m m'.
Proof. intros [Hs Hd] H1 H2. split; [|done]. intros a Ha. apply Hs. lia. Qed.

Lemma changed_insert p m v : is_Some (m !! p) → changed p 1 m (<[p := v]> m).
Proof.
  intros Hp. split.
  - intros a Ha. apply lookup_insert_ne. lia.
  - intros a Ha. destruct (decide (p = a)) as [->|]; [by rewrite lookup_insert_eq; eauto|].
    by rewrite lookup_insert_ne.
Qed.

Lemma writable_changed p k q j m m' : changed p k m m' → writable m q j → writable m' q j.
Proof. intros [_ Hd] Hw a Ha. by apply Hd, Hw. Qed.

Lemma writable_sub m p k q j : writable m p k → p ≤ q → q + j ≤ p + k → writable m q j.
Proof. intros Hw H1 H2 a Ha. apply Hw. lia. Qed.

Lemma cstr_changed m m' p k q s :
  changed p k m m' → (q + Z.of_nat (length s) < p ∨ p + k ≤ q) → cstr m q s → cstr m' q s.
Proof.
  intros [Hs _]. revert q. induction s as [|c s IH]; intros q Hq; cbn [length] in Hq; simpl.
  - intros <-. apply Hs. lia.
  - intros (Hc & Hok & Hr). rewrite Hs by lia. split; [done|]. split; [done|].
    apply IH; [lia|done].
Qed.

Lemma bytes_changed m m' p k q s :
  changed p k m m' → (q + Z.of_nat (length s) ≤ p ∨ p + k ≤ q) → bytes_at m q s → bytes_at m' q s.
Proof.
  intros [Hs _]. revert q. induction s as [|c s IH]; intros q Hq; cbn [length] in Hq; simpl; [done|].
  intros (Hc & Hr). rewrite Hs by lia. split; [done|]. apply IH; [lia|done].
Qed.

(** [kmemcpy] of bytes to another place. *)
Lemma kmemcpy_ok l : ∀ m dst src,
  bytes_at m src l → Forall (λ c, 0 ≤ c < 256) l → writable m dst (Z.of_nat (length l)) →
  src + Z.of_nat (length l) ≤ dst ∨ dst + Z.of_nat (length l) ≤ src →
  ∃ r m', kmemcpy m dst src (Z.of_nat (length l)) = Ok (r, m') ∧ bytes_at m' dst l ∧
    changed dst (Z.of_nat (length l)) m m'.
Proof.
  unfold kmemcpy. induction l as [|c l IH]; intros m dst src Hb Hr Hw Ha; rewrite Nat2Z.id in *;
    cbn [length kmemcpy_loop bytes_at] in *.
  { do 2 eexists. split; [reflexivity|]. split; [done|apply changed_refl]. }
  destruct Hb as [Hc Hb]. apply Forall_cons in Hr as [Hrc Hr].
  rewrite (load8_Some _ _ _ Hc). cbn [mbind res_bind].
  rewrite store8_Some by (apply Hw; lia). cbn [mbind res_bind]. rewrite u8_small by done.
  assert (Hch : changed dst 1 m (<[dst := c]> m)).
  { apply changed_insert, Hw. lia. }
  destruct (IH (<[dst := c]> m) (dst + 1) (src + 1)) as (r & m' & Hk & Hby & Hc2).
  - apply (bytes_changed m _ dst 1); [exact Hch|lia|exact Hb].
  - exact Hr.
  - apply (writable_changed dst 1 _ _ m); [exact Hch|]. eapply writable_sub; [exact Hw|lia|lia].
  - lia.
  - exists r, m'. split; [exact Hk|]. split.
    + split; [|done]. rewrite (proj1 Hc2) by lia. apply lookup_insert_eq.
    + split.
      * intros a Hn. rewrite (proj1 Hc2), (proj1 Hch) by lia. done.
      * intros a Hs. by apply (proj2 Hc2), (proj2 Hch).
Qed.

Lemma bytes_app m p s t :
  bytes_at m p (s ++ t) ↔ bytes_at m p s ∧ bytes_at m (p + Z.of_nat (length s)) t.
Proof.
  revert p. induction s as [|c s IH]; intros p; cbn [app bytes_at length].
  - rewrite Z.add_0_r. tauto.
  - rewrite IH. replace (p + 1 + Z.of_nat (length s)) with (p + Z.of_nat (S (length s))) by lia.
    tauto.
Qed.

Lemma cstr_end m p s : cstr m p s → m !! (p + Z.of_nat (length s)) = Some 0.
Proof.
  revert p. induction s as [|c s IH]; intros p; cbn [cstr length].
  - by rewrite Z.add_0_r.
  - intros (_ & _ & Hr). rewrite <- (IH (p + 1) Hr). f_equal. lia.
Qed.

Lemma cstr_bytes m p s :
  cstr m p s ↔ bytes_at m p s ∧ Forall char_ok s ∧ m !! (p + Z.of_nat (length s)) = Some 0.
Proof.
  revert p. induction s as [|c s IH]; intros p; cbn [cstr bytes_at length].
  - rewrite Z.add_0_r. split; [intros ?; split; [done|]; split; [by constructor|done]|tauto].
  - rewrite IH, Forall_cons. replace (p + 1 + Z.of_nat (length s)) with (p + Z.of_nat (S (length s))) by lia.
    tauto.
Qed.

Lemma cstr_drop m p s t : cstr m p (s ++ t) → cstr m (p + Z.of_nat (length s)) t.
Proof.
  revert p. induction s as [|c s IH]; intros p; cbn [app cstr length].
  - by rewrite Z.add_0_r.
  - intros (_ & _ & Hr). apply IH in Hr. by replace (p + Z.of_nat (S (length s)))
      with (p + 1 + Z.of_nat (length s)) by lia.
Qed.

(** ** Comparing strings *)

(** The longest common prefix, and what is left of both. *)
Fixpoint common (s t : list Z) : nat :=
  match s, t with
  | a :: s, b :: t => if decide (a = b) then S (common s t) else O
  | _, _ => O
  end.

(** The first byte of a zero-terminated rest. *)
Definition first (s : list Z) : Z := hd 0 s.

Lemma cstr_first m p s : cstr m p s → m !! p = Some (first s).
Proof. destruct s as [|c s]; simpl; [done|]. by intros [? _]. Qed.

Lemma first_zero m p s : cstr m p s → first s = 0 → s = [].
Proof. destruct s as [|c s]; simpl; [done|]. unfold char_ok. intros (_ & ? & _) ?. lia. Qed.

Lemma common_length s t : (common s t ≤ length s)%nat.
Proof.
  revert t. induction s as [|a s IH]; intros [|b t]; simpl; try lia.
  case_decide; [|lia]. specialize (IH t). lia.
Qed.

Lemma both_loop fuel m : ∀ s p t q,
  cstr m p s → cstr m q t → (common s t < fuel)%nat →
  while fuel (both_cond m) both_step (p, q)
    = Ok (p + Z.of_nat (common s t), q + Z.of_nat (common s t)).
Proof.
  induction fuel as [|f IH]; intros s p t q Hs Ht Hf; [lia|]. cbn [while both_cond].
  rewrite (load8_Some _ _ _ (cstr_first _ _ _ Hs)), (load8_Some _ _ _ (cstr_first _ _ _ Ht)).
  cbn [mbind res_bind].
  destruct s as [|a s], t as [|b t]; simpl.
  - by rewrite !Z.add_0_r.
  - simpl in Ht. unfold char_ok in Ht. rewrite bool_decide_false by lia. simpl.
    by rewrite !Z.add_0_r.
  - simpl in Hs. unfold char_ok in Hs. rewrite bool_decide_false by lia. simpl.
    by rewrite !Z.add_0_r.
  - destruct Hs as (_ & Ha & Hs), Ht as (_ & Hb & Ht). unfold char_ok in *.
    cbn [common] in Hf. case_decide as Hd.
    + subst b. rewrite bool_decide_true by done. rewrite bool_decide_false by lia. simpl.
      rewrite (IH s (p + 1) t (q + 1) Hs Ht) by lia. do 2 f_equal; lia.
    + rewrite bool_decide_false by done. simpl. by rewrite !Z.add_0_r.
Qed.

(** What is left behind the common prefix. *)
Lemma common_drop m p s q t :
  cstr m p s → cstr m q t →
  let k := common s t in
  cstr m (p + Z.of_nat k) (drop k s) ∧ cstr m (q + Z.of_nat k) (drop k t) ∧
  take k s = take k t ∧
  (first (drop k s) = first (drop k t) → drop k s = [] ∧ drop k t = []).
Proof.
  revert p q t. induction s as [|a s IH]; intros p q t Hs Ht; simpl.
  - rewrite !Z.add_0_r, drop_0. split; [done|]. split; [done|]. split; [done|].
    intros Hf. split; [done|]. by apply (first_zero m q).
  - destruct t as [|b t].
    + rewrite !Z.add_0_r. split; [done|]. split; [done|]. split; [done|].
      intros Hf. by apply (first_zero m p (a :: s) Hs) in Hf.
    + case_decide as Hd.
      * subst b. destruct Hs as (Ha & Hok & Hs), Ht as (Hb & _ & Ht).
        destruct (IH (p + 1) (q + 1) t Hs Ht) as (H1 & H2 & H3 & H4).
        replace (p + Z.of_nat (S (common s t))) with (p + 1 + Z.of_nat (common s t)) by lia.
        replace (q + Z.of_nat (S (common s t))) with (q + 1 + Z.of_nat (common s t)) by lia.
        simpl. rewrite H3. done.
      * rewrite !Z.add_0_r, !drop_0. split; [done|]. split; [done|]. split; [done|].
        simpl. done.
Qed.

(** Lexicographic order of strings of signed characters. *)
Fixpoint lex_lt (s t : list Z) : Prop :=
  match s, t with
  | [], [] => False
  | [], b :: _ => 0 < s8 b
  | a :: _, [] => s8 a < 0
  | a :: s, b :: t => if decide (a = b) then lex_lt s t else s8 a < s8 b
  end.

Lemma lex_common s t :
  let k := common s t in
  first (drop k s) ≠ first (drop k t) → lex_lt s t ↔ s8 (first (drop k s)) < s8 (first (drop k t)).
Proof.
  revert t. induction s as [|a s IH]; intros [|b t]; simpl; try done.
  case_decide as Hd; [subst|done]. simpl. apply IH.
Qed.

Lemma common_self s u : common s (s ++ u) = length s.
Proof. induction s as [|a s IH]; simpl; [done|]. rewrite decide_True by done. by rewrite IH. Qed.

Lemma common_sym s t : common s t = common t s.
Proof.
  revert t. induction s as [|a s IH]; intros [|b t]; simpl; try done.
  repeat case_decide; congruence.
Qed.

Lemma common_eq m p s q t :
  cstr m p s → cstr m q t →
  (first (drop (common s t) s) = first (drop (common s t) t) ↔ s = t).
Proof.
  intros Hs Ht. destruct (common_drop m p s q t Hs Ht) as (_ & _ & Htk & Hf). split.
  - intros [H1 H2]%Hf. transitivity (take (common s t) s ++ drop (common s t) s);
      [by rewrite take_drop|]. by rewrite H1, Htk, <- H2, take_drop.
  - by intros ->.
Qed.

Lemma drop_nil_prefix s t :
  take (common s t) s = take (common s t) t →
  (drop (common s t) s = [] ↔ s `prefix_of` t).
Proof.
  intros Htk. split.
  - intros Hd. exists (drop (common s t) t).
    transitivity (take (common s t) t ++ drop (common s t) t); [by rewrite take_drop|].
    rewrite <- Htk. f_equal. transitivity (take (common s t) s ++ drop (common s t) s);
      [by rewrite Hd, app_nil_r|by rewrite take_drop].
  - intros [u ->]. rewrite common_self. by rewrite drop_all.
Qed.

(** The comparison. *)
Lemma kstrcmp_ok fuel m p q s t :
  cstr m p s → cstr m q t → (length s < fuel)%nat →
  ∃ r, kstrcmp fuel m p q = Ok r ∧ (r = 0 ↔ s = t) ∧ (r = -1 ∨ r = 0 ∨ r = 1) ∧
    (s ≠ t → (r = -1 ↔ lex_lt s t)).
Proof.
  intros Hs Ht Hf. pose proof (common_length s t) as Hl. unfold kstrcmp.
  rewrite (both_loop fuel m s p t q Hs Ht) by lia. cbn [mbind res_bind].
  destruct (common_drop m p s q t Hs Ht) as (Hs' & Ht' & _ & _).
  rewrite (load8_Some _ _ _ (cstr_first _ _ _ Hs')), (load8_Some _ _ _ (cstr_first _ _ _ Ht')).
  cbn [mbind res_bind]. pose proof (common_eq m p s q t Hs Ht) as Heq.
  pose proof (lex_common s t) as Hlex. case_bool_decide as Hd.
  - apply Heq in Hd as ->. exists 0. split; [done|]. split; [done|]. split; [tauto|done].
  - assert (Hne : s ≠ t) by (intros He; by apply Hd, Heq).
    destruct (Z.ltb_spec (s8 (first (drop (common s t) s))) (s8 (first (drop (common s t) t)))).
    + exists (-1). split; [done|]. split; [done|]. split; [tauto|]. intros _. rewrite Hlex; done.
    + exists 1. split; [done|]. split; [done|]. split; [tauto|]. intros _. rewrite Hlex by done.
      lia.
Qed.

(** [kstrcmp] decides equality of zero-terminated strings, and orders
    different ones by their first difference as signed characters. *)
Theorem kstrcmp_compares fuel m p q s t :
  cstr m p s → cstr m q t → (length s < fuel)%nat →
  ∃ r, kstrcmp fuel m p q = Ok r ∧ (r = 0 ↔ s = t) ∧ (r = -1 ∨ r = 0 ∨ r = 1) ∧
    (s ≠ t → (r = -1 ↔ lex_lt s t)).
Proof. apply kstrcmp_ok. Qed.

(** [kstrncpy] copies up to and with the terminator, or [count + 1] bytes when
    it does not find one among the first [count]. *)
Lemma kstrncpy_ok l : ∀ fuel m d src count,
  bytes_at m src l → Forall (λ c, 0 ≤ c < 256) l → (0 < length l < fuel)%nat →
  (∀ i c, l !! i = Some c → (S i < length l)%nat → c ≠ 0) →
  (last l = Some 0 ∨ Z.of_nat (length l) = count + 1) → Z.of_nat (length l) ≤ count + 1 →
  0 ≤ count < 2 ^ 32 → writable m d (Z.of_nat (length l)) →
  (src + Z.of_nat (length l) ≤ d ∨ d + Z.of_nat (length l) ≤ src) →
  ∃ m', kstrncpy fuel m d src count = Ok m' ∧ bytes_at m' d l ∧
    changed d (Z.of_nat (length l)) m m'.
Proof.
  induction l as [|c l IH]; intros [|fuel] m d src count Hb Hr Hf Hnz Hend Hle Hc Hw Hdis;
    simpl in Hf; try lia.
  destruct Hb as [Hbc Hb]. apply Forall_cons in Hr as [Hcr Hr]. cbn [kstrncpy length] in *.
  rewrite (load8_Some _ _ _ Hbc). cbn [mbind res_bind].
  rewrite store8_Some by (apply Hw; lia). cbn [mbind res_bind]. rewrite u8_small by lia.
  assert (Hch : changed d 1 m (<[d := c]> m)) by (apply changed_insert, Hw; lia).
  destruct l as [|c' l].
  - assert (Hstop : c = 0 ∨ count = 0).
    { destruct Hend as [[= ->]|Hend]; [by left|right; simpl in Hend; lia]. }
    assert (negb (bool_decide (c = 0)) && negb (bool_decide (count = 0)) = false) as ->.
    { destruct Hstop as [->| ->]; [done|]. by rewrite andb_false_r. }
    exists (<[d := c]> m). split; [done|]. split; [split; [apply lookup_insert_eq|done]|done].
  - assert (Hc0 : c ≠ 0) by (apply (Hnz 0%nat); [done|simpl; lia]).
    rewrite (bool_decide_false (c = 0)) by done.
    rewrite (bool_decide_false (count = 0)) by (cbn [length] in *; lia). cbn [negb andb].
    rewrite u32_small by (cbn [length] in *; lia).
    destruct (IH fuel (<[d := c]> m) (d + 1) (src + 1) (count - 1)) as (m' & Heq & Hb' & Hch').
    + apply (bytes_changed m _ d 1); [done|cbn [length] in *; lia|done].
    + done.
    + cbn [length] in *. lia.
    + intros i x Hi Hlt. apply (Hnz (S i)); [done|cbn [length] in *; lia].
    + destruct Hend as [Hl|Hl]; [left; exact Hl|right; cbn [length] in *; lia].
    + cbn [length] in *. lia.
    + cbn [length] in *; lia.
    + eapply writable_changed; [exact Hch|]. eapply writable_sub; [exact Hw|lia|cbn [length]; lia].
    + cbn [length] in *. lia.
    + exists m'. split; [exact Heq|]. split.
      * split; [|exact Hb']. rewrite (proj1 Hch') by lia. apply lookup_insert_eq.
      * eapply changed_trans; (eapply changed_widen; [eassumption|lia|cbn [length] in *; lia]).
Qed.

Definition prefix_either (s t : list Z) : Prop := s `prefix_of` t ∨ t `prefix_of` s.

Lemma ksubstr_ok fuel m p q s t :
  cstr m p s → cstr m q t → (length s < fuel)%nat →
  ∃ r, ksubstr fuel m p q = Ok r ∧ (r = 0 ∨ r = 1) ∧ (r = 1 ↔ prefix_either s t).
Proof.
  intros Hs Ht Hf. pose proof (common_length s t) as Hl. unfold ksubstr.
  rewrite (both_loop fuel m s p t q Hs Ht) by lia. cbn [mbind res_bind].
  destruct (common_drop m p s q t Hs Ht) as (Hs' & Ht' & Htk & _).
  rewrite (load8_Some _ _ _ (cstr_first _ _ _ Hs')), (load8_Some _ _ _ (cstr_first _ _ _ Ht')).
  cbn [mbind res_bind]. pose proof (common_eq m p s q t Hs Ht) as Heq.
  assert (H1 : first (drop (common s t) s) = 0 ↔ s `prefix_of` t).
  { rewrite <- drop_nil_prefix by done. split; [by apply (first_zero _ _ _ Hs')|by intros ->]. }
  assert (H2 : first (drop (common s t) t) = 0 ↔ t `prefix_of` s).
  { rewrite <- drop_nil_prefix by (rewrite common_sym; done). rewrite (common_sym t s).
    split; [by apply (first_zero _ _ _ Ht')|by intros ->]. }
  assert (Hpe : prefix_either s t ↔ first (drop (common s t) s) = 0 ∨
                                    first (drop (common s t) t) = 0)
    by (unfold prefix_either; tauto).
  setoid_rewrite Hpe. case_bool_decide as Hd.
  { exists 1. split; [done|]. split; [by right|]. split; [intros _|done].
    apply Heq in Hd as ->. left. by apply H1. }
  destruct (decide (first (drop (common s t) s) = 0)) as [Ha|Ha].
  { rewrite (bool_decide_true (_ = 0)) by done. exists 1. tauto. }
  rewrite (bool_decide_false _ Ha). simpl. case_bool_decide as Hb; [exists 1; tauto|exists 0].
  split; [done|]. split; [by left|]. split; [lia|tauto].
Qed.

Definition found_at (s t : list Z) (k : nat) : Prop := prefix_either (drop k s) t.

(** [cmdline_find] returns the first place of the command line at which
    [ksubstr] accepts: where the text stands, but also where the rest of the
    command line is a proper beginning of the text. *)
Theorem cmdline_find_first fuel m p q s t :
  cstr m p s → cstr m q t → (length s < fuel)%nat →
  (cmdline_find fuel m p q = Ok 0 ∧ ∀ k, (k < length s)%nat → ¬ found_at s t k) ∨
  ∃ k, cmdline_find fuel m p q = Ok (p + Z.of_nat k) ∧ (k < length s)%nat ∧ found_at s t k ∧
    ∀ j, (j < k)%nat → ¬ found_at s t j.
Proof.
  intros Hs Ht Hf. unfold cmdline_find.
  set (P := λ (n : nat) (st : Z * bool), ∃ k, st.1 = p + Z.of_nat k ∧ (k ≤ length s)%nat ∧
    (∀ j, (j < k)%nat → ¬ found_at s t j) ∧
    if st.2 then n = 0%nat ∧ (k < length s)%nat ∧ found_at s t k else n = (length s - k)%nat).
  match goal with |- context [while fuel ?c ?b _] =>
    destruct (while_total_ix P c b) with (fuel := fuel) (n := length s) (s := (p, false))
      as ([r b'] & n & Hw & (k & Hr & Hk & Hno & Hb) & Hc) end.
  - intros n [r b] (k & Hr & Hk & Hno & Hb). simpl in *. subst r.
    assert (Hsk : cstr m (p + Z.of_nat k) (drop k s)).
    { rewrite <- (take_drop k s) in Hs. apply cstr_drop in Hs.
      by rewrite length_take_le in Hs by done. }
    rewrite (load8_Some _ _ _ (cstr_first _ _ _ Hsk)). cbn [mbind res_bind].
    eexists. split; [done|]. intros [Hnz Hnb]%andb_true_iff. destruct b; [done|].
    apply negb_true_iff, bool_decide_eq_false in Hnz.
    assert (Hkl : (k < length s)%nat).
    { destruct (decide (k = length s)) as [->|]; [|lia]. by rewrite drop_all in Hnz. }
    destruct (ksubstr_ok fuel m _ q (drop k s) t Hsk Ht) as (x & -> & Hx & Hxf);
      [rewrite length_drop; lia|]. cbn [mbind res_bind]. case_bool_decide as Hd.
    + eexists _, 0%nat. split; [done|]. split; [|lia]. exists k. simpl.
      split; [done|]. split; [done|]. split; [done|]. split; [done|]. split; [done|].
      apply Hxf. lia.
    + eexists _, (length s - S k)%nat. split; [done|]. split; [|lia]. exists (S k). simpl.
      split; [lia|]. split; [lia|]. split; [|done]. intros j Hj.
      destruct (decide (j = k)) as [->|]; [|apply Hno; lia]. intros Hfd. apply Hxf in Hfd.
      lia.
  - exists 0%nat. simpl. split; [lia|]. split; [lia|]. split; [intros j Hj; lia|lia].
  - done.
  - rewrite Hw. cbn [mbind res_bind]. simpl in *. subst r. destruct b'.
    + right. exists k. destruct Hb as (_ & ? & ?). done.
    + left. split; [done|]. intros j Hj. apply Hno.
      destruct (decide (k = length s)) as [|Hne]; [lia|]. exfalso.
      assert (Hsk : cstr m (p + Z.of_nat k) (drop k s)).
      { rewrite <- (take_drop k s) in Hs. apply cstr_drop in Hs.
        by rewrite length_take_le in Hs by done. }
      rewrite (load8_Some _ _ _ (cstr_first _ _ _ Hsk)) in Hc. cbn [mbind res_bind] in Hc.
      injection Hc as Hc. rewrite andb_true_r in Hc.
      apply negb_false_iff, bool_decide_eq_true in Hc.
      apply (first_zero _ _ _ Hsk) in Hc. apply (f_equal length) in Hc.
      rewrite length_drop in Hc. simpl in Hc. lia.
Qed.

(** ** Digits *)

(** The character of a digit. *)
Definition char_of (d : Z) : Z := default 0 (digits !! Z.to_nat d).

(** The number that digits, most significant first, denote. *)
Definition value (base : Z) (ds : list Z) : Z := foldl (λ acc d, acc * base + d) 0 ds.

(** ... and the same with the least significant digit first. *)
Fixpoint value_le (base : Z) (ds : list Z) : Z :=
  match ds with [] => 0 | d :: ds => d + base * value_le base ds end.

Lemma value_rev base ds : value base (rev ds) = value_le base ds.
Proof.
  unfold value. induction ds as [|d ds IH]; [done|]. simpl. rewrite foldl_app, IH. simpl. lia.
Qed.

Lemma get_digit_ok d : 0 ≤ d < 16 → get_digit d = Ok (char_of d) ∧ char_ok (char_of d).
Proof.
  intros Hd. unfold get_digit, char_of.
  destruct (digits !! Z.to_nat d) as [c|] eqn:Hc.
  - split; [done|]. simpl. apply list_elem_of_lookup_2 in Hc.
    assert (Hall : Forall char_ok digits) by (unfold digits, char_ok; repeat constructor; lia).
    rewrite Forall_forall in Hall. by apply Hall.
  - apply lookup_ge_None in Hc. simpl in Hc. lia.
Qed.

(** The buffer from [i] on. *)
Fixpoint buf_has (buf : gmap Z Z) (i : Z) (cs : list Z) : Prop :=
  match cs with [] => True | c :: cs => arr 0 buf i = c ∧ buf_has buf (i + 1) cs end.

Lemma buf_has_ext buf buf' i cs :
  (∀ j, i ≤ j → arr 0 buf' j = arr 0 buf j) → buf_has buf i cs → buf_has buf' i cs.
Proof.
  revert i. induction cs as [|c cs IH]; intros i He; simpl; [done|]. intros [<- H].
  split; [apply He; lia|]. apply IH; [|done]. intros j Hj. apply He. lia.
Qed.

Lemma buf_has_app buf i cs ds :
  buf_has buf i (cs ++ ds) ↔ buf_has buf i cs ∧ buf_has buf (i + Z.of_nat (length cs)) ds.
Proof.
  revert i. induction cs as [|c cs IH]; intros i; cbn [app buf_has length].
  - rewrite Z.add_0_r. tauto.
  - rewrite IH. replace (i + 1 + Z.of_nat (length cs)) with (i + Z.of_nat (S (length cs))) by lia.
    tauto.
Qed.

Lemma digit_loop_ok base k : ∀ fuel n count buf,
  2 ≤ base ≤ 16 → 0 ≤ n < base ^ Z.of_nat k → (0 < k)%nat → (k ≤ fuel)%nat →
  0 ≤ count → count + Z.of_nat k ≤ BUF →
  ∃ buf' ds, digit_loop fuel base n count buf = Ok (buf', count + Z.of_nat (length ds)) ∧
    (0 < length ds ≤ k)%nat ∧ Forall (λ d, 0 ≤ d < base) ds ∧ value_le base ds = n ∧
    buf_has buf' count (char_of <$> ds) ∧
    (∀ i, i < count → arr 0 buf' i = arr 0 buf i) ∧
    (last ds = Some 0 → n = 0).
Proof.
  induction k as [|k IH]; intros fuel n count buf Hb Hn Hk Hf Hc Hroom; [lia|].
  destruct fuel as [|f]; [lia|]. cbn [digit_loop]. rewrite bool_decide_false by lia.
  assert (Hd : 0 ≤ n mod base < base) by (apply Z.mod_pos_bound; lia).
  destruct (get_digit_ok (n mod base)) as [-> _]; [lia|]. cbn [mbind res_bind].
  rewrite aset_in by lia. cbn [mbind res_bind].
  assert (Hdm : n = base * (n / base) + n mod base) by (apply Z.div_mod; lia).
  destruct (Z.ltb_spec 0 (n / base)) as [Hpos|Hzero].
  - assert (Hn' : 0 ≤ n / base < base ^ Z.of_nat k).
    { split; [lia|]. apply Z.div_lt_upper_bound; [lia|].
      rewrite <- Z.pow_succ_r by lia.
      replace (Z.succ (Z.of_nat k)) with (Z.of_nat (S k)) by lia. lia. }
    assert (Hk0 : (0 < k)%nat).
    { destruct k as [|k]; [|lia]. simpl in Hn'. lia. }
    destruct (IH f (n / base) (count + 1) (<[count := char_of (n mod base)]> buf))
      as (buf' & ds & Hl & Hlen & Hall & Hv & Hbuf & Hsame & Hlast); try lia.
    exists buf', (n mod base :: ds). rewrite Hl.
    split; [cbn [length]; f_equal; f_equal; lia|]. split; [cbn [length]; lia|].
    split; [by constructor|]. split; [cbn [value_le]; lia|]. split; [|split].
    + rewrite fmap_cons. cbn [buf_has]. split; [|done]. rewrite Hsame by lia.
      by rewrite arr_insert_eq.
    + intros i Hi. rewrite Hsame by lia. rewrite arr_insert_ne; [done|lia].
    + intros Hz. destruct ds as [|d ds]; [simpl in Hlen; lia|].
      rewrite last_cons_cons in Hz. apply Hlast in Hz. lia.
  - assert (Hq : n / base = 0) by (pose proof (Z.div_pos n base); lia). rewrite Hq in Hdm.
    exists (<[count := char_of (n mod base)]> buf), [n mod base].
    split; [done|]. split; [simpl; lia|]. split; [by constructor|]. split; [cbn [value_le]; lia|].
    split; [|split].
    + simpl. by rewrite arr_insert_eq.
    + intros i Hi. rewrite arr_insert_ne; [done|lia].
    + simpl. intros [= Hz]. lia.
Qed.

(** Copying the digits back in the other order, down to the terminator. *)
Lemma copy_back_ok buf cs : ∀ fuel m str,
  Forall char_ok cs → arr 0 buf 0 = 0 → buf_has buf 1 cs → Z.of_nat (length cs) < BUF →
  (length cs < fuel)%nat → writable m str (Z.of_nat (length cs) + 1) →
  ∃ m', copy_back fuel m buf str (Z.of_nat (length cs)) = Ok m' ∧ cstr m' str (rev cs) ∧
    changed str (Z.of_nat (length cs) + 1) m m'.
Proof.
  induction cs as [|c cs IH] using rev_ind; intros fuel m str Hall H0 Hb Hl Hf Hw;
    (destruct fuel as [|f]; [lia|]); cbn [copy_back].
  - change (Z.of_nat (length (@nil Z))) with 0 in *. rewrite aget_in by (unfold BUF; lia).
    rewrite H0. cbn [mbind res_bind].
    rewrite store8_Some by (apply Hw; lia). cbn [mbind res_bind].
    rewrite bool_decide_true by done. eexists. split; [done|]. split.
    + simpl. by rewrite lookup_insert_eq.
    + apply changed_insert, Hw. lia.
  - rewrite length_app in *. cbn [length] in *.
    apply Forall_app in Hall as [Hall Hc]. apply Forall_inv in Hc.
    apply buf_has_app in Hb as [Hb [Hbc _]].
    replace (Z.of_nat (length cs + 1)) with (1 + Z.of_nat (length cs)) in * by lia.
    rewrite aget_in by lia. rewrite Hbc. cbn [mbind res_bind].
    rewrite store8_Some by (apply Hw; lia). cbn [mbind res_bind]. unfold char_ok in Hc.
    rewrite bool_decide_false by lia. rewrite u8_small by lia.
    assert (Hch : changed str 1 m (<[str := c]> m)) by (apply changed_insert, Hw; lia).
    replace (1 + Z.of_nat (length cs) - 1) with (Z.of_nat (length cs)) by lia.
    destruct (IH f (<[str := c]> m) (str + 1)) as (m' & Hcb & Hs & Hch'); try done; [lia|lia| |].
    { eapply writable_changed; [done|]. eapply writable_sub; [done|lia|lia]. }
    exists m'. split; [done|]. rewrite rev_app_distr. simpl. split.
    + split; [|done]. rewrite (proj1 Hch') by lia. by rewrite lookup_insert_eq.
    + eapply changed_trans; eapply changed_widen; try done; lia.
Qed.

Lemma int2str_ok m str n base k :
  2 ≤ base ≤ 16 → 0 ≤ n < base ^ Z.of_nat k → (0 < k ≤ 31)%nat →
  writable m str (Z.of_nat k + 1) →
  ∃ m' ds, int2str m str n base = Ok (Z.of_nat (length ds) + 1, m') ∧
    (0 < length ds ≤ k)%nat ∧ Forall (λ d, 0 ≤ d < base) ds ∧ value base ds = n ∧
    (head ds = Some 0 → n = 0) ∧ cstr m' str (char_of <$> ds) ∧
    changed str (Z.of_nat (length ds) + 1) m m'.
Proof.
  intros Hb Hn Hk Hw. unfold int2str. rewrite aset_in by (unfold BUF; lia).
  cbn [mbind res_bind].
  destruct (digit_loop_ok base k 33 n 1 (<[0 := 0]> ∅))
    as (buf & ds & Hl & Hlen & Hall & Hv & Hbuf & Hsame & Hlast);
    [done|done|lia|lia|lia|unfold BUF; lia|].
  rewrite Hl. cbn [mbind res_bind].
  destruct (copy_back_ok buf (char_of <$> ds) 33 m str) as (m' & Hcb & Hs & Hch).
  - apply Forall_fmap. eapply Forall_impl; [exact Hall|]. intros d Hd. cbn beta in Hd.
    apply get_digit_ok. lia.
  - rewrite Hsame by lia. by rewrite arr_insert_eq.
  - done.
  - rewrite length_fmap. unfold BUF. lia.
  - rewrite length_fmap. lia.
  - rewrite length_fmap. eapply writable_sub; [done|lia|lia].
  - rewrite length_fmap in Hcb, Hch.
    replace (1 + Z.of_nat (length ds) - 1) with (Z.of_nat (length ds)) by lia.
    rewrite Hcb. cbn [mbind res_bind]. exists m', (rev ds).
    rewrite length_rev. split; [f_equal; f_equal; lia|]. split; [done|].
    split; [by apply Forall_rev|]. split; [by rewrite value_rev|]. split; [|split; [|done]].
    + intros Hh. apply Hlast. destruct ds as [|d ds _] using rev_ind; [done|].
      rewrite rev_app_distr in Hh. simpl in Hh. by rewrite last_snoc.
    + rewrite <- List.map_rev in Hs. exact Hs.
Qed.

(** [int2str] round trip: for a base from 2 to 16 and a number of at most
    31 digits it writes, zero-terminated, digits that denote the number, without
    leading zeroes, returns their count and the terminator, and writes nothing
    else. *)
Theorem int2str_prints m str n base k :
  2 ≤ base ≤ 16 → 0 ≤ n < base ^ Z.of_nat k → (0 < k ≤ 31)%nat →
  writable m str (Z.of_nat k + 1) →
  ∃ m' ds, int2str m str n base = Ok (Z.of_nat (length ds) + 1, m') ∧
    (length ds ≤ k)%nat ∧ Forall (λ d, 0 ≤ d < base) ds ∧ value base ds = n ∧
    (head ds = Some 0 → n = 0) ∧ cstr m' str (char_of <$> ds) ∧
    ∀ a, ¬ (str ≤ a ≤ str + Z.of_nat (length ds)) → m' !! a = m !! a.
Proof.
  intros Hb Hn Hk Hw.
  destruct (int2str_ok m str n base k Hb Hn Hk Hw) as (m' & ds & H1 & H2 & H3 & H4 & H5 & H6 & [H7 _]).
  exists m', ds. do 6 (split; [done || lia|]). intros a Ha. apply H7. lia.
Qed.

(** Bounds: the local buffer of [int2str] has 32 places, but a number from
    2^31 on has 32 binary digits and needs 33; the last digit is written
    behind the buffer. *)
Theorem int2str_binary_overflow m str n :
  2 ^ 31 ≤ n < 2 ^ 32 → int2str m str n 2 = Fault.
Proof.
  intros Hn. unfold int2str. rewrite aset_in by (unfold BUF; lia). cbn [mbind res_bind].
  assert (Hloop : ∀ k fuel n count buf, count = 32 - Z.of_nat k → 2 ^ Z.of_nat k ≤ n →
    0 ≤ count → (k < fuel)%nat → digit_loop fuel 2 n count buf = Fault).
  { clear. induction k as [|k IH]; intros fuel n count buf -> Hn Hc Hf;
      (destruct fuel as [|f]; [lia|]); cbn [digit_loop]; rewrite bool_decide_false by lia;
      (destruct (get_digit_ok (n mod 2)) as [-> _];
        [pose proof (Z.mod_pos_bound n 2); lia|]); cbn [mbind res_bind].
    - done.
    - rewrite aset_in by (unfold BUF; lia). cbn [mbind res_bind].
      assert (Hn' : 2 ^ Z.of_nat k ≤ n / 2).
      { apply Z.div_le_lower_bound; [lia|]. rewrite <- Z.pow_succ_r by lia.
        replace (Z.succ (Z.of_nat k)) with (Z.of_nat (S k)) by lia. lia. }
      assert (0 < 2 ^ Z.of_nat k) by (apply Z.pow_pos_nonneg; lia).
      rewrite (proj2 (Z.ltb_lt 0 (n / 2))) by lia.
      apply IH; [lia|done|lia|lia]. }
  rewrite (Hloop 31%nat 33%nat); [done|done|apply Hn|lia|lia].
Qed.

(** ** Formats *)

(** A format as its parts, with the arguments they take. *)
Inductive piece :=
| Lit (c : Z) | Chr (v : Z) | Dec (n : Z) | Hex (n : Z) | Bin (n : Z) | Str (p : Z) (s : list Z).

Definition format_of (pc : piece) : list Z :=
  match pc with
  | Lit c => [c] | Chr _ => [37; 99] | Dec _ => [37; 105] | Hex _ => [37; 120]
  | Bin _ => [37; 98] | Str _ _ => [37; 115]
  end.

Definition args_of (pc : piece) : list Z :=
  match pc with
  | Lit _ => [] | Chr v => [v] | Dec n => [n] | Hex n => [n] | Bin n => [n] | Str p _ => [p]
  end.

(** The most characters a part can produce. *)
Definition room_of (pc : piece) : Z :=
  match pc with
  | Lit _ | Chr _ => 1 | Dec _ => 10 | Hex _ => 10 | Bin _ => 31
  | Str _ s => Z.of_nat (length s)
  end.

Definition piece_ok (pc : piece) : Prop :=
  match pc with
  | Lit c => char_ok c ∧ c ≠ 37
  | Chr v => char_ok (u8 v)
  | Dec n | Hex n => 0 ≤ n < 2 ^ 32
  | Bin n => 0 ≤ n < 2 ^ 31
  | Str _ s => Forall char_ok s
  end.

(** The numeral of a number. *)
Definition numeral (base n : Z) (o : list Z) : Prop :=
  ∃ ds, Forall (λ d, 0 ≤ d < base) ds ∧ value base ds = n ∧ (head ds = Some 0 → n = 0) ∧
    o = char_of <$> ds.

Definition prints (pc : piece) (o : list Z) : Prop :=
  match pc with
  | Lit c => o = [c]
  | Chr v => o = [u8 v]
  | Dec n => numeral 10 n o
  | Hex n => ∃ o', o = 48 :: 120 :: o' ∧ numeral 16 n o'
  | Bin n => numeral 2 n o
  | Str _ s => o = s
  end.

(** The string at [p] is outside the [k] bytes at [str]. *)
Definition outside (p : Z) (s : list Z) (str k : Z) : Prop :=
  p + Z.of_nat (length s) < str ∨ str + k ≤ p.

(** The string argument is in memory, not where the output goes. *)
Definition arg_in (m : mem8) (str k : Z) (g : nat) (pc : piece) : Prop :=
  match pc with
  | Str p s => cstr m p s ∧ outside p s str k ∧ (length s < g)%nat
  | _ => True
  end.

Lemma put_str_ok fuel : ∀ m str tmp s,
  cstr m tmp s → writable m str (Z.of_nat (length s) + 1) →
  outside tmp s str (Z.of_nat (length s) + 1) → (length s < fuel)%nat →
  ∃ m', put_str fuel m str tmp = Ok (str + Z.of_nat (length s) + 1, m') ∧
    bytes_at m' str s ∧ changed str (Z.of_nat (length s) + 1) m m'.
Proof.
  induction fuel as [|f IH]; intros m str tmp s Hs Hw Ho Hf; [lia|]. cbn [put_str].
  rewrite (load8_Some _ _ _ (cstr_first _ _ _ Hs)). cbn [mbind res_bind].
  rewrite store8_Some by (apply Hw; lia). cbn [mbind res_bind].
  assert (Hch : changed str 1 m (<[str := u8 (first s)]> m)) by (apply changed_insert, Hw; lia).
  destruct s as [|c s].
  - simpl. eexists. split; [f_equal; f_equal; lia|]. split; [done|]. simpl.
    eapply changed_widen; [done|lia|lia].
  - cbn [first hd length] in *. destruct Hs as (_ & Hc & Hs).
    unfold char_ok in Hc. rewrite bool_decide_false by lia. rewrite u8_small in * by lia.
    unfold outside in *. cbn [length] in Ho.
    destruct (IH (<[str := c]> m) (str + 1) (tmp + 1) s) as (m' & Hp & Hb & Hch').
    + eapply cstr_changed; [exact Hch| |done]. lia.
    + eapply writable_changed; [done|]. eapply writable_sub; [done|lia|lia].
    + unfold outside. lia.
    + lia.
    + exists m'. split; [rewrite Hp; f_equal; f_equal; lia|]. split.
      * simpl. split; [|done]. rewrite (proj1 Hch') by lia. by rewrite lookup_insert_eq.
      * eapply changed_trans; eapply changed_widen; try done; lia.
Qed.

Lemma put_number m str n base k (Hb : 2 ≤ base ≤ 16) (Hn : 0 ≤ n < base ^ Z.of_nat k)
    (Hk : (0 < k ≤ 31)%nat) :
  writable m str (Z.of_nat k + 1) →
  ∃ r m' o, int2str m str n base = Ok (r, m') ∧ numeral base n o ∧ r - 1 = Z.of_nat (length o) ∧
    Z.of_nat (length o) ≤ Z.of_nat k ∧ bytes_at m' str o ∧ changed str (Z.of_nat k + 1) m m'.
Proof.
  intros Hw. destruct (int2str_ok m str n base k Hb Hn Hk Hw)
    as (m' & ds & Heq & Hl & Hall & Hv & Hh & Hs & Hch).
  exists (Z.of_nat (length ds) + 1), m', (char_of <$> ds). rewrite length_fmap.
  split; [done|]. split; [by exists ds|]. split; [lia|]. split; [lia|].
  split; [by apply cstr_bytes in Hs as (? & _)|]. eapply changed_widen; [done|lia|lia].
Qed.

(** One conversion. *)
Lemma put_arg_ok fuel m str pc x rest :
  piece_ok pc → format_of pc = [37; x] → writable m str (room_of pc + 1) →
  arg_in m str (room_of pc + 1) fuel pc →
  ∃ m' o, put_arg fuel m str x (args_of pc ++ rest) = Ok (str + Z.of_nat (length o), m') ∧
    prints pc o ∧ Z.of_nat (length o) ≤ room_of pc ∧ bytes_at m' str o ∧
    changed str (room_of pc + 1) m m' ∧ tl (args_of pc ++ rest) = rest.
Proof.
  intros Hok Hf Hw Ha. destruct pc as [c|v|n|n|n|p s]; simpl in Hf;
    [discriminate Hf|injection Hf as <- ..];
    unfold put_arg; cbn [Z.eqb Pos.eqb args_of app mbind res_bind room_of piece_ok prints] in *.
  - rewrite store8_Some by (apply Hw; lia). cbn [mbind res_bind].
    eexists _, [u8 v]. split; [done|]. split; [done|]. split; [simpl; lia|].
    split; [simpl; by rewrite lookup_insert_eq|]. split; [|done].
    eapply changed_widen; [apply changed_insert, Hw; lia|lia|lia].
  - destruct (put_number m str n 10 10) as (r & m' & o & -> & Hnum & Hr & Hl & Hb & Hch);
      [lia|change (10 ^ Z.of_nat 10) with 10000000000; lia|lia|done|]. cbn [mbind res_bind].
    exists m', o. rewrite Hr. done.
  - rewrite store8_Some by (apply Hw; lia). cbn [mbind res_bind].
    assert (Hc1 : changed str 1 m (<[str := u8 48]> m)) by (apply changed_insert, Hw; lia).
    rewrite store8_Some.
    2: { eapply writable_changed; [exact Hc1|exact Hw|lia]. }
    cbn [mbind res_bind].
    set (m2 := <[str + 1 := u8 120]> (<[str := u8 48]> m)).
    assert (Hc2 : changed str 2 m m2).
    { eapply changed_trans; [eapply changed_widen; [exact Hc1|lia|lia]|].
      eapply changed_widen; [apply changed_insert|lia|lia].
      eapply writable_changed; [exact Hc1|exact Hw|lia]. }
    destruct (put_number m2 (str + 2) n 16 8) as (r & m' & o & -> & Hnum & Hr & Hl & Hb & Hch);
      [lia|change (16 ^ Z.of_nat 8) with 4294967296; lia|lia| |].
    { eapply writable_changed; [exact Hc2|]. eapply writable_sub; [exact Hw|lia|lia]. }
    cbn [mbind res_bind]. exists m', (48 :: 120 :: o). cbn [length].
    split; [rewrite Hr; f_equal; f_equal; lia|]. split; [by exists o|]. split; [lia|].
    split; [|split; [|done]].
    + cbn [bytes_at]. replace (str + 1 + 1) with (str + 2) by lia. split; [|split; [|done]].
      * rewrite (proj1 Hch) by lia. unfold m2. rewrite lookup_insert_ne by lia.
        by rewrite lookup_insert_eq.
      * rewrite (proj1 Hch) by lia. unfold m2. by rewrite lookup_insert_eq.
    + eapply changed_trans; eapply changed_widen; try done; lia.
  - destruct (put_number m str n 2 31) as (r & m' & o & -> & Hnum & Hr & Hl & Hb & Hch);
      [lia|done|lia|done|]. cbn [mbind res_bind]. exists m', o. rewrite Hr. done.
  - destruct Ha as (Hs & Ho & Hlen).
    destruct (put_str_ok fuel m str p s Hs Hw Ho Hlen) as (m' & -> & Hb & Hch).
    cbn [mbind res_bind]. exists m', s. split; [f_equal; f_equal; lia|]. done.
Qed.

Definition room (ps : list piece) : Z := foldr (λ pc r, room_of pc + r) 0 ps.

Lemma room_of_nonneg pc : 0 ≤ room_of pc.
Proof. destruct pc; simpl; lia. Qed.

Lemma room_nonneg ps : 0 ≤ room ps.
Proof.
  induction ps as [|pc ps IH]; [done|]. change (room (pc :: ps)) with (room_of pc + room ps).
  pose proof (room_of_nonneg pc). lia.
Qed.

Lemma arg_in_changed m m' str k str' k' g pc a j :
  changed a j m m' → arg_in m str k g pc → str ≤ a → a + j ≤ str + k →
  str ≤ str' → str' + k' ≤ str + k → arg_in m' str' k' g pc.
Proof.
  intros Hch Ha H1 H2 H3 H4. destruct pc as [| | | | |p s]; try done.
  destruct Ha as (Hs & Ho & Hl). unfold outside in *. split; [|split; [unfold outside; lia|done]].
  eapply cstr_changed; [exact Hch|lia|done].
Qed.

Lemma piece_format pc :
  piece_ok pc → (∃ c, pc = Lit c) ∨ ∃ x, format_of pc = [37; x].
Proof. destruct pc; simpl; eauto. Qed.

Lemma kprintf_loop_ok ps : ∀ fuel g m str fmt,
  Forall piece_ok ps → cstr m fmt (concat (format_of <$> ps)) →
  writable m str (room ps + 1) →
  outside fmt (concat (format_of <$> ps)) str (room ps + 1) →
  Forall (arg_in m str (room ps + 1) g) ps → (length ps + g < fuel)%nat →
  ∃ m' outs, kprintf_loop fuel m str fmt (concat (args_of <$> ps))
      = Ok (str + Z.of_nat (length (concat outs)), m') ∧ Forall2 prints ps outs ∧
    Z.of_nat (length (concat outs)) ≤ room ps ∧
    bytes_at m' str (concat outs) ∧ changed str (room ps + 1) m m'.
Proof.
  induction ps as [|pc ps IH]; intros fuel g m str fmt Hok Hfmt Hw Ho Ha Hf;
    (destruct fuel as [|f]; [lia|]); cbn [kprintf_loop].
  - simpl in *. rewrite (load8_Some _ _ _ Hfmt). cbn [mbind res_bind].
    rewrite bool_decide_true by done. exists m, []. simpl. rewrite Z.add_0_r.
    split; [done|]. split; [by constructor|]. split; [done|]. split; [done|apply changed_refl].
  - apply Forall_cons in Hok as [Hpc Hok], Ha as [Hap Ha].
    rewrite !fmap_cons in *. cbn [concat length] in *.
    change (room (pc :: ps)) with (room_of pc + room ps) in *.
    pose proof (room_of_nonneg pc). pose proof (room_nonneg ps).
    assert (Hrest : ∀ m1 o k, (length (format_of pc) = k)%nat → changed str (room_of pc + 1) m m1 →
      prints pc o → Z.of_nat (length o) ≤ room_of pc → bytes_at m1 str o →
      ∃ m' outs, kprintf_loop f m1 (str + Z.of_nat (length o)) (fmt + Z.of_nat k)
          (concat (args_of <$> ps)) = Ok (str + Z.of_nat (length (concat outs)), m') ∧
        Forall2 prints (pc :: ps) outs ∧
        Z.of_nat (length (concat outs)) ≤ room_of pc + room ps ∧
        bytes_at m' str (concat outs) ∧ changed str (room_of pc + room ps + 1) m m').
    { intros m1 o k Hk Hch Hpo Hlo Hb. unfold outside in Ho. rewrite length_app, Hk in Ho.
      apply cstr_drop in Hfmt. rewrite Hk in Hfmt.
      destruct (IH f g m1 (str + Z.of_nat (length o)) (fmt + Z.of_nat k) Hok)
        as (m' & outs & Hl & Hpr & Hlen & Hbs & Hch').
      - eapply cstr_changed; [exact Hch| |exact Hfmt]. lia.
      - eapply writable_changed; [exact Hch|]. eapply writable_sub; [exact Hw|lia|lia].
      - unfold outside. lia.
      - eapply Forall_impl; [exact Ha|]. intros q Hq.
        eapply arg_in_changed; [exact Hch|exact Hq| | | |]; lia.
      - lia.
      - exists m', (o :: outs). cbn [concat]. rewrite length_app.
        split; [rewrite Hl; f_equal; f_equal; lia|]. split; [by constructor|]. split; [lia|].
        split.
        + apply bytes_app. split; [|done]. eapply bytes_changed; [exact Hch'| |exact Hb]. lia.
        + eapply changed_trans; eapply changed_widen; try done; lia. }
    destruct (piece_format pc Hpc) as [[c ->]|[x Hx]].
    + simpl in Hfmt, Hpc. destruct Hfmt as (Hc & Hcok & Hfmt'). destruct Hpc as [_ Hc37].
      rewrite (load8_Some _ _ _ Hc). cbn [mbind res_bind]. unfold char_ok in Hcok.
      rewrite bool_decide_false by lia. rewrite bool_decide_false by done.
      rewrite store8_Some by (apply Hw; simpl; lia). cbn [mbind res_bind].
      rewrite u8_small by lia. apply (Hrest (<[str := c]> m) [c] 1%nat); try done.
      * eapply changed_widen; [apply changed_insert, Hw; simpl; lia|lia|simpl; lia].
      * simpl. by rewrite lookup_insert_eq.
    + rewrite Hx in Hfmt. destruct Hfmt as (H37 & _ & Hxm & _ & Hfmt').
      rewrite (load8_Some _ _ _ H37). cbn [mbind res_bind].
      rewrite bool_decide_false by done. rewrite bool_decide_true by done.
      rewrite (load8_Some _ _ _ Hxm). cbn [mbind res_bind].
      destruct (put_arg_ok (S f) m str pc x (concat (args_of <$> ps)) Hpc Hx)
        as (m1 & o & Hput & Hpo & Hlo & Hb & Hch & Htl).
      * eapply writable_sub; [exact Hw|lia|lia].
      * destruct pc as [| | | | |p s]; try done. destruct Hap as (Hs & Ho' & Hl).
        split; [done|]. unfold outside in *. split; [lia|lia].
      * rewrite Hput. cbn [mbind res_bind]. rewrite Htl.
        replace (fmt + 1 + 1) with (fmt + Z.of_nat 2) by lia.
        apply (Hrest m1 o 2%nat); try done. by rewrite Hx.
Qed.

Lemma kprintf_ok fuel g m str fmt ps :
  Forall piece_ok ps → cstr m fmt (concat (format_of <$> ps)) →
  writable m str (room ps + 1) →
  outside fmt (concat (format_of <$> ps)) str (room ps + 1) →
  Forall (arg_in m str (room ps + 1) g) ps → (length ps + g < fuel)%nat →
  ∃ m' outs, kprintf fuel m str fmt (concat (args_of <$> ps)) = Ok (str, m') ∧
    Forall2 prints ps outs ∧ Z.of_nat (length (concat outs)) ≤ room ps ∧
    bytes_at m' str (concat outs ++ [0]) ∧ changed str (room ps + 1) m m'.
Proof.
  intros Hok Hfmt Hw Ho Ha Hf.
  destruct (kprintf_loop_ok ps fuel g m str fmt Hok Hfmt Hw Ho Ha Hf)
    as (m1 & outs & Hl & Hpr & Hlen & Hb & Hch).
  unfold kprintf. rewrite Hl. cbn [mbind res_bind].
  assert (Hsome : is_Some (m1 !! (str + Z.of_nat (length (concat outs))))).
  { eapply writable_changed; [exact Hch|exact Hw|lia]. }
  rewrite store8_Some by done. cbn [mbind res_bind]. eexists _, outs. split; [done|].
  split; [done|]. split; [done|]. split.
  - apply bytes_app. split.
    + eapply bytes_changed; [by apply changed_insert| |exact Hb]. lia.
    + simpl. by rewrite lookup_insert_eq.
  - eapply changed_trans; [exact Hch|].
    eapply changed_widen; [by apply changed_insert|lia|lia].
Qed.

Lemma numeral_chars base n o : 2 ≤ base ≤ 16 → numeral base n o → Forall char_ok o.
Proof.
  intros Hb (ds & Hd & _ & _ & ->). apply Forall_fmap. eapply Forall_impl; [exact Hd|].
  intros d Hdr. simpl in *. apply get_digit_ok. lia.
Qed.

Lemma prints_chars pc o : piece_ok pc → prints pc o → Forall char_ok o.
Proof.
  destruct pc as [c|v|n|n|n|p s]; simpl.
  - intros [Hc _] ->. by repeat constructor; apply Hc.
  - intros Hc ->. by repeat constructor; apply Hc.
  - intros _. apply numeral_chars. lia.
  - intros _ (o' & -> & Hn). do 2 (constructor; [split; [reflexivity|reflexivity]|]).
    by apply (numeral_chars 16 n); [lia|].
  - intros _. apply numeral_chars. lia.
  - by intros Hs ->.
Qed.

Lemma all_prints_chars ps outs :
  Forall piece_ok ps → Forall2 prints ps outs → Forall char_ok (concat outs).
Proof.
  intros Hok H2. revert Hok. induction H2 as [|pc o ps outs Hp _ IH]; intros Hok; simpl; [done|].
  apply Forall_cons in Hok as [Hpc Hok]. apply Forall_app. split; [by apply (prints_chars pc)|auto].
Qed.

(** What [kprintf] leaves is a string. *)
Lemma kprintf_cstr fuel g m str fmt ps :
  Forall piece_ok ps → cstr m fmt (concat (format_of <$> ps)) →
  writable m str (room ps + 1) →
  outside fmt (concat (format_of <$> ps)) str (room ps + 1) →
  Forall (arg_in m str (room ps + 1) g) ps → (length ps + g < fuel)%nat →
  ∃ m' out, kprintf fuel m str fmt (concat (args_of <$> ps)) = Ok (str, m') ∧
    cstr m' str out ∧ Z.of_nat (length out) ≤ room ps ∧
    changed str (room ps + 1) m m'.
Proof.
  intros Hok Hfmt Hw Ho Ha Hf.
  destruct (kprintf_ok fuel g m str fmt ps Hok Hfmt Hw Ho Ha Hf)
    as (m' & outs & Hk & Hp & Hl & Hb & Hs).
  exists m', (concat outs). split; [done|]. split; [|by split].
  apply cstr_bytes.
  apply bytes_app in Hb as [Hb [H0 _]]. split; [done|]. split; [|done].
  by apply (all_prints_chars ps).
Qed.

(** C32. [kprintf] writes its output: for a format made of plain characters and
    the conversions c, i, x, b and s, with as many argument words, string
    arguments and the format outside the output, and room for the longest
    output, it writes, one after the other and zero-terminated, each plain
    character, each argument's numeral (after 0x for hexadecimal) and each
    string, and returns its buffer. *)
Theorem kprintf_prints fuel g m str fmt ps :
  Forall piece_ok ps → cstr m fmt (concat (format_of <$> ps)) →
  writable m str (room ps + 1) →
  outside fmt (concat (format_of <$> ps)) str (room ps + 1) →
  Forall (arg_in m str (room ps + 1) g) ps → (length ps + g < fuel)%nat →
  ∃ m' outs, kprintf fuel m str fmt (concat (args_of <$> ps)) = Ok (str, m') ∧
    Forall2 prints ps outs ∧ bytes_at m' str (concat outs ++ [0]) ∧
    ∀ a, ¬ (str ≤ a ≤ str + room ps) → m' !! a = m !! a.
Proof.
  intros Hok Hfmt Hw Ho Ha Hf.
  destruct (kprintf_ok fuel g m str fmt ps Hok Hfmt Hw Ho Ha Hf)
    as (m' & outs & Hk & Hp & _ & Hb & Hs).
  exists m', outs. split; [done|]. split; [done|]. split; [done|]. intros a Ha'. apply Hs. lia.
Qed.

(** ** Concrete memories *)

(** [n] zero bytes at [p]. *)
Fixpoint blank (p : Z) (n : nat) : mem8 :=
  match n with O => ∅ | S n => <[p := 0]> (blank (p + 1) n) end.

Lemma blank_writable p n : writable (blank p n) p (Z.of_nat n).
Proof.
  revert p. induction n as [|n IH]; intros p a Ha; [lia|]. cbn [blank].
  destruct (decide (p = a)) as [->|]; [rewrite lookup_insert_eq; by eexists|].
  rewrite lookup_insert_ne by done. apply (IH (p + 1)). lia.
Qed.

(** [s] and a terminator at [p]. *)
Fixpoint with_str (p : Z) (s : list Z) (m : mem8) : mem8 :=
  match s with [] => <[p := 0]> m | c :: s => <[p := c]> (with_str (p + 1) s m) end.

Lemma with_str_changed p s m :
  ∀ a, a < p ∨ p + Z.of_nat (length s) < a → with_str p s m !! a = m !! a.
Proof.
  revert p. induction s as [|c s IH]; intros p a Ha; cbn [with_str length] in *.
  - apply lookup_insert_ne. lia.
  - rewrite lookup_insert_ne by lia. apply IH. lia.
Qed.

Lemma with_str_cstr p s m : Forall char_ok s → cstr (with_str p s m) p s.
Proof.
  revert p. induction s as [|c s IH]; intros p Hs; cbn [with_str cstr].
  - by rewrite lookup_insert_eq.
  - apply Forall_cons in Hs as [Hc Hs]. rewrite lookup_insert_eq. split; [done|]. split; [done|].
    eapply (cstr_changed (with_str (p + 1) s m) _ p 1); [|lia|by apply IH].
    split; [intros a Ha; rewrite lookup_insert_ne; [done|lia]|].
    intros a Ha. destruct (decide (p = a)) as [->|]; [rewrite lookup_insert_eq; by eexists|].
    by rewrite lookup_insert_ne.
Qed.

Lemma with_str_other p s m q t :
  cstr m q t → (q + Z.of_nat (length t) < p ∨ p + Z.of_nat (length s) < q) →
  cstr (with_str p s m) q t.
Proof.
  intros Ht Hd. revert q Ht Hd. induction t as [|c t IH]; intros q Ht Hd; cbn [cstr length] in *.
  - rewrite with_str_changed by lia. done.
  - destruct Ht as (Hc & Hok & Ht). rewrite with_str_changed by lia.
    split; [done|]. split; [done|]. apply IH; [done|lia].
Qed.

Ltac chars := repeat constructor; unfold char_ok; lia.

(** "abc" and "abd" *)
Lemma kstrcmp_compares_witness :
  ∃ m r, kstrcmp 9 m 0x100 0x200 = Ok r ∧ (r = 0 ↔ [97; 98; 99] = [97; 98; 100]).
Proof.
  set (m := with_str 0x100 [97; 98; 99] (with_str 0x200 [97; 98; 100] ∅)).
  destruct (kstrcmp_compares 9 m 0x100 0x200 [97; 98; 99] [97; 98; 100]) as (r & Hr & He & _).
  - apply with_str_cstr. chars.
  - apply with_str_other; [apply with_str_cstr; chars|simpl; lia].
  - simpl. lia.
  - exists m, r. exact (conj Hr He).
Defined.

(** The option "max_cpu=" is found in the command line "quiet m", at its last
    letter. *)
Lemma cmdline_find_first_witness :
  ∃ m, (cmdline_find 9 m 0x100 0x200 = Ok 0 ∧
        ∀ k, (k < 7)%nat →
          ¬ found_at [113; 117; 105; 101; 116; 32; 109] [109; 97; 120; 95; 99; 112; 117; 61] k) ∨
  ∃ k, cmdline_find 9 m 0x100 0x200 = Ok (0x100 + Z.of_nat k) ∧ (k < 7)%nat ∧
    found_at [113; 117; 105; 101; 116; 32; 109] [109; 97; 120; 95; 99; 112; 117; 61] k ∧
    ∀ j, (j < k)%nat →
      ¬ found_at [113; 117; 105; 101; 116; 32; 109] [109; 97; 120; 95; 99; 112; 117; 61] j.
Proof.
  set (m := with_str 0x100 [113; 117; 105; 101; 116; 32; 109]
              (with_str 0x200 [109; 97; 120; 95; 99; 112; 117; 61] ∅)).
  exists m. apply (cmdline_find_first 9 m 0x100 0x200 [113; 117; 105; 101; 116; 32; 109]
                     [109; 97; 120; 95; 99; 112; 117; 61]).
  - apply with_str_cstr. chars.
  - apply with_str_other; [apply with_str_cstr; chars|simpl; lia].
  - simpl. lia.
Defined.

(** What the kernel then reads as the number of processors lies behind the
    end of the command line. *)
Example cmdline_find_misleads :
  cmdline_find 9 (with_str 0x100 [113; 117; 105; 101; 116; 32; 109]
    (with_str 0x200 [109; 97; 120; 95; 99; 112; 117; 61] ∅)) 0x100 0x200 = Ok 0x106.
Proof. vm_compute. reflexivity. Qed.

Lemma int2str_prints_witness :
  ∃ m' ds, int2str (blank 0x100 11) 0x100 3000000000 10 = Ok (Z.of_nat (length ds) + 1, m') ∧
    value 10 ds = 3000000000.
Proof.
  destruct (int2str_prints (blank 0x100 11) 0x100 3000000000 10 10) as (m' & ds & Heq & _ & _ & Hv & _).
  - lia.
  - change (10 ^ Z.of_nat 10) with 10000000000. lia.
  - lia.
  - apply (blank_writable 0x100 11).
  - exists m', ds. exact (conj Heq Hv).
Defined.

Lemma int2str_binary_overflow_witness :
  int2str (blank 0x100 64) 0x100 0x80000000 2 = Fault.
Proof. apply (int2str_binary_overflow (blank 0x100 64) 0x100 0x80000000). lia. Defined.

(** "%i:%s" with 42 and "ab" *)
Lemma kprintf_prints_witness :
  ∃ m m' outs, kprintf 20 m 0x300 0x100 [42; 0x200] = Ok (0x300, m') ∧
    Forall2 prints [Dec 42; Lit 58; Str 0x200 [97; 98]] outs ∧
    bytes_at m' 0x300 (concat outs ++ [0]).
Proof.
  set (m := with_str 0x100 [37; 105; 58; 37; 115] (with_str 0x200 [97; 98] (blank 0x300 14))).
  destruct (kprintf_prints 20 9 m 0x300 0x100 [Dec 42; Lit 58; Str 0x200 [97; 98]])
    as (m' & outs & Hk & Hp & Hb & _).
  - repeat constructor; unfold char_ok; simpl; lia.
  - apply with_str_cstr. simpl. chars.
  - intros a Ha. change (room _ + 1) with 14 in Ha. unfold m.
    rewrite (with_str_changed 0x100 [37; 105; 58; 37; 115]) by (cbn [length]; lia).
    rewrite (with_str_changed 0x200 [97; 98]) by (cbn [length]; lia).
    apply (blank_writable 0x300 14). lia.
  - unfold outside. simpl. lia.
  - do 2 (apply Forall_cons; split; [done|]). apply Forall_cons. split; [|done].
    split; [|split; [unfold outside; simpl; lia|simpl; lia]].
    apply with_str_other; [apply with_str_cstr; chars|simpl; lia].
  - simpl. lia.
  - exists m, m', outs. exact (conj Hk (conj Hp Hb)).
Defined.

End Strings.
