(* ===== verification/Utils.v ===== *)
(** The memory and string routines of the C library (libc/utils.c), over the
    byte memory of Strings.v.  [int2str] and [kprintf] are the kernel's text. *)

From Stdlib Require Import ZArith Lia.
From stdpp Require Import base option list gmap.
From S2P Require Import Prelude Strings.

Module Utils.
Import Strings.

Definition memcpy (m : mem8) (destination source count : Z) : res (Z * mem8) :=
  kmemcpy_loop (Z.to_nat count) m destination source.

(** The libc versions advance [ptr] itself and return the end. *)
Fixpoint memset_loop (k : nat) (m : mem8) (ptr value : Z) : res (Z * mem8) :=
  match k with
  | O => Ok (ptr, m)
  | S k' => m ← store8 ptr value m; memset_loop k' m (ptr + 1) value
  end.

Definition memset (m : mem8) (ptr value count : Z) : res (Z * mem8) :=
  memset_loop (Z.to_nat count) m ptr value.

Definition store16 (a v : Z) (m : mem8) : res mem8 :=
  m ← store8 a (v mod 256) m; store8 (a + 1) (v / 256) m.

Fixpoint memset16_loop (k : nat) (m : mem8) (ptr value : Z) : res (Z * mem8) :=
  match k with
  | O => Ok (ptr, m)
  | S k' => m ← store16 ptr value m; memset16_loop k' m (ptr + 2) value
  end.

Definition memset16 (m : mem8) (ptr value count : Z) : res (Z * mem8) :=
  memset16_loop (Z.to_nat count) m ptr value.

Definition int2str := Strings.int2str.
Definition kprintf := Strings.kprintf.

Definition strlen (fuel : nat) (m : mem8) (str : Z) : res Z :=
  '(_, result) ← while fuel
    (λ '(str, result), c ← load8 str m; Ok (negb (bool_decide (c = 0))))
    (λ '(str, result), Ok (str + 1, s32 (result + 1))) (str, 0);
  Ok result.

End Utils.
