(* ===== verification/Paging.v ===== *)
(** Two-level paging (kernel/paging.c, kernel/paging.h).

    The machine is 32-bit x86 paging without large pages: [walk] is the
    translation the processor performs from [cr3], [vload] and [vstore] are
    32-bit accesses of ring 0 through it (with CR0.WP clear, as [restore_cr0]
    leaves it, the writable bit does not restrict ring 0).  The kernel edits
    its tables through the recursive directory entry 1023, and so does this
    model: every access of paging.c is a [vload] or [vstore] at the virtual
    address the C code computes.  The page frame allocator is the interface
    [FrameAlloc].  Translations are not cached in the model, so [invlpg] has
    no effect on it. *)

From Stdlib Require Import ZArith Lia.
From stdpp Require Import base option list gmap.
From S2P Require Import Prelude Interfaces Util Palloc.

Module Paging.

Definition PAGE_PRESENT : Z := Z.shiftl 1 0.
Definition PAGE_WRITABLE : Z := Z.shiftl 1 1.
Definition PAGE_USERMODE : Z := Z.shiftl 1 2.
Definition PAGE_DIR_VIRT_ADDR : Z := 0xFFFFF000.

Definition page_entry (addr flags : Z) : Z :=
  let flags := Z.land flags 0xFFF in
  let addr := Z.land addr 0xFFFFF000 in
  Z.lor addr flags.

Definition page_dir_index (addr : Z) : Z := Z.shiftr addr 22.

Definition page_table_index (addr : Z) : Z := Z.land (Z.shiftr addr 12) 0x3FF.

Definition page_table_virt_addr (id : Z) : Z :=
  u32 (PAGE_DIR_VIRT_ADDR - 0x400000 + (id + 1) * 0x1000).

(** ** The machine *)

(** Physical memory, by the address of each aligned 32-bit word. *)
Definition ld (ram : gmap Z Z) (pa : Z) : Z := arr 0 ram pa.

(** The frame a directory register or a table entry points to. *)
Definition frame_of (e : Z) : Z := Z.land e 0xFFFFF000.

Definition walk (ram : gmap Z Z) (cr3 va : Z) : option Z :=
  let pde := ld ram (frame_of cr3 + 4 * Z.shiftr va 22) in
  if Z.testbit pde 0 then
    let pte := ld ram (frame_of pde + 4 * Z.land (Z.shiftr va 12) 0x3FF) in
    if Z.testbit pte 0 then Some (frame_of pte + Z.land va 0xFFF) else None
  else None.

Section Machine.
Context {F : Type} `{FrameAlloc F}.

Record mm := MM { ram : gmap Z Z; cr3 : Z; frames : F }.

Definition vload (va : Z) (s : mm) : res Z :=
  match walk (ram s) (cr3 s) va with
  | Some pa => Ok (ld (ram s) pa)
  | None => Fault
  end.

Definition vstore (va v : Z) (s : mm) : res mm :=
  match walk (ram s) (cr3 s) va with
  | Some pa => Ok (MM (<[pa := v]> (ram s)) (cr3 s) (frames s))
  | None => Fault
  end.

(** [mov %0, %%cr3] *)
Definition page_dir_switch (newpdir : Z) (s : mm) : mm :=
  MM (ram s) newpdir (frames s).

(** [mem_phys_alloc()] *)
Definition alloc_frame (s : mm) : res (Z * mm) :=
  '(a, f) ← frame_alloc (frames s); Ok (a, MM (ram s) (cr3 s) f).

Definition kmemset32 (ptr value count : Z) (s : mm) : res (Z * mm) :=
  Util.KMEMSET_IMPL vstore 4 ptr value count s.

(** ** paging.c *)

Definition paging_is_mapped (virt : Z) (s : mm) : res Z :=
  let index := page_dir_index virt in
  pde ← vload (u32 (PAGE_DIR_VIRT_ADDR + 4 * index)) s;
  if bool_decide (Z.land pde PAGE_PRESENT ≠ 0) then
    let page_table := page_table_virt_addr index in
    pte ← vload (u32 (page_table + 4 * page_table_index virt)) s;
    Ok (u8 (Z.land pte PAGE_PRESENT))
  else Ok 0.

Definition paging_map (virt phys flags : Z) (s : mm) : res mm :=
  let index := page_dir_index virt in
  let page_table := page_table_virt_addr index in
  pde ← vload (u32 (PAGE_DIR_VIRT_ADDR + 4 * index)) s;
  s ← (if bool_decide (Z.land pde PAGE_PRESENT ≠ 0) then Ok s else
         '(a, s) ← alloc_frame s;
         s ← vstore (u32 (PAGE_DIR_VIRT_ADDR + 4 * index))
               (page_entry a (Z.lor (Z.lor PAGE_WRITABLE PAGE_USERMODE) PAGE_PRESENT)) s;
         '(_, s) ← kmemset32 page_table 0x00000000 1024 s;
         Ok s);
  vstore (u32 (page_table + 4 * page_table_index virt)) (page_entry phys flags) s.

Definition paging_get_phys (addr : Z) (s : mm) : res Z :=
  let ptr := page_table_virt_addr (page_dir_index addr) in
  mapped ← paging_is_mapped addr s;
  if bool_decide (mapped = 0) then Ok 0 else
  pte ← vload (u32 (ptr + 4 * page_table_index addr)) s;
  Ok (Z.land pte 0xFFFFF000).

Definition olddir_virt : Z := 0xcccc0000.
Definition newdir_virt : Z := 0xdddd0000.

Definition page_dir_clone (olddir : Z) (s : mm) : res (Z * mm) :=
  '(newdir, s) ← alloc_frame s;
  s ← paging_map olddir_virt (Z.land olddir 0xFFFFF000)
        (Z.lor PAGE_WRITABLE PAGE_PRESENT) s;
  s ← paging_map newdir_virt (Z.land newdir 0xFFFFF000)
        (Z.lor PAGE_WRITABLE PAGE_PRESENT) s;
  s ← for_upto 1023 (λ i s,
        v ← vload (u32 (olddir_virt + 4 * i)) s;
        vstore (u32 (newdir_virt + 4 * i)) v s) s;
  s ← vstore (u32 (newdir_virt + 4 * 1023)) (page_entry newdir PAGE_PRESENT) s;
  s ← paging_map olddir_virt 0 0 s;
  s ← paging_map newdir_virt 0 0 s;
  Ok (newdir, s).

(** ** Invariant *)

Definition pde (s : mm) (i : Z) : Z := ld (ram s) (frame_of (cr3 s) + 4 * i).
Definition present (e : Z) : bool := Z.testbit e 0.

(** The state the kernel keeps its tables in: the directory maps itself
    through its last entry, no other entry points back at the directory, and
    neither the directory nor a table in use is a free frame. *)
Record paging_inv (s : mm) : Prop := {
  inv_words : ∀ a, 0 ≤ ld (ram s) a < 2 ^ 32;
  inv_cr3 : 0 ≤ cr3 s < 2 ^ 32;
  inv_self : present (pde s 1023) = true ∧ frame_of (pde s 1023) = frame_of (cr3 s);
  inv_tables : ∀ i, 0 ≤ i < 1023 → present (pde s i) = true →
    frame_of (pde s i) ≠ frame_of (cr3 s) ∧
    ¬ frame_free (frames s) (frame_of (pde s i) / PAGE_SIZE);
  inv_dir : ¬ frame_free (frames s) (frame_of (cr3 s) / PAGE_SIZE);
  inv_frames : frame_ok (frames s)
}.

(** The table entry that translates [va], when there is a table. *)
Definition slot (s : mm) (va : Z) : option Z :=
  let e := pde s (page_dir_index va) in
  if present e then Some (frame_of e + 4 * page_table_index va) else None.

End Machine.
Arguments mm : clear implicits.

(** ** Index arithmetic *)

Lemma frame_of_eq x : 0 ≤ x < 2 ^ 32 → frame_of x = 4096 * (x / 4096).
Proof.
  intros Hx. unfold frame_of.
  transitivity (Z.shiftl (Z.shiftr x 12) 12).
  - apply Z.bits_inj'. intros i Hi.
    change 0xFFFFF000 with (Z.shiftl (Z.ones 20) 12).
    rewrite Z.land_spec, !Z.shiftl_spec by lia.
    destruct (decide (i < 12)).
    { rewrite !(Z.testbit_neg_r _ (i - 12)) by lia. apply andb_false_r. }
    rewrite Z.shiftr_spec by lia. replace (i - 12 + 12) with i by lia.
    destruct (decide (i < 32)).
    + rewrite Z.ones_spec_low by lia. apply andb_true_r.
    + rewrite (bits_high x 32) by lia. done.
  - rewrite Z.shiftl_mul_pow2, Z.shiftr_div_pow2 by lia. change (2 ^ 12) with 4096. lia.
Qed.

Lemma page_dir_index_eq va : page_dir_index va = va / 4194304.
Proof. unfold page_dir_index. by rewrite Z.shiftr_div_pow2. Qed.

Lemma page_table_index_eq va : page_table_index va = (va / 4096) mod 1024.
Proof.
  unfold page_table_index. rewrite Z.shiftr_div_pow2 by lia.
  change 0x3FF with (Z.ones 10). by rewrite Z.land_ones by lia.
Qed.

Lemma page_offset_eq va : Z.land va 0xFFF = va mod 4096.
Proof. change 0xFFF with (Z.ones 12). by rewrite Z.land_ones by lia. Qed.

Lemma page_entry_eq a f : 0 ≤ a < 2 ^ 32 → page_entry a f = 4096 * (a / 4096) + f mod 4096.
Proof.
  intros Ha. unfold page_entry. fold (frame_of a). rewrite frame_of_eq, page_offset_eq by done.
  rewrite <- Z.add_lor_land.
  assert (Z.land (4096 * (a / 4096)) (f mod 4096) = 0) as ->; [|lia].
  apply Z.bits_inj'. intros i Hi. rewrite Z.bits_0, Z.land_spec.
  destruct (decide (i < 12)).
  - replace (4096 * (a / 4096)) with (Z.shiftl (a / 4096) 12)
      by (rewrite Z.shiftl_mul_pow2 by lia; change (2 ^ 12) with 4096; lia).
    rewrite Z.shiftl_spec_low by lia. done.
  - rewrite (bits_high (f mod 4096) 12); [apply andb_false_r|change (2 ^ 12) with 4096; dlia|lia].
Qed.

Lemma present_odd e : present e = Z.odd e.
Proof. unfold present. apply Z.bit0_odd. Qed.

Lemma land_present e : bool_decide (Z.land e PAGE_PRESENT ≠ 0) = present e.
Proof.
  change PAGE_PRESENT with (Z.ones 1). rewrite Z.land_ones, present_odd by lia.
  change (2 ^ 1) with 2. rewrite Zmod_odd. by destruct (Z.odd e).
Qed.

Lemma page_entry_range a f : 0 ≤ a < 2 ^ 32 → 0 ≤ page_entry a f < 2 ^ 32.
Proof. intros. rewrite page_entry_eq by done. dlia. Qed.

Lemma frame_of_page_entry a f : 0 ≤ a < 2 ^ 32 → frame_of (page_entry a f) = frame_of a.
Proof.
  intros. rewrite frame_of_eq by (by apply page_entry_range).
  rewrite page_entry_eq, frame_of_eq by done. dlia.
Qed.

Lemma present_page_entry a f : 0 ≤ a < 2 ^ 32 → present (page_entry a f) = Z.odd f.
Proof.
  intros. rewrite present_odd, page_entry_eq by done.
  rewrite Z.odd_add, Z.odd_mul. simpl.
  rewrite (Z.div_mod f 4096) at 2 by lia. rewrite Z.odd_add, Z.odd_mul. done.
Qed.

Lemma page_table_virt_addr_eq i :
  0 ≤ i < 1024 → page_table_virt_addr i = 0xFFC00000 + 4096 * i.
Proof.
  intros. unfold page_table_virt_addr, PAGE_DIR_VIRT_ADDR.
  rewrite u32_small by lia. lia.
Qed.

(** [walk] with the indices as quotients and remainders. *)
Lemma walk_eq m c va :
  walk m c va =
  let pde := ld m (frame_of c + 4 * page_dir_index va) in
  if present pde then
    let pte := ld m (frame_of pde + 4 * page_table_index va) in
    if present pte then Some (frame_of pte + va mod 4096) else None
  else None.
Proof. unfold walk. rewrite page_offset_eq. done. Qed.

Lemma index_bounds va :
  0 ≤ va < 2 ^ 32 →
  0 ≤ page_dir_index va < 1024 ∧ 0 ≤ page_table_index va < 1024.
Proof. intros. rewrite page_dir_index_eq, page_table_index_eq. dlia. Qed.

(** Two addresses with the same indices are on the same page. *)
Lemma index_page va vb :
  0 ≤ va < 2 ^ 32 → 0 ≤ vb < 2 ^ 32 →
  page_dir_index va = page_dir_index vb →
  page_table_index va = page_table_index vb → va / 4096 = vb / 4096.
Proof.
  intros ? ?. rewrite !page_dir_index_eq, !page_table_index_eq. dlia.
Qed.

Lemma frame_slot_ne e e' a b :
  0 ≤ e < 2 ^ 32 → 0 ≤ e' < 2 ^ 32 → 0 ≤ a < 1024 → 0 ≤ b < 1024 →
  frame_of e ≠ frame_of e' → frame_of e + 4 * a ≠ frame_of e' + 4 * b.
Proof. intros. rewrite !frame_of_eq in * by done. lia. Qed.

Section MachineLemmas.
Context {F : Type} `{FrameAlloc F}.
Implicit Types s : mm F.

(** The recursive entry makes the directory visible at its own address... *)
Lemma walk_dir s i :
  paging_inv s → 0 ≤ i < 1024 →
  walk (ram s) (cr3 s) (u32 (PAGE_DIR_VIRT_ADDR + 4 * i)) = Some (frame_of (cr3 s) + 4 * i).
Proof.
  intros Hs Hi. destruct (inv_self s Hs) as [Hp Hf].
  unfold PAGE_DIR_VIRT_ADDR. rewrite u32_small by lia. rewrite walk_eq.
  rewrite page_dir_index_eq, page_table_index_eq.
  replace ((4294963200 + 4 * i) / 4194304) with 1023 by dlia.
  replace ((4294963200 + 4 * i) / 4096 mod 1024) with 1023 by dlia.
  replace ((4294963200 + 4 * i) mod 4096) with (4 * i) by dlia.
  simpl. fold (pde s 1023). rewrite Hp, Hf. fold (pde s 1023). by rewrite Hp, Hf.
Qed.

(** ... and the tables in the 4 MB below it. *)
Lemma walk_table s i j :
  paging_inv s → 0 ≤ i < 1024 → 0 ≤ j < 1024 → present (pde s i) = true →
  walk (ram s) (cr3 s) (u32 (page_table_virt_addr i + 4 * j))
    = Some (frame_of (pde s i) + 4 * j).
Proof.
  intros Hs Hi Hj He. destruct (inv_self s Hs) as [Hp Hf].
  rewrite page_table_virt_addr_eq, u32_small by lia. rewrite walk_eq.
  rewrite page_dir_index_eq, page_table_index_eq.
  replace ((4290772992 + 4096 * i + 4 * j) / 4194304) with 1023 by dlia.
  replace ((4290772992 + 4096 * i + 4 * j) / 4096 mod 1024) with i by dlia.
  replace ((4290772992 + 4096 * i + 4 * j) mod 4096) with (4 * j) by dlia.
  simpl. fold (pde s 1023). rewrite Hp, Hf. fold (pde s i). by rewrite He.
Qed.

Lemma vload_dir s i :
  paging_inv s → 0 ≤ i < 1024 → vload (u32 (PAGE_DIR_VIRT_ADDR + 4 * i)) s = Ok (pde s i).
Proof. intros. unfold vload. by rewrite walk_dir. Qed.

Lemma vload_table s i j :
  paging_inv s → 0 ≤ i < 1024 → 0 ≤ j < 1024 → present (pde s i) = true →
  vload (u32 (page_table_virt_addr i + 4 * j)) s = Ok (ld (ram s) (frame_of (pde s i) + 4 * j)).
Proof. intros. unfold vload. by rewrite walk_table. Qed.

Lemma pde_range s i : paging_inv s → 0 ≤ pde s i < 2 ^ 32.
Proof. intros Hs. apply (inv_words s Hs). Qed.

(** The word written is the word of another frame than the directory's. *)
Lemma pde_insert_ne s a v i :
  a ≠ frame_of (cr3 s) + 4 * i →
  pde (MM (<[a := v]> (ram s)) (cr3 s) (frames s)) i = pde s i.
Proof. intros. unfold pde, ld. simpl. by rewrite arr_insert_ne. Qed.

(** Storing a table entry of a table that is not the directory keeps the
    invariant. *)
Lemma inv_table_store s i j v :
  paging_inv s → 0 ≤ i < 1023 → 0 ≤ j < 1024 → present (pde s i) = true →
  0 ≤ v < 2 ^ 32 →
  paging_inv (MM (<[frame_of (pde s i) + 4 * j := v]> (ram s)) (cr3 s) (frames s)).
Proof.
  intros Hs Hi Hj He Hv.
  destruct (inv_tables s Hs i Hi He) as [Hne _].
  assert (Hpde : ∀ k, 0 ≤ k < 1024 →
    pde (MM (<[frame_of (pde s i) + 4 * j := v]> (ram s)) (cr3 s) (frames s)) k = pde s k).
  { intros k Hk. apply pde_insert_ne. apply frame_slot_ne; try done.
    - by apply pde_range.
    - apply (inv_cr3 s Hs). }
  destruct Hs as [Hw Hc Hself Ht Hd Hf]. split; simpl; try done.
  - intros a. unfold ld. rewrite arr_insert. case_decide; [done|apply Hw].
  - rewrite Hpde by lia. done.
  - intros k Hk. rewrite Hpde by lia. by apply Ht.
Qed.

(** Memory of [s'] is that of [s] outside [P]. *)
Definition ram_same (P : Z → Prop) (s s' : mm F) : Prop :=
  ∀ a, ¬ P a → ld (ram s') a = ld (ram s) a.

(** What installing a fresh table for entry [i] achieves. *)
Record fresh_table (i q : Z) (s s' : mm F) : Prop := {
  ft_inv : paging_inv s';
  ft_cr3 : cr3 s' = cr3 s;
  ft_present : present (pde s' i) = true;
  ft_frame : frame_of (pde s' i) = PAGE_SIZE * q;
  ft_zero : ∀ j, 0 ≤ j < 1024 → ld (ram s') (PAGE_SIZE * q + 4 * j) = 0;
  ft_same : ram_same (λ a, a = frame_of (cr3 s) + 4 * i ∨
                        ∃ j, 0 ≤ j < 1024 ∧ a = PAGE_SIZE * q + 4 * j) s s';
  ft_free : ∀ r, frame_free (frames s') r ↔ frame_free (frames s) r ∧ r ≠ q
}.

(** The directory entry of a new table is written. *)
Lemma inv_new_pde s i q f' e :
  paging_inv s → 0 ≤ i < 1023 → present (pde s i) = false →
  0 ≤ q < PAGES → frame_free (frames s) q → frame_ok f' →
  (∀ r, frame_free f' r ↔ frame_free (frames s) r ∧ r ≠ q) →
  0 ≤ e < 2 ^ 32 → frame_of e = PAGE_SIZE * q → present e = true →
  let s' := MM (<[frame_of (cr3 s) + 4 * i := e]> (ram s)) (cr3 s) f' in
  paging_inv s' ∧ pde s' i = e ∧ (∀ k, 0 ≤ k < 1024 → k ≠ i → pde s' k = pde s k).
Proof.
  intros Hs Hi He Hq Hqf Hok Hr Hev Hef Hep s'.
  assert (Hpi : pde s' i = e) by (unfold pde, ld; simpl; by rewrite arr_insert_eq).
  assert (Hpk : ∀ k, 0 ≤ k < 1024 → k ≠ i → pde s' k = pde s k).
  { intros k Hk Hki. apply (pde_insert_ne s). lia. }
  assert (Hne : frame_of (cr3 s) ≠ PAGE_SIZE * q).
  { intros Heq. apply (inv_dir s Hs). rewrite Heq.
    replace (PAGE_SIZE * q / PAGE_SIZE) with q by (rewrite PAGE_SIZE_eq; dlia). done. }
  split; [|done]. destruct Hs as [Hw Hc Hself Ht Hd Hf].
  split; simpl; try done.
  - intros a. unfold ld. rewrite arr_insert. case_decide; [done|apply Hw].
  - rewrite Hpk by lia. done.
  - intros k Hk. destruct (decide (k = i)) as [->|Hki].
    + rewrite Hpi, Hef. intros _. split; [done|]. rewrite Hr.
      replace (PAGE_SIZE * q / PAGE_SIZE) with q by (rewrite PAGE_SIZE_eq; dlia). tauto.
    + rewrite Hpk by lia. intros Hpr. destruct (Ht k Hk Hpr) as [? Hnf].
      split; [done|]. rewrite Hr. tauto.
  - rewrite Hr. tauto.
Qed.

(** [kmemset32(page_table, 0, 1024)] through the recursive entry. *)
Lemma kmemset32_table s i :
  paging_inv s → 0 ≤ i < 1023 → present (pde s i) = true →
  ∃ s', kmemset32 (page_table_virt_addr i) 0 1024 s = Ok (page_table_virt_addr i, s') ∧
    paging_inv s' ∧ cr3 s' = cr3 s ∧ frames s' = frames s ∧
    (∀ k, 0 ≤ k < 1024 → pde s' k = pde s k) ∧
    (∀ j, 0 ≤ j < 1024 → ld (ram s') (frame_of (pde s i) + 4 * j) = 0) ∧
    ram_same (λ a, ∃ j, 0 ≤ j < 1024 ∧ a = frame_of (pde s i) + 4 * j) s s'.
Proof.
  intros Hs Hi He.
  destruct (inv_tables s Hs i Hi He) as [Hne _].
  set (P := λ (n : Z) (t : mm F),
    paging_inv t ∧ cr3 t = cr3 s ∧ frames t = frames s ∧
    (∀ k, 0 ≤ k < 1024 → pde t k = pde s k) ∧
    (∀ j, 0 ≤ j < n → ld (ram t) (frame_of (pde s i) + 4 * j) = 0) ∧
    ram_same (λ a, ∃ j, 0 ≤ j < 1024 ∧ a = frame_of (pde s i) + 4 * j) s t).
  destruct (Util.kmemset_loop_inv P vstore 4 0 1024 0 (page_table_virt_addr i) s)
    as (s' & Hr & Hinv & Hcr & Hfr & Hpd & Hz & Hsame).
  - rewrite page_table_virt_addr_eq; lia.
  - lia.
  - rewrite page_table_virt_addr_eq; lia.
  - split; [done|]. split; [done|]. split; [done|]. split; [done|].
    split; [lia|]. intros a _. done.
  - intros n t Hn (Hit & Hct & Hft & Hpt & Hzt & Hst).
    assert (Hpi : pde t i = pde s i) by (apply Hpt; lia).
    replace (n - 0) with n by lia.
    unfold vstore. rewrite walk_table by (rewrite ?Hpi; done || lia).
    eexists. split; [done|]. unfold P.
    split; [apply inv_table_store; [done|lia|lia|by rewrite Hpi|lia]|].
    split; [done|]. split; [done|]. split; [|split].
    + intros k Hk. rewrite pde_insert_ne; [by apply Hpt|].
      apply frame_slot_ne; [by apply pde_range|apply (inv_cr3 t Hit)|lia|lia|].
      by rewrite Hpi, Hct.
    + intros j Hj. unfold ld. simpl. rewrite Hpi, arr_insert. case_decide; [done|].
      apply Hzt. lia.
    + intros a Ha. unfold ld. simpl. rewrite Hpi, arr_insert_ne; [by apply Hst|].
      intros <-. apply Ha. exists n. split; [lia|done].
  - rewrite page_table_virt_addr_eq; lia.
  - exists s'. unfold kmemset32, Util.KMEMSET_IMPL.
    change (Z.to_nat 1024) with 1024%nat. rewrite Hr. simpl. split; [done|].
    by repeat (split; [done|]).
Qed.

Lemma new_table s i :
  paging_inv s → 0 ≤ i < 1023 → present (pde s i) = false →
  (∃ p, frame_free (frames s) p) →
  ∃ q s', ('(a, s) ← alloc_frame s;
           s ← vstore (u32 (PAGE_DIR_VIRT_ADDR + 4 * i))
                 (page_entry a (Z.lor (Z.lor PAGE_WRITABLE PAGE_USERMODE) PAGE_PRESENT)) s;
           '(_, s) ← kmemset32 (page_table_virt_addr i) 0x00000000 1024 s;
           Ok s) = Ok s' ∧
    0 ≤ q < PAGES ∧ frame_free (frames s) q ∧ fresh_table i q s s'.
Proof.
  intros Hs Hi He [p Hp].
  destruct (frame_alloc_spec (frames s) p (inv_frames s Hs) Hp)
    as (q & f' & Ha & Hq & Hqf & Hok & Hr).
  assert (Hqr : 0 ≤ PAGE_SIZE * q < 2 ^ 32).
  { rewrite PAGE_SIZE_eq. change PAGES with 1048576 in Hq. lia. }
  set (e := page_entry (PAGE_SIZE * q)
              (Z.lor (Z.lor PAGE_WRITABLE PAGE_USERMODE) PAGE_PRESENT)).
  assert (Hev : 0 ≤ e < 2 ^ 32) by (by apply page_entry_range).
  assert (Hef : frame_of e = PAGE_SIZE * q).
  { unfold e. rewrite frame_of_page_entry, frame_of_eq by done.
    rewrite PAGE_SIZE_eq. dlia. }
  assert (Hep : present e = true) by (unfold e; by rewrite present_page_entry by done).
  destruct (inv_new_pde s i q f' e Hs Hi He Hq Hqf Hok Hr Hev Hef Hep) as (Hi2 & Hpi & Hpk).
  set (s2 := MM (<[frame_of (cr3 s) + 4 * i := e]> (ram s)) (cr3 s) f') in *.
  destruct (kmemset32_table s2 i Hi2 Hi) as (s3 & Hk & Hi3 & Hc3 & Hf3 & Hp3 & Hz3 & Hs3).
  { by rewrite Hpi. }
  exists q, s3. split; [|split; [done|split; [done|]]].
  - unfold alloc_frame. rewrite Ha. simpl. fold e. unfold vstore at 1.
    change (ram (MM (ram s) (cr3 s) f')) with (ram s).
    change (cr3 (MM (ram s) (cr3 s) f')) with (cr3 s).
    rewrite walk_dir by (done || lia). simpl. fold s2. rewrite Hk. done.
  - rewrite Hpi, Hef in *. split; try done.
    + rewrite Hp3 by lia. by rewrite Hpi.
    + rewrite Hp3 by lia. by rewrite Hpi.
    + intros a Ha'. rewrite Hs3 by tauto. unfold ld, s2. simpl.
      rewrite arr_insert_ne; [done|]. intros <-. tauto.
    + intros r. rewrite Hf3. apply Hr.
Qed.

(** [paging_map] is an optional [new_table] followed by one store in the
    table. *)
Lemma paging_map_ok s virt phys flags :
  paging_inv s → 0 ≤ virt < 2 ^ 32 → page_dir_index virt < 1023 → 0 ≤ phys < 2 ^ 32 →
  (present (pde s (page_dir_index virt)) = true ∨ ∃ p, frame_free (frames s) p) →
  ∃ s1 s' a, paging_map virt phys flags s = Ok s' ∧
    (s1 = s ∨ present (pde s (page_dir_index virt)) = false ∧
       ∃ q, 0 ≤ q < PAGES ∧ frame_free (frames s) q ∧
         fresh_table (page_dir_index virt) q s s1) ∧
    slot s1 virt = Some a ∧
    s' = MM (<[a := page_entry phys flags]> (ram s1)) (cr3 s1) (frames s1) ∧
    paging_inv s1 ∧ paging_inv s'.
Proof.
  intros Hs Hv Hi Hp Hfree. destruct (index_bounds virt Hv) as [Hi0 Hj].
  set (i := page_dir_index virt) in *. set (j := page_table_index virt) in *.
  assert (∃ s1, (s1 = s ∨ present (pde s i) = false ∧
                   ∃ q, 0 ≤ q < PAGES ∧ frame_free (frames s) q ∧ fresh_table i q s s1) ∧
            paging_inv s1 ∧ present (pde s1 i) = true ∧
            paging_map virt phys flags s
              = vstore (u32 (page_table_virt_addr i + 4 * j)) (page_entry phys flags) s1)
    as (s1 & Hcase & Hs1 & He1 & Heq).
  { unfold paging_map. fold i j. rewrite vload_dir by (done || lia). simpl.
    rewrite land_present. destruct (present (pde s i)) eqn:He.
    - exists s. by eauto.
    - destruct Hfree as [|Hfree]; [done|].
      destruct (new_table s i Hs ltac:(lia) He Hfree) as (q & s1 & Heq & Hq & Hqf & Hft).
      exists s1. split; [right; eauto|]. split; [apply Hft|]. split; [apply Hft|].
      rewrite Heq. done. }
  exists s1. unfold vstore in Heq. rewrite walk_table in Heq by (done || lia).
  eexists _, _. split; [exact Heq|]. split; [done|].
  split; [unfold slot; fold i j; by rewrite He1|]. split; [done|]. split; [done|].
  apply inv_table_store; try done; [lia|]. by apply page_entry_range.
Qed.

Lemma walk_slot s va :
  walk (ram s) (cr3 s) va =
  match slot s va with
  | Some a => let e := ld (ram s) a in
              if present e then Some (frame_of e + va mod 4096) else None
  | None => None
  end.
Proof.
  rewrite walk_eq. unfold slot, pde. simpl. by destruct (present _).
Qed.

Lemma slot_not_dir s va a k :
  paging_inv s → 0 ≤ va < 2 ^ 32 → page_dir_index va < 1023 → 0 ≤ k < 1024 →
  slot s va = Some a → a ≠ frame_of (cr3 s) + 4 * k.
Proof.
  intros Hs Hv Hi Hk Ha. destruct (index_bounds va Hv) as [Hi0 Hj].
  unfold slot in Ha. destruct (present _) eqn:He; [|done]. injection Ha as <-.
  destruct (inv_tables s Hs _ (conj (proj1 Hi0) Hi) He) as [Hne _].
  apply frame_slot_ne; try done; [by apply pde_range|apply (inv_cr3 s Hs)].
Qed.

(** A store in a table keeps every slot. *)
Lemma slot_store s virt a v va :
  paging_inv s → 0 ≤ virt < 2 ^ 32 → page_dir_index virt < 1023 →
  0 ≤ va < 2 ^ 32 → slot s virt = Some a →
  slot (MM (<[a := v]> (ram s)) (cr3 s) (frames s)) va = slot s va.
Proof.
  intros Hs Hv Hi Hva Ha. destruct (index_bounds va Hva) as [Hk _].
  unfold slot. rewrite pde_insert_ne; [done|]. by apply (slot_not_dir s virt).
Qed.

(** A fresh table translates nothing and leaves other translations alone. *)
Lemma walk_fresh_table s s1 i q va :
  paging_inv s → 0 ≤ i < 1023 → present (pde s i) = false →
  0 ≤ q < PAGES → frame_free (frames s) q → fresh_table i q s s1 →
  0 ≤ va < 2 ^ 32 → page_dir_index va < 1023 →
  walk (ram s1) (cr3 s1) va = walk (ram s) (cr3 s) va.
Proof.
  intros Hs Hi He Hq Hqf Hft Hva Hk. destruct (index_bounds va Hva) as [Hk0 Hj].
  assert (HqP : 0 ≤ PAGE_SIZE * q < 2 ^ 32).
  { rewrite PAGE_SIZE_eq. change PAGES with 1048576 in Hq. lia. }
  assert (Hfq : frame_of (PAGE_SIZE * q) = PAGE_SIZE * q).
  { rewrite frame_of_eq by done. rewrite PAGE_SIZE_eq. dlia. }
  assert (Hdq : frame_of (cr3 s) ≠ PAGE_SIZE * q).
  { intros Heq. apply (inv_dir s Hs). rewrite Heq.
    replace (PAGE_SIZE * q / PAGE_SIZE) with q by (rewrite PAGE_SIZE_eq; dlia). done. }
  rewrite !walk_slot. destruct (decide (page_dir_index va = i)) as [Hki|Hki].
  - unfold slot. rewrite Hki, He, (ft_present _ _ _ _ Hft), (ft_frame _ _ _ _ Hft). simpl.
    rewrite (ft_zero _ _ _ _ Hft) by done. done.
  - assert (Hpk : pde s1 (page_dir_index va) = pde s (page_dir_index va)).
    { unfold pde. rewrite (ft_cr3 _ _ _ _ Hft). apply (ft_same _ _ _ _ Hft).
      intros [Heq|(j & Hj' & Heq)]; [lia|]. revert Heq. rewrite <- Hfq.
      apply frame_slot_ne; [apply (inv_cr3 s Hs)|done|lia|done|by rewrite Hfq]. }
    unfold slot. rewrite Hpk. destruct (present (pde s (page_dir_index va))) eqn:Hpv; [|done].
    simpl. rewrite (ft_same _ _ _ _ Hft); [done|].
    destruct (inv_tables s Hs _ (conj (proj1 Hk0) Hk) Hpv) as [Hnd Hnf].
    intros [Heq|(j & Hj' & Heq)]; revert Heq.
    + apply frame_slot_ne; [by apply pde_range|apply (inv_cr3 s Hs)|lia|lia|done].
    + rewrite <- Hfq. apply frame_slot_ne; [by apply pde_range|done|lia|done|].
      rewrite Hfq. intros Heq. apply Hnf. rewrite Heq.
      replace (PAGE_SIZE * q / PAGE_SIZE) with q by (rewrite PAGE_SIZE_eq; dlia). done.
Qed.

Lemma slot_inj s va vb :
  0 ≤ va < 2 ^ 32 → 0 ≤ vb < 2 ^ 32 → 0 ≤ pde s (page_dir_index va) < 2 ^ 32 →
  0 ≤ pde s (page_dir_index vb) < 2 ^ 32 → slot s va = slot s vb → slot s va ≠ None →
  frame_of (pde s (page_dir_index va)) = frame_of (pde s (page_dir_index vb)) ∧
  page_table_index va = page_table_index vb.
Proof.
  intros Hva Hvb Ha Hb Heq Hne. unfold slot in *.
  destruct (present (pde s (page_dir_index va))); [|done].
  destruct (present (pde s (page_dir_index vb))); [|done].
  destruct (index_bounds va Hva), (index_bounds vb Hvb).
  injection Heq as Heq. rewrite !frame_of_eq in * by done. lia.
Qed.

(** The translations after [paging_map]. *)
Lemma paging_map_walk s virt phys flags :
  paging_inv s → 0 ≤ virt < 2 ^ 32 → page_dir_index virt < 1023 → 0 ≤ phys < 2 ^ 32 →
  (present (pde s (page_dir_index virt)) = true ∨ ∃ p, frame_free (frames s) p) →
  ∃ s', paging_map virt phys flags s = Ok s' ∧ paging_inv s' ∧ cr3 s' = cr3 s ∧
    slot s' virt ≠ None ∧
    (∀ va, 0 ≤ va < 2 ^ 32 → page_dir_index va < 1023 →
       walk (ram s') (cr3 s') va =
       if decide (slot s' va = slot s' virt)
       then if Z.odd flags then Some (frame_of phys + va mod 4096) else None
       else walk (ram s) (cr3 s) va).
Proof.
  intros Hs Hv Hi Hp Hfree.
  destruct (paging_map_ok s virt phys flags Hs Hv Hi Hp Hfree)
    as (s1 & s' & a & Heq & Hcase & Ha & Hs' & Hinv1 & Hinv').
  destruct (index_bounds virt Hv) as [Hi0 _].
  exists s'. split; [done|]. split; [done|].
  assert (Hc1 : cr3 s1 = cr3 s).
  { destruct Hcase as [->|(_ & q & _ & _ & Hft)]; [done|]. apply Hft. }
  assert (Hslot : ∀ va, 0 ≤ va < 2 ^ 32 → slot s' va = slot s1 va).
  { intros va Hva. rewrite Hs'. by apply (slot_store s1 virt). }
  split; [by rewrite Hs'|]. split; [by rewrite Hslot, Ha by done|].
  intros va Hva Hk. rewrite walk_slot, !Hslot, Ha by done.
  case_decide as Hd.
  - rewrite Hd, Hs'. simpl. unfold ld. rewrite arr_insert_eq.
    rewrite present_page_entry, frame_of_page_entry by done. done.
  - transitivity (walk (ram s1) (cr3 s1) va).
    + rewrite walk_slot, Hs'. simpl. destruct (slot s1 va) as [b|]; [|done].
      unfold ld. rewrite arr_insert_ne by congruence. done.
    + destruct Hcase as [->|(He & q & Hq & Hqf & Hft)]; [done|].
      apply (walk_fresh_table s s1 (page_dir_index virt) q va); done || lia.
Qed.

Lemma paging_is_mapped_walk s va :
  paging_inv s → 0 ≤ va < 2 ^ 32 →
  paging_is_mapped va s
    = Ok (if walk (ram s) (cr3 s) va then 1 else 0).
Proof.
  intros Hs Hv. destruct (index_bounds va Hv) as [Hi Hj].
  unfold paging_is_mapped. rewrite vload_dir by done. simpl.
  rewrite land_present, walk_slot. unfold slot.
  destruct (present (pde s (page_dir_index va))) eqn:He; [|done].
  rewrite vload_table by done. simpl.
  change PAGE_PRESENT with (Z.ones 1). rewrite Z.land_ones, present_odd, Zmod_odd by lia.
  by destruct (Z.odd _).
Qed.

Lemma paging_get_phys_walk s va :
  paging_inv s → 0 ≤ va < 2 ^ 32 →
  paging_get_phys va s
    = Ok (match walk (ram s) (cr3 s) va with Some pa => pa - va mod 4096 | None => 0 end).
Proof.
  intros Hs Hv. destruct (index_bounds va Hv) as [Hi Hj].
  unfold paging_get_phys. rewrite paging_is_mapped_walk by done. simpl.
  rewrite walk_slot. unfold slot.
  destruct (present (pde s (page_dir_index va))) eqn:He; [|done].
  cbv zeta. destruct (present (ld _ _)) eqn:Hp; [|done].
  rewrite bool_decide_false by done. rewrite vload_table by done. simpl.
  f_equal. fold (frame_of (ld (ram s) (frame_of (pde s (page_dir_index va))
    + 4 * page_table_index va))). lia.
Qed.

(** ** Frames that the tables of [s] do not use *)

(** Words of different frames have different addresses; the frames' being
    different is left to prove. *)
Ltac frame_ne :=
  apply frame_slot_ne;
  first [done | lia | by apply inv_cr3 | by apply pde_range | idtac].

(** Frame [n] is in use, but neither as the directory nor as a table. *)
Definition foreign (s : mm F) (n : Z) : Prop :=
  0 ≤ n < PAGES ∧ ¬ frame_free (frames s) n ∧ PAGE_SIZE * n ≠ frame_of (cr3 s) ∧
  ∀ k, 0 ≤ k < 1023 → present (pde s k) = true → frame_of (pde s k) ≠ PAGE_SIZE * n.

Lemma frame_addr n :
  0 ≤ n < PAGES →
  0 ≤ PAGE_SIZE * n < 2 ^ 32 ∧ frame_of (PAGE_SIZE * n) = PAGE_SIZE * n ∧
  PAGE_SIZE * n / PAGE_SIZE = n.
Proof.
  intros Hn. rewrite PAGE_SIZE_eq. change PAGES with 1048576 in Hn.
  rewrite frame_of_eq by lia. dlia.
Qed.

(** Writing in a foreign frame disturbs no translation. *)
Lemma foreign_store s n k v :
  paging_inv s → foreign s n → 0 ≤ k < 1024 → 0 ≤ v < 2 ^ 32 →
  let s' := MM (<[PAGE_SIZE * n + 4 * k := v]> (ram s)) (cr3 s) (frames s) in
  paging_inv s' ∧ foreign s' n ∧ (∀ i, 0 ≤ i < 1024 → pde s' i = pde s i) ∧
  (∀ va, 0 ≤ va < 2 ^ 32 → page_dir_index va < 1023 →
     slot s' va = slot s va ∧ walk (ram s') (cr3 s') va = walk (ram s) (cr3 s) va).
Proof.
  intros Hs (Hn & Hnf & Hnd & Hnt) Hk Hv s'.
  destruct (frame_addr n Hn) as (Hnb & Hnfr & _).
  assert (Hpde : ∀ i, 0 ≤ i < 1024 → pde s' i = pde s i).
  { intros i Hi. apply pde_insert_ne. rewrite <- Hnfr.
    frame_ne; by rewrite ?Hnfr. }
  assert (Hslot : ∀ va, 0 ≤ va < 2 ^ 32 → slot s' va = slot s va).
  { intros va Hva. unfold slot. rewrite Hpde; [done|]. apply index_bounds, Hva. }
  split; [|split; [|split; [done|]]].
  - destruct Hs as [Hw Hc Hself Ht Hd Hf]. split; simpl; try done.
    + intros a. unfold ld. rewrite arr_insert. case_decide; [done|apply Hw].
    + by rewrite Hpde by lia.
    + intros i Hi. rewrite Hpde by lia. by apply Ht.
  - split; [done|]. split; [done|]. split; [done|].
    intros i Hi. rewrite Hpde by lia. by apply Hnt.
  - intros va Hva Hi. split; [by apply Hslot|].
    rewrite !walk_slot, Hslot by done. unfold s', slot. simpl.
    destruct (present (pde s (page_dir_index va))) eqn:He; [|done].
    destruct (index_bounds va Hva) as [Hi0 Hj].
    unfold ld. rewrite arr_insert_ne; [done|]. rewrite <- Hnfr. intros Heq.
    revert Heq. frame_ne.
    rewrite Hnfr. intros Heq. by destruct (Hnt _ (conj (proj1 Hi0) Hi) He).
Qed.

(** [paging_map] leaves foreign frames alone. *)
Lemma paging_map_foreign s s' virt phys flags n :
  paging_inv s → 0 ≤ virt < 2 ^ 32 → page_dir_index virt < 1023 → 0 ≤ phys < 2 ^ 32 →
  (present (pde s (page_dir_index virt)) = true ∨ ∃ p, frame_free (frames s) p) →
  paging_map virt phys flags s = Ok s' → foreign s n →
  foreign s' n ∧
  (∀ k, 0 ≤ k < 1024 → ld (ram s') (PAGE_SIZE * n + 4 * k) = ld (ram s) (PAGE_SIZE * n + 4 * k)) ∧
  (present (pde s (page_dir_index virt)) = true →
     frames s' = frames s ∧ ∀ k, 0 ≤ k < 1024 → pde s' k = pde s k) ∧
  (frames s' = frames s ∨ ∃ q, ∀ r, frame_free (frames s') r ↔ frame_free (frames s) r ∧ r ≠ q).
Proof.
  intros Hs Hv Hi Hp Hfree Heq (Hn & Hnf & Hnd & Hnt).
  destruct (paging_map_ok s virt phys flags Hs Hv Hi Hp Hfree)
    as (s1 & s2 & a & Heq2 & Hcase & Ha & Hs2 & Hinv1 & _).
  assert (s2 = s') as -> by congruence. clear Heq2.
  destruct (index_bounds virt Hv) as [Hi0 Hj].
  destruct (frame_addr n Hn) as (Hnb & Hnfr & _).
  assert (Hpde2 : ∀ k, 0 ≤ k < 1024 → pde s' k = pde s1 k).
  { intros k Hk. rewrite Hs2. apply pde_insert_ne. by apply (slot_not_dir s1 virt). }
  assert (Hc1 : cr3 s1 = cr3 s).
  { destruct Hcase as [->|(_ & q & _ & _ & Hft)]; [done|]. apply Hft. }
  assert (Hf1 : foreign s1 n ∧ ∀ k, 0 ≤ k < 1024 →
            ld (ram s1) (PAGE_SIZE * n + 4 * k) = ld (ram s) (PAGE_SIZE * n + 4 * k)).
  { destruct Hcase as [->|(He & q & Hq & Hqf & Hft)]; [done|].
    destruct (frame_addr q Hq) as (Hqb & Hqfr & Hqd).
    assert (Hqn : frame_of (PAGE_SIZE * n) ≠ frame_of (PAGE_SIZE * q)).
    { rewrite Hnfr, Hqfr, PAGE_SIZE_eq. intros ?.
      assert (n = q) by lia. by subst. }
    split.
    - split; [done|]. split; [rewrite (ft_free _ _ _ _ Hft); tauto|].
      split; [by rewrite Hc1|]. intros k Hk.
      destruct (decide (k = page_dir_index virt)) as [->|Hne].
      { rewrite (ft_frame _ _ _ _ Hft). congruence. }
      assert (pde s1 k = pde s k) as ->; [|by apply Hnt].
      unfold pde. rewrite Hc1. apply (ft_same _ _ _ _ Hft).
      intros [?|(j & Hjj & Heqj)]; [lia|]. revert Heqj. rewrite <- Hqfr.
      frame_ne.
      rewrite Hqfr. intros Heqj. apply (inv_dir s Hs). by rewrite Heqj, Hqd.
    - intros k Hk. apply (ft_same _ _ _ _ Hft).
      intros [Heqk|(j & Hjj & Heqk)]; revert Heqk.
      + rewrite <- Hnfr. frame_ne; by rewrite ?Hnfr.
      + rewrite <- Hnfr, <- Hqfr. frame_ne. }
  destruct Hf1 as [(_ & Hnf1 & Hnd1 & Hnt1) Hld1]. split; [|split; [|split]].
  - split; [done|]. split; [by rewrite Hs2|]. split; [by rewrite Hs2|].
    intros k Hk. rewrite Hpde2 by lia. by apply Hnt1.
  - intros k Hk. rewrite <- Hld1, Hs2 by done. unfold ld. simpl.
    rewrite arr_insert_ne; [done|]. unfold slot in Ha.
    destruct (present (pde s1 (page_dir_index virt))) eqn:He1; [|done].
    injection Ha as <-. rewrite <- Hnfr. frame_ne. rewrite Hnfr. apply (Hnt1 _ (conj (proj1 Hi0) Hi) He1).
  - intros He. destruct Hcase as [->|(He' & _)]; [|congruence].
    split; [by rewrite Hs2|done].
  - rewrite Hs2. destruct Hcase as [->|(_ & q & _ & _ & Hft)]; [by left|].
    right. exists q. apply Hft.
Qed.

(** Writes to the foreign frame [n] lead from [s] to [s']. *)
Record foreign_steps (n : Z) (s s' : mm F) : Prop := {
  fs_inv : paging_inv s';
  fs_foreign : foreign s' n;
  fs_cr3 : cr3 s' = cr3 s;
  fs_frames : frames s' = frames s;
  fs_pde : ∀ i, 0 ≤ i < 1024 → pde s' i = pde s i;
  fs_walk : ∀ va, 0 ≤ va < 2 ^ 32 → page_dir_index va < 1023 →
    slot s' va = slot s va ∧ walk (ram s') (cr3 s') va = walk (ram s) (cr3 s) va
}.

Lemma foreign_steps_refl n s : paging_inv s → foreign s n → foreign_steps n s s.
Proof. by split. Qed.

Lemma foreign_steps_store n s s' k v :
  foreign_steps n s s' → 0 ≤ k < 1024 → 0 ≤ v < 2 ^ 32 →
  foreign_steps n s (MM (<[PAGE_SIZE * n + 4 * k := v]> (ram s')) (cr3 s') (frames s')).
Proof.
  intros [Hi Hf Hc Hfr Hp Hw] Hk Hv.
  destruct (foreign_store s' n k v Hi Hf Hk Hv) as (Hi2 & Hf2 & Hp2 & Hw2).
  split; simpl; try done.
  - intros i Hik. rewrite Hp2 by done. by apply Hp.
  - intros va Hva Hd. destruct (Hw va Hva Hd) as [<- <-]. by apply Hw2.
Qed.

(** A page mapped by [paging_map], word by word. *)
Definition window (s : mm F) (base pa : Z) : Prop :=
  ∀ i, 0 ≤ i < 1024 → walk (ram s) (cr3 s) (u32 (base + 4 * i)) = Some (pa + 4 * i).

Lemma window_index base i :
  0 ≤ base < 2 ^ 32 → base mod 4096 = 0 → 0 ≤ i < 1024 →
  u32 (base + 4 * i) = base + 4 * i ∧
  page_dir_index (base + 4 * i) = page_dir_index base ∧
  page_table_index (base + 4 * i) = page_table_index base ∧
  (base + 4 * i) mod 4096 = 4 * i.
Proof.
  intros Hb Hm Hi. rewrite u32_small by dlia.
  rewrite !page_dir_index_eq, !page_table_index_eq. dlia.
Qed.

Lemma slot_same_index s va vb :
  page_dir_index va = page_dir_index vb → page_table_index va = page_table_index vb →
  slot s va = slot s vb.
Proof. intros Hd Ht. unfold slot. by rewrite Hd, Ht. Qed.

Lemma window_steps n s s' base pa :
  foreign_steps n s s' → 0 ≤ base < 2 ^ 32 → base mod 4096 = 0 →
  page_dir_index base < 1023 → window s base pa → window s' base pa.
Proof.
  intros Hst Hb Hm Hd Hw i Hi.
  destruct (window_index base i Hb Hm Hi) as (Hu & Hdi & _ & _).
  rewrite Hu. rewrite (proj2 (fs_walk _ _ _ Hst (base + 4 * i) ltac:(dlia) ltac:(lia))).
  rewrite <- Hu. by apply Hw.
Qed.

(** The copying loop of [page_dir_clone]. *)
Lemma clone_loop s n :
  paging_inv s → foreign s n →
  window s olddir_virt (frame_of (cr3 s)) → window s newdir_virt (PAGE_SIZE * n) →
  ∃ s', for_upto 1023 (λ i s,
          v ← vload (u32 (olddir_virt + 4 * i)) s;
          vstore (u32 (newdir_virt + 4 * i)) v s) s = Ok s' ∧
    foreign_steps n s s' ∧ ∀ k, 0 ≤ k < 1023 → ld (ram s') (PAGE_SIZE * n + 4 * k) = pde s k.
Proof.
  intros Hs Hf Hold Hnew.
  destruct (for_upto_inv (λ i t, foreign_steps n s t ∧
      ∀ k, 0 ≤ k < i → ld (ram t) (PAGE_SIZE * n + 4 * k) = pde s k) 1023
    (λ i s, v ← vload (u32 (olddir_virt + 4 * i)) s;
            vstore (u32 (newdir_virt + 4 * i)) v s) s) as (s' & Hr & Hst & Hc).
  - lia.
  - split; [by apply foreign_steps_refl|lia].
  - intros i t Hi [Hst Hc].
    pose proof (window_steps n s t olddir_virt _ Hst ltac:(by vm_compute) ltac:(done)
      ltac:(by vm_compute) Hold i ltac:(lia)) as Ho.
    pose proof (window_steps n s t newdir_virt _ Hst ltac:(by vm_compute) ltac:(done)
      ltac:(by vm_compute) Hnew i ltac:(lia)) as Hn.
    unfold vload. rewrite Ho. simpl. unfold vstore. rewrite Hn.
    eexists. split; [done|].
    assert (Hv : ld (ram t) (frame_of (cr3 s) + 4 * i) = pde s i).
    { rewrite <- (fs_cr3 _ _ _ Hst). apply (fs_pde _ _ _ Hst). lia. }
    rewrite Hv. split.
    + apply foreign_steps_store; [done|lia|by apply pde_range].
    + intros k Hk. unfold ld. simpl. rewrite arr_insert. case_decide as Hki.
      * by replace k with i by lia.
      * apply Hc. lia.
  - by exists s'.
Qed.

(** A page just mapped is a window on its frame. *)
Lemma paging_map_window s s' base phys :
  0 ≤ base < 2 ^ 32 → base mod 4096 = 0 → page_dir_index base < 1023 →
  (∀ va, 0 ≤ va < 2 ^ 32 → page_dir_index va < 1023 →
     walk (ram s') (cr3 s') va =
     if decide (slot s' va = slot s' base)
     then if Z.odd (Z.lor PAGE_WRITABLE PAGE_PRESENT)
          then Some (frame_of phys + va mod 4096) else None
     else walk (ram s) (cr3 s) va) →
  window s' base (frame_of phys).
Proof.
  intros Hb Hm Hd Hw i Hi.
  destruct (window_index base i Hb Hm Hi) as (Hu & Hdi & Hti & Hmi).
  rewrite Hu, Hw by dlia. rewrite decide_True by (by apply slot_same_index).
  simpl. by rewrite Hmi.
Qed.

(** Mapping a page with another table index keeps a window. *)
Lemma paging_map_window_keep s s' virt phys flags base pa :
  paging_inv s' → 0 ≤ virt < 2 ^ 32 → page_dir_index virt < 1023 →
  0 ≤ base < 2 ^ 32 → base mod 4096 = 0 → page_dir_index base < 1023 →
  page_table_index base ≠ page_table_index virt → slot s' virt ≠ None →
  (∀ va, 0 ≤ va < 2 ^ 32 → page_dir_index va < 1023 →
     walk (ram s') (cr3 s') va =
     if decide (slot s' va = slot s' virt)
     then if Z.odd flags then Some (frame_of phys + va mod 4096) else None
     else walk (ram s) (cr3 s) va) →
  window s base pa → window s' base pa.
Proof.
  intros Hs' Hv Hvd Hb Hm Hd Hne Hsl Hw Hwin i Hi.
  destruct (window_index base i Hb Hm Hi) as (Hu & Hdi & Hti & Hmi).
  rewrite Hu, Hw by dlia. rewrite decide_False; [rewrite <- Hu; by apply Hwin|].
  intros Heq. destruct (slot_inj s' (base + 4 * i) virt) as [_ Ht];
    [dlia|done|by apply pde_range|by apply pde_range|done|by rewrite Heq|].
  congruence.
Qed.

(** A directory entry in use survives [paging_map]. *)
Lemma paging_map_keeps s s' virt phys flags k :
  paging_inv s → 0 ≤ virt < 2 ^ 32 → page_dir_index virt < 1023 → 0 ≤ phys < 2 ^ 32 →
  (present (pde s (page_dir_index virt)) = true ∨ ∃ p, frame_free (frames s) p) →
  paging_map virt phys flags s = Ok s' →
  0 ≤ k < 1024 → present (pde s k) = true → pde s' k = pde s k.
Proof.
  intros Hs Hv Hi Hp Hfree Heq Hk Hpk.
  destruct (paging_map_ok s virt phys flags Hs Hv Hi Hp Hfree)
    as (s1 & s2 & a & Heq2 & Hcase & Ha & Hs2 & Hinv1 & _).
  assert (s2 = s') as -> by congruence. clear Heq2.
  rewrite Hs2, pde_insert_ne by (by apply (slot_not_dir s1 virt)).
  destruct Hcase as [->|(He & q & Hq & Hqf & Hft)]; [done|].
  destruct (frame_addr q Hq) as (Hqb & Hqfr & Hqd).
  unfold pde. rewrite (ft_cr3 _ _ _ _ Hft). apply (ft_same _ _ _ _ Hft).
  intros [Heqk|(j & Hj & Heqk)].
  - assert (k = page_dir_index virt) by lia. congruence.
  - revert Heqk. rewrite <- Hqfr. frame_ne. rewrite Hqfr. intros Heqk.
    apply (inv_dir s Hs). by rewrite Heqk, Hqd.
Qed.

Lemma slot_keep s s' va a :
  0 ≤ va < 2 ^ 32 →
  (∀ k, 0 ≤ k < 1024 → present (pde s k) = true → pde s' k = pde s k) →
  slot s va = Some a → slot s' va = Some a.
Proof.
  intros Hva Hk Ha. destruct (index_bounds va Hva) as [Hi _].
  unfold slot in *. destruct (present (pde s (page_dir_index va))) eqn:He; [|done].
  by rewrite Hk, He.
Qed.

Lemma slot_pde s s' va :
  0 ≤ va < 2 ^ 32 → (∀ k, 0 ≤ k < 1024 → pde s' k = pde s k) → slot s' va = slot s va.
Proof.
  intros Hva Hk. destruct (index_bounds va Hva) as [Hi _]. unfold slot. by rewrite Hk.
Qed.

(** Taking a frame for another use than tables keeps the invariant. *)
Lemma inv_alloc_frame s p :
  paging_inv s → frame_free (frames s) p →
  ∃ n s', alloc_frame s = Ok (PAGE_SIZE * n, s') ∧ frame_free (frames s) n ∧
    paging_inv s' ∧ foreign s' n ∧ ram s' = ram s ∧ cr3 s' = cr3 s ∧
    (∀ r, frame_free (frames s') r ↔ frame_free (frames s) r ∧ r ≠ n).
Proof.
  intros Hs Hp.
  destruct (frame_alloc_spec (frames s) p (inv_frames s Hs) Hp)
    as (n & f' & Ha & Hn & Hnf & Hok & Hr).
  destruct (frame_addr n Hn) as (_ & _ & Hnd).
  exists n, (MM (ram s) (cr3 s) f'). unfold alloc_frame. rewrite Ha. split; [done|].
  split; [done|]. split; [|split; [|done]].
  - destruct Hs as [Hw Hc Hself Ht Hd Hf]. split; simpl; try done; [|rewrite Hr; tauto].
    intros i Hi Hpi. destruct (Ht i Hi Hpi) as [? ?]. split; [done|]. rewrite Hr. tauto.
  - split; [done|]. split; [simpl; rewrite Hr; tauto|]. simpl. split.
    + intros Heq. apply (inv_dir s Hs). by rewrite <- Heq, Hnd.
    + intros k Hk Hpk Heq. apply (proj2 (inv_tables s Hs k Hk Hpk)).
      change (pde (MM (ram s) (cr3 s) f') k) with (pde s k) in Heq. by rewrite Heq, Hnd.
Qed.

(** [paging_map] as the callers below use it. *)
Lemma paging_map_step s virt phys flags n j :
  paging_inv s → foreign s n →
  0 ≤ virt < 2 ^ 32 → page_dir_index virt < 1023 → 0 ≤ phys < 2 ^ 32 →
  frames_left (Datatypes.S j) (frames s) →
  ∃ s', paging_map virt phys flags s = Ok s' ∧ paging_inv s' ∧ foreign s' n ∧
    cr3 s' = cr3 s ∧ frames_left j (frames s') ∧ slot s' virt ≠ None ∧
    (∀ va, 0 ≤ va < 2 ^ 32 → page_dir_index va < 1023 →
       walk (ram s') (cr3 s') va =
       if decide (slot s' va = slot s' virt)
       then if Z.odd flags then Some (frame_of phys + va mod 4096) else None
       else walk (ram s) (cr3 s) va) ∧
    (∀ k, 0 ≤ k < 1024 → present (pde s k) = true → pde s' k = pde s k).
Proof.
  intros Hs Hf Hv Hi Hp Hleft.
  assert (Hfree : present (pde s (page_dir_index virt)) = true ∨
                  ∃ p, frame_free (frames s) p).
  { right. by apply (frames_left_some j). }
  destruct (paging_map_walk s virt phys flags Hs Hv Hi Hp Hfree)
    as (s' & Heq & Hinv & Hc & Hsl & Hw).
  destruct (paging_map_foreign s s' virt phys flags n Hs Hv Hi Hp Hfree Heq Hf)
    as (Hf' & _ & _ & Hfr).
  exists s'. split; [done|]. split; [done|]. split; [done|]. split; [done|].
  split; [|split; [done|split; [done|]]].
  - destruct Hfr as [->|[q Hq]]; [by apply (frames_left_le (Datatypes.S j)); [lia|]|].
    by apply (frames_left_take j (frames s) _ q).
  - intros k Hk Hpk. by apply (paging_map_keeps s s' virt phys flags k).
Qed.

(** Which entries of the directory in use share their table: those for which
    [canon] is the same. *)
Record shared_as (canon : Z → Z) (s : mm F) : Prop := {
  sh_frame j k : 0 ≤ j < 1023 → 0 ≤ k < 1023 → present (pde s j) = true →
    present (pde s k) = true → frame_of (pde s j) = frame_of (pde s k) ↔ canon j = canon k;
  sh_present j k : 0 ≤ j < 1023 → 0 ≤ k < 1023 → j ≠ k → canon j = canon k →
    present (pde s j) = true
}.

(** Paging code that takes [c] frames at most: the entries of the directory in
    use are kept, and new tables are in frames that were free. *)
Record kept (c : nat) (s s' : mm F) : Prop := {
  kept_pde k : 0 ≤ k < 1024 → present (pde s k) = true → pde s' k = pde s k;
  kept_free r : frame_free (frames s') r → frame_free (frames s) r;
  kept_shared canon : shared_as canon s → shared_as canon s';
  kept_left j : frames_left (c + j) (frames s) → frames_left j (frames s')
}.

Lemma kept_trans c1 c2 s1 s2 s3 : kept c1 s1 s2 → kept c2 s2 s3 → kept (c1 + c2) s1 s3.
Proof.
  intros [Hp Hf Hu Hl] [Hp' Hf' Hu' Hl']. split; [|by auto|by auto|].
  - intros k Hk Hpk. rewrite <- (Hp k Hk Hpk). apply Hp'; [done|]. by rewrite Hp.
  - intros j Hj. apply Hl', Hl. by rewrite Nat.add_assoc.
Qed.

Lemma kept_same s s' :
  (∀ k, 0 ≤ k < 1024 → pde s' k = pde s k) → frames s' = frames s → kept 0 s s'.
Proof.
  intros Hp Hf. split; [by auto|by rewrite Hf| |by rewrite Hf].
  intros canon [Hu Hpr]. split; intros j k Hj Hk; rewrite !Hp by lia; [by apply Hu|by apply Hpr].
Qed.

Lemma kept_alloc s s' q :
  ram s' = ram s → cr3 s' = cr3 s →
  (∀ r, frame_free (frames s') r ↔ frame_free (frames s) r ∧ r ≠ q) → kept 1 s s'.
Proof.
  intros Hr Hc Hf. assert (Hp : ∀ k, pde s' k = pde s k) by (intros k; unfold pde; by rewrite Hr, Hc).
  split; [by auto|by intros r [? _]%Hf| |].
  - intros canon [Hu Hpr]. split; intros j k Hj Hk; rewrite !Hp; [by apply Hu|by apply Hpr].
  - intros j Hj. by apply (frames_left_take j (frames s) _ q).
Qed.

(** The directory after [paging_map]. *)
Lemma paging_map_pdes s s' virt phys flags :
  paging_inv s → 0 ≤ virt < 2 ^ 32 → page_dir_index virt < 1023 → 0 ≤ phys < 2 ^ 32 →
  (present (pde s (page_dir_index virt)) = true ∨ ∃ p, frame_free (frames s) p) →
  paging_map virt phys flags s = Ok s' →
  (∀ k, 0 ≤ k < 1024 → k ≠ page_dir_index virt → pde s' k = pde s k) ∧
  (pde s' (page_dir_index virt) = pde s (page_dir_index virt) ∧ frames s' = frames s ∨
   ∃ q, 0 ≤ q < PAGES ∧ frame_free (frames s) q ∧
     frame_of (pde s' (page_dir_index virt)) = PAGE_SIZE * q ∧
     (∀ r, frame_free (frames s') r ↔ frame_free (frames s) r ∧ r ≠ q)).
Proof.
  intros Hs Hv Hi Hp Hfree Heq. destruct (index_bounds virt Hv) as [Hi0 _].
  destruct (paging_map_ok s virt phys flags Hs Hv Hi Hp Hfree)
    as (s1 & s2 & a & Heq2 & Hcase & Ha & Hs2 & Hinv1 & _).
  assert (s2 = s') as -> by congruence. clear Heq2.
  assert (Hpde2 : ∀ k, 0 ≤ k < 1024 → pde s' k = pde s1 k).
  { intros k Hk. rewrite Hs2. apply pde_insert_ne. by apply (slot_not_dir s1 virt). }
  destruct Hcase as [->|(He & q & Hq & Hqf & Hft)].
  { split; [by auto|]. left. split; [by apply Hpde2|by rewrite Hs2]. }
  destruct (frame_addr q Hq) as (Hqb & Hqfr & Hqd). split.
  - intros k Hk Hne. rewrite Hpde2 by done. unfold pde. rewrite (ft_cr3 _ _ _ _ Hft).
    apply (ft_same _ _ _ _ Hft). intros [?|(j & Hjj & Heqj)]; [lia|]. revert Heqj.
    rewrite <- Hqfr. frame_ne. rewrite Hqfr. intros Heqj. apply (inv_dir s Hs).
    by rewrite Heqj, Hqd.
  - right. exists q. split; [done|]. split; [done|].
    split; [by rewrite Hpde2, (ft_frame _ _ _ _ Hft) by done|]. rewrite Hs2.
    exact (ft_free _ _ _ _ Hft).
Qed.

(** One entry changes, and gets a table of its own. *)
Lemma shared_step canon s s' d :
  (∀ k, 0 ≤ k < 1024 → present (pde s k) = true → pde s' k = pde s k) →
  (∀ k, 0 ≤ k < 1024 → k ≠ d → pde s' k = pde s k) → 0 ≤ d < 1024 →
  (pde s' d = pde s d ∨
   ∀ k, 0 ≤ k < 1023 → present (pde s k) = true → frame_of (pde s k) ≠ frame_of (pde s' d)) →
  shared_as canon s → shared_as canon s'.
Proof.
  intros Hkeep Hother Hd Hthis [Hu Hpr].
  assert (Hnew : ∀ k, 0 ≤ d < 1023 → 0 ≤ k < 1023 → k ≠ d → pde s' d ≠ pde s d →
    present (pde s k) = true → frame_of (pde s k) = frame_of (pde s' d) ↔ canon k = canon d).
  { intros k Hd' Hk Hne Hch Hpk. destruct Hthis as [|Hthis]; [done|]. split.
    - intros Hf. by apply Hthis in Hf.
    - intros Hc. exfalso. apply Hch, Hkeep; [lia|]. by apply (Hpr d k). }
  split; [|intros j k Hj Hk Hne Hc; pose proof (Hpr j k Hj Hk Hne Hc); by rewrite Hkeep by (done || lia)].
  intros j k Hj Hk. destruct (decide (j = k)) as [->|Hjk]; [done|].
  destruct (decide (pde s' d = pde s d)) as [Hsame|Hch].
  { assert (Hall : ∀ l, 0 ≤ l < 1023 → pde s' l = pde s l).
    { intros l Hl. destruct (decide (l = d)) as [->|]; [done|apply Hother; lia]. }
    rewrite !Hall by lia. by apply Hu. }
  destruct (decide (j = d)) as [->|Hjd]; [|destruct (decide (k = d)) as [->|Hkd]].
  - rewrite (Hother k) by (lia || congruence). intros _ Hpk.
    destruct (Hnew k) as [H1 H2]; [done..|]. split; intros He; symmetry; auto.
  - rewrite (Hother j) by (lia || congruence). intros Hpj _. by apply Hnew.
  - rewrite (Hother j), (Hother k) by (lia || congruence). by apply Hu.
Qed.

Lemma kept_map s s' virt phys flags :
  paging_inv s → 0 ≤ virt < 2 ^ 32 → page_dir_index virt < 1023 → 0 ≤ phys < 2 ^ 32 →
  (present (pde s (page_dir_index virt)) = true ∨ ∃ p, frame_free (frames s) p) →
  paging_map virt phys flags s = Ok s' → kept 1 s s'.
Proof.
  intros Hs Hv Hi Hp Hfree Heq. destruct (index_bounds virt Hv) as [Hi0 _].
  destruct (paging_map_pdes s s' virt phys flags Hs Hv Hi Hp Hfree Heq) as [Hother Hthis].
  assert (Hkeep : ∀ k, 0 ≤ k < 1024 → present (pde s k) = true → pde s' k = pde s k).
  { intros k Hk Hpk. by apply (paging_map_keeps s s' virt phys flags k). }
  split; [exact Hkeep| | |].
  - intros r Hr. destruct Hthis as [[_ <-]|(q & _ & _ & _ & Hq)]; [done|]. by apply Hq in Hr as [Hr _].
  - intros canon. apply (shared_step canon s s' (page_dir_index virt)); [done|done|lia|].
    destruct Hthis as [[Ht _]|(q & Hq & Hqf & Ht & _)]; [by left|right]. intros k Hk Hpk Heqk.
    destruct (frame_addr q Hq) as (_ & _ & Hqd).
    apply (proj2 (inv_tables s Hs k Hk Hpk)). by rewrite Heqk, Ht, Hqd.
  - intros j Hj. destruct Hthis as [[_ ->]|(q & _ & _ & _ & Hq)].
    + by apply (frames_left_le (1 + j)); [lia|].
    + by apply (frames_left_take j (frames s) _ q).
Qed.

(** The part of [page_dir_clone] before the loop. *)
Lemma clone_windows s olddir :
  paging_inv s → frame_of olddir = frame_of (cr3 s) → 0 ≤ olddir < 2 ^ 32 →
  frames_left 3 (frames s) →
  ∃ n s1 s2 s3, alloc_frame s = Ok (PAGE_SIZE * n, s1) ∧ frame_free (frames s) n ∧
    paging_map olddir_virt (frame_of olddir) (Z.lor PAGE_WRITABLE PAGE_PRESENT) s1 = Ok s2 ∧
    paging_map newdir_virt (frame_of (PAGE_SIZE * n)) (Z.lor PAGE_WRITABLE PAGE_PRESENT) s2
      = Ok s3 ∧
    paging_inv s3 ∧ foreign s3 n ∧ cr3 s3 = cr3 s ∧
    slot s3 olddir_virt ≠ None ∧ slot s3 newdir_virt ≠ None ∧
    window s3 olddir_virt (frame_of (cr3 s)) ∧ window s3 newdir_virt (PAGE_SIZE * n) ∧
    kept 3 s s3 ∧
    (∀ va, 0 ≤ va < 2 ^ 32 → page_dir_index va < 1023 →
       slot s3 va ≠ slot s3 olddir_virt → slot s3 va ≠ slot s3 newdir_virt →
       walk (ram s3) (cr3 s3) va = walk (ram s) (cr3 s) va).
Proof.
  intros Hs Hold Holdb Hleft.
  destruct (frames_left_some 2 _ Hleft) as [p Hp].
  destruct (inv_alloc_frame s p Hs Hp) as (n & s1 & Ha & Hnf & Hs1 & Hf1 & Hr1 & Hc1 & Hfr1).
  destruct (frame_addr n (proj1 Hf1)) as (Hnb & Hnfr & _).
  pose proof (frames_left_take 2 _ _ n Hleft Hfr1) as Hl1.
  assert (Hob : 0 ≤ frame_of olddir < 2 ^ 32) by (rewrite frame_of_eq by done; dlia).
  destruct (paging_map_step s1 olddir_virt (frame_of olddir)
    (Z.lor PAGE_WRITABLE PAGE_PRESENT) n 1 Hs1 Hf1) as
    (s2 & Hm2 & Hs2 & Hf2 & Hc2 & Hl2 & Hsl2 & Hw2 & Hk2);
    [by vm_compute|by vm_compute|done|done|].
  destruct (paging_map_step s2 newdir_virt (frame_of (PAGE_SIZE * n))
    (Z.lor PAGE_WRITABLE PAGE_PRESENT) n 0 Hs2 Hf2) as
    (s3 & Hm3 & Hs3 & Hf3 & Hc3 & Hl3 & Hsl3 & Hw3 & Hk3);
    [by vm_compute|by vm_compute|by rewrite Hnfr|done|].
  assert (Hkeep : ∀ va a, 0 ≤ va < 2 ^ 32 → slot s2 va = Some a → slot s3 va = Some a).
  { intros va a Hva. by apply slot_keep. }
  assert (Hff : frame_of (frame_of olddir) = frame_of (cr3 s)).
  { rewrite (frame_of_eq (frame_of olddir)), Hold by done.
    rewrite (frame_of_eq (cr3 s)) by (apply (inv_cr3 s Hs)). dlia. }
  assert (Hwin2 : window s2 olddir_virt (frame_of (cr3 s))).
  { rewrite <- Hff. by apply (paging_map_window s1); [by vm_compute|done|by vm_compute|]. }
  exists n, s1, s2, s3. do 6 (split; [done|]). split; [by rewrite Hc3, Hc2|].
  split; [|split; [done|split; [|split; [|split]]]].
  - destruct (slot s2 olddir_virt) as [a|] eqn:Hsl; [|done].
    by rewrite (Hkeep olddir_virt a ltac:(by vm_compute) Hsl).
  - eapply (paging_map_window_keep s2 s3 newdir_virt); try done; by vm_compute.
  - rewrite <- Hnfr at 1. rewrite <- (f_equal frame_of Hnfr).
    by apply (paging_map_window s2); [by vm_compute|done|by vm_compute|].
  - eapply (kept_trans 1 2); [by apply (kept_alloc _ _ n)|].
    eapply (kept_trans 1 1).
    + eapply kept_map; [exact Hs1|..|exact Hm2]; [by vm_compute|by vm_compute|done|].
      right. by apply (frames_left_some 1).
    + eapply kept_map; [exact Hs2|..|exact Hm3]; [by vm_compute|by vm_compute|by rewrite Hnfr|].
      right. by apply (frames_left_some 0).
  - intros va Hva Hi Hno Hnn. rewrite Hw3, decide_False by done.
    rewrite Hw2, decide_False, Hr1, Hc1; [done| |done|done].
    intros Heq. apply Hno. destruct (slot s2 olddir_virt) as [a|] eqn:Hsl; [|done].
    by rewrite (Hkeep va a Hva Heq), (Hkeep olddir_virt a ltac:(by vm_compute) Hsl).
Qed.

(** Unmapping a page that has a table. *)
Lemma paging_unmap_step s virt n :
  paging_inv s → foreign s n → 0 ≤ virt < 2 ^ 32 → page_dir_index virt < 1023 →
  slot s virt ≠ None →
  ∃ s', paging_map virt 0 0 s = Ok s' ∧ paging_inv s' ∧ foreign s' n ∧
    cr3 s' = cr3 s ∧ frames s' = frames s ∧
    (∀ k, 0 ≤ k < 1024 → pde s' k = pde s k) ∧
    (∀ k, 0 ≤ k < 1024 → ld (ram s') (PAGE_SIZE * n + 4 * k) = ld (ram s) (PAGE_SIZE * n + 4 * k)) ∧
    (∀ va, 0 ≤ va < 2 ^ 32 → page_dir_index va < 1023 →
       walk (ram s') (cr3 s') va =
       if decide (slot s' va = slot s' virt) then None else walk (ram s) (cr3 s) va).
Proof.
  intros Hs Hf Hv Hi Hsl.
  assert (He : present (pde s (page_dir_index virt)) = true).
  { unfold slot in Hsl. by destruct (present _). }
  destruct (paging_map_walk s virt 0 0 Hs Hv Hi ltac:(lia) (or_introl He))
    as (s' & Heq & Hinv & Hc & _ & Hw).
  destruct (paging_map_foreign s s' virt 0 0 n Hs Hv Hi ltac:(lia) (or_introl He) Heq Hf)
    as (Hf' & Hld & Hsame & _).
  destruct (Hsame He) as [Hfr Hpd]. by exists s'.
Qed.

(** The part of [page_dir_clone] after the loop. *)
Lemma clone_finish s n :
  paging_inv s → foreign s n → slot s olddir_virt ≠ None → slot s newdir_virt ≠ None →
  window s newdir_virt (PAGE_SIZE * n) →
  ∃ s4 s5 s6, vstore (u32 (newdir_virt + 4 * 1023)) (page_entry (PAGE_SIZE * n) PAGE_PRESENT) s
      = Ok s4 ∧
    paging_map olddir_virt 0 0 s4 = Ok s5 ∧ paging_map newdir_virt 0 0 s5 = Ok s6 ∧
    paging_inv s6 ∧ foreign s6 n ∧ cr3 s6 = cr3 s ∧ frames s6 = frames s ∧
    (∀ k, 0 ≤ k < 1024 → pde s6 k = pde s k) ∧
    (∀ k, 0 ≤ k < 1023 → ld (ram s6) (PAGE_SIZE * n + 4 * k) = ld (ram s) (PAGE_SIZE * n + 4 * k)) ∧
    ld (ram s6) (PAGE_SIZE * n + 4 * 1023) = page_entry (PAGE_SIZE * n) PAGE_PRESENT ∧
    (∀ va, 0 ≤ va < 2 ^ 32 → page_dir_index va < 1023 →
       walk (ram s6) (cr3 s6) va =
       if decide (slot s6 va = slot s6 olddir_virt ∨ slot s6 va = slot s6 newdir_virt)
       then None else walk (ram s) (cr3 s) va).
Proof.
  intros Hs Hf Hso Hsn Hwin.
  destruct (frame_addr n (proj1 Hf)) as (Hnb & Hnfr & _).
  pose proof (page_entry_range _ PAGE_PRESENT Hnb) as Her.
  pose proof (foreign_steps_store n s s 1023 _ (foreign_steps_refl n s Hs Hf)
    ltac:(lia) Her) as Hst.
  assert (Hv4 : vstore (u32 (newdir_virt + 4 * 1023)) (page_entry (PAGE_SIZE * n) PAGE_PRESENT) s
     = Ok (MM (<[PAGE_SIZE * n + 4 * 1023 := page_entry (PAGE_SIZE * n) PAGE_PRESENT]> (ram s))
             (cr3 s) (frames s))).
  { unfold vstore. by rewrite Hwin by lia. }
  set (s4 := MM _ _ _) in *. destruct Hst as [Hi4 Hf4 Hc4 Hfr4 Hp4 Hw4].
  assert (Hsl4 : ∀ va, 0 ≤ va < 2 ^ 32 → slot s4 va = slot s va).
  { intros va Hva. by apply slot_pde. }
  destruct (paging_unmap_step s4 olddir_virt n Hi4 Hf4 ltac:(by vm_compute) ltac:(by vm_compute))
    as (s5 & Hm5 & Hi5 & Hf5 & Hc5 & Hfr5 & Hp5 & Hl5 & Hw5).
  { by rewrite Hsl4 by by vm_compute. }
  assert (Hsl5 : ∀ va, 0 ≤ va < 2 ^ 32 → slot s5 va = slot s va).
  { intros va Hva. rewrite (slot_pde s4 s5) by done. by apply Hsl4. }
  destruct (paging_unmap_step s5 newdir_virt n Hi5 Hf5 ltac:(by vm_compute) ltac:(by vm_compute))
    as (s6 & Hm6 & Hi6 & Hf6 & Hc6 & Hfr6 & Hp6 & Hl6 & Hw6).
  { by rewrite Hsl5 by by vm_compute. }
  assert (Hsl6 : ∀ va, 0 ≤ va < 2 ^ 32 → slot s6 va = slot s5 va).
  { intros va Hva. by apply slot_pde. }
  exists s4, s5, s6. do 5 (split; [done|]). split; [by rewrite Hc6, Hc5|].
  split; [by rewrite Hfr6, Hfr5|]. split; [|split; [|split]].
  - intros k Hk. by rewrite Hp6, Hp5, Hp4.
  - intros k Hk. rewrite Hl6, Hl5 by lia. unfold ld, s4. simpl.
    by rewrite arr_insert_ne by lia.
  - rewrite Hl6, Hl5 by lia. unfold ld, s4. cbn [ram]. by rewrite arr_insert_eq.
  - intros va Hva Hi. rewrite Hw6 by done. case_decide as H1.
    { by rewrite decide_True by tauto. }
    rewrite Hw5 by done. rewrite <- (Hsl6 va Hva), <- (Hsl6 olddir_virt ltac:(by vm_compute)).
    case_decide as H2.
    { by rewrite decide_True by tauto. }
    rewrite decide_False by tauto. by apply Hw4.
Qed.

Lemma page_dir_clone_ok s olddir :
  paging_inv s → frame_of olddir = frame_of (cr3 s) → 0 ≤ olddir < 2 ^ 32 →
  frames_left 3 (frames s) →
  ∃ n s', page_dir_clone olddir s = Ok (PAGE_SIZE * n, s') ∧ frame_free (frames s) n ∧
    paging_inv s' ∧ foreign s' n ∧ cr3 s' = cr3 s ∧
    (∀ k, 0 ≤ k < 1023 → ld (ram s') (PAGE_SIZE * n + 4 * k) = pde s' k) ∧
    ld (ram s') (PAGE_SIZE * n + 4 * 1023) = page_entry (PAGE_SIZE * n) PAGE_PRESENT ∧
    kept 3 s s' ∧ slot s' olddir_virt ≠ None ∧ slot s' newdir_virt ≠ None ∧
    (∀ va, 0 ≤ va < 2 ^ 32 → page_dir_index va < 1023 →
       walk (ram s') (cr3 s') va =
       if decide (slot s' va = slot s' olddir_virt ∨ slot s' va = slot s' newdir_virt)
       then None else walk (ram s) (cr3 s) va).
Proof.
  intros Hs Hold Holdb Hleft.
  destruct (clone_windows s olddir Hs Hold Holdb Hleft)
    as (n & s1 & s2 & s3 & Ha & Hnf & Hm2 & Hm3 & Hi3 & Hf3 & Hc3 & Hso & Hsn & Hwo & Hwn & Hk3 & Hw3).
  rewrite <- Hc3 in Hwo.
  destruct (clone_loop s3 n Hi3 Hf3 Hwo Hwn) as (s4 & Hloop & Hst & Hcopy).
  assert (Hslot : ∀ va, 0 ≤ va < 2 ^ 32 → slot s4 va = slot s3 va).
  { intros va Hva. apply slot_pde; [done|]. apply (fs_pde _ _ _ Hst). }
  destruct (clone_finish s4 n (fs_inv _ _ _ Hst) (fs_foreign _ _ _ Hst))
    as (s5 & s6 & s7 & Hv5 & Hm6 & Hm7 & Hi7 & Hf7 & Hc7 & Hfr7 & Hp7 & Hl7 & Hself & Hw7);
    [by rewrite Hslot by by vm_compute|by rewrite Hslot by by vm_compute| |].
  { by apply (window_steps n s3); [|by vm_compute|done|by vm_compute|]. }
  assert (Hslot7 : ∀ va, 0 ≤ va < 2 ^ 32 → slot s7 va = slot s3 va).
  { intros va Hva. rewrite (slot_pde s4) by done. by apply Hslot. }
  exists n, s7. split.
  { unfold page_dir_clone. rewrite Ha. simpl. fold (frame_of olddir). rewrite Hm2. simpl.
    fold (frame_of (PAGE_SIZE * n)). rewrite Hm3. cbn [mbind res_bind]. rewrite Hloop.
    cbn [mbind res_bind]. rewrite Hv5. cbn [mbind res_bind]. rewrite Hm6.
    cbn [mbind res_bind]. by rewrite Hm7. }
  split; [done|]. split; [done|]. split; [done|].
  split; [by rewrite Hc7, (fs_cr3 _ _ _ Hst)|].
  split; [|split; [done|split; [|split; [|split]]]].
  - intros k Hk. rewrite Hl7, Hcopy, Hp7 by lia. symmetry. apply (fs_pde _ _ _ Hst). lia.
  - apply (kept_trans 3 0 s s3); [done|]. apply (kept_trans 0 0 s3 s4).
    + apply kept_same; [apply (fs_pde _ _ _ Hst)|apply (fs_frames _ _ _ Hst)].
    + by apply kept_same.
  - by rewrite Hslot7 by by vm_compute.
  - by rewrite Hslot7 by by vm_compute.
  - intros va Hva Hi. rewrite Hw7 by done. case_decide as Hd; [done|].
    rewrite (proj2 (fs_walk _ _ _ Hst va Hva Hi)).
    rewrite (Hslot7 va Hva), (Hslot7 olddir_virt ltac:(by vm_compute)),
      (Hslot7 newdir_virt ltac:(by vm_compute)) in Hd.
    apply Hw3; [done|done|tauto|tauto].
Qed.

(** The directory in frame [n], which is not loaded, and the loaded one: neither
    is part of the other. *)
Record two_dirs (s : mm F) (n : Z) : Prop := {
  td_inv : paging_inv s;
  td_other : paging_inv (page_dir_switch (PAGE_SIZE * n) s);
  td_foreign : foreign s n;
  td_apart : ∀ k, 0 ≤ k < 1023 →
    present (pde (page_dir_switch (PAGE_SIZE * n) s) k) = true →
    frame_of (pde (page_dir_switch (PAGE_SIZE * n) s) k) ≠ frame_of (cr3 s)
}.

(** Where [paging_map] writes when it installs a table. *)
Lemma paging_map_new_table s virt phys flags :
  paging_inv s → 0 ≤ virt < 2 ^ 32 → page_dir_index virt < 1023 → 0 ≤ phys < 2 ^ 32 →
  present (pde s (page_dir_index virt)) = false → (∃ p, frame_free (frames s) p) →
  ∃ s' q, paging_map virt phys flags s = Ok s' ∧ 0 ≤ q < PAGES ∧ frame_free (frames s) q ∧
    ram_same (λ a, a = frame_of (cr3 s) + 4 * page_dir_index virt ∨
                   ∃ j, 0 ≤ j < 1024 ∧ a = PAGE_SIZE * q + 4 * j) s s'.
Proof.
  intros Hs Hv Hi Hp He Hfree.
  destruct (paging_map_ok s virt phys flags Hs Hv Hi Hp (or_intror Hfree))
    as (s1 & s' & a & Heq & Hcase & Ha & Hs' & _ & _).
  destruct (index_bounds virt Hv) as [Hi0 Hj].
  destruct Hcase as [->|(_ & q & Hq & Hqf & Hft)].
  { exfalso. unfold slot in Ha. by rewrite He in Ha. }
  exists s', q. split; [done|]. split; [done|]. split; [done|]. intros b Hb.
  rewrite <- (ft_same _ _ _ _ Hft b Hb), Hs'. unfold ld. cbn [ram]. rewrite arr_insert_ne; [done|].
  intros <-. apply Hb. right. exists (page_table_index virt). split; [done|].
  unfold slot in Ha. rewrite (ft_present _ _ _ _ Hft), (ft_frame _ _ _ _ Hft) in Ha. congruence.
Qed.

Lemma private_table s n virt phys flags :
  two_dirs s n → 0 ≤ virt < 2 ^ 32 → page_dir_index virt < 1023 → 0 ≤ phys < 2 ^ 32 →
  present (pde s (page_dir_index virt)) = false → (∃ p, frame_free (frames s) p) →
  ∃ s', paging_map virt phys flags s = Ok s' ∧
    ∀ va, 0 ≤ va < 2 ^ 32 → page_dir_index va < 1023 →
      walk (ram s') (PAGE_SIZE * n) va = walk (ram s) (PAGE_SIZE * n) va.
Proof.
  intros [Hs Ho (Hn & Hnf & Hnd & _) Hap] Hv Hi Hp He Hfree.
  destruct (paging_map_new_table s virt phys flags Hs Hv Hi Hp He Hfree)
    as (s' & q & Heq & Hq & Hqf & Hsame).
  destruct (frame_addr n Hn) as (Hnb & Hnfr & Hndiv).
  destruct (frame_addr q Hq) as (Hqb & Hqfr & Hqdiv).
  destruct (index_bounds virt Hv) as [Hi0 _].
  exists s'. split; [done|]. intros va Hva Hvi. destruct (index_bounds va Hva) as [Hj0 Hj1].
  set (o := page_dir_switch (PAGE_SIZE * n) s) in *.
  assert (Hpde : ld (ram s') (PAGE_SIZE * n + 4 * page_dir_index va) = pde o (page_dir_index va)).
  { unfold pde, o. cbn [ram cr3 page_dir_switch]. rewrite Hnfr. apply Hsame.
    intros [Hb|(j & Hj & Hb)]; revert Hb.
    - rewrite <- Hnfr. frame_ne; by rewrite ?Hnfr.
    - rewrite <- Hnfr, <- Hqfr. frame_ne. rewrite Hnfr, Hqfr. intros Hnq. apply Hnf.
      by rewrite <- Hndiv, Hnq, Hqdiv. }
  rewrite !walk_eq, Hnfr, Hpde. unfold pde, o. cbn [ram cr3 page_dir_switch]. rewrite Hnfr.
  fold (present (ld (ram s) (PAGE_SIZE * n + 4 * page_dir_index va))).
  destruct (present (ld (ram s) (PAGE_SIZE * n + 4 * page_dir_index va))) eqn:Hpr; [|done].
  assert (Hpo : pde o (page_dir_index va) = ld (ram s) (PAGE_SIZE * n + 4 * page_dir_index va)).
  { unfold pde, o. cbn [ram cr3 page_dir_switch]. by rewrite Hnfr. }
  rewrite <- Hpo in Hpr |- *.
  destruct (inv_tables o Ho _ (conj (proj1 Hj0) Hvi) Hpr) as [_ Htf].
  rewrite Hsame; [done|]. intros [Hb|(j & Hj & Hb)]; revert Hb.
  - frame_ne. exact (Hap _ (conj (proj1 Hj0) Hvi) Hpr).
  - rewrite <- Hqfr. frame_ne. rewrite Hqfr. intros Htq. apply Htf. by rewrite Htq, Hqdiv.
Qed.

End MachineLemmas.

(** A machine whose directory, at 0x10000, has only its recursive entry. *)
Definition bare (fr : Palloc.palloc) : mm Palloc.palloc :=
  MM (<[0x10000 + 4 * 1023 := 0x10007]> ∅) 0x10000 fr.

Lemma bare_inv fr :
  Palloc.palloc_ok fr → ¬ Palloc.page_free fr 16 → paging_inv (bare fr).
Proof.
  intros Hok Hbusy. split.
  - intros a. unfold ld. simpl. rewrite arr_insert. case_decide; [|rewrite arr_empty]; lia.
  - by vm_compute.
  - by vm_compute.
  - intros i Hi Hp. exfalso. unfold present, pde, ld in Hp. simpl in Hp.
    rewrite arr_insert_ne, arr_empty in Hp by (change (frame_of 65536) with 65536; lia).
    done.
  - exact Hbusy.
  - exact Hok.
Qed.

Definition bare_mm : mm Palloc.palloc := bare Palloc.three_frames.

Lemma bare_mm_inv : paging_inv bare_mm.
Proof.
  apply bare_inv; [apply Palloc.three_frames_ok|]. intros [_ Hb]. by vm_compute in Hb.
Qed.

Lemma bare_mm_free : ∃ p, frame_free (frames bare_mm) p.
Proof. apply (frames_left_some 2), Palloc.three_frames_left. Qed.

(** ** Properties *)

(** C1. [paging_map] makes [virt] translate to the frame of [phys] exactly
    when [flags] has PAGE_PRESENT (the offset in the page is kept), and
    changes no translation of an address that does not share the table entry
    of [virt]; it keeps the invariant of the page tables, installing a zeroed
    table from a free frame when the directory entry was empty.  When no two
    directory entries in use share a table, these are the addresses of the
    other pages. *)
Theorem paging_map_translates `{FrameAlloc F} (s : mm F) virt phys flags :
  paging_inv s → 0 ≤ virt < 2 ^ 32 → page_dir_index virt < 1023 → 0 ≤ phys < 2 ^ 32 →
  (present (pde s (page_dir_index virt)) = true ∨ ∃ p, frame_free (frames s) p) →
  ∃ s', paging_map virt phys flags s = Ok s' ∧ paging_inv s' ∧ cr3 s' = cr3 s ∧
    walk (ram s') (cr3 s') virt
      = (if Z.odd flags then Some (frame_of phys + virt mod 4096) else None) ∧
    (∀ va, 0 ≤ va < 2 ^ 32 → page_dir_index va < 1023 →
       slot s' va ≠ slot s' virt → walk (ram s') (cr3 s') va = walk (ram s) (cr3 s) va) ∧
    ((∀ k, 0 ≤ k < 1023 → k ≠ page_dir_index virt → present (pde s' k) = true →
        frame_of (pde s' k) ≠ frame_of (pde s' (page_dir_index virt))) →
     ∀ va, 0 ≤ va < 2 ^ 32 → page_dir_index va < 1023 → va / 4096 ≠ virt / 4096 →
       walk (ram s') (cr3 s') va = walk (ram s) (cr3 s) va).
Proof.
  intros Hs Hv Hi Hp Hfree.
  destruct (paging_map_walk s virt phys flags Hs Hv Hi Hp Hfree)
    as (s' & Heq & Hinv & Hc & Hsl & Hw).
  assert (Hother : ∀ va, 0 ≤ va < 2 ^ 32 → page_dir_index va < 1023 →
    slot s' va ≠ slot s' virt → walk (ram s') (cr3 s') va = walk (ram s) (cr3 s) va).
  { intros va Hva Hd Hne. by rewrite Hw, decide_False. }
  exists s'. do 3 (split; [done|]). split; [by rewrite Hw, decide_True|]. split; [done|].
  intros Hnoshare va Hva Hd Hpage. apply Hother; [done|done|]. intros Hse.
  destruct (slot_inj s' va virt) as [Hf Ht];
    [done|done|by apply pde_range|by apply pde_range|done|by rewrite Hse|].
  destruct (decide (page_dir_index va = page_dir_index virt)) as [Hii|Hii].
  - apply Hpage. by apply index_page.
  - assert (He : present (pde s' (page_dir_index va)) = true).
    { rewrite <- Hse in Hsl. unfold slot in Hsl.
      by destruct (present (pde s' (page_dir_index va))). }
    destruct (index_bounds va Hva) as [Hk _].
    by apply (Hnoshare _ (conj (proj1 Hk) Hd) Hii He).
Qed.

Lemma paging_map_translates_witness :
  ∃ s', paging_map 0x00a00123 0x00777000 7 bare_mm = Ok s' ∧
    walk (ram s') (cr3 s') 0x00a00123 = Some 0x00777123.
Proof.
  destruct (paging_map_translates bare_mm 0x00a00123 0x00777000 7 bare_mm_inv)
    as (s' & H & _ & _ & Hw & _);
    [by vm_compute|by vm_compute|by vm_compute|right; apply bare_mm_free|].
  exists s'. exact (conj H Hw).
Defined.

(** [paging_is_mapped] and [paging_get_phys] agree with the processor's
    translation: the first answers 1 exactly for the addresses that
    translate, the second returns the address of the frame the address is
    mapped to, and 0 when it is not mapped; neither faults. *)
Theorem paging_queries_agree `{FrameAlloc F} (s : mm F) va :
  paging_inv s → 0 ≤ va < 2 ^ 32 →
  paging_is_mapped va s = Ok (if walk (ram s) (cr3 s) va then 1 else 0) ∧
  paging_get_phys va s
    = Ok (match walk (ram s) (cr3 s) va with Some pa => pa - va mod 4096 | None => 0 end).
Proof.
  intros Hs Hv. split; [by apply paging_is_mapped_walk|by apply paging_get_phys_walk].
Qed.

Lemma paging_queries_agree_witness :
  paging_is_mapped 0xFFFFF123 bare_mm = Ok 1 ∧
  paging_get_phys 0xFFFFF123 bare_mm = Ok 0x10000.
Proof. exact (paging_queries_agree bare_mm 0xFFFFF123 bare_mm_inv ltac:(by vm_compute)). Defined.

(** C11. [page_dir_clone] of the current directory, with three free frames,
    returns the address of a frame that was free and now holds a directory
    which translates every address below the recursive window as the current
    one does, and which the kernel can switch to: the invariant of the page
    tables holds with it in [cr3].  The current directory translates as
    before except that the two scratch pages are left unmapped. *)
Theorem page_dir_clone_shares `{FrameAlloc F} (s : mm F) olddir :
  paging_inv s → frame_of olddir = frame_of (cr3 s) → 0 ≤ olddir < 2 ^ 32 →
  frames_left 3 (frames s) →
  ∃ n s', page_dir_clone olddir s = Ok (PAGE_SIZE * n, s') ∧ frame_free (frames s) n ∧
    paging_inv s' ∧ cr3 s' = cr3 s ∧
    paging_inv (page_dir_switch (PAGE_SIZE * n) s') ∧
    (∀ va, 0 ≤ va < 2 ^ 32 → page_dir_index va < 1023 →
       walk (ram s') (PAGE_SIZE * n) va = walk (ram s') (cr3 s') va) ∧
    (∀ va, 0 ≤ va < 2 ^ 32 → page_dir_index va < 1023 →
       walk (ram s') (cr3 s') va =
       if decide (slot s' va = slot s' olddir_virt ∨ slot s' va = slot s' newdir_virt)
       then None else walk (ram s) (cr3 s) va).
Proof.
  intros Hs Hold Holdb Hleft.
  destruct (page_dir_clone_ok s olddir Hs Hold Holdb Hleft)
    as (n & s' & Heq & Hnf & Hi & Hf & Hc & Hcopy & Hself & _ & _ & _ & Hw).
  destruct (frame_addr n (proj1 Hf)) as (Hnb & Hnfr & Hnd).
  assert (Hpde : ∀ k, 0 ≤ k < 1023 → pde (page_dir_switch (PAGE_SIZE * n) s') k = pde s' k).
  { intros k Hk. unfold pde at 1. simpl. rewrite Hnfr. by apply Hcopy. }
  assert (Hself' : pde (page_dir_switch (PAGE_SIZE * n) s') 1023
                   = page_entry (PAGE_SIZE * n) PAGE_PRESENT).
  { unfold pde. simpl. by rewrite Hnfr. }
  exists n, s'. do 4 (split; [done|]). split; [|split; [|done]].
  - destruct Hf as (Hn & Hfn & Hfd & Hft). destruct Hi as [Hw' Hc' Hse Ht Hd Hfr].
    split; try done.
    + rewrite Hself'. simpl. rewrite frame_of_page_entry by done.
      split; [|done]. by rewrite present_page_entry by done.
    + intros k Hk. rewrite Hpde by done. intros Hp. simpl. rewrite Hnfr.
      split; [by apply Hft|]. by apply Ht.
    + simpl. by rewrite Hnfr, Hnd.
  - intros va Hva Hd. destruct (index_bounds va Hva) as [Hi0 _].
    rewrite !walk_eq, Hnfr, Hcopy by lia. done.
Qed.

Lemma page_dir_clone_shares_witness :
  ∃ n s', page_dir_clone 0x10007 bare_mm = Ok (PAGE_SIZE * n, s') ∧
    paging_inv (page_dir_switch (PAGE_SIZE * n) s').
Proof.
  destruct (page_dir_clone_shares bare_mm 0x10007 bare_mm_inv)
    as (n & s' & H & _ & _ & _ & Hi & _);
    [by vm_compute|by vm_compute|apply Palloc.three_frames_left|].
  exists n, s'. exact (conj H Hi).
Defined.

(** C20. A page mapped where the loaded directory has no table yet is mapped in
    that directory only: every address translates as before in another
    directory, such as the one of another process - or, for a page the kernel
    adds to its heap, in the directories cloned before. *)
Theorem mappings_private `{FrameAlloc F} (s : mm F) n virt phys flags :
  two_dirs s n → 0 ≤ virt < 2 ^ 32 → page_dir_index virt < 1023 → 0 ≤ phys < 2 ^ 32 →
  present (pde s (page_dir_index virt)) = false → (∃ p, frame_free (frames s) p) →
  ∃ s', paging_map virt phys flags s = Ok s' ∧ cr3 s' = cr3 s ∧
    walk (ram s') (cr3 s') virt
      = (if Z.odd flags then Some (frame_of phys + virt mod 4096) else None) ∧
    ∀ va, 0 ≤ va < 2 ^ 32 → page_dir_index va < 1023 →
      walk (ram s') (PAGE_SIZE * n) va = walk (ram s) (PAGE_SIZE * n) va.
Proof.
  intros Htd Hv Hi Hp He Hfree.
  destruct (paging_map_walk s virt phys flags (td_inv _ _ Htd) Hv Hi Hp (or_intror Hfree))
    as (s' & Heq & _ & Hc & _ & Hw).
  destruct (private_table s n virt phys flags Htd Hv Hi Hp He Hfree) as (s2 & Heq2 & Hother).
  assert (s2 = s') as -> by congruence.
  exists s'. split; [done|]. split; [done|]. split; [by rewrite Hw, decide_True|done].
Qed.

(** Two empty directories, at 0x10000 and 0x12000. *)
Definition twin_mm : mm Palloc.palloc :=
  MM (<[0x10000 + 4 * 1023 := 0x10007]> (<[0x12000 + 4 * 1023 := 0x12001]> ∅))
    0x10000 Palloc.three_frames.

Lemma twin_words a : 0 ≤ ld (ram twin_mm) a < 2 ^ 32.
Proof.
  unfold ld, twin_mm. cbn [ram]. rewrite !arr_insert. repeat case_decide; [lia|lia|].
  rewrite arr_empty. lia.
Qed.

Lemma twin_pde c i : (c = 0x10000 ∨ c = 0x12000) → 0 ≤ i < 1023 →
  present (pde (page_dir_switch c twin_mm) i) = false.
Proof.
  intros Hc Hi. unfold pde, ld, twin_mm. cbn [ram cr3 page_dir_switch].
  destruct Hc as [-> | ->]; [change (frame_of 0x10000) with 0x10000|
    change (frame_of 0x12000) with 0x12000]; by rewrite !arr_insert_ne, arr_empty by lia.
Qed.

Lemma twin_inv c : (c = 0x10000 ∨ c = 0x12000) → paging_inv (page_dir_switch c twin_mm).
Proof.
  intros Hc. split.
  - exact twin_words.
  - destruct Hc as [-> | ->]; by vm_compute.
  - destruct Hc as [-> | ->]; by vm_compute.
  - intros i Hi Hp. by rewrite twin_pde in Hp.
  - intros [_ Hb]. destruct Hc as [-> | ->]; by vm_compute in Hb.
  - apply Palloc.three_frames_ok.
Qed.

Lemma twin_two_dirs : two_dirs twin_mm 18.
Proof.
  split.
  - apply (twin_inv 0x10000). by left.
  - apply (twin_inv 0x12000). by right.
  - split; [by vm_compute|]. split; [intros [_ Hb]; by vm_compute in Hb|].
    split; [by vm_compute|]. intros k Hk Hp.
    change twin_mm with (page_dir_switch 0x10000 twin_mm) in Hp.
    rewrite twin_pde in Hp; [discriminate Hp|by left|done].
  - intros k Hk Hp. change (PAGE_SIZE * 18) with 0x12000 in Hp.
    rewrite twin_pde in Hp; [discriminate Hp|by right|done].
Qed.

Lemma mappings_private_witness :
  ∃ s', paging_map 0xC3000000 0x7000 3 twin_mm = Ok s' ∧
    walk (ram s') 0x10000 0xC3000000 = Some 0x7000 ∧ walk (ram s') 0x12000 0xC3000000 = None.
Proof.
  destruct (mappings_private twin_mm 18 0xC3000000 0x7000 3 twin_two_dirs)
    as (s' & Heq & Hc & Hown & Hother);
    [by vm_compute|by vm_compute|by vm_compute|reflexivity|
     exact (frames_left_some 2 _ Palloc.three_frames_left)|].
  exists s'. split; [exact Heq|]. split.
  - change 0x10000 with (cr3 twin_mm). rewrite <- Hc, Hown. reflexivity.
  - change 0x12000 with (PAGE_SIZE * 18). rewrite Hother;
      [reflexivity|split; [discriminate|reflexivity]|reflexivity].
Defined.

End Paging.
