(* ===== verification/KList.v ===== *)
(** Singly linked FIFO lists (kernel/list.c).

    [klist] is [struct list]; the elements live in a heap shared by all
    lists.  [chain] describes a [next]-linked chain of elements, [list_rep]
    a list that holds a given sequence of targets, together with its private
    list of free elements.  [list_push] and [list_pop] are proved to be the
    operations of a FIFO queue under [list_rep], and a family of lists in one
    heap is proved to be a [QueueStore].  [NEW_elem] asks an [ObjAlloc]; on the
    running kernel the element of a push is an object of the kernel's heap that
    the list is given first (System.v), and [list_push_given] shows that a push
    which asks for one and a push after it was given one are the same. *)

From Stdlib Require Import ZArith Lia.
From stdpp Require Import base option list gmap.
From S2P Require Import Prelude Interfaces Locks.

Module KList.

Record list_elem := Elem { target : Z; next : Z }.

Record klist := KL { size : Z; lock : Z; head : Z; tail : Z; free : Z }.

(** [struct list] filled with zeroes. *)
Definition klist0 : klist := KL 0 0 0 0 0.

Section ListOps.
Context {A : Type} `{ObjAlloc A}.

(** The heap of list elements and the allocator behind [NEW]. *)
Record lmem := LM { elems : gmap Z list_elem; alloc : A }.

Definition get_elem (a : Z) (m : lmem) : res list_elem :=
  match elems m !! a with Some e => Ok e | None => Fault end.

Definition set_elem (a : Z) (e : list_elem) (m : lmem) : res lmem :=
  match elems m !! a with
  | Some _ => Ok (LM (<[a := e]> (elems m)) (alloc m))
  | None => Fault
  end.

(** [NEW(struct list_elem)] *)
Definition NEW_elem (m : lmem) : res (Z * lmem) :=
  '(a, al) ← obj_new (alloc m); Ok (a, LM (<[a := Elem 0 0]> (elems m)) al).

Definition list_lock (this : klist) : res klist :=
  l ← Locks.section_enter (lock this);
  Ok (KL (size this) l (head this) (tail this) (free this)).

Definition list_unlock (this : klist) : klist :=
  KL (size this) (Locks.section_leave (lock this)) (head this) (tail this) (free this).

Definition set_free (f : Z) (this : klist) : klist :=
  KL (size this) (lock this) (head this) (tail this) f.
Definition set_ends (h t : Z) (this : klist) : klist :=
  KL (size this) (lock this) h t (free this).
Definition set_size (n : Z) (this : klist) : klist :=
  KL n (lock this) (head this) (tail this) (free this).

Definition list_elem_new (this : klist) (tgt : Z) (m : lmem) : res (Z * klist * lmem) :=
  '(result, this, m) ←
    (if bool_decide (free this ≠ 0) then
       let result := free this in
       e ← get_elem (free this) m;
       Ok (result, set_free (next e) this, m)
     else
       '(result, m) ← NEW_elem m; Ok (result, this, m));
  _ ← get_elem result m;
  m ← set_elem result (Elem tgt 0) m;
  Ok (result, this, m).

Definition list_elem_delete (this : klist) (a : Z) (m : lmem) : res (klist * lmem) :=
  _ ← get_elem a m;
  m ← set_elem a (Elem 0 (free this)) m;
  Ok (set_free a this, m).

Definition list_push (this : klist) (tgt : Z) (m : lmem) : res (klist * lmem) :=
  this ← list_lock this;
  '(elem, this, m) ← list_elem_new this tgt m;
  '(this, m) ←
    (if bool_decide (tail this = 0) then Ok (set_ends elem elem this, m)
     else
       e ← get_elem (tail this) m;
       m ← set_elem (tail this) (Elem (target e) elem) m;
       Ok (set_ends (head this) elem this, m));
  let this := set_size (s32 (size this + 1)) this in
  Ok (list_unlock this, m).

Definition list_pop (this : klist) (m : lmem) : res (Z * klist * lmem) :=
  if bool_decide (size this = 0) then Ok (0, this, m) else
  this ← list_lock this;
  let elem := head this in
  this ← (if bool_decide (head this = tail this) then Ok (set_ends 0 0 this)
          else
            e ← get_elem (head this) m;
            Ok (set_ends (next e) (tail this) this));
  '(result, this, m) ←
    (if bool_decide (elem ≠ 0) then
       e ← get_elem elem m;
       '(this, m) ← list_elem_delete this elem m;
       Ok (target e, this, m)
     else Ok (0, this, m));
  let this := if bool_decide (result ≠ 0) then set_size (s32 (size this - 1)) this
              else this in
  Ok (result, list_unlock this, m).

Definition list_size (this : klist) : Z := size this.

(** The turn of [list_prealloc] on the object at [elem]: the element is filled
    with zeroes, as [NEW] leaves it, and becomes a spare one. *)
Definition list_give (this : klist) (elem : Z) (m : lmem) : res (klist * lmem) :=
  list_elem_delete this elem (LM (<[elem := Elem 0 0]> (elems m)) (alloc m)).

Definition list_prealloc (this : klist) (count : Z) (m : lmem) : res (klist * lmem) :=
  for_upto count (λ _ '(this, m),
    '(elem, m) ← NEW_elem m;
    list_elem_delete this elem m) (this, m).

(** ** Representation *)

(** From [p] the [next] pointers lead through the addresses [ps], whose
    elements carry the targets [ts], to null. *)
Fixpoint chain (h : gmap Z list_elem) (p : Z) (ps ts : list Z) : Prop :=
  match ps, ts with
  | [], [] => p = 0
  | a :: ps, t :: ts =>
      p = a ∧ a ≠ 0 ∧ ∃ n, h !! a = Some (Elem t n) ∧ chain h n ps ts
  | _, _ => False
  end.

(** The list holds [ts]: its elements are at [qs], its spare ones at [fs]. *)
Record list_body (this : klist) (m : lmem) (qs fs ts : list Z) : Prop := {
  lr_chain : chain (elems m) (head this) qs ts;
  lr_tail : tail this = default 0 (last qs);
  lr_free : chain (elems m) (free this) fs (replicate (length fs) 0);
  lr_nodup : NoDup (qs ++ fs);
  lr_size : size this = Z.of_nat (length ts)
}.

(** ... and nobody is working on it. *)
Definition list_rep (this : klist) (m : lmem) (qs fs ts : list Z) : Prop :=
  list_body this m qs fs ts ∧ lock this = 0.

(** An operation on a list that owns [own] leaves the other elements alone;
    the elements it owns afterwards, [own'], are its own or fresh. *)
Definition frame (own own' : list Z) (m m' : lmem) : Prop :=
  (∀ b, b ∉ own → is_Some (elems m !! b) → elems m' !! b = elems m !! b) ∧
  (∀ b, b ∈ own' → b ∈ own ∨ elems m !! b = None).

(** The heap agrees with the allocator. *)
Definition lmem_ok (m : lmem) : Prop :=
  obj_ok (alloc m) ∧ ∀ a, is_Some (elems m !! a) ↔ obj_live (alloc m) a.

(** ** Lemmas *)

Lemma chain_length h p ps ts : chain h p ps ts → length ps = length ts.
Proof.
  revert p ts. induction ps as [|a ps IH]; intros p [|t ts]; try done.
  intros (_ & _ & n & _ & Hc). simpl. f_equal. by eapply IH.
Qed.

Lemma chain_null h ps ts : chain h 0 ps ts → ps = [] ∧ ts = [].
Proof. destruct ps as [|a ps], ts as [|t ts]; try done. intros (<- & ? & _). done. Qed.

Lemma chain_elem h p ps ts a :
  chain h p ps ts → a ∈ ps → a ≠ 0 ∧ is_Some (h !! a).
Proof.
  revert p ts. induction ps as [|b ps IH]; intros p [|t ts]; try done;
    [intros _ Hin; by apply not_elem_of_nil in Hin|].
  intros (-> & Hb & n & Hl & Hc) [->|Hin]%elem_of_cons; [by eauto|]. by eapply IH.
Qed.

(** A chain only depends on the heap at its own elements. *)
Lemma chain_agree h h' p ps ts :
  (∀ a, a ∈ ps → h' !! a = h !! a) → chain h p ps ts → chain h' p ps ts.
Proof.
  revert p ts. induction ps as [|b ps IH]; intros p [|t ts] Heq; try done.
  intros (-> & Hb & n & Hl & Hc). split; [done|]. split; [done|]. exists n.
  split; [rewrite Heq by set_solver; done|]. apply IH; [|done]. intros a Ha. apply Heq. set_solver.
Qed.

Lemma chain_insert h p ps ts a e :
  a ∉ ps → chain h p ps ts → chain (<[a := e]> h) p ps ts.
Proof.
  intros Ha. apply chain_agree. intros b Hb. apply lookup_insert_ne. set_solver.
Qed.

Lemma get_elem_Some m a e : elems m !! a = Some e → get_elem a m = Ok e.
Proof. intros He. unfold get_elem. by rewrite He. Qed.

Lemma set_elem_Some m a e :
  is_Some (elems m !! a) → set_elem a e m = Ok (LM (<[a := e]> (elems m)) (alloc m)).
Proof. intros [e' He]. unfold set_elem. by rewrite He. Qed.

Lemma lmem_ok_insert m a e :
  lmem_ok m → is_Some (elems m !! a) → lmem_ok (LM (<[a := e]> (elems m)) (alloc m)).
Proof.
  intros [Ho Hl] Ha. split; [done|]. intros b. simpl. rewrite <- Hl.
  destruct (decide (a = b)) as [<-|].
  - rewrite lookup_insert_eq. split; [done|by eauto].
  - by rewrite lookup_insert_ne.
Qed.

(** Linking a new element behind the last one. *)
Lemma chain_snoc h p ps ts a t :
  chain h p ps ts → a ≠ 0 → a ∉ ps → NoDup ps → h !! a = Some (Elem t 0) →
  ∃ z, last ps = None ∧ chain h a [a] [t] ∨
       last ps = Some z ∧ z ≠ 0 ∧ ∃ tz nz, h !! z = Some (Elem tz nz) ∧
         chain (<[z := Elem tz a]> h) p (ps ++ [a]) (ts ++ [t]).
Proof.
  revert p ts. induction ps as [|b ps IH]; intros p [|t1 ts]; try done.
  - intros _ Ha _ _ Hl. exists 0. left. split; [done|]. split; [done|]. split; [done|].
    by exists 0.
  - intros (-> & Hb & n & Hbl & Hc) Ha Hnin Hnd Hl.
    apply not_elem_of_cons in Hnin as [Hab Hnin].
    apply NoDup_cons in Hnd as [Hbn Hnd].
    destruct (IH n ts Hc Ha Hnin Hnd Hl) as (z & [[Hlast _]|(Hlast & Hz & tz & nz & Hzl & Hcz)]).
    + apply last_None in Hlast as ->. destruct ts as [|? ts]; [|done].
      exists b. right. split; [done|]. split; [done|]. exists t1, n. split; [done|].
      simpl. split; [done|]. split; [done|]. exists a.
      rewrite lookup_insert_eq. split; [done|]. split; [done|]. split; [done|]. exists 0.
      by rewrite lookup_insert_ne.
    + exists z. right. rewrite last_cons, Hlast. split; [done|]. split; [done|].
      exists tz, nz. split; [done|]. simpl. split; [done|]. split; [done|]. exists n.
      assert (z ≠ b).
      { intros ->. apply Hbn. by apply last_Some_elem_of in Hlast. }
      by rewrite lookup_insert_ne.
Qed.

Lemma chain_nodes h p ps ts :
  chain h p ps ts → p = hd 0 ps ∧ 0 ∉ ps.
Proof.
  revert p ts. induction ps as [|b ps IH]; intros p [|t ts]; try done.
  - intros ->. split; [done|]. apply not_elem_of_nil.
  - intros (-> & Hb & n & _ & Hc). split; [done|]. destruct (IH _ _ Hc). set_solver.
Qed.

Lemma frame_refl own m : frame own own m m.
Proof. split; [done|]. by left. Qed.

Lemma frame_trans own1 own2 own3 m1 m2 m3 :
  frame own1 own2 m1 m2 → frame own2 own3 m2 m3 →
  (∀ b, is_Some (elems m1 !! b) → is_Some (elems m2 !! b)) →
  frame own1 own3 m1 m3.
Proof.
  intros [Hk1 Hn1] [Hk2 Hn2] Hdom. split.
  - intros b Hb Hs. rewrite Hk2; [by apply Hk1| |by apply Hdom].
    intros Hin. destruct (Hn1 b Hin) as [|Hnone]; [done|]. rewrite Hnone in Hs.
    by destruct Hs.
  - intros b Hb. destruct (Hn2 b Hb) as [Hin|Hnone]; [by apply Hn1|].
    right. apply eq_None_not_Some. intros Hs. apply Hdom in Hs. rewrite Hnone in Hs.
    by destruct Hs.
Qed.

(** Taking an element for a new target: a spare one or a fresh one. *)
Lemma list_elem_new_ok this m qs fs ts tgt :
  list_body this m qs fs ts → lmem_ok m →
  ∃ a f m' fs', list_elem_new this tgt m = Ok (a, set_free f this, m') ∧
    list_body (set_free f this) m' qs fs' ts ∧ lmem_ok m' ∧
    a ≠ 0 ∧ a ∉ qs ++ fs' ∧ elems m' !! a = Some (Elem tgt 0) ∧
    frame (qs ++ fs) (a :: qs ++ fs') m m' ∧
    (∀ b, is_Some (elems m !! b) → is_Some (elems m' !! b)).
Proof.
  intros [Hc Ht Hf Hnd Hs] Hm. unfold list_elem_new.
  destruct fs as [|a fs].
  - simpl in Hf. rewrite Hf, bool_decide_false by tauto.
    destruct Hm as [Hok Hlive].
    destruct (obj_new_spec (alloc m) Hok) as (a & al & Hnew & Ha & Hnl & Hok' & Hl').
    assert (Hnone : elems m !! a = None).
    { apply eq_None_not_Some. by rewrite Hlive. }
    unfold NEW_elem. rewrite Hnew. simpl. unfold get_elem. simpl.
    rewrite lookup_insert_eq. simpl. unfold set_elem. simpl. rewrite lookup_insert_eq. simpl.
    rewrite insert_insert_eq.
    assert (Hnq : a ∉ qs).
    { intros Hin. destruct (chain_elem _ _ _ _ a Hc Hin) as [_ [e He]]. congruence. }
    exists a, (free this), (LM (<[a := Elem tgt 0]> (elems m)) al), [].
    split; [by destruct this|]. split; [|split; [|split; [done|]]].
    + rewrite app_nil_r in Hnd. split; simpl; try done; [by apply chain_insert|].
      by rewrite app_nil_r.
    + split; [done|]. intros b. simpl. rewrite Hl', <- Hlive.
      destruct (decide (a = b)) as [<-|].
      * rewrite lookup_insert_eq. split; [by right|by eauto].
      * rewrite lookup_insert_ne by done. naive_solver.
    + rewrite !app_nil_r. split; [done|]. split; [by apply lookup_insert_eq|].
      split; [split|].
      * intros b Hb Hsb. simpl. apply lookup_insert_ne. intros ->.
        rewrite Hnone in Hsb. by destruct Hsb.
      * intros b [->|Hb]%elem_of_cons; [by right|by left].
      * intros b Hb. simpl. destruct (decide (a = b)) as [<-|].
        { rewrite lookup_insert_eq. by eauto. } by rewrite lookup_insert_ne.
  - simpl in Hf. destruct Hf as (Hfa & Ha & n & Hl & Hcf).
    rewrite Hfa, bool_decide_true by done.
    rewrite (get_elem_Some _ _ _ Hl). simpl.
    rewrite (get_elem_Some _ _ _ Hl). simpl.
    rewrite set_elem_Some by (by eauto). simpl.
    rewrite NoDup_app in Hnd. destruct Hnd as (Hndq & Hqf & Hndf).
    apply NoDup_cons in Hndf as [Hafs Hndf].
    assert (Hnq : a ∉ qs) by (intros Hin; by apply (Hqf a Hin), elem_of_cons; left).
    exists a, n, (LM (<[a := Elem tgt 0]> (elems m)) (alloc m)), fs.
    split; [done|]. split; [|split; [apply lmem_ok_insert; [done|by eauto]|split; [done|]]].
    + split; simpl; try done; [by apply chain_insert|by apply chain_insert|].
      apply NoDup_app. split; [done|]. split; [|done]. intros b Hb Hin.
      apply (Hqf b Hb), elem_of_cons. by right.
    + split; [set_solver|]. split; [by apply lookup_insert_eq|]. split; [split|].
      * intros b Hb Hsb. simpl. apply lookup_insert_ne. set_solver.
      * intros b Hb. left. set_solver.
      * intros b Hb. simpl. destruct (decide (a = b)) as [<-|].
        { rewrite lookup_insert_eq. by eauto. } by rewrite lookup_insert_ne.
Qed.

Lemma list_push_ok this m qs fs ts tgt :
  list_rep this m qs fs ts → lmem_ok m → Z.of_nat (length ts) + 1 < 2 ^ 31 →
  ∃ this' m' qs' fs', list_push this tgt m = Ok (this', m') ∧
    list_rep this' m' qs' fs' (ts ++ [tgt]) ∧ lmem_ok m' ∧
    frame (qs ++ fs) (qs' ++ fs') m m'.
Proof.
  intros [Hb Hlock] Hm Hlen. unfold list_push, list_lock.
  rewrite Hlock, Locks.section_enter_free. cbn [mbind res_bind].
  set (this1 := KL (size this) 1 (head this) (tail this) (free this)).
  assert (Hb1 : list_body this1 m qs fs ts) by (by destruct Hb).
  destruct (list_elem_new_ok this1 m qs fs ts tgt Hb1 Hm)
    as (a & f & m1 & fs1 & Hnew & Hb2 & Hm1 & Ha & Hnin & Hl & Hfr & Hdom).
  rewrite Hnew. cbn [mbind res_bind]. clear Hb Hb1 Hnew.
  destruct Hb2 as [Hc Ht Hf Hnd Hs]. simpl in Hc, Ht, Hf, Hs. simpl.
  rewrite not_elem_of_app in Hnin. destruct Hnin as [Hnq Hnf].
  rewrite NoDup_app in Hnd. destruct Hnd as (Hndq & Hqf & Hndf).
  destruct (chain_nodes _ _ _ _ Hc) as [_ H0].
  assert (Hnd' : NoDup ((qs ++ [a]) ++ fs1)).
  { apply NoDup_app. split; [|split; [|done]].
    - apply NoDup_app. split; [done|]. split; [set_solver|]. apply NoDup_singleton.
    - intros b Hin. apply elem_of_app in Hin as [?|Hin]; [by apply Hqf|].
      apply list_elem_of_singleton in Hin as ->. done. }
  assert (Hsz : s32 (size this + 1) = Z.of_nat (length (ts ++ [tgt]))).
  { rewrite length_app, Hs, s32_small by lia. simpl. lia. }
  destruct (chain_snoc _ _ _ _ a tgt Hc Ha Hnq Hndq Hl)
    as (z & [[Hlast Hca]|(Hlast & Hz & tz & nz & Hzl & Hcz)]).
  - apply last_None in Hlast as ->. destruct ts as [|? ts]; [|done].
    rewrite Ht, bool_decide_true by done. cbn [mbind res_bind].
    eexists _, m1, [a], fs1. split; [done|]. split; [|split; [done|]].
    + split; [|done]. by split.
    + destruct Hfr as [Hk Hn]. split; [done|]. intros b Hin. apply Hn. set_solver.
  - rewrite Ht, Hlast, bool_decide_false by done. simpl.
    rewrite (get_elem_Some _ _ _ Hzl). simpl. rewrite set_elem_Some by (by eauto). simpl.
    assert (Hzq : z ∈ qs) by (by apply last_Some_elem_of).
    eexists _, _, (qs ++ [a]), fs1. split; [done|].
    split; [|split; [apply lmem_ok_insert; [done|by eauto]|]].
    + split; [|done]. split; simpl; [done| |by apply chain_insert; [intros ?; by apply (Hqf z)|] |done|done].
      by rewrite last_snoc.
    + destruct Hfr as [Hk Hn]. split.
      * intros b Hb Hsb. simpl. rewrite lookup_insert_ne; [by apply Hk|].
        intros ->. set_solver.
      * intros b Hin. apply Hn. set_solver.
Qed.

Lemma list_pop_empty this m qs fs : list_rep this m qs fs [] → list_pop this m = Ok (0, this, m).
Proof. intros [Hb _]. unfold list_pop. by rewrite (lr_size _ _ _ _ _ Hb). Qed.

(** Recycling the first element of a chain. *)
Lemma list_elem_delete_ok this m a t n fs :
  elems m !! a = Some (Elem t n) → a ≠ 0 → a ∉ fs →
  chain (elems m) (free this) fs (replicate (length fs) 0) →
  list_elem_delete this a m
    = Ok (set_free a this, LM (<[a := Elem 0 (free this)]> (elems m)) (alloc m)) ∧
  chain (<[a := Elem 0 (free this)]> (elems m)) a (a :: fs) (replicate (length (a :: fs)) 0).
Proof.
  intros Hl Ha Hnf Hc. unfold list_elem_delete. rewrite (get_elem_Some _ _ _ Hl). simpl.
  rewrite set_elem_Some by (by eauto). split; [done|]. split; [done|]. split; [done|].
  exists (free this). rewrite lookup_insert_eq. split; [done|]. by apply chain_insert.
Qed.

Lemma list_pop_ok this m qs fs t ts :
  list_rep this m qs fs (t :: ts) → lmem_ok m → t ≠ 0 →
  Z.of_nat (length ts) + 1 < 2 ^ 31 →
  ∃ this' m' qs' fs', list_pop this m = Ok (t, this', m') ∧
    list_rep this' m' qs' fs' ts ∧ lmem_ok m' ∧
    frame (qs ++ fs) (qs' ++ fs') m m'.
Proof.
  intros [Hb Hlock] Hm Ht0 Hlen. destruct Hb as [Hc Htl Hf Hnd Hs].
  destruct qs as [|a qs]; [done|]. simpl in Hc, Hs.
  destruct Hc as (Hh & Ha & n & Hl & Hc).
  destruct (chain_nodes _ _ _ _ Hc) as [Hn H0].
  unfold list_pop, list_lock. rewrite bool_decide_false by lia.
  rewrite Hlock, Locks.section_enter_free. cbn [mbind res_bind head tail].
  rewrite Hh. apply NoDup_cons in Hnd as [Hanf Hnd].
  apply not_elem_of_app in Hanf as [Hanq Hanf].
  destruct (list_elem_delete_ok
    (set_ends n (default 0 (last qs)) (KL (size this) 1 a (tail this) (free this)))
    m a t n fs Hl Ha Hanf Hf) as [Hdel Hcf].
  set (m' := LM (<[a := Elem 0 (free this)]> (elems m)) (alloc m)) in *.
  exists (KL (Z.of_nat (length ts)) 0 n (default 0 (last qs)) a), m', qs, (a :: fs).
  split; [|split; [|split]].
  - set (this1 := KL (size this) 1 a (tail this) (free this)) in *.
    assert (Hends : (if bool_decide (a = tail this) then Ok (set_ends 0 0 this1)
              else e ← get_elem a m; Ok (set_ends (next e) (tail this1) this1))
              = Ok (set_ends n (default 0 (last qs)) this1)).
    { rewrite Htl, last_cons. destruct qs as [|b qs].
      - simpl. rewrite bool_decide_true by done. by rewrite Hn.
      - destruct (last (b :: qs)) as [z|] eqn:Hz; [|by apply last_None in Hz].
        simpl. assert (a ≠ z) by (intros ->; by apply last_Some_elem_of in Hz).
        rewrite bool_decide_false by done. rewrite (get_elem_Some _ _ _ Hl). simpl.
        unfold this1. simpl. by rewrite Htl, last_cons, Hz. }
    simpl in Hends. rewrite Hends. cbn [mbind res_bind].
    rewrite bool_decide_true by done. rewrite (get_elem_Some _ _ _ Hl). cbn [mbind res_bind].
    rewrite Hdel. cbn [mbind res_bind target]. rewrite bool_decide_true by done.
    unfold set_size, list_unlock, set_free, set_ends. simpl.
    rewrite Hs, s32_small by lia. simpl. repeat f_equal. lia.
  - split; [|done]. split; simpl; [by apply chain_insert|done|exact Hcf| |done].
    apply NoDup_app in Hnd as (Hndq & Hqf & Hndf).
    apply NoDup_app. split; [done|]. split; [|by apply NoDup_cons].
    intros b Hbq [->|Hin]%elem_of_cons; [done|]. by apply (Hqf b).
  - apply lmem_ok_insert; [done|by eauto].
  - split.
    + intros b Hb _. simpl. apply lookup_insert_ne. intros ->. apply Hb. set_solver.
    + intros b Hb. left. set_solver.
Qed.

(** A fresh element for the spare ones. *)
Lemma list_give_ok this m qs fs ts a :
  list_rep this m qs fs ts → obj_ok (alloc m) →
  (∀ b, obj_live (alloc m) b ↔ is_Some (elems m !! b) ∨ b = a) → a ≠ 0 → elems m !! a = None →
  ∃ m', list_give this a m = Ok (set_free a this, m') ∧
    list_rep (set_free a this) m' qs (a :: fs) ts ∧ lmem_ok m' ∧
    frame (qs ++ fs) (qs ++ a :: fs) m m' ∧
    ∀ b, is_Some (elems m' !! b) ↔ is_Some (elems m !! b) ∨ b = a.
Proof.
  intros [[Hc Ht Hf Hnd Hs] Hlock] Hok Hlive Ha Hnew.
  assert (Hout : a ∉ qs ∧ a ∉ fs).
  { split; intros Hin; [destruct (chain_elem _ _ _ _ a Hc Hin) as [_ Hx]|destruct (chain_elem _ _ _ _ a Hf Hin) as [_ Hx]];
      rewrite Hnew in Hx; by destruct Hx. }
  destruct Hout as [Hq Hfs].
  set (m1 := LM (<[a := Elem 0 0]> (elems m)) (alloc m)).
  destruct (list_elem_delete_ok this m1 a 0 0 fs) as [Hdel Hcf];
    [apply lookup_insert_eq|done|done|by apply chain_insert|].
  eexists. split; [exact Hdel|]. unfold m1 in *. cbn [elems alloc] in *.
  assert (Hdom : ∀ b, is_Some (<[a := Elem 0 (free this)]> (<[a := Elem 0 0]> (elems m)) !! b) ↔
    is_Some (elems m !! b) ∨ b = a).
  { intros b. destruct (decide (b = a)) as [->|].
    - rewrite lookup_insert_eq. split; [by right|by eexists].
    - rewrite !lookup_insert_ne by done. tauto. }
  split; [|split; [|split; [|exact Hdom]]].
  - split; [|done]. split; cbn [elems head tail free size set_free].
    + apply chain_insert; [done|]. by apply chain_insert.
    + done.
    + exact Hcf.
    + rewrite <- Permutation_middle. apply NoDup_cons. by rewrite not_elem_of_app.
    + done.
  - split; [done|]. intros b. cbn [elems alloc]. by rewrite Hdom, Hlive.
  - split; cbn [elems].
    + intros b Hb Hs'. assert (b ≠ a) by (intros ->; rewrite Hnew in Hs'; by destruct Hs').
      by rewrite !lookup_insert_ne.
    + intros b Hb. rewrite <- Permutation_middle in Hb. apply elem_of_cons in Hb as [->|Hb]; [by right|by left].
Qed.

(** [list_push] makes the same of a list without spare elements when the
    element it would ask for is given to it first. *)
Lemma list_push_given this m tgt a al :
  free this = 0 → lock this = 0 → a ≠ 0 → obj_new (alloc m) = Ok (a, al) →
  list_push this tgt m =
    ('(this, m) ← list_give this a (LM (elems m) al); list_push this tgt m).
Proof.
  intros Hf Hl Ha Hn. unfold list_give, list_elem_delete, list_push, list_lock, list_elem_new, NEW_elem.
  rewrite Hl, Locks.section_enter_free. cbn [mbind res_bind free elems alloc set_free lock].
  rewrite Hf, bool_decide_false by tauto. rewrite Hn. cbn [mbind res_bind elems alloc].
  unfold get_elem, set_elem.
  repeat (cbn [elems alloc mbind res_bind lock free next size head tail set_free target];
          rewrite ?lookup_insert_eq, ?Hl, ?Locks.section_enter_free, ?(bool_decide_true (a ≠ 0)) by done).
  unfold set_free. cbn [size lock head tail free].
  by rewrite !insert_insert_eq.
Qed.

(** The objects of the heap stay, whatever is stored in them. *)
Definition same_objects (m m' : lmem) : Prop := ∀ b, is_Some (elems m' !! b) ↔ is_Some (elems m !! b).

Lemma set_elem_objects a e m m' : set_elem a e m = Ok m' → same_objects m m'.
Proof.
  unfold set_elem. destruct (elems m !! a) eqn:Ha; [|done]. intros [= <-] b. cbn [elems].
  destruct (decide (b = a)) as [->|]; [rewrite lookup_insert_eq, Ha; split; intros; by eexists|].
  by rewrite lookup_insert_ne.
Qed.

Lemma same_objects_trans m1 m2 m3 : same_objects m1 m2 → same_objects m2 m3 → same_objects m1 m3.
Proof. intros H1 H2 b. by rewrite (H2 b), (H1 b). Qed.

Lemma list_elem_delete_objects this a m this' m' :
  list_elem_delete this a m = Ok (this', m') → same_objects m m'.
Proof.
  unfold list_elem_delete. intros Hd. apply res_bind_Ok in Hd as (e & _ & Hd).
  apply res_bind_Ok in Hd as (m1 & Hs & [= _ <-]).
  by eapply set_elem_objects.
Qed.

Lemma list_push_objects this tgt m this' m' :
  free this ≠ 0 → list_push this tgt m = Ok (this', m') → same_objects m m'.
Proof.
  intros Hf. unfold list_push. intros (l & Hl & Hp)%res_bind_Ok.
  assert (Hfl : free l = free this).
  { unfold list_lock in Hl. apply res_bind_Ok in Hl as (x & _ & [= <-]). done. }
  apply res_bind_Ok in Hp as ([[el l1] m1] & Hn & Hp).
  assert (H1 : same_objects m m1).
  { unfold list_elem_new in Hn. rewrite Hfl, bool_decide_true in Hn by done.
    apply res_bind_Ok in Hn as ([[r l2] m2] & Hr & Hn).
    apply res_bind_Ok in Hr as (e & _ & [= _ _ <-]).
    apply res_bind_Ok in Hn as (e' & _ & Hn). apply res_bind_Ok in Hn as (m3 & Hs & [= _ _ <-]).
    by eapply set_elem_objects. }
  apply res_bind_Ok in Hp as ([l2 m2] & Ht & [= _ <-]). case_bool_decide.
  - injection Ht as _ <-. done.
  - apply res_bind_Ok in Ht as (e & _ & Ht). apply res_bind_Ok in Ht as (m3 & Hs & [= _ <-]).
    eapply same_objects_trans; [exact H1|by eapply set_elem_objects].
Qed.

Lemma list_pop_objects this m t this' m' : list_pop this m = Ok (t, this', m') → same_objects m m'.
Proof.
  unfold list_pop. case_bool_decide; [by intros [= _ _ <-]|].
  intros Hp. apply res_bind_Ok in Hp as (l & _ & Hp). apply res_bind_Ok in Hp as (l1 & _ & Hp).
  apply res_bind_Ok in Hp as ([[r l2] m2] & Hr & Hp). injection Hp as _ _ <-. unfold same_objects. case_bool_decide; [|injection Hr as _ _ Hm; by subst].
  apply res_bind_Ok in Hr as (e & _ & Hr). apply res_bind_Ok in Hr as ([l3 m3] & Hd & [= _ _ <-]).
  by eapply list_elem_delete_objects.
Qed.

(** A list that a target was taken from has a spare element. *)
Lemma list_pop_spare this m t this' m' :
  list_pop this m = Ok (t, this', m') → t ≠ 0 → free this' ≠ 0.
Proof.
  unfold list_pop. case_bool_decide; [by intros [= <- _ _]|].
  intros Hp Ht. apply res_bind_Ok in Hp as (l & _ & Hp). apply res_bind_Ok in Hp as (l1 & _ & Hp).
  apply res_bind_Ok in Hp as ([[r l2] m2] & Hr & Hp). injection Hp as -> <- _.
  rewrite (bool_decide_true (t ≠ 0)) by done. cbn [list_unlock set_size free].
  case_bool_decide as Hh; [|by injection Hr as <-].
  apply res_bind_Ok in Hr as (e & _ & Hr). apply res_bind_Ok in Hr as ([l3 m3] & Hd & Hr).
  injection Hr as _ <- _. unfold list_elem_delete in Hd. apply res_bind_Ok in Hd as (e' & _ & Hd).
  by apply res_bind_Ok in Hd as (m4 & _ & [= <- _]).
Qed.

(** The contents of a list, read off the heap. *)
Fixpoint targets (n : nat) (h : gmap Z list_elem) (p : Z) : list Z :=
  match n with
  | O => []
  | Datatypes.S n' =>
      match h !! p with
      | Some e => target e :: targets n' h (next e)
      | None => []
      end
  end.

Definition contents (this : klist) (m : lmem) : list Z :=
  targets (Z.to_nat (size this)) (elems m) (head this).

Lemma targets_chain h p ps ts : chain h p ps ts → targets (length ts) h p = ts.
Proof.
  revert p ts. induction ps as [|b ps IH]; intros p [|t ts]; try done.
  intros (-> & Hb & n & Hl & Hc). simpl. rewrite Hl. simpl. f_equal. by apply IH.
Qed.

Lemma contents_rep this m qs fs ts : list_rep this m qs fs ts → contents this m = ts.
Proof.
  intros [Hb _]. unfold contents. rewrite (lr_size _ _ _ _ _ Hb), Nat2Z.id.
  apply (targets_chain _ _ _ _ (lr_chain _ _ _ _ _ Hb)).
Qed.

(** A list is not affected by what happens to elements it does not own. *)
Lemma list_rep_frame this m m' qs fs ts own own' :
  list_rep this m qs fs ts → frame own own' m m' →
  (∀ b, b ∈ own → b ∉ qs ++ fs) → list_rep this m' qs fs ts.
Proof.
  intros [[Hc Ht Hf Hnd Hs] Hl] [Hk _] Hdisj. split; [|done]. split; try done.
  - apply (chain_agree (elems m)); [|done]. intros a Ha.
    apply Hk; [intros Hin; apply (Hdisj a Hin), elem_of_app; by left|].
    by apply (chain_elem _ _ _ _ a Hc).
  - apply (chain_agree (elems m)); [|done]. intros a Ha.
    apply Hk; [intros Hin; apply (Hdisj a Hin), elem_of_app; by right|].
    by apply (chain_elem _ _ _ _ a Hf).
Qed.

End ListOps.
Arguments lmem : clear implicits.

(** ** A family of lists in one heap *)

Section Store.
Context {A : Type} `{ObjAlloc A} {K : Type} `{Countable K}.

(** Lists that were never written are zero-filled. *)
Record lstore := LStore { lists : gmap K klist; mem : lmem A }.

Definition get_list (s : lstore) (k : K) : klist := default klist0 (lists s !! k).

Definition store_push (k : K) (t : Z) (s : lstore) : res lstore :=
  '(l, m) ← list_push (get_list s k) t (mem s); Ok (LStore (<[k := l]> (lists s)) m).

Definition store_pop (k : K) (s : lstore) : res (Z * lstore) :=
  '(t, l, m) ← list_pop (get_list s k) (mem s); Ok (t, LStore (<[k := l]> (lists s)) m).

Definition store_zero (k : K) (s : lstore) : lstore :=
  LStore (<[k := klist0]> (lists s)) (mem s).

(** [list_elem_new] finds an element in [free]. *)
Definition store_spare (k : K) (s : lstore) : bool := negb (free (get_list s k) =? 0).

Definition store_give (k : K) (a : Z) (s : lstore) : res lstore :=
  '(l, m) ← list_give (get_list s k) a (LM (elems (mem s)) (obj_take a (alloc (mem s))));
  Ok (LStore (<[k := l]> (lists s)) m).

Definition store_elem (s : lstore) (a : Z) : Prop := is_Some (elems (mem s) !! a).

Definition store_items (s : lstore) (k : K) : list Z := contents (get_list s k) (mem s).

(** Every list is well formed, holds no null pointer, and no element belongs
    to two lists. *)
Definition store_ok (s : lstore) : Prop :=
  lmem_ok (mem s) ∧
  ∃ own : K → list Z * list Z,
    (∀ k, list_rep (get_list s k) (mem s) (own k).1 (own k).2 (store_items s k) ∧
          Forall (λ t, t ≠ 0) (store_items s k) ∧
          Z.of_nat (length (store_items s k)) < 2 ^ 31) ∧
    (∀ j k b, j ≠ k → b ∈ (own j).1 ++ (own j).2 → b ∉ (own k).1 ++ (own k).2).

Lemma get_list_insert s k l m j :
  get_list (LStore (<[k := l]> (lists s)) m) j = if decide (j = k) then l else get_list s j.
Proof.
  unfold get_list. simpl. destruct (decide (j = k)) as [->|].
  - by rewrite lookup_insert_eq.
  - by rewrite lookup_insert_ne.
Qed.

(** Replacing one list by the result of an operation on it. *)
Lemma store_ok_update s k l m own qs fs ts :
  lmem_ok m →
  (∀ j, list_rep (get_list s j) (mem s) (own j).1 (own j).2 (store_items s j) ∧
        Forall (λ t, t ≠ 0) (store_items s j) ∧
        Z.of_nat (length (store_items s j)) < 2 ^ 31) →
  (∀ i j b, i ≠ j → b ∈ (own i).1 ++ (own i).2 → b ∉ (own j).1 ++ (own j).2) →
  list_rep l m qs fs ts → Forall (λ t, t ≠ 0) ts → Z.of_nat (length ts) < 2 ^ 31 →
  frame ((own k).1 ++ (own k).2) (qs ++ fs) (mem s) m →
  let s' := LStore (<[k := l]> (lists s)) m in
  store_ok s' ∧ ∀ j, store_items s' j = if decide (j = k) then ts else store_items s j.
Proof.
  intros Hm Hreps Hdisj Hl Hnn Hlen Hfr s'.
  assert (Hother : ∀ j, j ≠ k → list_rep (get_list s j) m (own j).1 (own j).2 (store_items s j)).
  { intros j Hj. eapply list_rep_frame; [apply Hreps|exact Hfr|].
    intros b Hb. by apply (Hdisj k j). }
  assert (Hitems : ∀ j, store_items s' j = if decide (j = k) then ts else store_items s j).
  { intros j. unfold store_items at 1. unfold s'. rewrite get_list_insert. simpl.
    destruct (decide (j = k)) as [->|Hj].
    - by apply (contents_rep l m qs fs).
    - by apply (contents_rep _ m (own j).1 (own j).2), Hother. }
  split; [|done]. split; [done|].
  exists (λ j, if decide (j = k) then (qs, fs) else own j). split.
  - intros j. rewrite Hitems. unfold s' at 1. rewrite get_list_insert. simpl.
    destruct (decide (j = k)) as [->|Hj]; [done|].
    split; [by apply Hother|]. apply Hreps.
  - assert (Hnew : ∀ j b, j ≠ k → b ∈ qs ++ fs → b ∉ (own j).1 ++ (own j).2).
    { intros j b Hj Hb Hin. destruct (proj2 Hfr b Hb) as [Hbk|Hnone].
      - by apply (Hdisj k j b).
      - destruct (Hreps j) as [[[Hc _ Hf _ _] _] _].
        apply elem_of_app in Hin as [Hin|Hin].
        + destruct (chain_elem _ _ _ _ b Hc Hin) as [_ [e He]]. congruence.
        + destruct (chain_elem _ _ _ _ b Hf Hin) as [_ [e He]]. congruence. }
    intros i j b Hij. destruct (decide (i = k)) as [->|Hi], (decide (j = k)) as [->|Hj]; simpl.
    + done.
    + intros Hb. by apply Hnew.
    + intros Hb Hin. by apply (Hnew i b Hi Hin).
    + by apply Hdisj.
Qed.

Lemma store_give_ok k a s :
  store_ok s → a ≠ 0 → ¬ store_elem s a →
  ∃ s', store_give k a s = Ok s' ∧ store_ok s' ∧ store_spare k s' = true ∧
    (∀ j, store_items s' j = store_items s j) ∧ ∀ b, store_elem s' b ↔ store_elem s b ∨ b = a.
Proof.
  intros ([Hal Hlive] & own & Hreps & Hdisj) Ha Hnew. unfold store_elem in Hnew.
  apply eq_None_not_Some in Hnew. pose proof (Hreps k) as (Hrep & Hnn & Hlen).
  destruct (obj_take_spec (alloc (mem s)) a Hal Ha) as [Hok' Hlive'].
  { rewrite <- Hlive, Hnew. by intros []. }
  set (m0 := LM (elems (mem s)) (obj_take a (alloc (mem s)))).
  destruct (list_give_ok (get_list s k) m0 (own k).1 (own k).2 (store_items s k) a)
    as (m & Hg & Hr & Hm & Hfr & Hdom); [|done| |done|done|].
  { destruct Hrep as [[] ?]. by split. }
  { intros b. cbn [alloc elems m0]. by rewrite Hlive', Hlive. }
  set (l := set_free a (get_list s k)) in *. exists (LStore (<[k := l]> (lists s)) m).
  split; [unfold store_give; fold m0; by rewrite (bind_ok _ _ _ Hg)|].
  destruct (store_ok_update s k l m own _ _ _ Hm Hreps Hdisj Hr Hnn Hlen Hfr) as [Hs' Hit].
  split; [done|]. split; [|split; [|exact Hdom]].
  - unfold store_spare. rewrite get_list_insert, decide_True by done. cbn [free l set_free].
    apply negb_true_iff. by apply Z.eqb_neq.
  - intros j. rewrite Hit. by case_decide as Hj; [rewrite Hj|].
Qed.

#[global] Instance klist_store : QueueStore K lstore.
Proof.
  refine {| qpush := store_push; qpop := store_pop; qzero := store_zero; qspare := store_spare;
            qgive := store_give; qitems := store_items; qelem := store_elem; qok := store_ok |}.
  - intros k t s (Hm & own & Hreps & Hdisj) Ht Hlen.
    destruct (Hreps k) as (Hrep & Hnn & _).
    destruct (list_push_ok _ _ _ _ _ t Hrep Hm Hlen)
      as (l & m & qs & fs & Heq & Hl & Hm' & Hfr).
    exists (LStore (<[k := l]> (lists s)) m). split; [unfold store_push; by rewrite Heq|].
    eapply store_ok_update; try done.
    + apply Forall_app. split; [done|]. by apply Forall_singleton.
    + rewrite length_app. simpl. lia.
  - intros k s (Hm & own & Hreps & Hdisj).
    destruct (Hreps k) as (Hrep & Hnn & Hlen).
    destruct (store_items s k) as [|t ts] eqn:Hit.
    + exists (LStore (<[k := get_list s k]> (lists s)) (mem s)).
      split; [unfold store_pop; by rewrite (list_pop_empty _ _ _ _ Hrep)|].
      eapply store_ok_update; try done. apply frame_refl.
    + apply Forall_cons in Hnn as [Ht Hnn]. rewrite length_cons in Hlen.
      destruct (list_pop_ok _ _ _ _ _ _ Hrep Hm Ht) as (l & m & qs & fs & Heq & Hl & Hm' & Hfr);
        [lia|].
      exists (LStore (<[k := l]> (lists s)) m). split; [unfold store_pop; by rewrite Heq|].
      eapply store_ok_update; try done. simpl. lia.
  - intros k s (Hm & own & Hreps & Hdisj).
    eapply (store_ok_update s k klist0 (mem s) own [] [] []); try done.
    + split; [|done]. split; try done. apply NoDup_nil_2.
    + split; [done|]. intros b Hb. by apply not_elem_of_nil in Hb.
  - intros k a s Hs Ha Hnew. by apply store_give_ok.
  - intros k t s s' Hsp Hp b. unfold store_spare in Hsp. unfold store_push in Hp.
    apply res_bind_Ok in Hp as ([l m] & Hp & [= <-]). apply (list_push_objects _ _ _ _ _) in Hp; [apply Hp|].
    intros Hz. by rewrite Hz in Hsp.
  - intros k t s s' Hp b. unfold store_pop in Hp. apply res_bind_Ok in Hp as ([[r l] m] & Hp & [= _ <-]).
    exact (list_pop_objects _ _ _ _ _ Hp b).
  - done.
  - intros k t s s' Hp Ht. unfold store_pop in Hp. apply res_bind_Ok in Hp as ([[r l] m] & Hp & Heq).
    injection Heq as -> <-. unfold store_spare. rewrite get_list_insert, decide_True by done.
    apply negb_true_iff, Z.eqb_neq. exact (list_pop_spare _ _ _ _ _ Hp Ht).
  - intros k s (_ & own & Hreps & _). apply Hreps.
Defined.

(** Zero-filled lists in an empty heap. *)
Lemma store_ok_init (al : A) :
  obj_ok al → (∀ a, ¬ obj_live al a) → store_ok (LStore ∅ (LM ∅ al)).
Proof.
  intros Hok Hl. split.
  - split; [done|]. intros a. simpl. rewrite lookup_empty. specialize (Hl a).
    split; [by intros []|done].
  - exists (λ _, ([], [])). split; [|set_solver].
    intros k. unfold store_items, get_list. simpl. rewrite lookup_empty. simpl.
    split; [|split; [constructor|simpl; lia]]. split; [|done]. split; try done.
    apply NoDup_nil_2.
Qed.

End Store.
Arguments lstore : clear implicits.

(** ** Runs of operations *)

Inductive list_op := Push (t : Z) | Pop.

Section Runs.
Context {A : Type} `{ObjAlloc A}.

(** The results of a sequence of calls; [list_push] returns nothing, recorded
    as the target pushed. *)
Fixpoint run_ops (ops : list list_op) (this : klist) (m : lmem A)
    : res (list Z * klist * lmem A) :=
  match ops with
  | [] => Ok ([], this, m)
  | Push t :: ops =>
      '(this, m) ← list_push this t m;
      '(rs, this, m) ← run_ops ops this m; Ok (t :: rs, this, m)
  | Pop :: ops =>
      '(r, this, m) ← list_pop this m;
      '(rs, this, m) ← run_ops ops this m; Ok (r :: rs, this, m)
  end.

(** The same on a mathematical queue. *)
Fixpoint run_queue (ops : list list_op) (q : list Z) : list Z * list Z :=
  match ops with
  | [] => ([], q)
  | Push t :: ops => let '(rs, q') := run_queue ops (q ++ [t]) in (t :: rs, q')
  | Pop :: ops => let '(rs, q') := run_queue ops (tl q) in (hd 0 q :: rs, q')
  end.

Definition op_ok (o : list_op) : Prop :=
  match o with Push t => t ≠ 0 | Pop => True end.

Lemma run_ops_ok ops : ∀ this m qs fs ts,
  Forall op_ok ops → list_rep this m qs fs ts → lmem_ok m →
  Forall (λ t, t ≠ 0) ts → Z.of_nat (length ts + length ops) < 2 ^ 31 →
  ∃ this' m' qs' fs', run_ops ops this m = Ok ((run_queue ops ts).1, this', m') ∧
    list_rep this' m' qs' fs' (run_queue ops ts).2 ∧ lmem_ok m'.
Proof.
  induction ops as [|o ops IH]; intros this m qs fs ts Hops Hrep Hm Hnn Hlen.
  { by exists this, m, qs, fs. }
  apply Forall_cons in Hops as [Ho Hops]. destruct o as [t|]; simpl in Hlen.
  - destruct (list_push_ok this m qs fs ts t Hrep Hm)
      as (l & m1 & qs1 & fs1 & Heq & Hrep1 & Hm1 & _); [lia|].
    destruct (IH l m1 qs1 fs1 (ts ++ [t]) Hops Hrep1 Hm1)
      as (l' & m' & qs' & fs' & Heq' & Hrep' & Hm').
    { apply Forall_app. split; [done|]. by apply Forall_singleton. }
    { rewrite length_app. simpl. lia. }
    exists l', m', qs', fs'. simpl. rewrite Heq. simpl. rewrite Heq'. simpl.
    by destruct (run_queue ops (ts ++ [t])).
  - destruct ts as [|t ts].
    + destruct (IH this m qs fs [] Hops Hrep Hm)
        as (l' & m' & qs' & fs' & Heq' & Hrep' & Hm'); [done|simpl; lia|].
      exists l', m', qs', fs'. simpl. rewrite (list_pop_empty _ _ _ _ Hrep). simpl.
      rewrite Heq'. simpl. by destruct (run_queue ops []).
    + apply Forall_cons in Hnn as [Ht Hnn]. simpl in Hlen.
      destruct (list_pop_ok this m qs fs t ts Hrep Hm Ht)
        as (l & m1 & qs1 & fs1 & Heq & Hrep1 & Hm1 & _); [lia|].
      destruct (IH l m1 qs1 fs1 ts Hops Hrep1 Hm1 Hnn)
        as (l' & m' & qs' & fs' & Heq' & Hrep' & Hm'); [lia|].
      exists l', m', qs', fs'. simpl. rewrite Heq. simpl. rewrite Heq'. simpl.
      by destruct (run_queue ops ts).
Qed.

End Runs.

(** An allocator of elements behind the last one, for concrete runs: the state is
    the list of the addresses in use. *)
#[global] Instance bump_alloc : ObjAlloc (list Z).
Proof.
  refine {| obj_new := λ l, let a := foldr Z.max 0xFF8 l + 8 in Ok (a, a :: l); obj_take := cons;
            obj_live := λ l a, a ∈ l; obj_ok := λ _, True |}.
  - intros l _. eexists _, _. split; [reflexivity|].
    assert (Hmax : ∀ l b, b ∈ l → b ≤ foldr Z.max 0xFF8 l).
    { clear l. induction l as [|x l IH]; intros b Hb; [by apply not_elem_of_nil in Hb|].
      apply elem_of_cons in Hb as [->|Hb]; simpl; [lia|]. specialize (IH b Hb). lia. }
    assert (Hlow : ∀ l, 0xFF8 ≤ foldr Z.max 0xFF8 l).
    { clear l. induction l as [|x l IH]; simpl; lia. }
    split; [specialize (Hlow l); lia|]. split; [intros Hin; specialize (Hmax l _ Hin); lia|].
    split; [done|]. intros b. rewrite elem_of_cons. tauto.
  - intros l a _ _ _. split; [done|]. intros b. rewrite elem_of_cons. tauto.
Defined.

Definition bump_mem : lmem (list Z) := LM ∅ [].

Lemma bump_mem_ok : lmem_ok bump_mem.
Proof.
  split; [done|]. intros a. simpl. rewrite lookup_empty. split; [by intros []|].
  intros Hin. by apply not_elem_of_nil in Hin.
Qed.

Lemma klist0_rep : list_rep klist0 bump_mem [] [] [].
Proof. split; [|done]. split; try done. apply NoDup_nil_2. Qed.

(** ** Properties *)

(** C14. [list_push] and [list_pop] implement a FIFO queue of non-null
    pointers: for every sequence of calls on a zero-filled list, the calls
    return what the same calls return on a mathematical queue, none of them
    faults or blocks, and the list ends up holding what the queue holds, with
    [size] its length. *)
Theorem list_fifo `{ObjAlloc A} (m : lmem A) ops :
  lmem_ok m → Forall op_ok ops → Z.of_nat (length ops) < 2 ^ 31 →
  ∃ this' m', run_ops ops klist0 m = Ok ((run_queue ops []).1, this', m') ∧
    contents this' m' = (run_queue ops []).2 ∧
    list_size this' = Z.of_nat (length (run_queue ops []).2).
Proof.
  intros Hm Hops Hlen.
  destruct (run_ops_ok ops klist0 m [] [] [] Hops) as (l & m' & qs & fs & Heq & Hrep & _);
    [|done|done|done|].
  { split; [|done]. split; try done. apply NoDup_nil_2. }
  exists l, m'. split; [done|]. split; [by apply (contents_rep _ _ qs fs)|].
  destruct Hrep as [Hb _]. apply (lr_size _ _ _ _ _ Hb).
Qed.

Lemma list_fifo_witness :
  ∃ this' m', run_ops [Push 11; Push 22; Pop; Push 33; Pop; Pop; Pop] klist0 bump_mem
      = Ok ([11; 22; 11; 33; 22; 33; 0], this', m') ∧ contents this' m' = [].
Proof.
  destruct (list_fifo bump_mem [Push 11; Push 22; Pop; Push 33; Pop; Pop; Pop] bump_mem_ok)
    as (l & m & H & Hc & _); [by repeat constructor|done|].
  exists l, m. exact (conj H Hc).
Defined.

(** A null pointer in a list is popped without being counted: [list_pop]
    returns 0, as for an empty list, and removes the element, but [size]
    stays one too large. *)
Theorem list_pop_null_keeps_size `{ObjAlloc A} this (m : lmem A) qs fs ts :
  list_rep this m qs fs (0 :: ts) → lmem_ok m →
  ∃ this' m' qs' fs', list_pop this m = Ok (0, this', m') ∧
    chain (elems m') (head this') qs' ts ∧ lock this' = 0 ∧
    chain (elems m') (free this') fs' (replicate (length fs') 0) ∧
    list_size this' = Z.of_nat (length ts) + 1.
Proof.
  intros [Hb Hlock] Hm. destruct Hb as [Hc Htl Hf Hnd Hs].
  destruct qs as [|a qs]; [done|]. simpl in Hc, Hs.
  destruct Hc as (Hh & Ha & n & Hl & Hc).
  destruct (chain_nodes _ _ _ _ Hc) as [Hn H0].
  apply NoDup_cons in Hnd as [Hanf Hnd]. apply not_elem_of_app in Hanf as [Hanq Hanf].
  unfold list_pop, list_lock. rewrite bool_decide_false by lia.
  rewrite Hlock, Locks.section_enter_free. cbn [mbind res_bind head tail]. rewrite Hh.
  set (this1 := KL (size this) 1 a (tail this) (free this)).
  assert (∃ tl', (if bool_decide (a = tail this) then Ok (set_ends 0 0 this1)
              else e ← get_elem a m; Ok (set_ends (next e) (tail this1) this1))
              = Ok (set_ends n tl' this1)) as [tl' Hends].
  { rewrite Htl, last_cons. destruct qs as [|b qs].
    - exists 0. simpl. rewrite bool_decide_true by done. by rewrite Hn.
    - destruct (last (b :: qs)) as [z|] eqn:Hz; [|by apply last_None in Hz].
      exists (tail this). simpl. assert (a ≠ z) by (intros ->; by apply last_Some_elem_of in Hz).
      rewrite bool_decide_false by done. by rewrite (get_elem_Some _ _ _ Hl). }
  simpl in Hends. rewrite Hends. cbn [mbind res_bind].
  rewrite (bool_decide_true (a ≠ 0)) by done.
  rewrite (get_elem_Some _ _ _ Hl). cbn [mbind res_bind].
  destruct (list_elem_delete_ok (set_ends n tl' this1) m a 0 n fs Hl Ha Hanf Hf) as [Hdel Hcf].
  rewrite Hdel. cbn [mbind res_bind target]. rewrite bool_decide_false by auto.
  eexists _, _, qs, (a :: fs). split; [done|]. split; [by apply chain_insert|].
  split; [done|]. split; [exact Hcf|]. simpl. lia.
Qed.

Lemma list_pop_null_keeps_size_witness :
  ∃ this' m', list_pop (KL 1 0 0x1000 0x1000 0) (LM {[ 0x1000 := Elem 0 0 ]} [0x1000])
      = Ok (0, this', m') ∧ list_size this' = 1.
Proof.
  destruct (list_pop_null_keeps_size (KL 1 0 0x1000 0x1000 0)
      (LM {[ 0x1000 := Elem 0 0 ]} [0x1000]) [0x1000] [] [])
    as (l & m & _ & _ & H & _ & _ & _ & Hs); [| |exists l, m; exact (conj H Hs)].
  - split; [|done]. split; try done.
    + simpl. split; [done|]. split; [done|]. by exists 0.
    + apply NoDup_singleton.
  - split; [done|]. intros a. simpl. rewrite lookup_singleton_is_Some. split.
    + intros <-. by apply list_elem_of_singleton.
    + intros Hin. by apply list_elem_of_singleton in Hin.
Defined.

End KList.
