(* ===== verification/Stream.v ===== *)
(** Byte streams and descriptor tables (kernel/stream.c, kernel/stream.h).

    A stream is a ring buffer of 1024 bytes; [read] is the index last read,
    [write] the index written next.  [stream_write] and [stream_read] are the
    loops of the C functions run until they finish or have to wait;
    [writer_step] and [reader_step] are the same code statement by statement,
    for a writer and a reader that run interleaved on the two ends of one
    stream ([spsc_step]), as two processes connected by it do.  A thread that
    has to wait re-evaluates the condition when it is scheduled again, so
    waiting is a step that changes nothing. *)

From Stdlib Require Import ZArith Lia.
From stdpp Require Import base option list gmap relations.
From S2P Require Import Prelude.

Module Stream.

Definition STREAM_BUF_LEN : Z := 1024.
Definition MAX_DESCRIPTORS : Z := 32.

Record stream := Strm { read : Z; write : Z; buf : gmap Z Z }.

Definition next_step (ptr : Z) : Z := u16 ((ptr + 1) mod STREAM_BUF_LEN).

Definition stream_write_length (this : stream) : Z :=
  let result := read this - write this - 1 in
  let result := if result <? 0 then result + STREAM_BUF_LEN else result in
  u32 result.

Definition stream_read_length (this : stream) : Z :=
  let result := write this - read this - 1 in
  let result := if result <? 0 then result + STREAM_BUF_LEN else result in
  u32 result.

(** [NEW(struct stream)] with [read = 0] and [write = 1]. *)
Definition stream_new : stream := Strm 0 1 ∅.

(** ** Statements of the two loops *)

(** [this->buf[this->write] = *buf;] *)
Definition store_byte (b : Z) (this : stream) : stream :=
  Strm (read this) (write this) (<[write this := b]> (buf this)).

(** [this->write = next_step(this->write);] *)
Definition advance_write (this : stream) : stream :=
  Strm (read this) (next_step (write this)) (buf this).

(** [this->read = next_step(this->read);] *)
Definition advance_read (this : stream) : stream :=
  Strm (next_step (read this)) (write this) (buf this).

(** [*buf = this->buf[this->read];] *)
Definition load_byte (this : stream) : Z := arr 0 (buf this) (read this).

(** [stream_write]: the stream and the bytes still to be written when the
    thread has to wait (none when the call returns). *)
Fixpoint stream_write (data : list Z) (this : stream) : stream * list Z :=
  match data with
  | [] => (this, [])
  | b :: rest =>
      if stream_write_length this =? 0 then (this, data)
      else stream_write rest (advance_write (store_byte b this))
  end.

(** [stream_read]: the bytes read, the stream, and how many bytes are still
    wanted when the thread has to wait (0 when the call returns). *)
Fixpoint stream_read (len : nat) (this : stream) : list Z * stream * nat :=
  match len with
  | O => ([], this, O)
  | S n =>
      if stream_read_length this =? 0 then ([], this, len)
      else
        let this := advance_read this in
        let b := load_byte this in
        let '(bs, this, todo) := stream_read n this in
        (b :: bs, this, todo)
  end.

(** ** Interleaved execution *)

(** The writer is about to test the length, to store a byte, or to advance
    [write]; it still has to write the listed bytes (the first one is stored
    already in [WAdvance]). *)
Inductive wpc := WCheck (data : list Z) | WStore (data : list Z) | WAdvance (data : list Z).

(** The reader is about to test the length, to advance [read], or to load the
    byte; it still wants [n] bytes and has read [acc]. *)
Inductive rpc :=
| RCheck (n : nat) (acc : list Z) | RAdvance (n : nat) (acc : list Z)
| RLoad (n : nat) (acc : list Z).

Definition writer_step (this : stream) (p : wpc) : stream * wpc :=
  match p with
  | WCheck [] => (this, p)
  | WCheck data => (this, if stream_write_length this =? 0 then p else WStore data)
  | WStore [] => (this, WCheck [])
  | WStore (b :: rest) => (store_byte b this, WAdvance (b :: rest))
  | WAdvance data => (advance_write this, WCheck (tail data))
  end.

Definition reader_step (this : stream) (p : rpc) : stream * rpc :=
  match p with
  | RCheck O acc => (this, p)
  | RCheck (S n) acc =>
      (this, if stream_read_length this =? 0 then p else RAdvance (S n) acc)
  | RAdvance n acc => (advance_read this, RLoad n acc)
  | RLoad n acc => (this, RCheck (pred n) (acc ++ [load_byte this]))
  end.

Record spsc := Spsc { strm : stream; writer : wpc; reader : rpc }.

Inductive spsc_step : spsc → spsc → Prop :=
| step_writer s w r s' w' :
    writer_step s w = (s', w') → spsc_step (Spsc s w r) (Spsc s' w' r)
| step_reader s w r s' r' :
    reader_step s r = (s', r') → spsc_step (Spsc s w r) (Spsc s' w r').

(** A writer sends [data], a reader asks for [n] bytes. *)
Definition spsc_init (data : list Z) (n : nat) : spsc :=
  Spsc stream_new (WCheck data) (RCheck n []).

(** The bytes the reader has stored in its buffer. *)
Definition received (r : rpc) : list Z :=
  match r with RCheck _ acc | RAdvance _ acc | RLoad _ acc => acc end.

Definition writer_waits (c : spsc) : Prop :=
  ∃ b rest, writer c = WCheck (b :: rest) ∧ stream_write_length (strm c) = 0.
Definition reader_waits (c : spsc) : Prop :=
  ∃ n acc, reader c = RCheck (S n) acc ∧ stream_read_length (strm c) = 0.

(** Two writers on one stream, scheduled by [sched] ([true]: the first). *)
Fixpoint run_writers (sched : list bool) (this : stream) (w1 w2 : wpc) : stream * wpc * wpc :=
  match sched with
  | [] => (this, w1, w2)
  | true :: sched => let '(this, w1) := writer_step this w1 in run_writers sched this w1 w2
  | false :: sched => let '(this, w2) := writer_step this w2 in run_writers sched this w1 w2
  end.

(** ** Descriptor tables *)

Record iostream := IOS { input : Z; output : Z }.

(** [struct iostream_descriptors]: a table of stream pointers. *)
Definition null_ios : iostream := IOS 0 0.

Definition get_ios (descr : gmap Z iostream) (i : Z) : res iostream :=
  aget null_ios MAX_DESCRIPTORS descr i.

(** Streams live in the heap at their addresses. *)
Definition get_stream (heap : gmap Z stream) (p : Z) : res stream :=
  match heap !! p with Some s => Ok s | None => Fault end.

(** [for (i = 0; i < MAX_DESCRIPTORS; ++i) { if (...) return ...; }] with [k]
    iterations left. *)
Fixpoint select_from (heap : gmap Z stream) (descr : gmap Z iostream) (k : nat) (i : Z)
    : res Z :=
  match k with
  | O => Ok (-1)
  | S k' =>
      io ← get_ios descr i;
      if bool_decide (input io = 0) then Ok (-1) else
      s ← get_stream heap (input io);
      if 0 <? stream_read_length s then Ok i
      else select_from heap descr k' (i + 1)
  end.

Definition iostream_select (heap : gmap Z stream) (descr : gmap Z iostream) : res Z :=
  select_from heap descr (Z.to_nat MAX_DESCRIPTORS) 0.

Fixpoint attach_from (descr : gmap Z iostream) (inp out : Z) (k : nat) (i : Z)
    : res (Z * gmap Z iostream) :=
  match k with
  | O => Ok (-1, descr)
  | S k' =>
      io ← get_ios descr i;
      if bool_decide (input io ≠ 0) then attach_from descr inp out k' (i + 1) else
      descr ← aset MAX_DESCRIPTORS descr i (IOS inp out);
      Ok (i, descr)
  end.

Definition iostream_attach (descr : gmap Z iostream) (inp out : Z)
    : res (Z * gmap Z iostream) :=
  attach_from descr inp out (Z.to_nat MAX_DESCRIPTORS) 0.

(** ** Lemmas *)

Lemma next_step_eq p : next_step p = (p + 1) mod 1024.
Proof. unfold next_step, STREAM_BUF_LEN. rewrite u16_small; [done|dlia]. Qed.

(** A stream all of whose bytes, [W] written and [R] read so far, are counted:
    the slots of the bytes [R] to [W - 1] hold them. *)
Record holds (S : list Z) (R W : nat) (s : stream) : Prop := {
  h_read : read s = Z.of_nat R mod 1024;
  h_write : write s = (Z.of_nat W + 1) mod 1024;
  h_len : (R ≤ W ≤ R + 1022)%nat;
  h_bytes : ∀ i b, (R ≤ i < W)%nat → S !! i = Some b →
    arr 0 (buf s) ((Z.of_nat i + 1) mod 1024) = b
}.

Lemma holds_read_length S R W s :
  holds S R W s → stream_read_length s = Z.of_nat (W - R).
Proof.
  intros [Hr Hw Hl _]. unfold stream_read_length, STREAM_BUF_LEN. rewrite Hr, Hw.
  rewrite u32_small; case_match; dlia.
Qed.

Lemma holds_write_length S R W s :
  holds S R W s → stream_write_length s = 1022 - Z.of_nat (W - R).
Proof.
  intros [Hr Hw Hl _]. unfold stream_write_length, STREAM_BUF_LEN. rewrite Hr, Hw.
  rewrite u32_small; case_match; dlia.
Qed.

Lemma holds_store S R W s b :
  holds S R W s → (W < R + 1022)%nat → holds S R W (store_byte b s).
Proof.
  intros [Hr Hw Hl Hb] Hroom. split; simpl; try done.
  intros i c Hi Hc. rewrite arr_insert_ne; [by apply Hb|]. rewrite Hw. dlia.
Qed.

Lemma holds_advance_write S R W s b :
  holds S R W s → (W < R + 1022)%nat → S !! W = Some b →
  arr 0 (buf s) (write s) = b → holds S R (Datatypes.S W) (advance_write s).
Proof.
  intros [Hr Hw Hl Hb] Hroom HS Hbuf. split; simpl; try done.
  - rewrite next_step_eq, Hw. dlia.
  - lia.
  - intros i c Hi Hc. destruct (decide (i = W)) as [->|]; [|apply Hb; [lia|done]].
    rewrite <- Hw. congruence.
Qed.

Lemma holds_advance_read S R W s :
  holds S R W s → (R < W)%nat → holds S (Datatypes.S R) W (advance_read s).
Proof.
  intros [Hr Hw Hl Hb] Hroom. split; simpl; try done.
  - rewrite next_step_eq, Hr. dlia.
  - lia.
  - intros i c Hi. apply Hb. lia.
Qed.

Lemma holds_new S : holds S 0 0 stream_new.
Proof. split; try done; lia. Qed.

(** *** Sequential use: a bounded queue *)

(** The stream holds exactly the bytes [q], oldest first. *)
Definition ring_rep (s : stream) (q : list Z) : Prop :=
  ∃ S R, holds S R (length S) s ∧ q = drop R S.

Lemma ring_rep_length s q :
  ring_rep s q →
  stream_read_length s = Z.of_nat (length q) ∧
  stream_write_length s = 1022 - Z.of_nat (length q) ∧ (length q ≤ 1022)%nat.
Proof.
  intros (S & R & Hh & ->). rewrite length_drop.
  rewrite (holds_read_length _ _ _ _ Hh), (holds_write_length _ _ _ _ Hh).
  split; [done|]. split; [done|]. destruct Hh. lia.
Qed.

Lemma ring_rep_new : ring_rep stream_new [].
Proof. exists [], 0%nat. split; [apply holds_new|done]. Qed.

Lemma holds_app S R W s l : holds S R W s → (W ≤ length S)%nat → holds (S ++ l) R W s.
Proof.
  intros [Hr Hw Hl Hb] HW. split; try done.
  intros i b Hi Hib. apply Hb; [done|]. rewrite lookup_app_l in Hib by lia. done.
Qed.

Lemma ring_push s q b :
  ring_rep s q → (length q < 1022)%nat → ring_rep (advance_write (store_byte b s)) (q ++ [b]).
Proof.
  intros (S & R & Hh & ->) Hl. rewrite length_drop in Hl.
  pose proof (h_len _ _ _ _ Hh) as Hlen.
  exists (S ++ [b]), R. split; [|by rewrite drop_app_le by lia].
  rewrite length_app, Nat.add_comm. apply (holds_advance_write _ _ _ _ b).
  - apply holds_store; [by apply holds_app|lia].
  - lia.
  - by apply list_lookup_middle.
  - simpl. by rewrite arr_insert_eq.
Qed.

Lemma ring_pull s b q :
  ring_rep s (b :: q) →
  ring_rep (advance_read s) q ∧ load_byte (advance_read s) = b.
Proof.
  intros (S & R & Hh & Hq).
  assert (HR : S !! R = Some b).
  { rewrite <- (Nat.add_0_r R), <- lookup_drop, <- Hq. done. }
  pose proof (lookup_lt_Some _ _ _ HR) as Hlt.
  pose proof (holds_advance_read _ _ _ _ Hh Hlt) as Hh'. split.
  - exists S, (Datatypes.S R). split; [done|].
    rewrite <- Nat.add_1_r, <- drop_drop, <- Hq. done.
  - unfold load_byte. rewrite (h_read _ _ _ _ Hh').
    rewrite Nat2Z.inj_succ. simpl. apply (h_bytes _ _ _ _ Hh R); [lia|done].
Qed.

Lemma stream_write_ring data : ∀ s q,
  ring_rep s q →
  ∃ s', stream_write data s = (s', drop (1022 - length q) data) ∧
    ring_rep s' (q ++ take (1022 - length q) data).
Proof.
  induction data as [|b data IH]; intros s q Hs.
  { exists s. rewrite drop_nil, take_nil, app_nil_r. done. }
  destruct (ring_rep_length s q Hs) as (_ & Hwl & Hq). simpl. rewrite Hwl.
  destruct (Z.eqb_spec (1022 - Z.of_nat (length q)) 0) as [He|Hne].
  - exists s. replace (1022 - length q)%nat with 0%nat by lia.
    by rewrite drop_0, take_0, app_nil_r.
  - destruct (IH _ _ (ring_push s q b Hs ltac:(lia))) as (s' & -> & Hs').
    exists s'. rewrite length_app in *. simpl in *.
    replace (1022 - length q)%nat with (S (1022 - (length q + 1))) by lia.
    rewrite <- (assoc_L (++)) in Hs'. done.
Qed.

Lemma stream_read_ring n : ∀ s q,
  ring_rep s q →
  ∃ s', stream_read n s = (take n q, s', (n - length q)%nat) ∧ ring_rep s' (drop n q).
Proof.
  induction n as [|n IH]; intros s q Hs.
  { by exists s. }
  destruct (ring_rep_length s q Hs) as (Hrl & _ & Hq). simpl. rewrite Hrl.
  destruct q as [|b q]; [by exists s|].
  rewrite (proj2 (Z.eqb_neq _ _)) by (simpl; lia).
  destruct (ring_pull s b q Hs) as [Hs' Hb]. rewrite Hb.
  destruct (IH _ _ Hs') as (s' & -> & Hs''). by exists s'.
Qed.

(** *** One writer and one reader *)

Definition writer_ok (data : list Z) (R W : nat) (s : stream) (p : wpc) : Prop :=
  match p with
  | WCheck d => d = drop W data
  | WStore d => d = drop W data ∧ d ≠ [] ∧ (W < R + 1022)%nat
  | WAdvance d => d = drop W data ∧ d ≠ [] ∧ (W < R + 1022)%nat ∧
                  arr 0 (buf s) (write s) = hd 0 d
  end.

Definition reader_ok (data : list Z) (n0 R W : nat) (s : stream) (p : rpc) : Prop :=
  match p with
  | RCheck n acc => acc = take R data ∧ (n + R = n0)%nat
  | RAdvance n acc => acc = take R data ∧ (n + R = n0)%nat ∧ (n ≠ 0)%nat ∧ (R < W)%nat
  | RLoad n acc =>
      (R ≠ 0)%nat ∧ acc = take (pred R) data ∧ (n + R = Datatypes.S n0)%nat ∧ (n ≠ 0)%nat ∧
      data !! pred R = Some (arr 0 (buf s) (read s))
  end.

Definition spsc_inv (data : list Z) (n0 : nat) (c : spsc) : Prop :=
  ∃ R W, holds data R W (strm c) ∧ (W ≤ length data)%nat ∧
    writer_ok data R W (strm c) (writer c) ∧ reader_ok data n0 R W (strm c) (reader c).

Lemma drop_cons_lookup (l : list Z) W b rest :
  b :: rest = drop W l → l !! W = Some b ∧ rest = drop (S W) l ∧ (W < length l)%nat.
Proof.
  intros Hd. assert (HW : l !! W = Some b).
  { rewrite <- (Nat.add_0_r W), <- lookup_drop, <- Hd. done. }
  split; [done|]. split; [|by apply lookup_lt_Some in HW].
  rewrite <- Nat.add_1_r, <- drop_drop, <- Hd. done.
Qed.

Lemma spsc_writer data n0 s w r s' w' :
  writer_step s w = (s', w') → spsc_inv data n0 (Spsc s w r) → spsc_inv data n0 (Spsc s' w' r).
Proof.
  intros Hst (R & W & Hh & HW & Hw & Hr). simpl in *.
  pose proof (h_len _ _ _ _ Hh) as Hlen.
  destruct w as [[|b rest]|[|b rest]|d]; simpl in Hst; injection Hst as <- <-.
  - by exists R, W.
  - exists R, W. split; [done|]. split; [done|]. split; [|done].
    rewrite (holds_write_length _ _ _ _ Hh). destruct (Z.eqb_spec (1022 - Z.of_nat (W - R)) 0);
      [done|]. split; [done|]. split; [done|]. lia.
  - destruct Hw as (_ & Hne & _). done.
  - destruct Hw as (Hd & _ & Hroom).
    exists R, W. split; [by apply holds_store|]. split; [done|]. split.
    + split; [done|]. split; [done|]. split; [done|]. simpl. by rewrite arr_insert_eq.
    + destruct r as [n acc|n acc|n acc]; [done|done|].
      destruct Hr as (HR & Hacc & Hn & Hn0 & Hl). repeat (split; [done|]).
      rewrite Hl. simpl. rewrite arr_insert_ne; [done|].
      rewrite (h_read _ _ _ _ Hh), (h_write _ _ _ _ Hh).
      pose proof (h_len _ _ _ _ Hh). dlia.
  - destruct Hw as (Hd & Hne & Hroom & Hbuf). destruct d as [|b rest]; [done|].
    destruct (drop_cons_lookup _ _ _ _ Hd) as (HWb & Hrest & Hlt).
    exists R, (S W). split; [by eapply holds_advance_write|]. split; [lia|].
    split; [done|]. destruct r as [n acc|n acc|n acc]; [done|simpl in *; naive_solver lia|done].
Qed.

Lemma spsc_reader data n0 s w r s' r' :
  reader_step s r = (s', r') → spsc_inv data n0 (Spsc s w r) → spsc_inv data n0 (Spsc s' w r').
Proof.
  intros Hst (R & W & Hh & HW & Hw & Hr). simpl in *.
  pose proof (h_len _ _ _ _ Hh) as Hlen.
  destruct r as [[|n] acc|n acc|n acc]; simpl in Hst; injection Hst as <- <-.
  - by exists R, W.
  - exists R, W. split; [done|]. split; [done|]. split; [done|].
    rewrite (holds_read_length _ _ _ _ Hh). destruct (Z.eqb_spec (Z.of_nat (W - R)) 0); [done|].
    destruct Hr as [Hacc Hn]. split; [done|]. split; [done|]. split; [done|]. lia.
  - destruct Hr as (Hacc & Hn & Hn0 & Hlt).
    pose proof (holds_advance_read _ _ _ _ Hh Hlt) as Hh'.
    exists (S R), W. split; [done|]. split; [done|]. split.
    + destruct w as [d|d|d]; simpl in *; [done|naive_solver lia|naive_solver lia].
    + destruct (lookup_lt_is_Some_2 data R) as [b Hb]; [lia|].
      split; [done|]. split; [done|]. split; [lia|]. split; [done|].
      cbn [strm]. rewrite (h_read _ _ _ _ Hh'), Nat2Z.inj_succ. simpl. rewrite Hb. f_equal.
      symmetry. apply (h_bytes _ _ _ _ Hh R); [lia|done].
  - destruct Hr as (HR & Hacc & Hn & Hn0 & Hl).
    exists R, W. split; [done|]. split; [done|]. split; [done|].
    split; [|lia]. unfold load_byte. rewrite Hacc.
    destruct R as [|R']; [done|]. simpl in Hl |- *. by rewrite (take_S_r _ _ _ Hl).
Qed.

Lemma spsc_inv_step data n0 c c' : spsc_step c c' → spsc_inv data n0 c → spsc_inv data n0 c'.
Proof. intros []; [by apply spsc_writer|by apply spsc_reader]. Qed.

Lemma spsc_inv_init data n : spsc_inv data n (spsc_init data n).
Proof.
  exists 0%nat, 0%nat. split; [apply holds_new|]. split; [lia|]. split; [done|].
  split; [done|lia].
Qed.

(** *** Descriptor tables *)

(** The first free descriptor. *)
Definition first_free (descr : gmap Z iostream) (i : Z) : Prop :=
  0 ≤ i < MAX_DESCRIPTORS ∧ input (arr null_ios descr i) = 0 ∧
  ∀ j, 0 ≤ j < i → input (arr null_ios descr j) ≠ 0.

Lemma attach_from_ok descr inp out k : ∀ i,
  i + Z.of_nat k = MAX_DESCRIPTORS → 0 ≤ i →
  (∀ j, 0 ≤ j < i → input (arr null_ios descr j) ≠ 0) →
  (∃ d, first_free descr d ∧
     attach_from descr inp out k i = Ok (d, <[d := IOS inp out]> descr)) ∨
  ((∀ j, 0 ≤ j < MAX_DESCRIPTORS → input (arr null_ios descr j) ≠ 0) ∧
     attach_from descr inp out k i = Ok (-1, descr)).
Proof.
  induction k as [|k IH]; intros i Hik Hi Hused.
  { right. split; [|done]. intros j Hj. apply Hused. lia. }
  simpl. unfold get_ios. rewrite aget_in by lia. simpl.
  case_bool_decide as He.
  - apply IH; [lia|lia|]. intros j Hj.
    destruct (decide (j = i)) as [->|]; [done|]. apply Hused. lia.
  - left. exists i. rewrite aset_in by lia. split; [|done]. split; [lia|].
    split; [|done]. destruct (decide (input (arr null_ios descr i) = 0)); [done|].
    by destruct He.
Qed.

(** The scan stops at the first descriptor with something to read. *)
Lemma select_from_first heap descr r s k : ∀ i,
  i + Z.of_nat k = MAX_DESCRIPTORS → 0 ≤ i ≤ r → r < MAX_DESCRIPTORS →
  (∀ j, i ≤ j < r → input (arr null_ios descr j) ≠ 0 ∧
     ∃ t, heap !! input (arr null_ios descr j) = Some t ∧ stream_read_length t = 0) →
  input (arr null_ios descr r) ≠ 0 → heap !! input (arr null_ios descr r) = Some s →
  0 < stream_read_length s → select_from heap descr k i = Ok r.
Proof.
  induction k as [|k IH]; intros i Hik Hi Hr Hbefore Hin Hs Hlen; [lia|]. cbn [select_from].
  unfold get_ios at 1. rewrite aget_in by lia. cbn [mbind res_bind].
  destruct (decide (i = r)) as [->|].
  - rewrite bool_decide_false by done. unfold get_stream. rewrite Hs. cbn [mbind res_bind].
    by rewrite (proj2 (Z.ltb_lt _ _)).
  - destruct (Hbefore i) as (Hne & t & Ht & Hempty); [lia|]. rewrite bool_decide_false by done.
    unfold get_stream. rewrite Ht. cbn [mbind res_bind]. rewrite (proj2 (Z.ltb_ge _ _)) by lia.
    apply IH; try done; [lia|lia|]. intros j Hj. apply Hbefore. lia.
Qed.

(** The scan of [iostream_select] from descriptor [i] on. *)
Lemma select_from_ok heap descr k : ∀ i,
  i + Z.of_nat k = MAX_DESCRIPTORS → 0 ≤ i →
  (∀ j, 0 ≤ j < MAX_DESCRIPTORS → input (arr null_ios descr j) ≠ 0 →
     is_Some (heap !! input (arr null_ios descr j))) →
  ∃ r, select_from heap descr k i = Ok r ∧
    (r = -1 ∨ i ≤ r < MAX_DESCRIPTORS ∧
       (∃ s, heap !! input (arr null_ios descr r) = Some s ∧ 0 < stream_read_length s) ∧
       (∀ j, i ≤ j ≤ r → input (arr null_ios descr j) ≠ 0) ∧
       (∀ j s, i ≤ j < r → heap !! input (arr null_ios descr j) = Some s →
          stream_read_length s = 0)) ∧
    (r = -1 → ∀ d s, i ≤ d < MAX_DESCRIPTORS →
       (∀ j, i ≤ j ≤ d → input (arr null_ios descr j) ≠ 0) →
       heap !! input (arr null_ios descr d) = Some s → stream_read_length s = 0).
Proof.
  assert (Hnn : ∀ s, 0 ≤ stream_read_length s).
  { intros s. unfold stream_read_length. apply u32_range. }
  induction k as [|k IH]; intros i Hik Hi Hin.
  { exists (-1). split; [done|]. split; [by left|]. intros _ d s Hd. lia. }
  simpl. unfold get_ios. rewrite aget_in by lia. simpl.
  case_bool_decide as He.
  { exists (-1). split; [done|]. split; [by left|].
    intros _ d s Hd Hj. destruct (Hj i); [lia|done]. }
  destruct (Hin i ltac:(lia) He) as [s Hs]. unfold get_stream. rewrite Hs. simpl.
  destruct (Z.ltb_spec 0 (stream_read_length s)) as [Hlt|Hge].
  { exists i. split; [done|]. split; [|lia]. right. split; [lia|].
    split; [by exists s|]. split; [|lia]. intros j Hj. by replace j with i by lia. }
  specialize (Hnn s).
  destruct (IH (i + 1)) as (r & Hr & Hcase & Hno); [lia|lia|done|].
  exists r. split; [done|]. split.
  - destruct Hcase as [->|(Hri & Hd & Hu & Hz)]; [by left|]. right.
    split; [lia|]. split; [done|]. split.
    + intros j Hj. destruct (decide (j = i)) as [->|]; [done|]. apply Hu. lia.
    + intros j t Hj Ht. destruct (decide (j = i)) as [->|]; [|by apply (Hz j); [lia|]].
      assert (t = s) as -> by congruence. lia.
  - intros Hm d t Hd Hu Ht. destruct (decide (d = i)) as [->|].
    { assert (t = s) as -> by congruence. lia. }
    apply (Hno Hm d t); [lia| |done]. intros j Hj. apply Hu. lia.
Qed.

(** ** Properties *)

(** C15. A stream between one writer and one reader is a FIFO channel under
    every interleaving of the statements of [stream_write] and [stream_read]:
    at any point the bytes the reader has stored are a prefix of the bytes
    sent, never more than it asked for; when its call returns it has the first
    [n] bytes, when it waits although the writer is done it has them all; and
    the two never wait for each other. *)
Theorem spsc_fifo data n c :
  rtc spsc_step (spsc_init data n) c →
  received (reader c) = take (length (received (reader c))) data ∧
  (length (received (reader c)) ≤ n)%nat ∧
  (∀ acc, reader c = RCheck 0 acc → acc = take n data) ∧
  (reader_waits c → writer c = WCheck [] → received (reader c) = data) ∧
  ¬ (writer_waits c ∧ reader_waits c).
Proof.
  intros Hr.
  pose proof (rtc_invariant _ _ _ _ (spsc_inv_step data n) Hr (spsc_inv_init data n)) as Hi.
  destruct Hi as (R & W & Hh & HW & Hw & Hrd). destruct c as [s w r]. simpl in *.
  pose proof (h_len _ _ _ _ Hh) as Hlen.
  assert (Hpre : ∃ k, received r = take k data ∧ (k ≤ length data)%nat ∧ (k ≤ n)%nat).
  { destruct r as [m acc|m acc|m acc]; simpl in *; destruct_and?.
    - exists R. split; [done|]. lia.
    - exists R. split; [done|]. lia.
    - exists (pred R). split; [done|]. lia. }
  destruct Hpre as (k & Hk & Hkl & Hkn). rewrite Hk, length_take, Nat.min_l by lia.
  split; [done|]. split; [done|]. split; [|split].
  - intros acc ->. simpl in Hrd. destruct Hrd as [-> <-]. done.
  - intros (m & acc & Hrc & Hz) Hwd. simpl in Hrc, Hz, Hwd. rewrite (holds_read_length _ _ _ _ Hh) in Hz.
    rewrite Hrc, Hwd in *. simpl in *. destruct Hrd as [-> Hm].
    rewrite <- Hk. apply take_ge. symmetry in Hw. apply drop_nil_inv in Hw. lia.
  - intros [(b & rest & Hwc & Hwz) (m & acc & Hrc & Hrz)]. simpl in Hwz, Hrz.
    rewrite (holds_read_length _ _ _ _ Hh) in Hrz.
    rewrite (holds_write_length _ _ _ _ Hh) in Hwz. lia.
Qed.

Lemma spsc_fifo_witness :
  let c := Spsc (Strm 1 2 {[1 := 7]}) (WCheck []) (RLoad 1 []) in
  rtc spsc_step (spsc_init [7] 1) c ∧ received (reader c) = take 0 [7].
Proof.
  assert (Hr : rtc spsc_step (spsc_init [7] 1)
                 (Spsc (Strm 1 2 {[1 := 7]}) (WCheck []) (RLoad 1 []))).
  { eapply rtc_l; [by apply step_writer|].
    eapply rtc_l; [by apply step_writer|].
    eapply rtc_l; [by apply step_writer|].
    eapply rtc_l; [by apply step_reader|].
    eapply rtc_l; [by apply step_reader|].
    apply rtc_refl. }
  split; [exact Hr|]. exact (proj1 (spsc_fifo [7] 1 _ Hr)).
Defined.

(** One thread that uses a stream alone sees a queue of at most 1022
    bytes: the two length functions return the number of bytes held and the
    room left; [stream_write] appends its bytes until there is no room and
    then waits with the rest; [stream_read] takes the oldest bytes, and waits
    for those that are missing. *)
Theorem stream_bounded_queue s q data n :
  ring_rep s q →
  stream_read_length s = Z.of_nat (length q) ∧
  stream_write_length s = 1022 - Z.of_nat (length q) ∧
  (∃ s', stream_write data s = (s', drop (1022 - length q) data) ∧
     ring_rep s' (q ++ take (1022 - length q) data)) ∧
  (∃ s', stream_read n s = (take n q, s', (n - length q)%nat) ∧ ring_rep s' (drop n q)).
Proof.
  intros Hs. destruct (ring_rep_length s q Hs) as (Hr & Hw & _).
  split; [done|]. split; [done|].
  split; [by apply stream_write_ring|by apply stream_read_ring].
Qed.

Lemma stream_bounded_queue_witness :
  ring_rep stream_new [] ∧
  ∃ s', stream_write [1; 2; 3] stream_new = (s', []) ∧ ring_rep s' [1; 2; 3].
Proof.
  split; [exact ring_rep_new|].
  exact (proj1 (proj2 (proj2 (stream_bounded_queue stream_new [] [1; 2; 3] 0 ring_rep_new)))).
Defined.

(** Two writers on one stream can lose a byte, because [stream_write]
    takes no lock: if each passes the length test and stores its byte before
    either advances [write], both bytes go to the same slot and the next slot
    is published without having been written. *)
Theorem stream_two_writers_lose a b :
  ∃ sched s, run_writers sched stream_new (WCheck [a]) (WCheck [b]) = (s, WCheck [], WCheck []) ∧
    stream_read_length s = 2 ∧ (stream_read 2 s).1.1 = [b; 0].
Proof.
  exists [true; false; true; false; true; false]. eexists. split; [reflexivity|].
  split; reflexivity.
Qed.

(** [iostream_attach] puts the pair in the first descriptor whose input
    is null and returns it, leaving the others; with all 32 in use it returns
    -1 and changes nothing.  It never goes out of the table. *)
Theorem iostream_attach_first descr inp out :
  (∃ d, first_free descr d ∧
     iostream_attach descr inp out = Ok (d, <[d := IOS inp out]> descr)) ∨
  ((∀ j, 0 ≤ j < MAX_DESCRIPTORS → input (arr null_ios descr j) ≠ 0) ∧
     iostream_attach descr inp out = Ok (-1, descr)).
Proof. apply attach_from_ok; [done|done|lia]. Qed.

(** [iostream_select] returns the first descriptor with bytes to read
    among those before the first free one, and -1 exactly when none of these
    has any; it dereferences only the pointers in the table. *)
Theorem iostream_select_first heap descr :
  (∀ j, 0 ≤ j < MAX_DESCRIPTORS → input (arr null_ios descr j) ≠ 0 →
     is_Some (heap !! input (arr null_ios descr j))) →
  ∃ r, iostream_select heap descr = Ok r ∧
    (r = -1 ∨ 0 ≤ r < MAX_DESCRIPTORS ∧
       (∃ s, heap !! input (arr null_ios descr r) = Some s ∧ 0 < stream_read_length s) ∧
       (∀ j, 0 ≤ j ≤ r → input (arr null_ios descr j) ≠ 0) ∧
       (∀ j s, 0 ≤ j < r → heap !! input (arr null_ios descr j) = Some s →
          stream_read_length s = 0)) ∧
    (r = -1 → ∀ d s, 0 ≤ d < MAX_DESCRIPTORS →
       (∀ j, 0 ≤ j ≤ d → input (arr null_ios descr j) ≠ 0) →
       heap !! input (arr null_ios descr d) = Some s → stream_read_length s = 0).
Proof. apply select_from_ok; done. Qed.

Lemma iostream_select_first_witness :
  let descr := <[0 := IOS 64 64]> (<[1 := IOS 96 96]> ∅) in
  let heap := <[64 := stream_new]> (<[96 := Strm 0 3 ∅]> ∅) in
  iostream_select heap descr = Ok 1 ∧ ∃ r, iostream_select heap descr = Ok r.
Proof.
  split; [by vm_compute|].
  destruct (iostream_select_first (<[64 := stream_new]> (<[96 := Strm 0 3 ∅]> ∅))
    (<[0 := IOS 64 64]> (<[1 := IOS 96 96]> ∅))) as (r & Hr & _).
  - intros j Hj. rewrite arr_insert. case_decide; [by eauto|].
    rewrite arr_insert. case_decide; [by eauto|]. by rewrite arr_empty.
  - exists r. exact Hr.
Defined.

End Stream.
