(* ===== verification/Timer.v ===== *)
(** Ticks and time (kernel/timer.c, kernel/timer.h).

    The kernel is built with -m32, so [uint64] (an [unsigned long], config.h)
    has 32 bits; the tick counter and all sums below wrap at 2^32. *)

From Stdlib Require Import ZArith Lia.
From stdpp Require Import base option list.
From S2P Require Import Prelude.

Module Timer.

(** [typedef unsigned long uint64;] on i386. *)
Definition uint64 (z : Z) : Z := u32 z.

Definition TIMER_HZ : Z := 1024.
Definition DAY_TO_H : Z := 24.
Definition H_TO_MIN : Z := 60.
Definition MIN_TO_SEC : Z := 60.
Definition SEC_TO_MS : Z := 1000.

Record time_t := Time { milisec : Z; sec : Z; minutes : Z; hours : Z; days : Z }.

(** [_tick]: the RTC interrupt handler (the port accesses acknowledge the
    interrupt). *)
Definition tick (ticks : Z) : Z := uint64 (ticks + 1).

Definition time_to_ticks (time : time_t) : Z :=
  let cur_ticks := 0 in
  let cur_ticks := uint64 (cur_ticks + milisec time * TIMER_HZ / SEC_TO_MS) in
  let cur_ticks := uint64 (cur_ticks + sec time * TIMER_HZ) in
  let cur_ticks := uint64 (cur_ticks + minutes time * TIMER_HZ * MIN_TO_SEC) in
  let cur_ticks := uint64 (cur_ticks + hours time * TIMER_HZ * MIN_TO_SEC * H_TO_MIN) in
  uint64 (cur_ticks + u32 (days time * TIMER_HZ * MIN_TO_SEC * H_TO_MIN * DAY_TO_H)).

Definition ticks_to_time (cur_ticks : Z) : time_t :=
  let days := cur_ticks / (TIMER_HZ * MIN_TO_SEC * H_TO_MIN * DAY_TO_H) in
  let cur_ticks := cur_ticks mod (TIMER_HZ * MIN_TO_SEC * H_TO_MIN * DAY_TO_H) in
  let hours := u8 (cur_ticks / (TIMER_HZ * MIN_TO_SEC * H_TO_MIN)) in
  let cur_ticks := cur_ticks mod (TIMER_HZ * MIN_TO_SEC * H_TO_MIN) in
  let minutes := u8 (cur_ticks / (TIMER_HZ * MIN_TO_SEC)) in
  let cur_ticks := cur_ticks mod (TIMER_HZ * MIN_TO_SEC) in
  let sec := u8 (cur_ticks / TIMER_HZ) in
  let cur_ticks := cur_ticks mod TIMER_HZ in
  let milisec := u16 (u32 (cur_ticks * SEC_TO_MS) / TIMER_HZ) in
  Time milisec sec minutes hours days.

Definition timer_uptime (ticks : Z) : time_t := ticks_to_time ticks.

Definition timer_get_ticks (ticks : Z) : Z := ticks.

(** [timer_active_wait] spins until this holds of the tick counter, [start]
    being its value at the call. *)
Definition active_wait_over (wtime start ticks : Z) : bool :=
  negb (ticks <? u32 (wtime + start)).

(** [cur->wait_timer = timer_get_ticks() + ticks;] of [sched_thread_sleep]. *)
Definition sleep_deadline (now n : Z) : Z := uint64 (timer_get_ticks now + n).

(** [thread_timer_event] for a thread with this [wait_timer]. *)
Definition thread_timer_event (wait_timer ticks : Z) : bool := wait_timer <? ticks.

(** [n] timer interrupts. *)
Definition after_ticks (n : nat) (ticks : Z) : Z := Nat.iter n tick ticks.

Ltac timer_unfold :=
  unfold uint64, TIMER_HZ, DAY_TO_H, H_TO_MIN, MIN_TO_SEC, SEC_TO_MS in *.

Lemma after_ticks_eq n t : 0 ≤ t < 2 ^ 32 → after_ticks n t = u32 (t + Z.of_nat n).
Proof.
  intros Ht. unfold after_ticks. induction n as [|n IH].
  { simpl. rewrite u32_small by lia. lia. }
  rewrite Nat.iter_succ, IH. unfold tick, uint64. rewrite u32_add_l. f_equal. lia.
Qed.

(** ** Properties *)

(** [_ticks_to_time] splits every 32-bit tick count into fields in their
    ranges (no field is truncated by its type), and [_time_to_ticks] of the
    result is the count again up to the rounding of the milliseconds: never
    more, and at most 2 ticks less. *)
Theorem ticks_time_roundtrip t :
  0 ≤ t < 2 ^ 32 →
  let u := ticks_to_time t in
  0 ≤ milisec u < 1000 ∧ 0 ≤ sec u < 60 ∧ 0 ≤ minutes u < 60 ∧ 0 ≤ hours u < 24 ∧
  0 ≤ days u ≤ 48 ∧
  t - 2 ≤ time_to_ticks u ≤ t.
Proof.
  intros Ht. unfold ticks_to_time, time_to_ticks. cbv zeta.
  cbn [milisec sec minutes hours days]. timer_unfold.
  change (1024 * 60 * 60 * 24) with 88473600. change (1024 * 60 * 60) with 3686400.
  change (1024 * 60) with 61440.
  set (d := t / 88473600). set (r1 := t mod 88473600).
  assert (Hd : t = 88473600 * d + r1 ∧ 0 ≤ r1 < 88473600 ∧ 0 ≤ d ≤ 48) by (unfold d, r1; dlia).
  clearbody d r1. destruct Hd as (-> & Hr1 & Hd).
  set (h := r1 / 3686400). set (r2 := r1 mod 3686400).
  assert (Hh : r1 = 3686400 * h + r2 ∧ 0 ≤ r2 < 3686400 ∧ 0 ≤ h < 24) by (unfold h, r2; dlia).
  clearbody h r2. destruct Hh as (-> & Hr2 & Hh).
  set (m := r2 / 61440). set (r3 := r2 mod 61440).
  assert (Hm : r2 = 61440 * m + r3 ∧ 0 ≤ r3 < 61440 ∧ 0 ≤ m < 60) by (unfold m, r3; dlia).
  clearbody m r3. destruct Hm as (-> & Hr3 & Hm).
  set (s := r3 / 1024). set (r4 := r3 mod 1024).
  assert (Hs : r3 = 1024 * s + r4 ∧ 0 ≤ r4 < 1024 ∧ 0 ≤ s < 60) by (unfold s, r4; dlia).
  clearbody s r4. destruct Hs as (-> & Hr4 & Hs).
  rewrite (u32_small (r4 * 1000)) by lia.
  set (ms := r4 * 1000 / 1024).
  assert (Hms : 0 ≤ ms < 1000 ∧ r4 * 1000 - 1024 < 1024 * ms ≤ r4 * 1000) by (unfold ms; dlia).
  clearbody ms. rewrite !u8_small, (u16_small ms) by lia.
  set (e := ms * 1024 / 1000).
  assert (He : r4 - 2 ≤ e ≤ r4 ∧ 0 ≤ e) by (unfold e; dlia). clearbody e.
  rewrite (u32_small (0 + e)) by lia. rewrite (u32_small (0 + e + s * 1024)) by lia.
  rewrite (u32_small (0 + e + s * 1024 + m * 1024 * 60)) by lia.
  rewrite u32_add_r, u32_add_l, u32_small by lia.
  repeat split; lia.
Qed.

Lemma ticks_time_roundtrip_witness :
  ticks_to_time 90000000 = Time 625 50 24 0 1 ∧
  90000000 - 2 ≤ time_to_ticks (ticks_to_time 90000000) ≤ 90000000.
Proof.
  split; [by vm_compute|].
  destruct (ticks_time_roundtrip 90000000 ltac:(lia)) as (_ & _ & _ & _ & _ & H). exact H.
Defined.

(** [sched_thread_sleep(n)] sleeps more than [n] ticks when the deadline
    does not pass 2^32: after [k] interrupts (still below 2^32) the timer
    event is true exactly when [k > n].  When the sum wraps, the event is true
    at once. *)
Theorem sleep_wakes_after now n k :
  0 ≤ now < 2 ^ 32 → 0 ≤ n < 2 ^ 32 →
  (now + n < 2 ^ 32 → now + Z.of_nat k < 2 ^ 32 →
     thread_timer_event (sleep_deadline now n) (after_ticks k now)
       = bool_decide (n < Z.of_nat k)) ∧
  (2 ^ 32 ≤ now + n → thread_timer_event (sleep_deadline now n) now = true).
Proof.
  intros Hnow Hn. unfold thread_timer_event, sleep_deadline, timer_get_ticks, uint64.
  split.
  - intros Hs Hk. rewrite after_ticks_eq, !u32_small by lia.
    case_bool_decide; [apply Z.ltb_lt|apply Z.ltb_ge]; lia.
  - intros Hw. apply Z.ltb_lt. unfold u32. dlia.
Qed.

Lemma sleep_wakes_after_witness :
  thread_timer_event (sleep_deadline 1000 5) (after_ticks 6 1000) = true ∧
  thread_timer_event (sleep_deadline 4294967290 10) 4294967290 = true.
Proof.
  split.
  - exact (proj1 (sleep_wakes_after 1000 5 6 ltac:(lia) ltac:(lia)) ltac:(lia) ltac:(lia)).
  - exact (proj2 (sleep_wakes_after 4294967290 10 0 ltac:(lia) ltac:(lia)) ltac:(lia)).
Defined.

End Timer.
