(* ===== verification/Thread.v ===== *)
(** Threads, processes and the events threads wait for (kernel/thread.h,
    kernel/process.h; the event functions of kernel/timer.c and
    kernel/stream.c).

    [world] is what an event function reads: the tick counter, the streams
    and the processes in the heap.  A [thread_event] is one of the three
    stream events, the timer event, or the null pointer. *)

From Stdlib Require Import ZArith Lia.
From stdpp Require Import base option list gmap.
From S2P Require Import Prelude Stream Timer.

Module Thread.

Inductive thread_event := NoEvent | TimerEvent | SelectEvent | ReadEvent | WriteEvent.

#[export] Instance thread_event_eq_dec : EqDecision thread_event.
Proof. solve_decision. Defined.

Record proc_section := Sect { virt_addr : Z; phys_addr : Z; page_count : Z }.

Definition section0 : proc_section := Sect 0 0 0.

Record process := Proc {
  pid : Z; text : proc_section; data : proc_section; bss : proc_section;
  rodata : proc_section; pdir : Z; name : gmap Z Z; iodescr : gmap Z Stream.iostream
}.

Record thread := Thr {
  parent : Z; priority : Z; stack : Z; kernel_stack : Z; esp : Z; eip : Z;
  wait_timer : Z; descr : Z; event : thread_event
}.

Definition set_event (ev : thread_event) (t : thread) : thread :=
  Thr (parent t) (priority t) (stack t) (kernel_stack t) (esp t) (eip t)
    (wait_timer t) (descr t) ev.

Definition set_descr (d : Z) (t : thread) : thread :=
  Thr (parent t) (priority t) (stack t) (kernel_stack t) (esp t) (eip t)
    (wait_timer t) d (event t).

Definition set_wait_timer (w : Z) (t : thread) : thread :=
  Thr (parent t) (priority t) (stack t) (kernel_stack t) (esp t) (eip t)
    w (descr t) (event t).

Definition set_context (sp ip : Z) (t : thread) : thread :=
  Thr (parent t) (priority t) (stack t) (kernel_stack t) sp ip
    (wait_timer t) (descr t) (event t).

Record world := World {
  ticks : Z; streams : gmap Z Stream.stream; procs : gmap Z process
}.

Definition get_proc (p : Z) (w : world) : res process :=
  match procs w !! p with Some pr => Ok pr | None => Fault end.

Definition stream_select_event (w : world) (this : thread) : res bool :=
  p ← get_proc (parent this) w;
  r ← Stream.iostream_select (streams w) (iodescr p);
  Ok (bool_decide (r ≠ -1)).

Definition stream_read_event (w : world) (this : thread) : res bool :=
  if bool_decide (descr this = 0) then Ok false else
  s ← Stream.get_stream (streams w) (descr this);
  Ok (0 <? Stream.stream_read_length s).

Definition stream_write_event (w : world) (this : thread) : res bool :=
  if bool_decide (descr this = 0) then Ok false else
  s ← Stream.get_stream (streams w) (descr this);
  Ok (0 <? Stream.stream_write_length s).

(** [thread->event(thread)]; calling a null pointer faults. *)
Definition run_event (w : world) (this : thread) : res bool :=
  match event this with
  | NoEvent => Fault
  | TimerEvent => Ok (Timer.thread_timer_event (wait_timer this) (ticks w))
  | SelectEvent => stream_select_event w this
  | ReadEvent => stream_read_event w this
  | WriteEvent => stream_write_event w this
  end.

(** Whether a thread with a pending event may run. *)
Definition ready (w : world) (this : thread) : res bool :=
  if bool_decide (event this = NoEvent) then Ok true else run_event w this.

End Thread.
