(* ===== verification/Gdt.v ===== *)
(** Segment descriptors and task state segments (kernel/gdt.c).

    The descriptor table is an array of [gdt_entry] records, one byte or
    half-word per field as in the code.  [segment] is what the processor reads
    out of a descriptor; [segment_of] decodes one, [selected] looks a selector
    up.  [gdt_at] and [tss_at] are the addresses of the two arrays. *)

From Stdlib Require Import ZArith Lia.
From stdpp Require Import base option list gmap.
From S2P Require Import Prelude.

Module Gdt.

Definition GDT_ENTRIES : Z := 5 + MAX_CPU.
Definition ADDR_BASE : Z := 0xC0000000.
Definition VIRT_TO_PHYS (x : Z) : Z := u32 (x - ADDR_BASE).

Record gdt_entry := Entry {
  size_low : Z; base_low : Z; base_middle : Z; access : Z; granularity : Z; base_high : Z
}.
Definition entry0 : gdt_entry := Entry 0 0 0 0 0 0.

(** The fields of [struct tss_entry] that the code writes, and [sizeof] of the
    packed structure. *)
Record tss_entry := Tss {
  esp0 : Z; ss0 : Z; es : Z; cs : Z; ss : Z; ds : Z; fs : Z; gs : Z
}.
Definition tss0 : tss_entry := Tss 0 0 0 0 0 0 0 0.
Definition TSS_SIZE : Z := 104.

(** [struct gdt gdtr] *)
Record gdtr := Gdtr { size : Z; base : Z }.

Section Table.
Context (gdt_at tss_at : Z).

(** The static variables, and what [lgdt] and [ltr] loaded last. *)
Record state := State {
  gdt : gmap Z gdt_entry; reg : gdtr; tss : gmap Z tss_entry;
  loaded : option gdtr; task : Z
}.

Definition set_gdt (g : gmap Z gdt_entry) (s : state) : state :=
  State g (reg s) (tss s) (loaded s) (task s).
Definition set_tss (t : gmap Z tss_entry) (s : state) : state :=
  State (gdt s) (reg s) t (loaded s) (task s).

Definition gdt_set (id base limit access gran : Z) (s : state) : res state :=
  let base_low := u16 (Z.land base 0xFFFF) in
  let base_middle := u8 (Z.land (Z.shiftr base 16) 0xFF) in
  let base_high := u8 (Z.land (Z.shiftr base 24) 0xFF) in
  let size_low := u16 (Z.land limit 0xFFFF) in
  let granularity := u8 (Z.land (Z.shiftr limit 16) 0x0F) in
  let granularity := u8 (Z.lor granularity (Z.land gran 0xF0)) in
  g ← aset GDT_ENTRIES (gdt s) id
        (Entry size_low base_low base_middle access granularity base_high);
  Ok (set_gdt g s).

(** [ltr] with the selector of entry [5 + id]. *)
Definition tss_flush (id : Z) (s : state) : state :=
  let id := u32 (id + 5) in
  let id := u32 (id * 8) in
  let id := Z.lor id 0x03 in
  State (gdt s) (reg s) (tss s) (loaded s) (u16 id).

(** [tss + id] *)
Definition tss_addr (id : Z) : Z := u32 (tss_at + TSS_SIZE * id).

Definition tss_init (id : Z) (s : state) : res state :=
  s ← gdt_set (5 + id) (tss_addr id) (tss_addr (id + 1)) 0xE9 0x00 s;
  t ← aget tss0 MAX_CPU (tss s) id;
  t' ← aset MAX_CPU (tss s) id (Tss 0xDEADC0DE 0x10 0x13 0x0b 0x13 0x13 0x13 0x13);
  Ok (set_tss t' s).

(** [gdt_flush] loads the register from [gdtr]. *)
Definition gdt_flush (s : state) : state :=
  State (gdt s) (reg s) (tss s) (Some (reg s)) (task s).

Definition gdt_init (s : state) : res state :=
  let s := State (gdt s) (Gdtr (8 * GDT_ENTRIES) (VIRT_TO_PHYS gdt_at)) (tss s) (loaded s) (task s) in
  let s := set_tss ∅ s in
  s ← gdt_set 0 0 0 0 0 s;
  s ← gdt_set 1 0 0xFFFFFFFF 0x9A 0xCF s;
  s ← gdt_set 2 0 0xFFFFFFFF 0x92 0xCF s;
  s ← gdt_set 3 0 0xFFFFFFFF 0xFA 0xCF s;
  s ← gdt_set 4 0 0xFFFFFFFF 0xF2 0xCF s;
  s ← for_upto MAX_CPU tss_init s;
  Ok (gdt_flush s).

Definition tss_set_stack (cpu stack : Z) (s : state) : res state :=
  t ← aget tss0 MAX_CPU (tss s) cpu;
  t' ← aset MAX_CPU (tss s) cpu
         (Tss stack (ss0 t) (es t) (cs t) (ss t) (ds t) (fs t) (gs t));
  Ok (set_tss t' s).

Definition state0 : state := State ∅ (Gdtr 0 0) ∅ None 0.

(** ** What the processor makes of a descriptor *)

Inductive segment_kind := Code | Data | Task | Other.

Record segment := Segment {
  seg_base : Z; seg_limit : Z; seg_dpl : Z; seg_kind : segment_kind; seg_present : bool
}.

Definition base_of (e : gdt_entry) : Z :=
  base_low e + 2 ^ 16 * base_middle e + 2 ^ 24 * base_high e.
Definition limit_of (e : gdt_entry) : Z := size_low e + 2 ^ 16 * (granularity e mod 16).

Definition kind_of (access : Z) : segment_kind :=
  if Z.testbit access 4 then if Z.testbit access 3 then Code else Data
  else if bool_decide (access mod 16 = 9 ∨ access mod 16 = 11) then Task else Other.

(** With the granularity bit the limit counts pages. *)
Definition segment_of (e : gdt_entry) : segment :=
  Segment (base_of e)
    (if Z.testbit (granularity e) 7 then 4096 * limit_of e + 4095 else limit_of e)
    (access e / 32 mod 4) (kind_of (access e)) (Z.testbit (access e) 7).

(** The segment of a selector of the table. *)
Definition selected (s : state) (sel : Z) : segment := segment_of (arr entry0 (gdt s) (sel / 8)).

(** ** Lemmas *)

Lemma land_low z n : 0 ≤ n → Z.land z (2 ^ n - 1) = z mod 2 ^ n.
Proof. intros Hn. by rewrite <- Z.land_ones, Z.ones_equiv by lia. Qed.

(** The two halves of the granularity byte, by enumeration. *)
Lemma nibbles a b :
  0 ≤ a < 16 → 0 ≤ b < 256 → u8 (Z.lor a (Z.land b 0xF0)) = a + 16 * (b / 16).
Proof.
  intros Ha Hb.
  assert (Hall : forallb (λ a, forallb (λ b, u8 (Z.lor a (Z.land b 0xF0)) =? a + 16 * (b / 16))
    (seqZ 0 256)) (seqZ 0 16) = true) by (vm_compute; reflexivity).
  rewrite forallb_forall in Hall. specialize (Hall a). rewrite forallb_forall in Hall.
  apply Z.eqb_eq, Hall; apply list_elem_of_In, elem_of_seqZ; lia.
Qed.

(** The descriptor [gdt_set] writes. *)
Definition descriptor (base limit access gran : Z) : gdt_entry :=
  Entry (limit mod 2 ^ 16) (base mod 2 ^ 16) (base / 2 ^ 16 mod 2 ^ 8) access
    (limit / 2 ^ 16 mod 2 ^ 4 + 16 * (gran / 16)) (base / 2 ^ 24 mod 2 ^ 8).

Lemma gdt_set_ok id base limit access gran s :
  0 ≤ id < GDT_ENTRIES → 0 ≤ base < 2 ^ 32 → 0 ≤ limit < 2 ^ 32 → 0 ≤ gran < 256 →
  gdt_set id base limit access gran s
    = Ok (set_gdt (<[id := descriptor base limit access gran]> (gdt s)) s).
Proof.
  intros Hid Hb Hl Hg. unfold gdt_set. rewrite aset_in by done. cbn [mbind res_bind].
  unfold descriptor. do 3 f_equal.
  change 0xFFFF with (2 ^ 16 - 1). change 0xFF with (2 ^ 8 - 1). change 0x0F with (2 ^ 4 - 1).
  rewrite !land_low, !Z.shiftr_div_pow2 by lia.
  rewrite !u16_small, (u8_small ((_ / 2 ^ 16) mod 2 ^ 8)), (u8_small ((_ / 2 ^ 24) mod 2 ^ 8)),
    (u8_small ((_ / 2 ^ 16) mod 2 ^ 4)) by (apply Z.mod_pos_bound || dlia; lia).
  rewrite nibbles by (try lia; apply Z.mod_pos_bound; lia). done.
Qed.

Lemma base_of_descriptor base limit access gran :
  0 ≤ base < 2 ^ 32 → base_of (descriptor base limit access gran) = base.
Proof. intros Hb. unfold base_of, descriptor. cbn [base_low base_middle base_high]. dlia. Qed.

Lemma limit_of_descriptor base limit access gran :
  limit_of (descriptor base limit access gran) = limit mod 2 ^ 20.
Proof. unfold limit_of, descriptor. cbn [size_low granularity]. dlia. Qed.

Lemma granularity_bit base limit access gran :
  0 ≤ gran < 256 → Z.testbit (granularity (descriptor base limit access gran)) 7 = (128 <=? gran).
Proof.
  intros Hg. cbn [granularity descriptor]. rewrite Z.testbit_eqb by lia.
  pose proof (Z.mod_pos_bound (limit / 2 ^ 16) (2 ^ 4)).
  destruct (Z.leb_spec 128 gran); [apply Z.eqb_eq|apply Z.eqb_neq]; dlia.
Qed.

(** Decoding what [gdt_set] encodes. *)
Lemma segment_of_descriptor base limit access gran :
  0 ≤ base < 2 ^ 32 → 0 ≤ gran < 256 →
  segment_of (descriptor base limit access gran)
  = Segment base
      (if 128 <=? gran then 4096 * (limit mod 2 ^ 20) + 4095 else limit mod 2 ^ 20)
      (access / 32 mod 4) (kind_of access) (Z.testbit access 7).
Proof.
  intros Hb Hg. unfold segment_of. rewrite granularity_bit, base_of_descriptor by done.
  by rewrite limit_of_descriptor.
Qed.

Lemma tss_addr_range id : 0 ≤ tss_addr id < 2 ^ 32.
Proof. apply u32_range. Qed.

Lemma tss_init_ok id s :
  0 ≤ id < MAX_CPU →
  tss_init id s = Ok (set_tss (<[id := Tss 0xDEADC0DE 0x10 0x13 0x0b 0x13 0x13 0x13 0x13]> (tss s))
    (set_gdt (<[5 + id := descriptor (tss_addr id) (tss_addr (id + 1)) 0xE9 0x00]> (gdt s)) s)).
Proof.
  intros Hid. unfold tss_init. rewrite gdt_set_ok;
    [|unfold GDT_ENTRIES; change MAX_CPU with 8 in *; lia|apply tss_addr_range..|lia].
  cbn [mbind res_bind]. change (tss (set_gdt _ s)) with (tss s).
  rewrite aget_in by done. cbn [mbind res_bind]. by rewrite aset_in by done.
Qed.

(** The loop over the processors. *)
Record filled (i : Z) (s s' : state) : Prop := {
  fl_tss : ∀ id, 0 ≤ id < i →
    arr entry0 (gdt s') (5 + id) = descriptor (tss_addr id) (tss_addr (id + 1)) 0xE9 0x00 ∧
    esp0 (arr tss0 (tss s') id) = 0xDEADC0DE ∧ ss0 (arr tss0 (tss s') id) = 0x10;
  fl_low : ∀ id, id < 5 → arr entry0 (gdt s') id = arr entry0 (gdt s) id;
  fl_reg : reg s' = reg s
}.

Lemma tss_loop s : ∃ s', for_upto MAX_CPU tss_init s = Ok s' ∧ filled MAX_CPU s s'.
Proof.
  apply (for_upto_inv (λ i s', filled i s s')); [done|split; done || lia|].
  intros j t Hj [H1 H2 H3]. rewrite tss_init_ok by done. eexists. split; [reflexivity|].
  split; cbn [gdt tss reg set_tss set_gdt].
  - intros id Hid. destruct (decide (id = j)) as [->|]; [by rewrite !arr_insert_eq|].
    rewrite !arr_insert_ne by lia. apply H1. lia.
  - intros id Hid. rewrite arr_insert_ne by lia. by apply H2.
  - exact H3.
Qed.

(** The flat segments: all of memory, for the kernel and for processes. *)
Definition flat (dpl : Z) (k : segment_kind) : segment := Segment 0 (2 ^ 32 - 1) dpl k true.

Lemma gdt_init_ok s :
  ∃ s', gdt_init s = Ok s' ∧
    loaded s' = Some (Gdtr (8 * GDT_ENTRIES) (VIRT_TO_PHYS gdt_at)) ∧
    filled MAX_CPU s' s' ∧
    segment_of (arr entry0 (gdt s') 1) = flat 0 Code ∧
    segment_of (arr entry0 (gdt s') 2) = flat 0 Data ∧
    segment_of (arr entry0 (gdt s') 3) = flat 3 Code ∧
    segment_of (arr entry0 (gdt s') 4) = flat 3 Data.
Proof.
  unfold gdt_init. do 5 (rewrite gdt_set_ok by (unfold GDT_ENTRIES; change MAX_CPU with 8; lia);
    cbn [mbind res_bind]).
  set (t := set_gdt _ _). destruct (tss_loop t) as (s' & -> & [H1 H2 H3]). cbn [mbind res_bind].
  exists (gdt_flush s'). split; [done|]. cbn [loaded gdt_flush gdt].
  split; [by rewrite H3|]. split; [by split|].
  rewrite !H2 by lia. unfold t. cbn [gdt set_gdt].
  repeat first [rewrite arr_insert_eq|rewrite arr_insert_ne by lia].
  rewrite !segment_of_descriptor by lia. done.
Qed.

Lemma task_register id s : 0 ≤ id < MAX_CPU → task (tss_flush id s) = 8 * (5 + id) + 3.
Proof.
  intros Hid. unfold tss_flush. cbn [task]. change MAX_CPU with 8 in Hid.
  rewrite (u32_small (id + 5)), u32_small by lia.
  assert (id = 0 ∨ id = 1 ∨ id = 2 ∨ id = 3 ∨ id = 4 ∨ id = 5 ∨ id = 6 ∨ id = 7)
    as [->|[->|[->|[->|[->|[->|[->| ->]]]]]]] by lia; done.
Qed.

Lemma task_selector id s : 0 ≤ id < MAX_CPU → task (tss_flush id s) / 8 = 5 + id.
Proof. intros Hid. rewrite task_register by done. dlia. Qed.

End Table.

(** ** Properties *)

(** A descriptor holds what [gdt_set] is given: the processor reads the
    base, the access rights and the low 20 bits of the limit back, in pages when
    the granularity bit is set; no other descriptor changes. *)
Lemma gdt_set_roundtrip id base limit access gran s :
  0 ≤ id < GDT_ENTRIES → 0 ≤ base < 2 ^ 32 → 0 ≤ limit < 2 ^ 32 → 0 ≤ gran < 256 →
  ∃ s', gdt_set id base limit access gran s = Ok s' ∧
    segment_of (arr entry0 (gdt s') id)
    = Segment base
        (if 128 <=? gran then 4096 * (limit mod 2 ^ 20) + 4095 else limit mod 2 ^ 20)
        (access / 32 mod 4) (kind_of access) (Z.testbit access 7) ∧
    ∀ j, j ≠ id → arr entry0 (gdt s') j = arr entry0 (gdt s) j.
Proof.
  intros Hid Hb Hl Hg. rewrite gdt_set_ok by done. eexists. split; [reflexivity|].
  cbn [gdt set_gdt]. split; [by rewrite arr_insert_eq, segment_of_descriptor|].
  intros j Hj. by rewrite arr_insert_ne.
Qed.

(** The table [gdt_init] loads: the selectors 0x08 and 0x10 are flat code
    and data of the kernel, 0x1b and 0x23 those of processes, and the selector
    [tss_flush] loads for a processor is the present task segment at its
    [tss_entry], whose kernel stack selector is 0x10.  Its limit is the low 20
    bits of the address behind it, not its size. *)
Theorem gdt_init_segments gdt_at tss_at s :
  ∃ s', gdt_init gdt_at tss_at s = Ok s' ∧
    selected s' 0x08 = flat 0 Code ∧ selected s' 0x10 = flat 0 Data ∧
    selected s' 0x1b = flat 3 Code ∧ selected s' 0x23 = flat 3 Data ∧
    ∀ id, 0 ≤ id < MAX_CPU →
      selected s' (task (tss_flush id s'))
      = Segment (tss_addr tss_at id) (tss_addr tss_at (id + 1) mod 2 ^ 20) 3 Task true ∧
      ss0 (arr tss0 (tss s') id) = 0x10.
Proof.
  destruct (gdt_init_ok gdt_at tss_at s) as (s' & Hs & _ & [Ht _ _] & H1 & H2 & H3 & H4).
  exists s'. split; [exact Hs|]. do 4 (split; [assumption|]).
  intros id Hid. destruct (Ht id Hid) as (He & _ & Hss). split; [|exact Hss].
  unfold selected. rewrite task_selector, He by done.
  rewrite segment_of_descriptor by (lia || apply tss_addr_range). done.
Qed.

(** ** Concrete runs *)

Lemma gdt_set_roundtrip_witness :
  ∃ s', gdt_set 3 0x12345678 0xABCDE 0xFA 0xCF state0 = Ok s' ∧
    segment_of (arr entry0 (gdt s') 3) = Segment 0x12345678 0xABCDEFFF 3 Code true.
Proof.
  destruct (gdt_set_roundtrip 3 0x12345678 0xABCDE 0xFA 0xCF state0) as (s' & Hs & He & _);
    [split; [discriminate|reflexivity]|lia|lia|lia|].
  exists s'. exact (conj Hs He).
Defined.

End Gdt.
