(* ===== verification/Interrupts.v ===== *)
(** Interrupt gates, dispatch and the interrupt controllers
    (kernel/interrupts.c, kernel/isr_impl.c, kernel/isr_list.h).

    The interrupt table is an array of [idt_entry] records, [gate_of] is what
    the processor reads out of one.  A handler is named by the function whose
    address [interrupts_register_handler] is given.  The controllers are
    register files: [lapic] and the redirection table of the I/O APIC, with
    its selector register written before its window.  [isr] gives the address
    of each interrupt entry point of kernel/isr.s, [isr_null] that of the
    empty one. *)

From Stdlib Require Import ZArith Lia.
From stdpp Require Import base option list gmap.
From S2P Require Import Prelude Gdt.

Module Interrupts.

Definition LAPIC_ID : Z := 0x0020.
Definition LAPIC_TPR : Z := 0x0080.
Definition LAPIC_EOI : Z := 0x00B0.
Definition LAPIC_SIR : Z := 0x00F0.
Definition LAPIC_ERR : Z := 0x0280.
Definition LAPIC_TIMER : Z := 0x0320.
Definition LAPIC_PERF_MON : Z := 0x0340.
Definition LAPIC_INT0 : Z := 0x0350.
Definition LAPIC_INT1 : Z := 0x0360.
Definition IOAPIC_REDIR_BASE : Z := 0x10.
Definition IOAPIC_DISABLE : Z := 0x10000.
Definition INT_OK : Z := 1.
Definition INT_ERROR : Z := 0.
Definition INT_SCHED_TICK : Z := 128.
Definition INT_SYSCALL : Z := 80.
Definition INT_RTC : Z := 211.
Definition FLAGS_INT_ENABLE : Z := Z.shiftl 1 9.

(** [struct thread_state]: what isr_common pushes. *)
Record thread_state := TS {
  tpr : Z; ds : Z; edi : Z; esi : Z; ebp : Z; esp : Z; ebx : Z; edx : Z; ecx : Z; eax : Z;
  int_id : Z; err : Z; eip : Z; cs : Z; eflags : Z; useresp : Z; ss : Z
}.

(** [enum thread_flags] *)
Definition THREAD_KERNEL : Z := 0.
Definition THREAD_USERSPACE : Z := 1.

Definition zero_state : thread_state := TS 0 0 0 0 0 0 0 0 0 0 0 0 0 0 0 0 0.

(** The state written over whatever was there. *)
Definition regs_init (stack entry flags : Z) : thread_state :=
  let user := negb (bool_decide (flags = 0)) && negb (bool_decide (THREAD_USERSPACE = 0)) in
  let ds := if user then 0x23 else 0x10 in
  let cs := if user then 0x1b else 0x08 in
  TS 0 ds 0 0 stack stack 0 0 0 0 0 0 entry cs FLAGS_INT_ENABLE stack ds.

(** ** The interrupt table *)

Record idt_entry := Gate {
  base_low : Z; selector : Z; zero : Z; flags : Z; base_high : Z
}.
Definition gate0 : idt_entry := Gate 0 0 0 0 0.

(** [idt_entries[256]]; [id] is a [uint16]. *)
Definition idt_set (id base flags : Z) (idt : gmap Z idt_entry) : res (gmap Z idt_entry) :=
  aset 256 idt id
    (Gate (u16 (Z.land base 0xFFFF)) 0x08 0x00 (u8 (Z.lor flags 0x60))
      (u16 (Z.land (Z.shiftr base 16) 0xFFFF))).

(** The numbers of isr_list.h. *)
Definition isr_list : list Z := seqZ 0 241.

Section Entries.
Context (isr : Z → Z).

Fixpoint isr_init_from (l : list Z) (idt : gmap Z idt_entry) : res (gmap Z idt_entry) :=
  match l with
  | [] => Ok idt
  | x :: l => idt ← idt_set x (isr x) 0x8E idt; isr_init_from l idt
  end.

Definition isr_init (idt : gmap Z idt_entry) : res (gmap Z idt_entry) :=
  isr_init_from isr_list idt.

End Entries.

(** ** Handlers *)

Inductive handler :=
| NullHandler
| unhandled_interrupt_handler
| keyboard_handler
| ignore_int
| syscall
| sched_tick
| _tick
| driver_irq_notify.

#[export] Instance handler_eq_dec : EqDecision handler.
Proof. solve_decision. Defined.

(** The handlers, the local APIC, and the I/O APIC: its selector and its
    registers. *)
Record state := State {
  int_handlers : gmap Z handler; lapic : gmap Z Z; io_regsel : Z; ioapic : gmap Z Z;
  eois : Z
}.

Definition state0 : state := State ∅ ∅ 0 ∅ 0.

(** [int_id] is converted to [uint8]. *)
Definition interrupts_register_handler (int_id : Z) (h : handler) (s : state) : res state :=
  hs ← aset 256 (int_handlers s) (u8 int_id) h;
  Ok (State hs (lapic s) (io_regsel s) (ioapic s) (eois s)).

(** A write to the register EOI ends the interrupt in service; the others hold
    what is written. *)
Definition lapic_set (reg value : Z) (s : state) : state :=
  State (int_handlers s) (<[reg := value]> (lapic s)) (io_regsel s) (ioapic s)
    (if bool_decide (reg = LAPIC_EOI) then eois s + 1 else eois s).

Definition lapic_get (reg : Z) (s : state) : Z := arr 0 (lapic s) reg.

(** [*io_regsel = reg; *io_win = value;] *)
Definition ioapic_set (reg value : Z) (s : state) : state :=
  let s := State (int_handlers s) (lapic s) reg (ioapic s) (eois s) in
  State (int_handlers s) (lapic s) (io_regsel s) (<[io_regsel s := value]> (ioapic s)) (eois s).

Definition ioapic_map (irq vector : Z) (s : state) : state :=
  let reg_low := IOAPIC_REDIR_BASE + irq * 2 in
  let reg_high := reg_low + 1 in
  let s := ioapic_set reg_low IOAPIC_DISABLE s in
  let s := ioapic_set reg_high 0x00 s in
  ioapic_set reg_low vector s.

Definition ioapic_init (s : state) : state :=
  let s := ioapic_map 0 219 s in
  let s := ioapic_map 1 218 s in
  let s := ioapic_map 3 216 s in
  let s := ioapic_map 4 215 s in
  let s := ioapic_map 5 214 s in
  let s := ioapic_map 6 213 s in
  let s := ioapic_map 7 212 s in
  let s := ioapic_map 8 211 s in
  let s := ioapic_map 9 210 s in
  let s := ioapic_map 10 209 s in
  let s := ioapic_map 11 208 s in
  let s := ioapic_map 12 207 s in
  let s := ioapic_map 13 206 s in
  let s := ioapic_map 14 205 s in
  ioapic_map 15 204 s.

Definition lapic_init (s : state) : state :=
  let s := lapic_set LAPIC_TPR 0x00000 s in
  let s := lapic_set LAPIC_TIMER 0x10000 s in
  let s := lapic_set LAPIC_PERF_MON 0x10000 s in
  let s := lapic_set LAPIC_INT0 0x08700 s in
  let s := lapic_set LAPIC_INT1 0x00400 s in
  let s := lapic_set LAPIC_ERR 0x00370 s in
  lapic_set LAPIC_SIR 0x0010F s.

(** [apic_init] without [apic_enable], which programs other devices. *)
Definition apic_init (s : state) : state := lapic_init (ioapic_init s).

(** [idt_init] is [isr_init] followed by loading the register. *)
Definition interrupts_init (s : state) : res state :=
  let s := apic_init s in
  s ← for_upto 256 (λ i, interrupts_register_handler i unhandled_interrupt_handler) s;
  s ← interrupts_register_handler 218 keyboard_handler s;
  interrupts_register_handler 15 ignore_int s.

(** [syscalls_init] of kernel/syscall.c. *)
Definition syscalls_init (s : state) : res state :=
  interrupts_register_handler INT_SYSCALL syscall s.

(** What kmain registers: after [interrupts_init], [syscalls_init],
    [scheduling_init] and [timer_init]. *)
Definition handlers_init (s : state) : res state :=
  s ← interrupts_init s;
  s ← syscalls_init s;
  s ← interrupts_register_handler INT_SCHED_TICK sched_tick s;
  interrupts_register_handler INT_RTC _tick s.

(** Up to the call of the handler, which is returned; a null handler is a jump
    to address 0. *)
Definition irq_handler (regs : thread_state) (s : state) : res (handler * state) :=
  let s := lapic_set LAPIC_TPR (int_id regs) s in
  let s := if 0x20 <? int_id regs then lapic_set LAPIC_EOI 0x00 s else s in
  h ← aget NullHandler 256 (int_handlers s) (int_id regs);
  if bool_decide (h = NullHandler) then Fault else Ok (h, s).

(** ** What the hardware makes of it *)

Record gate := GateTo {
  gate_offset : Z; gate_selector : Z; gate_dpl : Z; gate_present : bool;
  gate_interrupt : bool
}.

(** Type 14 is a 32-bit interrupt gate, which disables interrupts. *)
Definition gate_of (e : idt_entry) : gate :=
  GateTo (base_low e + 2 ^ 16 * base_high e) (selector e) (flags e / 32 mod 4)
    (Z.testbit (flags e) 7) (bool_decide (flags e mod 32 = 14)).

(** The vector of an interrupt line, when the line is not masked. *)
Definition vector_of (irq : Z) (s : state) : option Z :=
  let low := default IOAPIC_DISABLE (ioapic s !! (IOAPIC_REDIR_BASE + 2 * irq)) in
  if Z.testbit low 16 then None else Some (low mod 256).

(** The handler that an interrupt number should reach once the kernel runs. *)
Definition intended (id : Z) : handler :=
  if id =? 218 then keyboard_handler else if id =? 15 then ignore_int else
  if id =? INT_SYSCALL then syscall else if id =? INT_SCHED_TICK then sched_tick else
  if id =? INT_RTC then _tick else unhandled_interrupt_handler.

(** ** Lemmas *)

Lemma idt_set_ok id base idt :
  0 ≤ id < 256 → 0 ≤ base < 2 ^ 32 →
  idt_set id base 0x8E idt
    = Ok (<[id := Gate (base mod 2 ^ 16) 0x08 0 0xEE (base / 2 ^ 16)]> idt).
Proof.
  intros Hid Hb. unfold idt_set. rewrite aset_in by done. do 3 f_equal.
  - change 0xFFFF with (2 ^ 16 - 1). rewrite Gdt.land_low by lia. apply u16_small. dlia.
  - change 0xFFFF with (2 ^ 16 - 1). rewrite Gdt.land_low, Z.shiftr_div_pow2 by lia.
    rewrite u16_small by dlia. apply Z.mod_small. dlia.
Qed.

Lemma gate_of_set base :
  0 ≤ base < 2 ^ 32 →
  gate_of (Gate (base mod 2 ^ 16) 0x08 0 0xEE (base / 2 ^ 16)) = GateTo base 0x08 3 true true.
Proof. intros Hb. unfold gate_of. cbn [Interrupts.base_low Interrupts.base_high]. f_equal. dlia. Qed.

Lemma isr_init_from_ok isr l : ∀ idt,
  Forall (λ x, 0 ≤ x < 256 ∧ 0 ≤ isr x < 2 ^ 32) l →
  ∃ idt', isr_init_from isr l idt = Ok idt' ∧
    ∀ x, arr gate0 idt' x =
      if decide (x ∈ l) then Gate (isr x mod 2 ^ 16) 0x08 0 0xEE (isr x / 2 ^ 16)
      else arr gate0 idt x.
Proof.
  induction l as [|y l IH]; intros idt Hl; cbn [isr_init_from].
  - exists idt. split; [done|]. intros x. rewrite decide_False; [done|]. apply not_elem_of_nil.
  - apply Forall_cons in Hl as [[Hy Hb] Hl]. rewrite idt_set_ok by done. cbn [mbind res_bind].
    destruct (IH (<[y := Gate (isr y mod 2 ^ 16) 0x08 0 0xEE (isr y / 2 ^ 16)]> idt) Hl)
      as (idt' & Heq & Hx).
    exists idt'. split; [done|]. intros x. rewrite Hx, arr_insert.
    repeat case_decide; subst; try done; set_solver.
Qed.

Lemma register_ok id h s :
  0 ≤ id < 256 →
  ∃ s', interrupts_register_handler id h s = Ok s' ∧
    int_handlers s' = <[id := h]> (int_handlers s) ∧ lapic s' = lapic s ∧
    ioapic s' = ioapic s ∧ eois s' = eois s.
Proof.
  intros Hid. unfold interrupts_register_handler. rewrite u8_small by done.
  rewrite aset_in by done. cbn [mbind res_bind]. eexists. split; [reflexivity|]. by repeat split.
Qed.

Lemma register_all_ok s :
  ∃ s', for_upto 256 (λ i, interrupts_register_handler i unhandled_interrupt_handler) s = Ok s' ∧
    (∀ i, 0 ≤ i < 256 → arr NullHandler (int_handlers s') i = unhandled_interrupt_handler) ∧
    ioapic s' = ioapic s.
Proof.
  destruct (for_upto_inv (λ i s', 0 ≤ i ∧
    (∀ j, 0 ≤ j < i → arr NullHandler (int_handlers s') j = unhandled_interrupt_handler) ∧
    ioapic s' = ioapic s) 256
    (λ i, interrupts_register_handler i unhandled_interrupt_handler) s) as (s' & Heq & _ & H).
  - done.
  - split; [done|]. split; [lia|done].
  - intros i t Hi (_ & Ht & Hio).
    destruct (register_ok i unhandled_interrupt_handler t Hi) as (t' & Heq & Hh & _ & Hio' & _).
    exists t'. split; [done|]. split; [lia|]. split; [|congruence].
    intros j Hj. rewrite Hh, arr_insert. case_decide; [done|]. apply Ht. lia.
  - exists s'. exact (conj Heq H).
Qed.

Lemma lapic_set_ioapic reg value s : ioapic (lapic_set reg value s) = ioapic s.
Proof. reflexivity. Qed.

Lemma apic_init_ioapic s : ioapic (apic_init s) = ioapic (ioapic_init s).
Proof. unfold apic_init, lapic_init. by rewrite !lapic_set_ioapic. Qed.

(** The registrations one by one, as kmain makes them. *)
Lemma handlers_steps s :
  ∃ s1 s2 s3 s4, interrupts_init s = Ok s1 ∧ syscalls_init s1 = Ok s2 ∧
    interrupts_register_handler INT_SCHED_TICK sched_tick s2 = Ok s3 ∧
    interrupts_register_handler INT_RTC _tick s3 = Ok s4 ∧
    (∀ id, 0 ≤ id < 256 → arr NullHandler (int_handlers s4) id = intended id) ∧
    ioapic s4 = ioapic (ioapic_init s).
Proof.
  destruct (register_all_ok (apic_init s)) as (s0 & Hs0 & H0 & Hio0).
  destruct (register_ok 218 keyboard_handler s0) as (s1 & Hs1 & H1 & _ & Hio1 & _); [split; [discriminate|reflexivity]|].
  destruct (register_ok 15 ignore_int s1) as (s2 & Hs2 & H2 & _ & Hio2 & _); [split; [discriminate|reflexivity]|].
  destruct (register_ok INT_SYSCALL syscall s2) as (s3 & Hs3 & H3 & _ & Hio3 & _); [split; [discriminate|reflexivity]|].
  destruct (register_ok INT_SCHED_TICK sched_tick s3) as (s4 & Hs4 & H4 & _ & Hio4 & _); [split; [discriminate|reflexivity]|].
  destruct (register_ok INT_RTC _tick s4) as (s5 & Hs5 & H5 & _ & Hio5 & _); [split; [discriminate|reflexivity]|].
  exists s2, s3, s4, s5. split.
  { unfold interrupts_init. cbv zeta. rewrite Hs0. cbn [mbind res_bind]. rewrite Hs1. cbn [mbind res_bind]. exact Hs2. }
  clear Hs0 Hs1 Hs2.
  split; [exact Hs3|]. split; [exact Hs4|]. split; [exact Hs5|]. clear Hs3 Hs4 Hs5.
  split; [|rewrite Hio5, Hio4, Hio3, Hio2, Hio1, Hio0; apply apic_init_ioapic].
  intros id Hid. rewrite H5, H4, H3, H2, H1, !arr_insert, H0 by done. unfold intended.
  unfold INT_RTC, INT_SCHED_TICK, INT_SYSCALL.
  repeat case_decide; subst; try done.
  repeat (rewrite (proj2 (Z.eqb_neq _ _)) by congruence). done.
Qed.

Lemma handlers_init_ok s :
  ∃ s', handlers_init s = Ok s' ∧
    (∀ id, 0 ≤ id < 256 → arr NullHandler (int_handlers s') id = intended id) ∧
    ioapic s' = ioapic (ioapic_init s).
Proof.
  destruct (handlers_steps s) as (s1 & s2 & s3 & s4 & H1 & H2 & H3 & H4 & Hh & Hio).
  exists s4. split; [|exact (conj Hh Hio)]. unfold handlers_init.
  rewrite H1. cbn [mbind res_bind]. rewrite H2. cbn [mbind res_bind]. rewrite H3. exact H4.
Qed.

(** Mapping a line leaves its vector in the lower register. *)
Lemma ioapic_map_regs irq vector s :
  ioapic (ioapic_map irq vector s) =
  <[IOAPIC_REDIR_BASE + irq * 2 := vector]> (<[IOAPIC_REDIR_BASE + irq * 2 + 1 := 0x00]>
    (<[IOAPIC_REDIR_BASE + irq * 2 := IOAPIC_DISABLE]> (ioapic s))).
Proof. reflexivity. Qed.

Lemma intended_not_null id : intended id ≠ NullHandler.
Proof. unfold intended. by repeat case_match. Qed.

Lemma irq_handler_ok regs s h :
  0 ≤ int_id regs < 256 → arr NullHandler (int_handlers s) (int_id regs) = h → h ≠ NullHandler →
  ∃ s', irq_handler regs s = Ok (h, s') ∧ lapic_get LAPIC_TPR s' = int_id regs ∧
    eois s' = eois s + (if 0x20 <? int_id regs then 1 else 0).
Proof.
  intros Hid Hh Hne. unfold irq_handler. eexists. split.
  - assert (Hsame : ∀ b : bool, int_handlers (if b then
        lapic_set LAPIC_EOI 0 (lapic_set LAPIC_TPR (int_id regs) s)
        else lapic_set LAPIC_TPR (int_id regs) s) = int_handlers s) by (by intros []).
    rewrite Hsame, aget_in, Hh by done. cbn [mbind res_bind].
    by rewrite bool_decide_false.
  - unfold lapic_get, lapic_set.
    rewrite (bool_decide_false (LAPIC_TPR = LAPIC_EOI)), (bool_decide_true (LAPIC_EOI = LAPIC_EOI))
      by done.
    destruct (0x20 <? int_id regs); cbn [lapic eois]; (split; [|lia]).
    + rewrite arr_insert_ne by done. apply arr_insert_eq.
    + apply arr_insert_eq.
Qed.

(** ** Properties *)

(** C24. Once the kernel is initialised every interrupt number from 0 to 255
    reaches the handler meant for it, which is never null: the five registered
    ones, and the handler that reports unexpected interrupts for the others.
    The task priority is raised to the number, and interrupts above 32 are
    acknowledged first.  The interrupt lines 0, 1 and 3 to 15 are routed to
    the vectors 219 downwards; line 2 stays masked. *)
Theorem irq_dispatch s :
  ioapic s = ∅ →
  ∃ s', handlers_init s = Ok s' ∧
    (∀ regs, 0 ≤ int_id regs < 256 →
       ∃ s'', irq_handler regs s' = Ok (intended (int_id regs), s'') ∧
         lapic_get LAPIC_TPR s'' = int_id regs ∧
         eois s'' = eois s' + (if 0x20 <? int_id regs then 1 else 0)) ∧
    ∀ irq, 0 ≤ irq < 16 →
      vector_of irq s' = if bool_decide (irq = 2) then None else Some (219 - irq).
Proof.
  intros Hempty. destruct (handlers_init_ok s) as (s' & Hs & Hh & Hio). exists s'.
  split; [exact Hs|]. split.
  - intros regs Hid. apply irq_handler_ok; [exact Hid|exact (Hh _ Hid)|apply intended_not_null].
  - intros irq Hirq. unfold vector_of. rewrite Hio. unfold ioapic_init. cbv zeta.
    rewrite !ioapic_map_regs, Hempty. clear -Hirq.
    assert (∃ n : nat, (n < 16)%nat ∧ irq = Z.of_nat n) as (n & Hn & ->).
    { exists (Z.to_nat irq). lia. }
    do 16 (destruct n as [|n]; [vm_compute; reflexivity|]). lia.
Qed.

(** [isr_init] installs for each interrupt number of its list a present
    interrupt gate to its entry point in the kernel's code segment - and every
    gate may be raised by processes (its privilege level is 3), those of the
    exceptions, the timer and the scheduler included. *)
Theorem isr_init_gates isr idt :
  (∀ x, 0 ≤ isr x < 2 ^ 32) →
  ∃ idt', isr_init isr idt = Ok idt' ∧
    (∀ x, 0 ≤ x ≤ 240 → gate_of (arr gate0 idt' x) = GateTo (isr x) 0x08 3 true true) ∧
    ∀ x, 240 < x → arr gate0 idt' x = arr gate0 idt x.
Proof.
  intros Hisr. unfold isr_init, isr_list.
  destruct (isr_init_from_ok isr (seqZ 0 241) idt) as (idt' & Heq & Hx).
  { apply Forall_forall. intros x Hx%elem_of_seqZ. split; [lia|apply Hisr]. }
  exists idt'. split; [exact Heq|]. split.
  - intros x Hr. rewrite Hx, decide_True by (apply elem_of_seqZ; lia). by apply gate_of_set.
  - intros x Hr. rewrite Hx, decide_False; [done|]. rewrite elem_of_seqZ. lia.
Qed.

(** C36. The context [regs_init] makes is one the descriptor table allows to
    return to: code and stack selectors of the same privilege level as their
    segments, 3 for a thread in user space and 0 for the kernel's, flat, and
    with interrupts enabled. *)
Theorem regs_init_segments gdt_at tss_at s stack entry flags :
  let r := regs_init stack entry flags in
  let level := if bool_decide (flags = 0) then 0 else 3 in
  ∃ s', Gdt.gdt_init gdt_at tss_at s = Ok s' ∧
    Gdt.selected s' (cs r) = Gdt.flat level Gdt.Code ∧ cs r mod 4 = level ∧
    Gdt.selected s' (ss r) = Gdt.flat level Gdt.Data ∧ ss r mod 4 = level ∧ ds r = ss r ∧
    eip r = entry ∧ useresp r = stack ∧ Z.testbit (eflags r) 9 = true.
Proof.
  destruct (Gdt.gdt_init_ok gdt_at tss_at s) as (s' & Hs & _ & _ & H1 & H2 & H3 & H4).
  cbv zeta. exists s'. split; [exact Hs|]. unfold regs_init, Gdt.selected.
  rewrite (bool_decide_false (THREAD_USERSPACE = 0)) by done.
  clear Hs. destruct (bool_decide (flags = 0)); cbn [negb andb cs ss ds eip useresp eflags].
  - exact (conj H1 (conj eq_refl (conj H2 (conj eq_refl (conj eq_refl (conj eq_refl
      (conj eq_refl eq_refl))))))).
  - exact (conj H3 (conj eq_refl (conj H4 (conj eq_refl (conj eq_refl (conj eq_refl
      (conj eq_refl eq_refl))))))).
Qed.

(** ** Concrete runs *)

Lemma irq_dispatch_witness :
  ∃ s' s'', handlers_init state0 = Ok s' ∧
    irq_handler (TS 0 0 0 0 0 0 0 0 0 0 80 0 0 0 0 0 0) s' = Ok (syscall, s'').
Proof.
  destruct (irq_dispatch state0 eq_refl) as (s' & Hs & Hd & _).
  destruct (Hd (TS 0 0 0 0 0 0 0 0 0 0 80 0 0 0 0 0 0)) as (s'' & Hr & _);
    [split; [discriminate|reflexivity]|].
  exists s', s''. exact (conj Hs Hr).
Defined.

Lemma isr_init_gates_witness :
  ∃ idt', isr_init (λ x, 0xC0100000) ∅ = Ok idt' ∧
    gate_of (arr gate0 idt' 128) = GateTo 0xC0100000 0x08 3 true true.
Proof.
  destruct (isr_init_gates (λ x, 0xC0100000) ∅) as (idt' & Hi & Hg & _); [intros; lia|].
  exists idt'. split; [exact Hi|]. apply Hg. lia.
Defined.

End Interrupts.
