(* ===== verification/Scheduler.v ===== *)
(** The scheduler (kernel/scheduler.c).

    Each processor has a [scheduler] with five priority queues and a list of
    waiting threads; the queues are an abstract [QueueStore] (lists of
    kernel/list.c implement it), indexed by processor and queue.  What also
    needs the console and the kernel's heap is in System.v: there
    [sched_thread_ready] prints and then does [thread_push], and a queue without
    a spare element gets one from the heap before a push.  The model
    follows the code compiled with CONF_PREEMPTIBLE, as config.h defines it.
    [sched_tick] takes the fuel of its [while(1)] loop; the streams, timers
    and queues do not change while that loop runs on one processor. *)

From Stdlib Require Import ZArith Lia.
From stdpp Require Import base option list gmap.
From S2P Require Import Prelude Interfaces KList Timer Thread Interrupts.

Module Scheduler.
Import Thread.

Record scheduler := Sched {
  idle_thread : Z; current_thread : Z; next_thread : Z; load : Z; started : Z
}.

(** Static storage. *)
Definition sched0 : scheduler := Sched 0 0 0 0 0.

(** What a processor executes: its stack pointer, the address it continues
    at, its page directory and the stack of its task state segment. *)
Record cpu := Cpu { c_esp : Z; c_eip : Z; c_pdir : Z; c_esp0 : Z }.
Definition cpu0 : cpu := Cpu 0 0 0 0.

(** The index of [waiting_threads] among the queues of a processor. *)
Definition WAITING : Z := MAX_PRIORITY.

(** [resume] is the address of the label [1:] of [scheduler_switch], where a
    thread that was switched away from continues. *)
Section Sched.
Context {M : Type} `{QueueStore (Z * Z) M} (resume : Z).

Record kstate := KState {
  scheds : gmap Z scheduler; queues : M; threads : gmap Z thread;
  cpus : gmap Z cpu; wld : world
}.

Definition set_queues (m : M) (st : kstate) : kstate :=
  KState (scheds st) m (threads st) (cpus st) (wld st).
Definition set_threads (t : gmap Z thread) (st : kstate) : kstate :=
  KState (scheds st) (queues st) t (cpus st) (wld st).
Definition set_cpus (c : gmap Z cpu) (st : kstate) : kstate :=
  KState (scheds st) (queues st) (threads st) c (wld st).

(** [schedulers + cpuid()] *)
Definition get_sched (c : Z) (st : kstate) : res scheduler :=
  aget sched0 MAX_CPU (scheds st) c.

Definition set_sched (c : Z) (s : scheduler) (st : kstate) : res kstate :=
  m ← aset MAX_CPU (scheds st) c s;
  Ok (KState m (queues st) (threads st) (cpus st) (wld st)).

Definition get_thread (t : Z) (st : kstate) : res thread :=
  match threads st !! t with Some th => Ok th | None => Fault end.

Definition scheduler_put_back (c : Z) (th : Z) (st : kstate) : res kstate :=
  if bool_decide (th = 0) then Ok st else
  this ← get_sched c st;
  if bool_decide (th = idle_thread this) then Ok st else
  t ← get_thread th st;
  if bool_decide (0 ≤ priority t < MAX_PRIORITY) then
    m ← qpush (c, priority t) th (queues st); Ok (set_queues m st)
  else Fault.

(** [for (p = 0; p < MAX_PRIORITY; ++p)] with [k] iterations left. *)
Fixpoint pick_from (c : Z) (k : nat) (p : Z) (m : M) : res (Z * M) :=
  match k with
  | O => Ok (0, m)
  | Datatypes.S k' =>
      '(t, m) ← qpop (c, p) m;
      if bool_decide (t ≠ 0) then Ok (t, m) else pick_from c k' (p + 1) m
  end.

Definition scheduler_pick (c : Z) (m : M) : res (Z * M) :=
  pick_from c (Z.to_nat MAX_PRIORITY) 0 m.

(** [th = list_pop(...); while(th) { scheduler_put_back(this, th); th = list_pop(...); }] *)
Fixpoint wake_all (fuel : nat) (c : Z) (st : kstate) : res kstate :=
  match fuel with
  | O => Spin
  | Datatypes.S f =>
      '(th, m) ← qpop (c, WAITING) (queues st);
      let st := set_queues m st in
      if bool_decide (th = 0) then Ok st else
      st ← scheduler_put_back c th st;
      wake_all f c st
  end.

Definition scheduler_wake_all (c : Z) (st : kstate) : res kstate :=
  wake_all (Datatypes.S (length (qitems (queues st) (c, WAITING)))) c st.

Definition sched_can_run (c : Z) (st : kstate) : res (bool * kstate) :=
  this ← get_sched c st;
  t ← get_thread (next_thread this) st;
  if bool_decide (event t = NoEvent) then Ok (true, st) else
  b ← run_event (wld st) t;
  if (b : bool) then
    Ok (true, set_threads (<[next_thread this := set_event NoEvent t]> (threads st)) st)
  else Ok (false, st).

Definition set_next (n : Z) (s : scheduler) : scheduler :=
  Sched (idle_thread s) (current_thread s) n (load s) (started s).

(** The [while(1)] loop of [sched_tick]. *)
Fixpoint tick_loop (fuel : nat) (c : Z) (st : kstate) : res kstate :=
  match fuel with
  | O => Spin
  | Datatypes.S f =>
      '(t, m) ← scheduler_pick c (queues st);
      let st := set_queues m st in
      this ← get_sched c st;
      let n := if bool_decide (t = 0) then idle_thread this else t in
      st ← set_sched c (set_next n this) st;
      '(ok, st) ← sched_can_run c st;
      if (ok : bool) then Ok st else
      st ← scheduler_put_back c n st;
      tick_loop f c st
  end.

Definition scheduler_switch (c : Z) (st : kstate) : res kstate :=
  this ← get_sched c st;
  let from_thread := current_thread this in
  let to_thread := next_thread this in
  if bool_decide (to_thread = 0) then Ok st else
  if bool_decide (from_thread = to_thread) then Ok st else
  from ← get_thread from_thread st;
  to ← get_thread to_thread st;
  pf ← get_proc (parent from) (wld st);
  pt ← get_proc (parent to) (wld st);
  cp ← aget cpu0 MAX_CPU (cpus st) c;
  let dir := if bool_decide (pdir pf ≠ pdir pt) then pdir pt else c_pdir cp in
  st ← set_sched c (Sched (idle_thread this) to_thread 0 (load this) (started this)) st;
  let st := set_threads (<[from_thread := set_context (u32 (c_esp cp - 12)) resume from]>
                           (threads st)) st in
  cs ← aset MAX_CPU (cpus st) c (Cpu (esp to) (eip to) dir (kernel_stack to));
  Ok (set_cpus cs st).

Definition sched_tick (fuel : nat) (c : Z) (st : kstate) : res kstate :=
  sched ← get_sched c st;
  st ← scheduler_put_back c (current_thread sched) st;
  st ← scheduler_wake_all c st;
  st ← tick_loop fuel c st;
  scheduler_switch c st.

(** [for (i = 1; i < MAX_CPU; ++i)] with the scheduler found so far and its
    load, [k] iterations left. *)
Fixpoint find_from (ss : gmap Z scheduler) (k : nat) (i sched lowest : Z) : Z :=
  match k with
  | O => sched
  | Datatypes.S k' =>
      let s := arr sched0 ss i in
      if bool_decide (started s = 0) then find_from ss k' (i + 1) sched lowest else
      let tmp := load s in
      if tmp <? lowest then find_from ss k' (i + 1) i tmp
      else find_from ss k' (i + 1) sched lowest
  end.

Definition scheduler_find (st : kstate) : Z :=
  find_from (scheds st) (Z.to_nat (MAX_CPU - 1)) 1 0 (load (arr sched0 (scheds st) 0)).

(** [list_push(sched->prio_queues + thread->priority, thread); sched->load++;] of
    [sched_thread_ready] (System.v), [c] being the processor of [sched]. *)
Definition thread_push (c th : Z) (st : kstate) : res kstate :=
  t ← get_thread th st;
  if bool_decide (0 ≤ priority t < MAX_PRIORITY) then
    m ← qpush (c, priority t) th (queues st);
    let st := set_queues m st in
    s ← get_sched c st;
    set_sched c (Sched (idle_thread s) (current_thread s) (next_thread s)
                   (s32 (load s + 1)) (started s)) st
  else Fault.

(** [scheduler_init] with the idle thread that [thread_create] returned:
    the structure is zero-filled, its lists included. *)
Definition scheduler_init (c : Z) (idle : Z) (st : kstate) : res kstate :=
  let m := fold_right (λ p, qzero (c, p)) (queues st) [WAITING; 0; 1; 2; 3; 4] in
  set_sched c (Sched idle idle 0 0 0) (set_queues m st).

(** [for (i = 0; i < MAX_CPU; ++i) scheduler_init(schedulers + i)], with the
    idle threads [thread_create] returned. *)
Definition scheduling_init (idle : Z → Z) (st : kstate) : res kstate :=
  for_upto MAX_CPU (λ i, scheduler_init i (idle i)) st.

Definition sched_cur_thread (c : Z) (st : kstate) : res Z :=
  sched ← get_sched c st; Ok (current_thread sched).

Definition sched_cur_proc (c : Z) (st : kstate) : res Z :=
  t ← sched_cur_thread c st; th ← get_thread t st; Ok (parent th).

Definition sched_ready (c : Z) (st : kstate) : res kstate :=
  this ← get_sched c st;
  set_sched c (Sched (idle_thread this) (current_thread this) (next_thread this)
                 (load this) 1) st.

(** The task priority register of the local APIC is raised before the tick. *)
Definition sched_yield (fuel : nat) (c : Z) (st : kstate) (i : Interrupts.state)
    : res (kstate * Interrupts.state) :=
  let i := Interrupts.lapic_set Interrupts.LAPIC_TPR Interrupts.INT_SCHED_TICK i in
  st ← sched_tick fuel c st;
  Ok (st, i).

(** The loop of [sched_thread_wait], up to its end ([true]) or to the return
    of a [sched_yield] ([false]): a thread that yielded does this again when
    it is switched to. *)
Definition wait_loop (fuel : nat) (c th : Z) (st : kstate) (i : Interrupts.state)
    : res (bool * kstate * Interrupts.state) :=
  t ← get_thread th st;
  ok ← ready (wld st) t;
  if (ok : bool) then
    Ok (true, set_threads (<[th := set_event NoEvent t]> (threads st)) st, i)
  else '(st, i) ← sched_yield fuel c st i; Ok (false, st, i).

Definition sched_thread_wait (fuel : nat) (c th : Z) (ev : thread_event) (st : kstate)
    (i : Interrupts.state) : res (bool * kstate * Interrupts.state) :=
  t ← get_thread th st;
  wait_loop fuel c th (set_threads (<[th := set_event ev t]> (threads st)) st) i.

Definition sched_thread_sleep (fuel : nat) (c n : Z) (st : kstate) (i : Interrupts.state)
    : res (bool * kstate * Interrupts.state) :=
  cur ← sched_cur_thread c st;
  t ← get_thread cur st;
  let t := set_wait_timer (Timer.sleep_deadline (ticks (wld st)) n) t in
  let st := set_threads (<[cur := t]> (threads st)) st in
  sched_thread_wait fuel c cur TimerEvent st i.

(** ** Well-formed scheduler states *)

(** A thread the kernel knows, of a known process, whose event can be asked. *)
Definition thread_ok (st : kstate) (t p : Z) : Prop :=
  ∃ th, threads st !! t = Some th ∧ priority th = p ∧
    is_Some (procs (wld st) !! parent th) ∧ ∃ b, ready (wld st) th = Ok b.

(** The event a thread waits for has not happened, or has. *)
Definition blocked (st : kstate) (t : Z) : Prop :=
  ∃ th, threads st !! t = Some th ∧ ready (wld st) th = Ok false.
Definition runnable (st : kstate) (t : Z) : Prop :=
  ∃ th, threads st !! t = Some th ∧ ready (wld st) th = Ok true.

Definition this (c : Z) (st : kstate) : scheduler := arr sched0 (scheds st) c.

Definition queue (st : kstate) (c p : Z) : list Z := qitems (queues st) (c, p).

(** The threads of a processor: the current one, unless it idles, and those
    in its priority queues. *)
Definition cur_list (c : Z) (st : kstate) : list Z :=
  if decide (current_thread (this c st) = idle_thread (this c st)) then []
  else [current_thread (this c st)].
Definition queued (c : Z) (st : kstate) : list Z :=
  flat_map (queue st c) (seqZ 0 MAX_PRIORITY).
Definition cpu_threads (c : Z) (st : kstate) : list Z := queued c st ++ cur_list c st.

(** The page directory of a thread's process. *)
Definition dir_of (st : kstate) (t : Z) : Z :=
  match threads st !! t with
  | Some th => match procs (wld st) !! parent th with Some p => pdir p | None => 0 end
  | None => 0
  end.

(** What a processor executes. *)
Definition cpu_of (c : Z) (st : kstate) : cpu := arr cpu0 (cpus st) c.

Record sched_wf (c : Z) (st : kstate) : Prop := {
  wf_cpu : 0 ≤ c < MAX_CPU;
  wf_queues : qok (queues st);
  wf_waiting : queue st c WAITING = [];
  wf_idle : idle_thread (this c st) ≠ 0 ∧
    ∃ p, thread_ok st (idle_thread (this c st)) p;
  wf_idle_event : ∀ th, threads st !! idle_thread (this c st) = Some th →
    event th = NoEvent;
  wf_cur : current_thread (this c st) ≠ 0 ∧
    (current_thread (this c st) = idle_thread (this c st) ∨
     ∃ p, 0 ≤ p < MAX_PRIORITY ∧ thread_ok st (current_thread (this c st)) p);
  wf_queued : ∀ p t, 0 ≤ p < MAX_PRIORITY → t ∈ queue st c p →
    t ≠ idle_thread (this c st) ∧ thread_ok st t p;
  wf_room : Z.of_nat (length (cpu_threads c st)) < 2 ^ 31 - 1;
  wf_pdir : c_pdir (cpu_of c st) = dir_of st (current_thread (this c st))
}.

(** ** The queue operations *)

Lemma pick_some c k : ∀ p m p0 t l,
  qok m → p ≤ p0 < p + Z.of_nat k → (∀ p', p ≤ p' < p0 → qitems m (c, p') = []) →
  qitems m (c, p0) = t :: l →
  ∃ m', pick_from c k p m = Ok (t, m') ∧ (qok m' ∧ qspare (c, p0) m' = true) ∧
    ∀ j, qitems m' j = if decide (j = (c, p0)) then l else qitems m j.
Proof.
  induction k as [|k IH]; intros p m p0 t l Hok Hp Hlow Hq; [lia|].
  simpl. destruct (qpop_spec (c, p) m Hok) as (m' & Hpop & Hok' & Hi). rewrite Hpop.
  cbn [mbind res_bind].
  destruct (decide (p = p0)) as [->|Hne].
  - rewrite Hq in *. simpl in *. pose proof (qitems_nonnull (c, p0) m Hok) as Hnn.
    rewrite Hq in Hnn. apply Forall_inv in Hnn. rewrite bool_decide_true by done.
    exists m'. split; [done|]. split; [split; [done|exact (qpop_spare _ _ _ _ Hpop Hnn)]|].
    intros j. rewrite Hi. done.
  - rewrite (Hlow p) by lia. simpl.
    assert (Hsame : ∀ j, qitems m' j = qitems m j).
    { intros j. rewrite Hi. case_decide as Hd; [|done]. rewrite Hd, (Hlow p); [done|lia]. }
    destruct (IH (p + 1) m' p0 t l) as (m2 & -> & Hok2 & Hi2); [done|lia| | |].
    { intros p' Hp'. rewrite Hsame. apply Hlow. lia. }
    { by rewrite Hsame. }
    exists m2. split; [done|]. split; [done|]. intros j. rewrite Hi2, Hsame. done.
Qed.

Lemma pick_none c k : ∀ p m,
  qok m → (∀ p', p ≤ p' < p + Z.of_nat k → qitems m (c, p') = []) →
  ∃ m', pick_from c k p m = Ok (0, m') ∧ qok m' ∧ ∀ j, qitems m' j = qitems m j.
Proof.
  induction k as [|k IH]; intros p m Hok He; [by exists m|].
  simpl. destruct (qpop_spec (c, p) m Hok) as (m' & -> & Hok' & Hi).
  cbn [mbind res_bind]. rewrite (He p) by lia. simpl.

  assert (Hsame : ∀ j, qitems m' j = qitems m j).
  { intros j. rewrite Hi. case_decide as Hd; [|done]. rewrite Hd, (He p); [done|lia]. }
  destruct (IH (p + 1) m' Hok') as (m2 & -> & Hok2 & Hi2).
  { intros p' Hp'. rewrite Hsame. apply He. lia. }
  exists m2. split; [done|]. split; [done|]. intros j. by rewrite Hi2, Hsame.
Qed.

Lemma get_sched_in c st : 0 ≤ c < MAX_CPU → get_sched c st = Ok (this c st).
Proof. apply aget_in. Qed.

Lemma set_sched_in c s st :
  0 ≤ c < MAX_CPU →
  set_sched c s st =
  Ok (KState (<[c := s]> (scheds st)) (queues st) (threads st) (cpus st) (wld st)).
Proof. intros Hc. unfold set_sched. by rewrite aset_in. Qed.

Lemma get_thread_Some t th st : threads st !! t = Some th → get_thread t st = Ok th.
Proof. intros Ht. unfold get_thread. by rewrite Ht. Qed.

Lemma put_back_push c t p st :
  0 ≤ c < MAX_CPU → qok (queues st) → t ≠ 0 → t ≠ idle_thread (this c st) →
  0 ≤ p < MAX_PRIORITY → (∃ th, threads st !! t = Some th ∧ priority th = p) →
  Z.of_nat (length (queue st c p)) + 1 < 2 ^ 31 →
  ∃ m', scheduler_put_back c t st = Ok (set_queues m' st) ∧ qok m' ∧
    ∀ j, qitems m' j = if decide (j = (c, p)) then queue st c p ++ [t]
                       else qitems (queues st) j.
Proof.
  intros Hc Hok Ht Hi Hp (th & Hth & Hpr) Hlen. unfold scheduler_put_back.
  rewrite bool_decide_false by done. rewrite get_sched_in by done. cbn [mbind res_bind].
  rewrite bool_decide_false by done. rewrite (get_thread_Some _ _ _ Hth).
  cbn [mbind res_bind]. rewrite Hpr, bool_decide_true by done.
  destruct (qpush_spec (c, p) t (queues st) Hok Ht Hlen) as (m' & -> & Hok' & Hi').
  exists m'. done.
Qed.

Lemma wake_all_nothing c st :
  qok (queues st) → queue st c WAITING = [] →
  ∃ m', scheduler_wake_all c st = Ok (set_queues m' st) ∧ qok m' ∧
    ∀ j, qitems m' j = qitems (queues st) j.
Proof.
  intros Hok He. unfold scheduler_wake_all, queue in *. simpl.
  destruct (qpop_spec (c, WAITING) (queues st) Hok) as (m' & -> & Hok' & Hi).
  cbn [mbind res_bind]. rewrite He. simpl. exists m'. split; [done|]. split; [done|].
  intros j. rewrite Hi. case_decide as Hd; [|done]. by rewrite Hd, He.
Qed.

(** ** The loop of sched_tick *)

(** The states [tick_loop] goes through: only the queues and [next_thread]
    of the processor's scheduler have changed. *)
Definition tick_state (c n : Z) (m : M) (st : kstate) : kstate :=
  KState (<[c := set_next n (this c st)]> (scheds st)) m (threads st) (cpus st) (wld st).

Lemma tick_state_this c n m st : this c (tick_state c n m st) = set_next n (this c st).
Proof. apply arr_insert_eq. Qed.

Lemma tick_state_twice c n n' m m' st :
  tick_state c n' m' (tick_state c n m st) = tick_state c n' m' st.
Proof.
  unfold tick_state. simpl. f_equal. rewrite insert_insert_eq. f_equal.
  unfold this. simpl. by rewrite arr_insert_eq.
Qed.

Lemma blocked_tick_state c n m st t : blocked (tick_state c n m st) t ↔ blocked st t.
Proof. done. Qed.

(** Waking a thread clears its event. *)
Definition wake (t : Z) (ths : gmap Z thread) : gmap Z thread :=
  alter (set_event NoEvent) t ths.

Lemma set_event_same th : set_event (event th) th = th.
Proof. by destruct th. Qed.

Lemma wake_insert t th ths :
  ths !! t = Some th → <[t := set_event NoEvent th]> ths = wake t ths.
Proof.
  intros Ht. apply map_eq. intros j. unfold wake. destruct (decide (t = j)) as [->|].
  - by rewrite lookup_insert_eq, lookup_alter_eq, Ht.
  - by rewrite lookup_insert_ne, lookup_alter_ne.
Qed.

Lemma wake_id t th ths :
  ths !! t = Some th → event th = NoEvent → wake t ths = ths.
Proof.
  intros Ht He. apply map_eq. intros j. unfold wake. destruct (decide (t = j)) as [->|].
  - rewrite lookup_alter_eq, Ht. simpl. rewrite <- He. by rewrite set_event_same.
  - by rewrite lookup_alter_ne.
Qed.

Lemma can_run_runnable c st :
  0 ≤ c < MAX_CPU → runnable st (next_thread (this c st)) →
  sched_can_run c st
  = Ok (true, set_threads (wake (next_thread (this c st)) (threads st)) st).
Proof.
  intros Hc (th & Hth & Hr). unfold sched_can_run. rewrite get_sched_in by done.
  cbn [mbind res_bind]. rewrite (get_thread_Some _ _ _ Hth). cbn [mbind res_bind].
  unfold ready in Hr. case_bool_decide as He.
  - rewrite (wake_id _ _ _ Hth He). by destruct st.
  - rewrite Hr. cbn [mbind res_bind]. by rewrite (wake_insert _ _ _ Hth).
Qed.

Lemma can_run_blocked c st :
  0 ≤ c < MAX_CPU → blocked st (next_thread (this c st)) →
  sched_can_run c st = Ok (false, st).
Proof.
  intros Hc (th & Hth & Hr). unfold sched_can_run. rewrite get_sched_in by done.
  cbn [mbind res_bind]. rewrite (get_thread_Some _ _ _ Hth). cbn [mbind res_bind].
  unfold ready in Hr. case_bool_decide as He; [done|]. by rewrite Hr.
Qed.

Lemma room_queue c st p l :
  Z.of_nat (length (queued c st)) < l → 0 ≤ p < MAX_PRIORITY →
  Z.of_nat (length (queue st c p)) < l.
Proof.
  intros Hlen Hp. unfold queued in Hlen.
  assert (Hin : p ∈ seqZ 0 MAX_PRIORITY) by (apply elem_of_seqZ; lia).
  apply list_elem_of_split in Hin as (l1 & l2 & Heq). rewrite Heq in Hlen.
  rewrite flat_map_app in Hlen. simpl in Hlen. rewrite !length_app in Hlen. lia.
Qed.

(** What one round of the loop needs of the state. *)
Record loop_wf (c : Z) (st : kstate) : Prop := {
  lw_cpu : 0 ≤ c < MAX_CPU;
  lw_queues : qok (queues st);
  lw_queued : ∀ p t, 0 ≤ p < MAX_PRIORITY → t ∈ queue st c p →
    t ≠ idle_thread (this c st) ∧ thread_ok st t p;
  lw_room : ∀ p, 0 ≤ p < MAX_PRIORITY → Z.of_nat (length (queue st c p)) < 2 ^ 31 - 1
}.

(** The highest-priority queue that is not empty. *)
Definition top (c : Z) (st : kstate) (p : Z) : Prop :=
  0 ≤ p < MAX_PRIORITY ∧ ∀ p', 0 ≤ p' < p → queue st c p' = [].

Lemma tick_pick c st p t l f :
  loop_wf c st → top c st p → queue st c p = t :: l →
  ∃ m, (qok m ∧ qspare (c, p) m = true) ∧
  (∀ j, qitems m j = if decide (j = (c, p)) then l else qitems (queues st) j) ∧
  tick_loop (Datatypes.S f) c st =
    ('(ok, st1) ← sched_can_run c (tick_state c t m st);
     if (ok : bool) then Ok st1
     else st2 ← scheduler_put_back c t st1; tick_loop f c st2).
Proof.
  intros [Hc Hok Hqd _] [Hp Hlow] Hq.
  destruct (pick_some c (Z.to_nat MAX_PRIORITY) 0 (queues st) p t l Hok) as (m & Hpk & Hokm & Hi);
    [unfold MAX_PRIORITY in *; lia|exact Hlow|exact Hq|].
  exists m. split; [done|]. split; [done|]. cbn [tick_loop].
  unfold scheduler_pick. rewrite Hpk. cbn [mbind res_bind]. rewrite get_sched_in by done.
  cbn [mbind res_bind].
  assert (Ht : t ≠ 0).
  { pose proof (qitems_nonnull (c, p) (queues st) Hok) as Hnn. unfold queue in Hq.
    rewrite Hq in Hnn. by apply Forall_inv in Hnn. }
  rewrite bool_decide_false by done. rewrite set_sched_in by done. cbn [mbind res_bind].
  done.
Qed.

(** A blocked thread is moved behind the others of its priority. *)
Lemma tick_rotates c st p t l f :
  loop_wf c st → top c st p → queue st c p = t :: l → blocked st t →
  ∃ m, tick_loop (Datatypes.S f) c st = tick_loop f c (tick_state c t m st) ∧ qok m ∧
    ∀ j, qitems m j = if decide (j = (c, p)) then l ++ [t] else qitems (queues st) j.
Proof.
  intros Hwf Htop Hq Hb.
  destruct (tick_pick c st p t l f Hwf Htop Hq) as (m & [Hok _] & Hi & ->).
  pose proof Hwf as [Hc _ Hqd Hroom]. pose proof Htop as [Hp _].
  rewrite can_run_blocked by (done || by rewrite tick_state_this). cbn [mbind res_bind].
  destruct (Hqd p t Hp) as [Hidle (th & Hth & Hpr & _)]; [rewrite Hq; set_solver|].
  assert (Hqm : queue (tick_state c t m st) c p = l).
  { unfold queue. simpl. rewrite Hi. by rewrite decide_True. }
  assert (Ht : t ≠ 0).
  { pose proof (qitems_nonnull (c, p) (queues st) (lw_queues _ _ Hwf)) as Hnn.
    unfold queue in Hq. rewrite Hq in Hnn. by apply Forall_inv in Hnn. }
  destruct (put_back_push c t p (tick_state c t m st)) as (m' & -> & Hok' & Hi').
  - done.
  - done.
  - done.
  - rewrite tick_state_this. done.
  - done.
  - by exists th.
  - rewrite Hqm. specialize (Hroom p Hp). rewrite Hq, length_cons in Hroom. lia.
  - cbn [mbind res_bind]. exists m'. split; [done|]. split; [done|].
    intros j. rewrite Hi', Hqm. simpl. case_decide as Hd; [done|].
    rewrite Hi. by rewrite decide_False.
Qed.

Lemma loop_wf_rotate c st p l l' n m :
  loop_wf c st → top c st p → queue st c p = l → l ≡ₚ l' → qok m →
  (∀ j, qitems m j = if decide (j = (c, p)) then l' else qitems (queues st) j) →
  loop_wf c (tick_state c n m st) ∧ top c (tick_state c n m st) p ∧
  queue (tick_state c n m st) c p = l'.
Proof.
  intros [Hc Hok Hqd Hroom] [Hp Hlow] Hq Hperm Hokm Hi.
  assert (Hqueue : ∀ p', queue (tick_state c n m st) c p'
                    = if decide (p' = p) then l' else queue st c p').
  { intros p'. unfold queue. simpl. rewrite Hi.
    repeat case_decide; simplify_eq; try done. }
  split; [split|split; [split|]].
  - done.
  - done.
  - intros p' t Hp' Ht. rewrite Hqueue in Ht. rewrite tick_state_this.
    apply Hqd; [done|]. case_decide as Hd; [|done]. subst. by rewrite Hperm.
  - intros p' Hp'. rewrite Hqueue. case_decide as Hd; [|by apply Hroom].
    subst. rewrite <- Hperm. by apply Hroom.
  - done.
  - intros p' Hp'. rewrite Hqueue. rewrite decide_False by lia. by apply Hlow.
  - rewrite Hqueue. by rewrite decide_True.
Qed.

Lemma tick_loop_finds c bs : ∀ f st p t rest,
  loop_wf c st → top c st p → queue st c p = bs ++ t :: rest →
  Forall (blocked st) bs → runnable st t → (length bs < f)%nat →
  ∃ m, tick_loop f c st = Ok (set_threads (wake t (threads st)) (tick_state c t m st)) ∧
    (qok m ∧ qspare (c, p) m = true) ∧
    ∀ j, qitems m j = if decide (j = (c, p)) then rest ++ bs else qitems (queues st) j.
Proof.
  induction bs as [|b bs IH]; intros f st p t rest Hwf Htop Hq Hbs Ht Hf;
    (destruct f as [|f]; [simpl in Hf; lia|]).
  - destruct (tick_pick c st p t rest f Hwf Htop Hq) as (m & Hok & Hi & ->).
    rewrite can_run_runnable; [|apply Hwf|by rewrite tick_state_this].
    cbn [mbind res_bind]. exists m. rewrite tick_state_this. split; [done|]. split; [done|].
    intros j. rewrite Hi. by rewrite app_nil_r.
  - apply Forall_cons in Hbs as [Hb Hbs].
    destruct (tick_rotates c st p b (bs ++ t :: rest) f Hwf Htop Hq Hb) as (m & -> & Hok & Hi).
    destruct (loop_wf_rotate c st p _ ((bs ++ t :: rest) ++ [b]) b m Hwf Htop Hq)
      as (Hwf' & Htop' & Hq'); [|done|done|].
    { simpl. by rewrite Permutation_cons_append. }
    rewrite <- app_assoc in Hq'. simpl in Hq'.
    destruct (IH f _ p t (rest ++ [b]) Hwf' Htop' Hq') as (m2 & -> & Hok2 & Hi2);
      [done|done|simpl in Hf; lia|].
    exists m2. rewrite tick_state_twice. split; [done|]. split; [done|].
    intros j. rewrite Hi2. simpl. case_decide as Hd; [by rewrite <- app_assoc|].
    rewrite Hi. by rewrite decide_False.
Qed.

Lemma tick_loop_spins c f : ∀ st p,
  loop_wf c st → top c st p → queue st c p ≠ [] → Forall (blocked st) (queue st c p) →
  tick_loop f c st = Spin.
Proof.
  induction f as [|f IH]; intros st p Hwf Htop Hne Hbs; [done|].
  destruct (queue st c p) as [|b l] eqn:Hq; [done|].
  apply Forall_cons in Hbs as [Hb Hbs].
  destruct (tick_rotates c st p b l f Hwf Htop Hq Hb) as (m & -> & Hok & Hi).
  destruct (loop_wf_rotate c st p _ (l ++ [b]) b m Hwf Htop Hq)
    as (Hwf' & Htop' & Hq'); [|done|done|].
  { simpl. by rewrite Permutation_cons_append. }
  apply (IH _ p Hwf' Htop').
  - rewrite Hq'. destruct l; done.
  - rewrite Hq'. apply Forall_app. split; [exact Hbs|]. by apply Forall_singleton.
Qed.

Lemma tick_loop_idle c st f :
  loop_wf c st → (∀ p, 0 ≤ p < MAX_PRIORITY → queue st c p = []) →
  (∃ th, threads st !! idle_thread (this c st) = Some th ∧ event th = NoEvent) →
  ∃ m, tick_loop (Datatypes.S f) c st = Ok (tick_state c (idle_thread (this c st)) m st) ∧
    qok m ∧ ∀ j, qitems m j = qitems (queues st) j.
Proof.
  intros [Hc Hok _ _] Hemp (th & Hth & He). cbn [tick_loop]. unfold scheduler_pick.
  destruct (pick_none c (Z.to_nat MAX_PRIORITY) 0 (queues st) Hok) as (m & -> & Hokm & Hi);
    [exact Hemp|].
  cbn [mbind res_bind]. rewrite get_sched_in by done. cbn [mbind res_bind].
  rewrite bool_decide_true by done. rewrite set_sched_in by done. cbn [mbind res_bind].
  exists m. split; [|done].
  pose proof (can_run_runnable c (tick_state c (idle_thread (this c st)) m st) Hc) as Hr.
  rewrite tick_state_this in Hr. unfold tick_state in Hr at 2 3.
  unfold tick_state, this in *. simpl in *. rewrite Hr.
  - cbn [mbind res_bind]. rewrite (wake_id _ _ _ Hth He). done.
  - exists th. split; [done|]. unfold ready. by rewrite bool_decide_true.
Qed.

(** ** The switch *)

Lemma dir_of_Some st t th p :
  threads st !! t = Some th → procs (wld st) !! parent th = Some p → dir_of st t = pdir p.
Proof. intros Ht Hp. unfold dir_of. by rewrite Ht, Hp. Qed.

Lemma scheduler_switch_ok c n st from to :
  0 ≤ c < MAX_CPU → next_thread (this c st) = n → n ≠ 0 →
  threads st !! current_thread (this c st) = Some from → threads st !! n = Some to →
  is_Some (procs (wld st) !! parent from) → is_Some (procs (wld st) !! parent to) →
  c_pdir (cpu_of c st) = dir_of st (current_thread (this c st)) →
  scheduler_switch c st = Ok (
    if decide (current_thread (this c st) = n) then st else
    KState (<[c := Sched (idle_thread (this c st)) n 0 (load (this c st))
                     (started (this c st))]> (scheds st)) (queues st)
      (<[current_thread (this c st) :=
           set_context (u32 (c_esp (cpu_of c st) - 12)) resume from]> (threads st))
      (<[c := Cpu (esp to) (eip to) (dir_of st n) (kernel_stack to)]> (cpus st)) (wld st)).
Proof.
  intros Hc Hn Hn0 Hf Ht [pf Hpf] [pt Hpt] Hdir. unfold scheduler_switch.
  rewrite get_sched_in by done. cbn [mbind res_bind]. rewrite Hn.
  rewrite bool_decide_false by done.
  destruct (decide (current_thread (this c st) = n)) as [He|Hne].
  { by rewrite bool_decide_true. }
  rewrite bool_decide_false by done.
  rewrite (get_thread_Some _ _ _ Hf), (get_thread_Some _ _ _ Ht). cbn [mbind res_bind].
  unfold get_proc. rewrite Hpf, Hpt. cbn [mbind res_bind].
  rewrite aget_in by done. cbn [mbind res_bind]. rewrite set_sched_in by done.
  cbn [mbind res_bind set_threads cpus scheds queues threads wld].
  rewrite aset_in by done. cbn [mbind res_bind].
  rewrite (dir_of_Some _ _ _ _ Ht Hpt). rewrite (dir_of_Some _ _ _ _ Hf Hpf) in Hdir.
  unfold cpu_of in *. unfold set_cpus. simpl. do 4 f_equal.
  case_bool_decide as Hd; [done|]. by rewrite Hdir, Hd.
Qed.

(** A thread that may only have lost its event or its saved context. *)
Definition kept (th th' : thread) : Prop :=
  parent th' = parent th ∧ priority th' = priority th ∧ stack th' = stack th ∧
  kernel_stack th' = kernel_stack th ∧ wait_timer th' = wait_timer th ∧
  descr th' = descr th ∧ (event th' = event th ∨ event th' = NoEvent).

(** The contract of a tick: [t] becomes the current thread of processor [c],
    whose queues become [q]; nothing else changes but the context saved for
    the previous thread. *)
Record dispatched (c t : Z) (q : Z → list Z) (st st' : kstate) : Prop := {
  d_wf : sched_wf c st';
  d_current : current_thread (this c st') = t;
  d_idle : idle_thread (this c st') = idle_thread (this c st);
  d_queue : ∀ p, 0 ≤ p < MAX_PRIORITY → queue st' c p = q p;
  d_other : ∀ c' p, c' ≠ c → queue st' c' p = queue st c' p;
  d_event : ∃ th, threads st' !! t = Some th ∧ event th = NoEvent;
  d_threads : ∀ j th, threads st !! j = Some th → ∃ th', threads st' !! j = Some th' ∧
    kept th th' ∧ (event th' = event th ∨ j = t ∧ event th' = NoEvent);
  d_stay : current_thread (this c st) = t → cpus st' = cpus st;
  d_switch : current_thread (this c st) ≠ t →
    (∃ from, threads st' !! current_thread (this c st) = Some from ∧
       esp from = u32 (c_esp (cpu_of c st) - 12) ∧ eip from = resume) ∧
    ∃ to, threads st !! t = Some to ∧
      cpu_of c st' = Cpu (esp to) (eip to) (dir_of st t) (kernel_stack to);
  d_world : wld st' = wld st
}.

Lemma ready_kept w th th' b :
  kept th th' → ready w th = Ok b → ∃ b', ready w th' = Ok b'.
Proof.
  destruct th, th'. unfold kept. simpl.
  intros (-> & -> & -> & -> & -> & -> & [->| ->]); [eauto|by exists true].
Qed.

Lemma thread_ok_kept st st' x p :
  thread_ok st x p → wld st' = wld st →
  (∀ th, threads st !! x = Some th → ∃ th', threads st' !! x = Some th' ∧ kept th th') →
  thread_ok st' x p.
Proof.
  intros (th & Hth & Hp & Hpar & b & Hb) Hw Hk.
  destruct (Hk th Hth) as (th' & Hth' & Hkept). exists th'.
  pose proof Hkept as (Hpa & Hpr & _). rewrite Hw, Hpa, Hpr.
  split; [done|]. split; [done|]. split; [done|]. by eapply ready_kept.
Qed.

Lemma kept_refl th : kept th th.
Proof. unfold kept. tauto. Qed.

Lemma kept_wake t th : kept th (set_event NoEvent th) ∧ kept th (set_context t t th).
Proof. split; unfold kept; simpl; tauto. Qed.

Lemma wake_kept t ths j th :
  ths !! j = Some th → ∃ th', wake t ths !! j = Some th' ∧ kept th th' ∧
    esp th' = esp th ∧ eip th' = eip th ∧
    (event th' = event th ∨ j = t ∧ event th' = NoEvent).
Proof.
  intros Hj. unfold wake. destruct (decide (t = j)) as [->|].
  - exists (set_event NoEvent th). rewrite lookup_alter_eq, Hj. unfold kept. simpl. tauto.
  - exists th. rewrite lookup_alter_ne by done. split; [done|]. split; [apply kept_refl|].
    tauto.
Qed.

Lemma wake_event t ths : ∀ th, wake t ths !! t = Some th → event th = NoEvent.
Proof.
  intros th. unfold wake. rewrite lookup_alter_eq. destruct (ths !! t); [|done].
  intros [= <-]. done.
Qed.

Lemma dir_of_kept st st' x :
  wld st' = wld st → (∀ th, threads st !! x = Some th →
    ∃ th', threads st' !! x = Some th' ∧ parent th' = parent th) →
  is_Some (threads st !! x) → dir_of st' x = dir_of st x.
Proof.
  intros Hw Hk [th Hx]. unfold dir_of. rewrite Hx.
  destruct (Hk th Hx) as (th' & -> & ->). by rewrite Hw.
Qed.

(** ** Lists of queues *)

Lemma prios_NoDup : NoDup (seqZ 0 MAX_PRIORITY).
Proof. apply NoDup_seqZ. Qed.

Lemma elem_of_prios p : p ∈ seqZ 0 MAX_PRIORITY ↔ 0 ≤ p < MAX_PRIORITY.
Proof. rewrite elem_of_seqZ. lia. Qed.

(** ** Dispatching a thread *)

(** The threads [t] and those of the queues [q] may be dispatched in [st]. *)
Record candidates (c t : Z) (q : Z → list Z) (st : kstate) : Prop := {
  cd_thread : t = idle_thread (this c st) ∨
    t ≠ 0 ∧ ∃ p, 0 ≤ p < MAX_PRIORITY ∧ thread_ok st t p;
  cd_queues : ∀ p x, 0 ≤ p < MAX_PRIORITY → x ∈ q p →
    x ≠ idle_thread (this c st) ∧ thread_ok st x p;
  cd_room : Z.of_nat (length (flat_map q (seqZ 0 MAX_PRIORITY) ++
    if decide (t = idle_thread (this c st)) then [] else [t])) < 2 ^ 31 - 1
}.

(** A state with the candidates in place is well formed again. *)
Lemma dispatched_wf c t q st st' :
  sched_wf c st → candidates c t q st → qok (queues st') →
  queue st' c WAITING = [] → current_thread (this c st') = t →
  idle_thread (this c st') = idle_thread (this c st) →
  (∀ p, 0 ≤ p < MAX_PRIORITY → queue st' c p = q p) → wld st' = wld st →
  (∀ j th, threads st !! j = Some th → ∃ th', threads st' !! j = Some th' ∧ kept th th') →
  c_pdir (cpu_of c st') = dir_of st t → sched_wf c st'.
Proof.
  intros Hwf [Ht Hcq Hroom] Hok Hwait Hcur Hidle Hq Hw Hk Hdir.
  assert (Hthr : is_Some (threads st !! t)).
  { destruct Ht as [->|(_ & p & _ & th & Hth & _)]; [|by exists th].
    destruct (wf_idle _ _ Hwf) as (_ & p & th & Hth & _). by exists th. }
  split.
  - apply Hwf.
  - done.
  - done.
  - rewrite Hidle. destruct (wf_idle _ _ Hwf) as (Hi0 & p & Hi). split; [done|].
    exists p. apply (thread_ok_kept st); eauto.
  - rewrite Hidle. intros th Hth. destruct (wf_idle _ _ Hwf) as (_ & p & thi & Hi & _).
    destruct (Hk _ _ Hi) as (thi' & Hi' & Hki). rewrite Hi' in Hth. injection Hth as <-.
    destruct Hki as (_ & _ & _ & _ & _ & _ & [->|He]); [by apply (wf_idle_event _ _ Hwf)|done].
  - rewrite Hcur, Hidle. destruct Ht as [->|(Ht0 & p & Hp & Htok)].
    + split; [apply (wf_idle _ _ Hwf)|by left].
    + split; [done|]. right. exists p. split; [done|]. apply (thread_ok_kept st); eauto.
  - intros p x Hp Hx. rewrite Hq in Hx by done. rewrite Hidle.
    destruct (Hcq p x Hp Hx) as [Hne Hxok]. split; [done|]. apply (thread_ok_kept st); eauto.
  - unfold cpu_threads, cur_list. rewrite Hcur, Hidle. unfold queued.
    rewrite (flat_map_same q); [done|]. intros p Hp. apply Hq. by apply elem_of_prios.
  - rewrite Hcur, Hdir. symmetry. apply dir_of_kept; [done| |done].
    intros th Hth. destruct (Hk _ _ Hth) as (th' & ? & ? & _). by exists th'.
Qed.

Lemma wf_current_thread c st :
  sched_wf c st → ∃ th, threads st !! current_thread (this c st) = Some th ∧
    is_Some (procs (wld st) !! parent th).
Proof.
  intros Hwf. destruct (wf_cur _ _ Hwf) as (_ & [->|(p & _ & th & Hth & _ & Hp & _)]);
    [|by exists th].
  destruct (wf_idle _ _ Hwf) as (_ & p & th & Hth & _ & Hp & _). by exists th.
Qed.

Lemma candidate_thread c t q st :
  sched_wf c st → candidates c t q st → t ≠ 0 ∧ ∃ th, threads st !! t = Some th ∧
    is_Some (procs (wld st) !! parent th).
Proof.
  intros Hwf [[->|(Ht0 & p & _ & th & Hth & _ & Hp & _)] _ _].
  - destruct (wf_idle _ _ Hwf) as (Hi0 & p & th & Hth & _ & Hp & _). split; [done|]. by exists th.
  - split; [done|]. by exists th.
Qed.

Lemma dispatch_ok c t m q st :
  sched_wf c st → candidates c t q st → qok m →
  (∀ p, 0 ≤ p < MAX_PRIORITY → qitems m (c, p) = q p) → qitems m (c, WAITING) = [] →
  (∀ c' p, c' ≠ c → qitems m (c', p) = queue st c' p) →
  ∃ st', scheduler_switch c (set_threads (wake t (threads st)) (tick_state c t m st))
         = Ok st' ∧ dispatched c t q st st' ∧ queues st' = m.
Proof.
  intros Hwf Hcd Hok Hq Hwait Hother. pose proof (wf_cpu _ _ Hwf) as Hc.
  destruct (wf_current_thread _ _ Hwf) as (fr & Hfr & Hpfr).
  destruct (candidate_thread _ _ _ _ Hwf Hcd) as (Ht0 & to & Hto & Hpto).
  set (s2 := set_threads (wake t (threads st)) (tick_state c t m st)).
  assert (Hthis : this c s2 = set_next t (this c st)) by apply tick_state_this.
  destruct (wake_kept t _ _ _ Hfr) as (fr' & Hfr' & Hkfr & _ & _ & Hefr).
  destruct (wake_kept t _ _ _ Hto) as (to' & Hto' & Hkto & Hesp & Heip & _).
  assert (Hwk : ∀ x th, threads st !! x = Some th →
    ∃ th', threads s2 !! x = Some th' ∧ parent th' = parent th).
  { intros x th Hth. destruct (wake_kept t _ _ _ Hth) as (th' & ? & (? & _) & _). by exists th'. }
  assert (Hdf : c_pdir (cpu_of c s2) = dir_of s2 (current_thread (this c s2))).
  { rewrite Hthis. simpl. rewrite (dir_of_kept st s2); [apply Hwf|done|by apply Hwk|by exists fr]. }
  eexists. split.
  { apply (scheduler_switch_ok c t s2 fr' to' Hc); rewrite ?Hthis; simpl; try done.
    - by rewrite (proj1 Hkfr).
    - by rewrite (proj1 Hkto).
    - rewrite Hthis in Hdf. exact Hdf. }
  rewrite Hthis. simpl. destruct (decide (current_thread (this c st) = t)) as [Hct|Hct];
    (split; [|reflexivity]).
  - split; rewrite ?Hthis; try done.
    + apply (dispatched_wf c t q st); rewrite ?Hthis; try done.
      * intros j th Hj. destruct (wake_kept t _ _ _ Hj) as (th' & ? & ? & _). by exists th'.
      * rewrite <- Hct. exact (wf_pdir _ _ Hwf).
    + exists to'. split; [done|]. by apply (wake_event t (threads st)).
    + intros j th Hj. destruct (wake_kept t _ _ _ Hj) as (th' & ? & ? & _ & _ & ?).
      by exists th'.
  - match goal with |- dispatched _ _ _ _ ?s => set (s3 := s) end.
    assert (Hk3 : ∀ j th, threads st !! j = Some th → ∃ th', threads s3 !! j = Some th' ∧
      kept th th' ∧ (event th' = event th ∨ j = t ∧ event th' = NoEvent)).
    { intros j th Hj. simpl. destruct (decide (current_thread (this c st) = j)) as [<-|Hne].
      - rewrite lookup_insert_eq. eexists. split; [done|]. rewrite Hfr in Hj.
        injection Hj as <-. split; [exact Hkfr|exact Hefr].
      - rewrite lookup_insert_ne by done.
        destruct (wake_kept t _ _ _ Hj) as (th' & ? & ? & _ & _ & ?). by exists th'. }
    assert (Hthis3 : this c s3 = Sched (idle_thread (this c st)) t 0 (load (this c st))
                                   (started (this c st))) by apply arr_insert_eq.
    assert (Hdt : dir_of s2 t = dir_of st t)
      by (apply dir_of_kept; [done|by apply Hwk|by exists to]).
    assert (Hcpu3 : cpu_of c s3 = Cpu (esp to) (eip to) (dir_of st t) (kernel_stack to)).
    { unfold cpu_of. simpl. rewrite arr_insert_eq, Hesp, Heip, Hdt.
      by rewrite (proj1 (proj2 (proj2 (proj2 Hkto)))). }
    split; rewrite ?Hthis3; try done.
    + apply (dispatched_wf c t q st); rewrite ?Hthis3; try done.
      * intros j th Hj. destruct (Hk3 _ _ Hj) as (th' & ? & ? & _). by exists th'.
      * by rewrite Hcpu3.
    + exists to'. simpl. rewrite lookup_insert_ne by done. split; [done|].
      by apply (wake_event t (threads st)).
    + intros _. split.
      * exists (set_context (u32 (c_esp (cpu_of c st) - 12)) resume fr').
        simpl. by rewrite lookup_insert_eq.
      * by exists to.
Qed.

(** The queues once the current thread is put back. *)
Definition requeued (c : Z) (st : kstate) (p : Z) : list Z :=
  queue st c p ++
  if decide (current_thread (this c st) = idle_thread (this c st)) then []
  else match threads st !! current_thread (this c st) with
       | Some th => if decide (priority th = p) then [current_thread (this c st)] else []
       | None => []
       end.

Lemma requeued_threads c st :
  sched_wf c st → flat_map (requeued c st) (seqZ 0 MAX_PRIORITY) ≡ₚ cpu_threads c st.
Proof.
  intros Hwf. unfold cpu_threads, queued, cur_list.
  destruct (wf_cur _ _ Hwf) as (_ & [He|(p & Hp & th & Hth & Hpr & _)]).
  - rewrite decide_True, app_nil_r by done.
    rewrite (flat_map_same (queue st c) (requeued c st)); [done|].
    intros x _. unfold requeued. rewrite decide_True by done. by rewrite app_nil_r.
  - case_decide as Hd.
    + rewrite app_nil_r. rewrite (flat_map_same (queue st c) (requeued c st)); [done|].
      intros x _. unfold requeued. rewrite decide_True by done. by rewrite app_nil_r.
    + apply (flat_map_update _ _ _ p); [apply prios_NoDup|by apply elem_of_prios| |].
      * intros x _ Hx. unfold requeued. rewrite decide_False by done.
        rewrite Hth, decide_False by naive_solver. by rewrite app_nil_r.
      * unfold requeued. rewrite decide_False by done. by rewrite Hth, decide_True.
Qed.

Lemma requeued_ok c st p t :
  sched_wf c st → 0 ≤ p < MAX_PRIORITY → t ∈ requeued c st p →
  t ≠ idle_thread (this c st) ∧ thread_ok st t p.
Proof.
  intros Hwf Hp Ht. unfold requeued in Ht. apply elem_of_app in Ht as [Ht|Ht].
  { by apply (wf_queued _ _ Hwf). }
  destruct (decide _) as [|Hd] in Ht; [by apply not_elem_of_nil in Ht|].
  destruct (threads st !! _) as [th|] eqn:Hth in Ht; [|by apply not_elem_of_nil in Ht].
  destruct (decide _) as [Hpr|] in Ht; [|by apply not_elem_of_nil in Ht].
  apply list_elem_of_singleton in Ht as ->. split; [done|].
  destruct (wf_cur _ _ Hwf) as (_ & [He|(p' & Hp' & th' & Hth' & Hpr' & Hrest)]); [done|].
  exists th'. rewrite Hth in Hth'. injection Hth' as ->. done.
Qed.

Lemma requeued_length c st p :
  sched_wf c st → 0 ≤ p < MAX_PRIORITY →
  Z.of_nat (length (requeued c st p)) < 2 ^ 31 - 1.
Proof.
  intros Hwf Hp. pose proof (wf_room _ _ Hwf) as Hroom.
  rewrite <- requeued_threads in Hroom by done.
  apply elem_of_prios in Hp. apply list_elem_of_split in Hp as (l1 & l2 & Heq).
  rewrite Heq, flat_map_app in Hroom. simpl in Hroom. rewrite !length_app in Hroom. lia.
Qed.

(** The beginning of [sched_tick]: the current thread is put back. *)
Lemma tick_enter c st :
  sched_wf c st →
  ∃ m, (∀ fuel, sched_tick fuel c st
          = (st' ← tick_loop fuel c (set_queues m st); scheduler_switch c st')) ∧
    loop_wf c (set_queues m st) ∧ qitems m (c, WAITING) = [] ∧
    (∀ p, 0 ≤ p < MAX_PRIORITY → qitems m (c, p) = requeued c st p) ∧
    (∀ c' p, c' ≠ c → qitems m (c', p) = queue st c' p).
Proof.
  intros Hwf. pose proof (wf_cpu _ _ Hwf) as Hc.
  assert (Hput : ∃ m, scheduler_put_back c (current_thread (this c st)) st
      = Ok (set_queues m st) ∧ qok m ∧ qitems m (c, WAITING) = [] ∧
      (∀ p, 0 ≤ p < MAX_PRIORITY → qitems m (c, p) = requeued c st p) ∧
      (∀ c' p, c' ≠ c → qitems m (c', p) = queue st c' p)).
  { destruct (wf_cur _ _ Hwf) as (Hc0 & Hcur).
    destruct (decide (current_thread (this c st) = idle_thread (this c st))) as [He|Hne].
    - exists (queues st). split; [|split; [apply Hwf|split; [apply Hwf|split; [|done]]]].
      + unfold scheduler_put_back. rewrite bool_decide_false by done.
        rewrite get_sched_in by done. cbn [mbind res_bind].
        rewrite bool_decide_true by done. by destruct st.
      + intros p _. unfold requeued. rewrite decide_True by done. by rewrite app_nil_r.
    - destruct Hcur as [|(p & Hp & th & Hth & Hpr & _)]; [done|].
      assert (Hroom : Z.of_nat (length (queue st c p)) + 1 < 2 ^ 31).
      { pose proof (requeued_length c st p Hwf Hp) as Hl. unfold requeued in Hl.
        rewrite length_app in Hl. lia. }
      destruct (put_back_push c _ p st Hc (wf_queues _ _ Hwf) Hc0 Hne Hp) as (m & Hm & Hok & Hi);
        [by exists th|done|].
      exists m. split; [done|]. split; [done|]. split; [|split].
      + rewrite Hi. rewrite decide_False; [apply Hwf|]. intros [= Heq].
        unfold WAITING in Heq. lia.
      + intros p' Hp'. rewrite Hi. unfold requeued. rewrite (decide_False (P := current_thread _ = _)) by done.
        rewrite Hth, Hpr. destruct (decide (p = p')) as [->|].
        * by rewrite decide_True.
        * rewrite decide_False by naive_solver. by rewrite app_nil_r.
      + intros c' p' Hc'. rewrite Hi. by rewrite decide_False by naive_solver. }
  destruct Hput as (m & Hput & Hok & Hwait & Hq & Hother).
  destruct (wake_all_nothing c (set_queues m st)) as (m' & Hwake & Hok' & Hsame); [done|done|].
  exists m'. split; [|split; [|split; [|split]]].
  - intros fuel. unfold sched_tick. rewrite get_sched_in by done. cbn [mbind res_bind].
    rewrite Hput. cbn [mbind res_bind]. by rewrite Hwake.
  - split; [done|done| |].
    + intros p t Hp Ht. unfold queue in Ht. simpl in Ht. rewrite Hsame in Ht. simpl in Ht.
      rewrite Hq in Ht by done. exact (requeued_ok c st p t Hwf Hp Ht).
    + intros p Hp. unfold queue. simpl. rewrite Hsame. simpl. rewrite Hq by done.
      exact (requeued_length c st p Hwf Hp).
  - by rewrite Hsame.
  - intros p Hp. rewrite Hsame. by apply Hq.
  - intros c' p Hc'. rewrite Hsame. by apply Hother.
Qed.

(** The highest-priority queue that is not empty at a tick. *)
Definition top_requeued (c : Z) (st : kstate) (p : Z) : Prop :=
  0 ≤ p < MAX_PRIORITY ∧ ∀ p', 0 ≤ p' < p → requeued c st p' = [].

(** The queues after [t], behind [bs] in the queue [p], was taken. *)
Definition served (c : Z) (st : kstate) (p : Z) (bs rest : list Z) (p' : Z) : list Z :=
  if decide (p' = p) then rest ++ bs else requeued c st p'.

Lemma served_threads c st p bs t rest :
  sched_wf c st → 0 ≤ p < MAX_PRIORITY → requeued c st p = bs ++ t :: rest →
  flat_map (served c st p bs rest) (seqZ 0 MAX_PRIORITY) ++ [t] ≡ₚ cpu_threads c st.
Proof.
  intros Hwf Hp Hq. rewrite <- requeued_threads by done. symmetry.
  apply (flat_map_update _ _ _ p); [apply prios_NoDup|by apply elem_of_prios| |].
  - intros x _ Hx. unfold served. by rewrite decide_False.
  - unfold served. rewrite decide_True by done. rewrite Hq.
    rewrite (Permutation_app_comm rest bs), <- app_assoc.
    by rewrite <- Permutation_cons_append.
Qed.

Lemma dispatched_threads c t q st st' :
  dispatched c t q st st' →
  cpu_threads c st' = flat_map q (seqZ 0 MAX_PRIORITY) ++
    if decide (t = idle_thread (this c st)) then [] else [t].
Proof.
  intros Hd. unfold cpu_threads, cur_list, queued. rewrite (d_current _ _ _ _ _ Hd).
  rewrite (d_idle _ _ _ _ _ Hd). f_equal. symmetry. apply flat_map_same. intros x Hx.
  symmetry. apply (d_queue _ _ _ _ _ Hd). by apply elem_of_prios.
Qed.

Lemma tick_serves_spare fuel c st p bs t rest :
  sched_wf c st → top_requeued c st p → requeued c st p = bs ++ t :: rest →
  Forall (blocked st) bs → runnable st t → (length bs < fuel)%nat →
  ∃ st', sched_tick fuel c st = Ok st' ∧ dispatched c t (served c st p bs rest) st st' ∧
    cpu_threads c st' ≡ₚ cpu_threads c st ∧ qspare (c, p) (queues st') = true.
Proof.
  intros Hwf [Hp Hlow] Hq Hbs Ht Hfuel.
  destruct (tick_enter c st Hwf) as (m & Htick & Hlwf & Hwait & Hqm & Hother).
  destruct (tick_loop_finds c bs fuel (set_queues m st) p t rest) as (m2 & Hloop & [Hok Hsp] & Hi);
    [done| | |done|done|done|].
  { split; [done|]. intros p' Hp'. unfold queue. simpl. rewrite Hqm by lia. by apply Hlow. }
  { unfold queue. simpl. by rewrite Hqm. }
  assert (Hti : t ≠ idle_thread (this c st) ∧ thread_ok st t p)
    by (apply requeued_ok; [done|done|rewrite Hq; set_solver]).
  pose proof (served_threads c st p bs t rest Hwf Hp Hq) as Hperm.
  assert (Ht0 : t ≠ 0).
  { pose proof (qitems_nonnull (c, p) m (lw_queues _ _ Hlwf)) as Hnn.
    rewrite Hqm, Hq in Hnn by done. rewrite Forall_forall in Hnn. apply Hnn. set_solver. }
  assert (Hcd : candidates c t (served c st p bs rest) st).
  { split.
    - right. split; [done|]. exists p. split; [done|apply Hti].
    - intros p' x Hp' Hx. apply requeued_ok; [done|done|]. unfold served in Hx.
      case_decide as Hd; [subst p'; rewrite Hq; set_solver|done].
    - rewrite decide_False by apply Hti. rewrite Hperm. apply Hwf. }
  destruct (dispatch_ok c t m2 (served c st p bs rest) st Hwf Hcd Hok) as (st' & Hsw & Hd & Hm2).
  - intros p' Hp'. rewrite Hi. unfold served. simpl. rewrite Hqm by done.
    repeat case_decide; naive_solver.
  - rewrite Hi. rewrite decide_False; [done|]. intros [= Heq]. unfold WAITING in Heq. lia.
  - intros c' p' Hc'. rewrite Hi. rewrite decide_False by naive_solver. by apply Hother.
  - exists st'. split; [|split; [done|split; [|by rewrite Hm2]]].
    + rewrite Htick, Hloop. cbn [mbind res_bind]. exact Hsw.
    + rewrite (dispatched_threads _ _ _ _ _ Hd), decide_False by apply Hti. done.
Qed.

Lemma tick_serves fuel c st p bs t rest :
  sched_wf c st → top_requeued c st p → requeued c st p = bs ++ t :: rest →
  Forall (blocked st) bs → runnable st t → (length bs < fuel)%nat →
  ∃ st', sched_tick fuel c st = Ok st' ∧ dispatched c t (served c st p bs rest) st st' ∧
    cpu_threads c st' ≡ₚ cpu_threads c st.
Proof.
  intros Hwf Htop Hq Hbs Ht Hf.
  destruct (tick_serves_spare fuel c st p bs t rest Hwf Htop Hq Hbs Ht Hf) as (st' & ? & ? & ? & _).
  by exists st'.
Qed.

Lemma tick_idles fuel c st :
  sched_wf c st → (∀ p, 0 ≤ p < MAX_PRIORITY → requeued c st p = []) → (0 < fuel)%nat →
  ∃ st', sched_tick fuel c st = Ok st' ∧
    dispatched c (idle_thread (this c st)) (λ _, []) st st' ∧
    cpu_threads c st' ≡ₚ cpu_threads c st.
Proof.
  intros Hwf Hemp Hfuel. destruct fuel as [|f]; [lia|].
  destruct (tick_enter c st Hwf) as (m & Htick & Hlwf & Hwait & Hqm & Hother).
  destruct (wf_idle _ _ Hwf) as (_ & pi & thi & Hthi & _).
  pose proof (wf_idle_event _ _ Hwf thi Hthi) as Hev.
  destruct (tick_loop_idle c (set_queues m st) f Hlwf) as (m2 & Hloop & Hok & Hi).
  { intros p Hp. unfold queue. simpl. rewrite Hqm by done. by apply Hemp. }
  { by exists thi. }
  assert (Hcd : candidates c (idle_thread (this c st)) (λ _, []) st).
  { split; [by left| |].
    - intros p x _ Hx. by apply not_elem_of_nil in Hx.
    - by rewrite decide_True. }
  destruct (dispatch_ok c _ m2 (λ _, []) st Hwf Hcd Hok) as (st' & Hsw & Hd & _).
  - intros p Hp. rewrite Hi. simpl. rewrite Hqm by done. by apply Hemp.
  - by rewrite Hi.
  - intros c' p Hc'. rewrite Hi. by apply Hother.
  - exists st'. split; [|split; [done|]].
    + rewrite Htick, Hloop. cbn [mbind res_bind]. rewrite <- Hsw.
      rewrite (wake_id _ _ _ Hthi Hev). done.
    + rewrite (dispatched_threads _ _ _ _ _ Hd), decide_True by done.
      rewrite <- requeued_threads by done.
      rewrite (flat_map_same (λ _, []) (requeued c st)); [done|].
      intros x Hx. apply Hemp. by apply elem_of_prios.
Qed.

Lemma tick_spins fuel c st p :
  sched_wf c st → top_requeued c st p → requeued c st p ≠ [] →
  Forall (blocked st) (requeued c st p) → sched_tick fuel c st = Spin.
Proof.
  intros Hwf [Hp Hlow] Hne Hbs.
  destruct (tick_enter c st Hwf) as (m & Htick & Hlwf & Hwait & Hqm & Hother).
  rewrite Htick, (tick_loop_spins c fuel (set_queues m st) p); [done|done| | |].
  - split; [done|]. intros p' Hp'. unfold queue. simpl. rewrite Hqm by lia. by apply Hlow.
  - unfold queue. simpl. by rewrite Hqm.
  - unfold queue. simpl. by rewrite Hqm.
Qed.

Lemma first_runnable st l :
  Forall (λ t, blocked st t ∨ runnable st t) l →
  Forall (blocked st) l ∨
  ∃ bs t rest, l = bs ++ t :: rest ∧ Forall (blocked st) bs ∧ runnable st t.
Proof.
  induction 1 as [|t l Ht _ IH]; [by left|]. destruct Ht as [Ht|Ht].
  - destruct IH as [IH|(bs & t' & rest & -> & Hbs & Ht')]; [left; by constructor|].
    right. exists (t :: bs), t', rest. split; [done|]. split; [by constructor|done].
  - right. exists [], t, l. done.
Qed.

Lemma thread_ok_decided st t p : thread_ok st t p → blocked st t ∨ runnable st t.
Proof. intros (th & Hth & _ & _ & [|] & Hb); [right|left]; by exists th. Qed.

Lemma top_exists (q : Z → list Z) (n : nat) :
  (∀ p, 0 ≤ p < Z.of_nat n → q p = []) ∨
  ∃ p, 0 ≤ p < Z.of_nat n ∧ (∀ p', 0 ≤ p' < p → q p' = []) ∧ q p ≠ [].
Proof.
  induction n as [|n [IH|(p & Hp & Hlow & Hne)]].
  - left. intros p Hp. lia.
  - destruct (q (Z.of_nat n)) as [|x l] eqn:Hq.
    + left. intros p Hp. destruct (decide (p = Z.of_nat n)) as [->|]; [done|]. apply IH. lia.
    + right. exists (Z.of_nat n). split; [lia|]. split; [|by rewrite Hq].
      intros p' Hp'. apply IH. lia.
  - right. exists p. split; [lia|]. done.
Qed.

(** The three ways a tick can go. *)
Lemma tick_cases c st :
  sched_wf c st →
  (∀ p, 0 ≤ p < MAX_PRIORITY → requeued c st p = []) ∨
  ∃ p, top_requeued c st p ∧ requeued c st p ≠ [] ∧
    (Forall (blocked st) (requeued c st p) ∨
     ∃ bs t rest, requeued c st p = bs ++ t :: rest ∧ Forall (blocked st) bs ∧ runnable st t).
Proof.
  intros Hwf. destruct (top_exists (requeued c st) 5) as [Hemp|(p & Hp & Hlow & Hne)];
    [by left|right].
  exists p. split; [done|]. split; [done|]. apply first_runnable.
  apply Forall_forall. intros x Hx. eapply thread_ok_decided, requeued_ok; done.
Qed.

Lemma served_fuel c st p bs t rest :
  sched_wf c st → 0 ≤ p < MAX_PRIORITY → requeued c st p = bs ++ t :: rest →
  (length bs < length (cpu_threads c st))%nat.
Proof.
  intros Hwf Hp Hq. rewrite <- (served_threads c st p bs t rest Hwf Hp Hq), length_app.
  cbn [length]. apply elem_of_prios, list_elem_of_split in Hp as (l1 & l2 & Heq).
  rewrite Heq, flat_map_app, length_app. simpl. unfold served at 2.
  rewrite decide_True by done. rewrite !length_app. lia.
Qed.

(** With fuel for the threads of the processor a tick dispatches a thread
    that may run, or keeps turning a queue of blocked threads. *)
Lemma tick_outcome fuel c st :
  sched_wf c st → (length (cpu_threads c st) < fuel)%nat →
  (sched_tick fuel c st = Spin ∧ ∃ p, top_requeued c st p ∧ requeued c st p ≠ [] ∧
     Forall (blocked st) (requeued c st p)) ∨
  ∃ t q st', sched_tick fuel c st = Ok st' ∧ dispatched c t q st st' ∧
    cpu_threads c st' ≡ₚ cpu_threads c st ∧ (t = idle_thread (this c st) ∨ runnable st t).
Proof.
  intros Hwf Hf.
  destruct (tick_cases c st Hwf) as [Hemp|(p & Htop & Hne & [Hbs|(bs & t & rest & Hq & Hbs & Ht)])].
  - right. destruct (tick_idles fuel c st Hwf Hemp) as (st' & Ht & Hd & Hp); [lia|].
    eexists _, _, st'. split; [done|]. split; [exact Hd|]. split; [done|]. by left.
  - left. split; [by eapply tick_spins|]. by exists p.
  - right. pose proof (served_fuel c st p bs t rest Hwf (proj1 Htop) Hq).
    destruct (tick_serves fuel c st p bs t rest Hwf Htop Hq Hbs Ht) as (st' & Htk & Hd & Hp); [lia|].
    eexists _, _, st'. split; [done|]. split; [exact Hd|]. split; [done|]. by right.
Qed.

(** ** Ticks *)

(** C2. One tick of the scheduler runs the first thread, in queue order, of
    the highest-priority non-empty queue whose event has happened; the
    threads it found blocked before it are moved behind the others of their
    priority.  The thread becomes the current one with its event cleared, the
    processor executes its saved context in its process's page directory, the
    previous thread's context is saved, and nothing else changes. *)
Theorem sched_tick_picks fuel c st p bs t rest :
  sched_wf c st → top_requeued c st p → requeued c st p = bs ++ t :: rest →
  Forall (blocked st) bs → runnable st t → (length bs < fuel)%nat →
  ∃ st', sched_tick fuel c st = Ok st' ∧ dispatched c t (served c st p bs rest) st st'.
Proof.
  intros Hwf Htop Hq Hbs Ht Hf.
  destruct (tick_serves fuel c st p bs t rest Hwf Htop Hq Hbs Ht Hf) as (st' & ? & ? & _).
  by exists st'.
Qed.

(** With no thread to run the tick switches to the idle thread. *)
Theorem sched_tick_idles fuel c st :
  sched_wf c st → (∀ p, 0 ≤ p < MAX_PRIORITY → requeued c st p = []) → (0 < fuel)%nat →
  ∃ st', sched_tick fuel c st = Ok st' ∧
    dispatched c (idle_thread (this c st)) (λ _, []) st st'.
Proof.
  intros Hwf Hemp Hf. destruct (tick_idles fuel c st Hwf Hemp Hf) as (st' & ? & ? & _).
  by exists st'.
Qed.

(** C37. While every thread of the highest-priority non-empty queue is
    blocked, the tick keeps turning that queue: it never gets to the threads
    of lower priority nor to the idle thread, even when they could run. *)
Theorem sched_tick_starves fuel c st p :
  sched_wf c st → top_requeued c st p → requeued c st p ≠ [] →
  Forall (blocked st) (requeued c st p) → sched_tick fuel c st = Spin.
Proof. apply tick_spins. Qed.

(** C5. A tick with fuel for the threads of the processor either keeps
    turning a queue of blocked threads, or it returns; then the threads of the
    processor are exactly those of before, none lost and none doubled, the
    state is well formed again and the current thread waits for nothing. *)
Theorem sched_tick_conserves fuel c st :
  sched_wf c st → (length (cpu_threads c st) < fuel)%nat →
  (sched_tick fuel c st = Spin ∧ ∃ p, top_requeued c st p ∧ requeued c st p ≠ [] ∧
     Forall (blocked st) (requeued c st p)) ∨
  ∃ st', sched_tick fuel c st = Ok st' ∧ sched_wf c st' ∧
    cpu_threads c st' ≡ₚ cpu_threads c st ∧
    ∃ th, threads st' !! current_thread (this c st') = Some th ∧ event th = NoEvent.
Proof.
  intros Hwf Hf.
  destruct (tick_outcome fuel c st Hwf Hf) as [?|(t & q & st' & Htk & Hd & Hp & _)]; [by left|right].
  exists st'. rewrite (d_current _ _ _ _ _ Hd).
  split; [done|]. split; [apply Hd|]. split; [done|apply Hd].
Qed.

(** ** Round robin *)

Fixpoint sched_ticks (n fuel : nat) (c : Z) (st : kstate) : res kstate :=
  match n with
  | O => Ok st
  | Datatypes.S n' => st' ← sched_tick fuel c st; sched_ticks n' fuel c st'
  end.

(** The processor's threads, [ring], all have the priority [p], the first is
    the current one, and none waits for an event. *)
Record round_robin (c p : Z) (ring : list Z) (st : kstate) : Prop := {
  rr_wf : sched_wf c st;
  rr_busy : current_thread (this c st) ≠ idle_thread (this c st);
  rr_prio : 0 ≤ p < MAX_PRIORITY;
  rr_ring : current_thread (this c st) :: queue st c p = ring;
  rr_others : ∀ p', 0 ≤ p' < MAX_PRIORITY → p' ≠ p → queue st c p' = [];
  rr_threads : ∀ t, t ∈ ring → ∃ th, threads st !! t = Some th ∧ priority th = p ∧
    event th = NoEvent
}.

Lemma round_robin_step fuel c p t l st :
  round_robin c p (t :: l) st → (0 < fuel)%nat →
  ∃ st', sched_tick fuel c st = Ok st' ∧ round_robin c p (l ++ [t]) st'.
Proof.
  intros [Hwf Hbusy Hp Hring Hoth Hthr] Hf. injection Hring as Hct Hl.
  destruct (Hthr t) as (th & Hth & Hpr & _); [set_solver|].
  assert (Hreq : ∀ p', requeued c st p' = queue st c p' ++ if decide (p = p') then [t] else []).
  { intros p'. unfold requeued. rewrite decide_False by done. rewrite Hct, Hth, Hpr.
    by case_decide. }
  destruct (l ++ [t]) as [|u r] eqn:Hlt; [by destruct l|].
  assert (Hreqp : requeued c st p = [] ++ u :: r).
  { rewrite Hreq, decide_True, Hl by done. done. }
  assert (Hu : u ∈ t :: l).
  { assert (u ∈ l ++ [t]) as Hin by (rewrite Hlt; set_solver). set_solver. }
  assert (Htop : top_requeued c st p).
  { split; [done|]. intros p' Hp'. rewrite Hreq, decide_False, Hoth by lia. done. }
  destruct (tick_serves fuel c st p [] u r Hwf Htop Hreqp) as (st' & Htk & Hd & _).
  { done. }
  { destruct (Hthr u Hu) as (thu & ? & _ & He). exists thu. split; [done|].
    unfold ready. by rewrite bool_decide_true. }
  { simpl. lia. }
  exists st'. split; [done|]. split.
  - apply Hd.
  - rewrite (d_current _ _ _ _ _ Hd), (d_idle _ _ _ _ _ Hd).
    apply (requeued_ok c st p u Hwf Hp). rewrite Hreqp. set_solver.
  - done.
  - rewrite (d_current _ _ _ _ _ Hd), (d_queue _ _ _ _ _ Hd) by done. unfold served.
    by rewrite decide_True, app_nil_r.
  - intros p' Hp' Hne. rewrite (d_queue _ _ _ _ _ Hd) by done. unfold served.
    rewrite decide_False by done. rewrite Hreq, decide_False, Hoth by done. done.
  - intros x Hx. rewrite <- Hlt in Hx.
    destruct (Hthr x) as (thx & Hthx & Hprx & Hex); [set_solver|].
    destruct (d_threads _ _ _ _ _ Hd x thx Hthx) as (th' & ? & (_ & Hpr' & _) & He').
    exists th'. split; [done|]. split; [congruence|].
    destruct He' as [He'|[_ He']]; congruence.
Qed.

(** C30. Threads of one priority that wait for nothing take turns: each of
    them is the current thread after as many ticks as there are threads before
    it, and after a full turn the order is the one of before. *)
Theorem sched_round_robin fuel c p l1 t l2 st :
  round_robin c p (l1 ++ t :: l2) st → (0 < fuel)%nat →
  ∃ st', sched_ticks (length l1) fuel c st = Ok st' ∧
    current_thread (this c st') = t ∧ round_robin c p (t :: l2 ++ l1) st'.
Proof.
  intros Hrr Hf. revert l2 st Hrr. induction l1 as [|x l1 IH]; intros l2 st Hrr.
  - exists st. split; [done|]. rewrite app_nil_r. split; [|done].
    by injection (rr_ring _ _ _ _ Hrr).
  - simpl in Hrr. destruct (round_robin_step fuel c p x _ st Hrr Hf) as (st1 & Htk & Hrr1).
    rewrite <- app_assoc in Hrr1. destruct (IH (l2 ++ [x]) st1 Hrr1) as (st' & Hts & Hcur & Hrr').
    exists st'. split; [simpl; by rewrite Htk|]. split; [done|].
    rewrite <- app_assoc in Hrr'. done.
Qed.

(** ** Placing threads *)

(** The schedulers [scheduler_find] chooses from: the first one, and the
    others once they are started. *)
Definition eligible (ss : gmap Z scheduler) (i : Z) : Prop :=
  i = 0 ∨ 0 < i < MAX_CPU ∧ started (arr sched0 ss i) ≠ 0.

(** [r] is the first least loaded one among those below [n]. *)
Definition least_below (ss : gmap Z scheduler) (n r : Z) : Prop :=
  eligible ss r ∧ 0 ≤ r < n ∧ ∀ i, 0 ≤ i < n → eligible ss i →
    load (arr sched0 ss r) ≤ load (arr sched0 ss i) ∧
    (i < r → load (arr sched0 ss r) < load (arr sched0 ss i)).

Lemma find_from_least ss k : ∀ i r,
  0 < i → i + Z.of_nat k ≤ MAX_CPU → least_below ss i r →
  least_below ss (i + Z.of_nat k) (find_from ss k i r (load (arr sched0 ss r))).
Proof.
  induction k as [|k IH]; intros i r Hi Hk (Her & Hr & Hl).
  { simpl. by rewrite Z.add_0_r. }
  replace (i + Z.of_nat (Datatypes.S k)) with (i + 1 + Z.of_nat k) by lia. simpl.
  case_bool_decide as Hs.
  - apply IH; [lia|lia|]. split; [done|]. split; [lia|]. intros j Hj Hej.
    apply Hl; [|done]. destruct (decide (j = i)) as [->|]; [|lia].
    destruct Hej as [|[_ Hst]]; [lia|done].
  - assert (Hei : eligible ss i) by (right; split; [lia|done]).
    destruct (Z.ltb_spec (load (arr sched0 ss i)) (load (arr sched0 ss r))) as [Hlt|Hge].
    + apply IH; [lia|lia|]. split; [done|]. split; [lia|]. intros j Hj Hej.
      destruct (decide (j = i)) as [->|Hne]; [lia|].
      destruct (Hl j) as [? ?]; [lia|done|]. lia.
    + apply IH; [lia|lia|]. split; [done|]. split; [lia|]. intros j Hj Hej.
      destruct (decide (j = i)) as [->|Hne]; [lia|].
      destruct (Hl j) as [? ?]; [lia|done|]. lia.
Qed.

(** [scheduler_find] returns the first of the least loaded schedulers
    among processor 0 and the processors that are ready. *)
Theorem scheduler_find_least st :
  least_below (scheds st) MAX_CPU (scheduler_find st).
Proof.
  apply (find_from_least _ (Z.to_nat (MAX_CPU - 1)) 1 0); [lia|done|].
  split; [by left|]. split; [lia|]. intros i Hi _. assert (i = 0) as -> by lia. lia.
Qed.

(** [thread_push] looks at one scheduler only. *)
Lemma thread_push_ok c st th p :
  sched_wf c st → th ≠ 0 →
  0 ≤ p < MAX_PRIORITY → thread_ok st th p → th ≠ idle_thread (this c st) →
  Z.of_nat (length (cpu_threads c st)) + 1 < 2 ^ 31 - 1 →
  ∃ st', thread_push c th st = Ok st' ∧
    (∀ c', sched_wf c' st → sched_wf c' st') ∧
    (∀ c' p', queue st' c' p' =
       queue st c' p' ++ if decide ((c', p') = (c, p)) then [th] else []) ∧
    (∀ c', load (this c' st') = if decide (c' = c) then s32 (load (this c st) + 1)
                                else load (this c' st)) ∧
    (∀ c', current_thread (this c' st') = current_thread (this c' st) ∧
       started (this c' st') = started (this c' st) ∧
       (length (cpu_threads c' st') ≤ length (cpu_threads c' st) + 1)%nat) ∧
    threads st' = threads st ∧ cpus st' = cpus st ∧ wld st' = wld st.
Proof.
  intros Hwf Hth Hp (t & Ht & Hpr & Hrest) Hidle Hroom. pose proof (wf_cpu _ _ Hwf) as Hc.
  pose proof (wf_queues _ _ Hwf) as Hok.
  destruct (qpush_spec (c, p) th (queues st) Hok Hth) as (m & Hm & Hokm & Hi).
  { unfold cpu_threads in Hroom. rewrite length_app in Hroom.
    pose proof (room_queue c st p (2 ^ 31 - 2)) as Hrq. unfold queue in Hrq. lia. }
  eexists. split.
  { unfold thread_push. rewrite (get_thread_Some _ _ _ Ht).
    cbn [mbind res_bind]. rewrite Hpr, bool_decide_true by done. rewrite Hm.
    cbn [mbind res_bind]. rewrite get_sched_in by done. cbn [mbind res_bind].
    by rewrite set_sched_in. }
  match goal with |- context [KState ?a ?b ?d ?e ?f] => set (st' := KState a b d e f) end.
  assert (Hq : ∀ c' p', queue st' c' p' =
    queue st c' p' ++ if decide ((c', p') = (c, p)) then [th] else []).
  { intros c' p'. unfold queue. simpl. rewrite Hi. case_decide as Hd.
    - by rewrite Hd. - by rewrite app_nil_r. }
  assert (Hthis : ∀ c', this c' st' = if decide (c' = c) then
      Sched (idle_thread (this c st)) (current_thread (this c st))
        (next_thread (this c st)) (s32 (load (this c st) + 1)) (started (this c st))
      else this c' st).
  { intros c'. unfold this. simpl. rewrite arr_insert. by repeat case_decide. }
  assert (Hic : ∀ c', idle_thread (this c' st') = idle_thread (this c' st) ∧
                      current_thread (this c' st') = current_thread (this c' st) ∧
                      started (this c' st') = started (this c' st)).
  { intros c'. rewrite Hthis. by case_decide; subst. }
  assert (Hlen : ∀ c', length (cpu_threads c' st') =
    (length (cpu_threads c' st) + if decide (c' = c) then 1 else 0)%nat).
  { intros c'. destruct (Hic c') as (Hid & Hcu & _). unfold cpu_threads, cur_list. rewrite Hid, Hcu.
    fold (cur_list c' st). rewrite !length_app. case_decide as Hd.
    - subst c'. assert (Hperm : queued c st' ≡ₚ queued c st ++ [th]).
      { apply (flat_map_update _ _ _ p); [apply prios_NoDup|by apply elem_of_prios| |].
        - intros x _ Hx. rewrite Hq, decide_False by naive_solver. by rewrite app_nil_r.
        - by rewrite Hq, decide_True. }
      rewrite Hperm, length_app. simpl. lia.
    - assert (Hsame : queued c' st' = queued c' st).
      { symmetry. apply flat_map_same. intros x _. rewrite Hq, decide_False by naive_solver.
        by rewrite app_nil_r. }
      rewrite Hsame. lia. }
  split; [|split; [done|split; [|split; [|done]]]].
  - intros c' Hw.
    destruct (Hic c') as (Hid & Hcu & _).
    split; rewrite ?Hid, ?Hcu; try apply Hw.
    + done.
    + rewrite Hq, decide_False, app_nil_r; [apply Hw|]. intros [= _ Heq].
      unfold WAITING in Heq. lia.
    + intros p' x Hp' Hx. rewrite Hq in Hx. apply elem_of_app in Hx as [Hx|Hx].
      { by apply (wf_queued _ _ Hw). }
      case_decide as Hd; [|by apply not_elem_of_nil in Hx]. simplify_eq.
      apply list_elem_of_singleton in Hx as ->. split; [done|]. by exists t.
    + rewrite Hlen. pose proof (wf_room _ _ Hw). case_decide as Hd; [subst c'|]; lia.
  - intros c'. rewrite Hthis. by case_decide.
  - intros c'. rewrite Hlen. destruct (Hic c') as (_ & Hcu & Hst). do 2 (split; [done|]). case_decide; lia.
Qed.

(** With the processor that [scheduler_find] chooses, [thread_push] appends a thread of a valid priority to the
    queue of that priority of a least loaded processor and counts it there;
    every processor's scheduler stays well formed, and no other queue or
    counter changes. *)
Theorem thread_push_places st th p :
  let c := scheduler_find st in
  (∀ c', 0 ≤ c' < MAX_CPU → sched_wf c' st) → th ≠ 0 →
  0 ≤ p < MAX_PRIORITY → thread_ok st th p → th ≠ idle_thread (this c st) →
  Z.of_nat (length (cpu_threads c st)) + 1 < 2 ^ 31 - 1 →
  ∃ st', thread_push c th st = Ok st' ∧
    (∀ c', 0 ≤ c' < MAX_CPU → sched_wf c' st') ∧
    (∀ c' p', queue st' c' p' =
       queue st c' p' ++ if decide ((c', p') = (c, p)) then [th] else []) ∧
    (∀ c', load (this c' st') = if decide (c' = c) then s32 (load (this c st) + 1)
                                else load (this c' st)) ∧
    (∀ c', current_thread (this c' st') = current_thread (this c' st)).
Proof.
  intros c Hwf Hth Hp Hok Hidle Hroom. pose proof (proj1 (proj2 (scheduler_find_least st))) as Hc.
  destruct (thread_push_ok c st th p (Hwf c Hc) Hth Hp Hok Hidle Hroom)
    as (st' & Hs & Hk & Hq & Hl & Hcu & _).
  exists st'. split; [done|]. split; [intros c' Hc'; by apply Hk, Hwf|]. split; [done|].
  split; [done|]. intros c'. apply Hcu.
Qed.

(** The state in which the current thread has begun to wait for [ev]. *)
Definition waiting (c : Z) (ev : thread_event) (st : kstate) : kstate :=
  set_threads (alter (set_event ev) (current_thread (this c st)) (threads st)) st.

(** A thread that was current and is not any more is in a queue. *)
Lemma waiter_queued c st st' :
  current_thread (this c st) ≠ idle_thread (this c st) → cpu_threads c st' ≡ₚ cpu_threads c st →
  current_thread (this c st') ≠ current_thread (this c st) →
  ∃ p, 0 ≤ p < MAX_PRIORITY ∧ current_thread (this c st) ∈ queue st' c p.
Proof.
  intros Hidle Hperm Hne.
  assert (Hin : current_thread (this c st) ∈ cpu_threads c st').
  { rewrite Hperm. unfold cpu_threads, cur_list. rewrite decide_False by done.
    apply elem_of_app. right. by apply list_elem_of_singleton. }
  unfold cpu_threads in Hin. apply elem_of_app in Hin as [Hin|Hin].
  - unfold queued in Hin. apply list_elem_of_In, in_flat_map in Hin as (p & Hp & Hx).
    exists p. split; [apply elem_of_prios; by apply list_elem_of_In|by apply list_elem_of_In].
  - exfalso. unfold cur_list in Hin. case_decide; [by apply not_elem_of_nil in Hin|].
    apply list_elem_of_singleton in Hin. congruence.
Qed.

(** C31. A thread that calls [sched_thread_wait] goes on at once when its
    event has happened.  Otherwise the call raises the task priority register
    and does a tick: when a thread of the highest-priority non-empty queue can
    run, the first such one becomes the current thread and the caller is in a
    queue, still waiting; when all of them are blocked, the tick does not come
    to an end. *)
Theorem sched_thread_wait_blocks fuel c ev st th i :
  let cur := current_thread (this c st) in
  let w := waiting c ev st in
  sched_wf c w → cur ≠ idle_thread (this c st) → ev ≠ NoEvent →
  threads st !! cur = Some th → (length (cpu_threads c st) < fuel)%nat →
  (run_event (wld st) (set_event ev th) = Ok true →
   sched_thread_wait fuel c cur ev st i =
     Ok (true, set_threads (<[cur := set_event NoEvent th]> (threads st)) st, i)) ∧
  (run_event (wld st) (set_event ev th) = Ok false → ∀ p, top_requeued c w p →
   (∀ bs t rest, requeued c w p = bs ++ t :: rest → Forall (blocked w) bs → runnable w t →
    ∃ st', sched_thread_wait fuel c cur ev st i =
        Ok (false, st', Interrupts.lapic_set Interrupts.LAPIC_TPR Interrupts.INT_SCHED_TICK i) ∧
      current_thread (this c st') = t ∧ t ≠ cur ∧
      (∃ t', threads st' !! cur = Some t' ∧ event t' = ev) ∧
      ∃ p', 0 ≤ p' < MAX_PRIORITY ∧ cur ∈ queue st' c p') ∧
   (requeued c w p ≠ [] → Forall (blocked w) (requeued c w p) →
    sched_thread_wait fuel c cur ev st i = Spin)).
Proof.
  intros cur w Hwf Hidle Hev Hth Hf.
  assert (Hws : w = set_threads (<[cur := set_event ev th]> (threads st)) st).
  { unfold w, waiting. fold cur. f_equal. apply map_eq. intros j.
    destruct (decide (cur = j)) as [<-|].
    - by rewrite lookup_alter_eq, lookup_insert_eq, Hth.
    - by rewrite lookup_alter_ne, lookup_insert_ne. }
  assert (Hcur : threads w !! cur = Some (set_event ev th))
    by (rewrite Hws; simpl; by rewrite lookup_insert_eq).
  unfold sched_thread_wait. rewrite (get_thread_Some _ _ _ Hth). cbn [mbind res_bind].
  rewrite <- Hws. unfold wait_loop. rewrite (get_thread_Some _ _ _ Hcur).
  cbn [mbind res_bind]. unfold ready. rewrite bool_decide_false by done.
  change (wld w) with (wld st). split.
  { intros ->. cbn [mbind res_bind]. rewrite Hws. do 3 f_equal.
    unfold set_threads. simpl. f_equal. by rewrite insert_insert_eq. }
  intros Hr p Htop. rewrite Hr. cbn [mbind res_bind]. unfold sched_yield. split.
  - intros bs t rest Hq Hbs Ht. pose proof (served_fuel c w p bs t rest Hwf (proj1 Htop) Hq) as Hsf.
    change (cpu_threads c w) with (cpu_threads c st) in Hsf.
    destruct (tick_serves fuel c w p bs t rest Hwf Htop Hq Hbs Ht) as (st' & Htk & Hd & Hperm); [lia|].
    assert (Hne : t ≠ cur).
    { intros ->. destruct Ht as (x & Hx & Hxr). rewrite Hcur in Hx. injection Hx as <-.
      unfold ready in Hxr. rewrite bool_decide_false in Hxr by done.
      change (wld w) with (wld st) in Hxr. congruence. }
    exists st'. rewrite Htk. cbn [mbind res_bind]. split; [done|].
    rewrite (d_current _ _ _ _ _ Hd). do 2 (split; [done|]). split.
    + destruct (d_threads _ _ _ _ _ Hd cur _ Hcur) as (t' & Ht' & _ & [He|[He _]]); [|by subst].
      exists t'. split; [done|]. by rewrite He.
    + apply (waiter_queued c w st'); [done|done|]. by rewrite (d_current _ _ _ _ _ Hd).
  - intros Hne Hbs. by rewrite (tick_spins fuel c w p Hwf Htop Hne Hbs).
Qed.

End Sched.
Arguments kstate : clear implicits.

(** ** Concrete states *)

Definition lists : Type := KList.lstore (list Z) (Z * Z) _ _.
Definition no_lists : lists := KList.LStore ∅ KList.bump_mem.

Lemma no_lists_ok : qok no_lists.
Proof.
  apply KList.store_ok_init; [done|]. intros a Hin. by apply not_elem_of_nil in Hin.
Qed.

Lemma no_elements a : ¬ qelem no_lists a.
Proof. intros Ha. cbn in Ha. unfold KList.store_elem in Ha. cbn in Ha. rewrite lookup_empty in Ha. by destruct Ha. Qed.

(** One queue filled, the others empty. *)
Lemma lists_with (k : Z * Z) (l : list Z) :
  Forall (λ t, t ≠ 0) l → Z.of_nat (length l) < 2 ^ 31 →
  ∃ m : lists, qok m ∧ ∀ j, qitems m j = if decide (j = k) then l else [].
Proof.
  induction l as [|t l IH] using rev_ind; intros Hnn Hlen.
  { exists no_lists. split; [apply no_lists_ok|]. intros j. by case_decide. }
  apply Forall_app in Hnn as [Hnn Ht]. rewrite length_app in Hlen. simpl in Hlen.
  destruct IH as (m & Hok & Hi); [done|lia|].
  destruct (qpush_spec k t m Hok) as (m' & _ & Hok' & Hi').
  { by apply Forall_inv in Ht. }
  { rewrite Hi, decide_True by done. lia. }
  exists m'. split; [done|]. intros j. rewrite Hi'. rewrite Hi.
  rewrite (decide_True (P := k = k)) by done. rewrite Hi. by case_decide.
Qed.

Definition demo_thread (p w : Z) (ev : thread_event) : thread :=
  Thr 7 p 0x8000 0x9000 0x8F00 0x1000 w 0 ev.

(** Thread 100 idles; 101, 103 and 105 of priority 2 can run, 102 of
    priority 2 waits for the timer, and 104 of priority 3 can run. *)
Definition demo_threads : gmap Z thread :=
  {[ 100 := demo_thread 4 0 NoEvent; 101 := demo_thread 2 0 NoEvent;
     102 := demo_thread 2 50 TimerEvent; 103 := demo_thread 2 3 TimerEvent;
     104 := demo_thread 3 0 NoEvent; 105 := demo_thread 2 0 NoEvent ]}.

Definition demo (m : lists) (cur : Z) : kstate lists :=
  KState {[ 0 := Sched 100 cur 0 0 1 ]} m demo_threads
    {[ 0 := Cpu 0x8A00 0x1234 0x5000 0x9000 ]}
    (World 10 ∅ {[ 7 := Proc 1 section0 section0 section0 section0 0x5000 ∅ ∅ ]}).

Definition demo_ids (p : Z) : list Z :=
  if decide (p = 2) then [101; 102; 103; 105] else if decide (p = 3) then [104] else [].

Lemma demo_thread_ok m cur t p :
  t ∈ demo_ids p → t ≠ 100 ∧ t ≠ 0 ∧ 0 ≤ p < MAX_PRIORITY ∧ thread_ok (demo m cur) t p.
Proof.
  unfold demo_ids. intros Ht.
  repeat case_decide; subst; repeat (apply elem_of_cons in Ht as [->|Ht]);
    try (by apply not_elem_of_nil in Ht);
    (split; [done|split; [done|split; [done|]]]; eexists; split; [reflexivity|];
     split; [done|]; split; [by eexists|]; eexists; reflexivity).
Qed.

Lemma demo_wf m cur p l :
  qok m → (∀ j, qitems m j = if decide (j = (0, p)) then l else []) →
  (∀ t, t ∈ l → t ∈ demo_ids p) → 0 ≤ p < MAX_PRIORITY → Z.of_nat (length l) < 1000 →
  cur = 100 ∨ (∃ p', cur ∈ demo_ids p') → sched_wf 0 (demo m cur).
Proof.
  intros Hok Hi Hl Hp Hlen Hcur.
  assert (Hq : ∀ p', queue (demo m cur) 0 p' = if decide (p' = p) then l else []).
  { intros p'. change (queue (demo m cur) 0 p') with (qitems m (0, p')). rewrite Hi.
    repeat case_decide; naive_solver. }
  assert (Hid : thread_ok (demo m cur) 100 4).
  { eexists. split; [reflexivity|]. split; [done|]. split; [by eexists|]. eexists. reflexivity. }
  split.
  - done.
  - done.
  - rewrite Hq, decide_False; [done|]. unfold WAITING. lia.
  - split; [done|]. by exists 4.
  - intros th [= <-]. done.
  - destruct Hcur as [->|[p' Hc]].
    + split; [done|]. by left.
    + destruct (demo_thread_ok m cur cur p' Hc) as (_ & Hc0 & Hp' & Hc'). split; [exact Hc0|]. right. by exists p'.
  - intros p' t Hp' Ht. rewrite Hq in Ht. case_decide as Hd; [subst|by apply not_elem_of_nil in Ht].
    destruct (demo_thread_ok m cur t p (Hl t Ht)) as (Hti & _ & _ & Htok). split; [exact Hti|exact Htok].
  - unfold cpu_threads. rewrite length_app.
    assert (length (cur_list 0 (demo m cur)) ≤ 1)%nat
      by (unfold cur_list; case_decide; simpl; lia).
    assert (Hlq : length (queued 0 (demo m cur)) = length l).
    { assert (queued 0 (demo m cur) ≡ₚ flat_map (λ _, []) (seqZ 0 MAX_PRIORITY) ++ l) as ->.
      { apply (flat_map_update _ _ _ p); [apply prios_NoDup|by apply elem_of_prios| |].
        - intros x _ Hx. by rewrite Hq, decide_False.
        - by rewrite Hq, decide_True. }
      done. }
    rewrite Hlq. lia.
  - destruct Hcur as [->|[p' Hc]]; [done|].
    destruct (demo_thread_ok m cur cur p' Hc) as (_ & _ & _ & th & Hth & _ & [pr Hpr] & _).
    unfold demo_ids in Hc.
    repeat case_decide; repeat (apply elem_of_cons in Hc as [->|Hc]);
      try (by apply not_elem_of_nil in Hc); done.
Qed.

(** Processor 0 with the queue [p] holding [l] and [cur] running. *)
Lemma demo_state cur p l :
  Forall (λ t, t ≠ 0) l → (∀ t, t ∈ l → t ∈ demo_ids p) → 0 ≤ p < MAX_PRIORITY →
  Z.of_nat (length l) < 1000 → cur = 100 ∨ (∃ p', cur ∈ demo_ids p') →
  ∃ m, sched_wf 0 (demo m cur) ∧
    ∀ p', queue (demo m cur) 0 p' = if decide (p' = p) then l else [].
Proof.
  intros Hnn Hl Hp Hlen Hcur. destruct (lists_with (0, p) l) as (m & Hok & Hi); [done|lia|].
  exists m. split; [by apply (demo_wf m cur p l)|]. intros p'.
  change (queue (demo m cur) 0 p') with (qitems m (0, p')). rewrite Hi.
  repeat case_decide; naive_solver.
Qed.

Lemma demo_blocked m cur : blocked (demo m cur) 102.
Proof. eexists. split; [reflexivity|done]. Qed.

Lemma sched_tick_picks_witness :
  ∃ m st', sched_tick 0xC000 2 0 (demo m 101) = Ok st' ∧
    current_thread (this 0 st') = 103 ∧ queue st' 0 2 = [101; 102].
Proof.
  destruct (demo_state 101 2 [102; 103]) as (m & Hwf & Hq);
    [by repeat constructor|set_solver|done|done|right; exists 2; set_solver|].
  assert (Hr : ∀ p', requeued 0 (demo m 101) p' =
            queue (demo m 101) 0 p' ++ if decide (2 = p') then [101] else []) by done.
  destruct (sched_tick_picks 0xC000 2 0 (demo m 101) 2 [102] 103 [101] Hwf)
    as (st' & Ht & Hd).
  - split; [done|]. intros p' Hp'. rewrite Hr, Hq, !decide_False by lia. done.
  - rewrite Hr, Hq. done.
  - repeat constructor. apply demo_blocked.
  - eexists. split; [reflexivity|done].
  - simpl. lia.
  - exists m, st'. split; [exact Ht|]. split; [apply Hd|].
    rewrite (d_queue _ _ _ _ _ _ Hd 2) by done. done.
Defined.

Lemma sched_tick_idles_witness :
  ∃ m st', sched_tick 0xC000 1 0 (demo m 100) = Ok st' ∧ current_thread (this 0 st') = 100.
Proof.
  destruct (demo_state 100 2 []) as (m & Hwf & Hq);
    [done|set_solver|done|done|by left|].
  destruct (sched_tick_idles 0xC000 1 0 (demo m 100) Hwf) as (st' & Ht & Hd).
  - intros p Hp. change (queue (demo m 100) 0 p ++ [] = []). rewrite Hq. by case_decide.
  - lia.
  - exists m, st'. split; [exact Ht|apply Hd].
Defined.

(** 104 and the idle thread could run, but 102 of a higher priority waits. *)
Lemma sched_tick_starves_witness :
  ∃ m, runnable (demo m 104) 104 ∧ ∀ fuel, sched_tick 0xC000 fuel 0 (demo m 104) = Spin.
Proof.
  destruct (demo_state 104 2 [102]) as (m & Hwf & Hq);
    [by repeat constructor|set_solver|done|done|right; exists 3; set_solver|].
  exists m. split; [eexists; split; [reflexivity|done]|]. intros fuel.
  assert (Hr : ∀ p', requeued 0 (demo m 104) p' =
            queue (demo m 104) 0 p' ++ if decide (3 = p') then [104] else []) by done.
  apply (sched_tick_starves 0xC000 fuel 0 (demo m 104) 2 Hwf).
  - split; [done|]. intros p' Hp'. rewrite Hr, Hq, !decide_False by lia. done.
  - rewrite Hr, Hq. done.
  - rewrite Hr, Hq. repeat constructor. apply demo_blocked.
Defined.

Lemma sched_tick_conserves_witness :
  ∃ m, (sched_tick 0xC000 9 0 (demo m 101) = Spin ∧
        ∃ p, top_requeued 0 (demo m 101) p ∧ requeued 0 (demo m 101) p ≠ [] ∧
          Forall (blocked (demo m 101)) (requeued 0 (demo m 101) p)) ∨
  ∃ st', sched_tick 0xC000 9 0 (demo m 101) = Ok st' ∧ sched_wf 0 st' ∧
    cpu_threads 0 st' ≡ₚ [102; 103; 101] ∧
    ∃ th, threads st' !! current_thread (this 0 st') = Some th ∧ event th = NoEvent.
Proof.
  destruct (demo_state 101 2 [102; 103]) as (m & Hwf & Hq);
    [by repeat constructor|set_solver|done|done|right; exists 2; set_solver|].
  assert (Hl : cpu_threads 0 (demo m 101) = [102; 103; 101]).
  { unfold cpu_threads, queued. change (seqZ 0 MAX_PRIORITY) with [0; 1; 2; 3; 4].
    cbn [flat_map]. rewrite !Hq. done. }
  exists m. rewrite <- Hl. apply (sched_tick_conserves 0xC000 9 0 (demo m 101) Hwf).
  rewrite Hl. simpl. lia.
Defined.

Lemma sched_round_robin_witness :
  ∃ m st', sched_ticks 0xC000 1 1 0 (demo m 101) = Ok st' ∧
    current_thread (this 0 st') = 105 ∧ round_robin 0 2 [105; 101] st'.
Proof.
  destruct (demo_state 101 2 [105]) as (m & Hwf & Hq);
    [by repeat constructor|set_solver|done|done|right; exists 2; set_solver|].
  exists m. apply (sched_round_robin 0xC000 1 0 2 [101] 105 [] (demo m 101)); [|lia].
  split.
  - exact Hwf.
  - done.
  - done.
  - rewrite Hq. done.
  - intros p' _ Hne. rewrite Hq. by rewrite decide_False.
  - intros t Ht. repeat (apply elem_of_cons in Ht as [->|Ht]);
      [by eexists|by eexists|by apply not_elem_of_nil in Ht].
Defined.

(** 102 goes on waiting for the timer and 103 becomes current; 103 itself, whose
    time has come, does not wait. *)
Lemma sched_thread_wait_blocks_witness :
  (∃ m st', sched_thread_wait 0xC000 9 0 102 TimerEvent (demo m 102) Interrupts.state0 =
      Ok (false, st', Interrupts.lapic_set Interrupts.LAPIC_TPR Interrupts.INT_SCHED_TICK
                        Interrupts.state0) ∧
    current_thread (this 0 st') = 103 ∧ 103 ≠ 102 ∧
    (∃ t', threads st' !! 102 = Some t' ∧ event t' = TimerEvent) ∧
    ∃ p, 0 ≤ p < MAX_PRIORITY ∧ 102 ∈ queue st' 0 p) ∧
  ∃ m st', sched_thread_wait 0xC000 9 0 103 TimerEvent (demo m 103) Interrupts.state0 =
    Ok (true, st', Interrupts.state0).
Proof.
  split.
  - destruct (demo_state 102 2 [103]) as (m & Hwf & Hq);
      [by repeat constructor|set_solver|done|done|right; exists 2; set_solver|].
    assert (Hl : cpu_threads 0 (demo m 102) = [103; 102]).
    { unfold cpu_threads, queued. change (seqZ 0 MAX_PRIORITY) with [0; 1; 2; 3; 4].
      cbn [flat_map]. rewrite !Hq. done. }
    assert (Hr : ∀ p', requeued 0 (demo m 102) p' =
              queue (demo m 102) 0 p' ++ if decide (2 = p') then [102] else []) by done.
    exists m. destruct (sched_thread_wait_blocks 0xC000 9 0 TimerEvent (demo m 102)
        (demo_thread 2 50 TimerEvent) Interrupts.state0) as [_ Hb];
      [exact Hwf|done|done|done|rewrite Hl; simpl; lia|].
    destruct (Hb eq_refl 2) as [Hs _];
      [|apply (Hs [] 103 [102]); [|done|by eexists]].
    + split; [done|]. intros p' Hp'. change (requeued 0 (demo m 102) p' = []).
      by rewrite Hr, Hq, !decide_False by lia.
    + change (requeued 0 (demo m 102) 2 = [103; 102]). by rewrite Hr, Hq.
  - destruct (demo_state 103 2 []) as (m & Hwf & Hq);
      [done|set_solver|done|done|right; exists 2; set_solver|].
    assert (Hl : cpu_threads 0 (demo m 103) = [103]).
    { unfold cpu_threads, queued. change (seqZ 0 MAX_PRIORITY) with [0; 1; 2; 3; 4].
      cbn [flat_map]. rewrite !Hq. done. }
    exists m. eexists.
    destruct (sched_thread_wait_blocks 0xC000 9 0 TimerEvent (demo m 103)
        (demo_thread 2 3 TimerEvent) Interrupts.state0) as [Hg _];
      [exact Hwf|done|done|done|rewrite Hl; simpl; lia|exact (Hg eq_refl)].
Defined.

(** Every processor of [demo_all] idles with empty queues. *)
Definition demo_all : kstate lists :=
  KState (list_to_map ((λ i, (i, Sched 100 100 0 (10 - i) 1)) <$> seqZ 0 MAX_CPU)) no_lists
    demo_threads (list_to_map ((λ i, (i, Cpu 0x8A00 0x1234 0x5000 0x9000)) <$> seqZ 0 MAX_CPU))
    (World 10 ∅ {[ 7 := Proc 1 section0 section0 section0 section0 0x5000 ∅ ∅ ]}).

Lemma demo_all_at c : 0 ≤ c < MAX_CPU →
  this c demo_all = Sched 100 100 0 (10 - c) 1 ∧
  cpu_of c demo_all = Cpu 0x8A00 0x1234 0x5000 0x9000.
Proof.
  intros Hc. assert (Hin : c ∈ [0; 1; 2; 3; 4; 5; 6; 7])
    by (apply (elem_of_seqZ 0 8) in Hc; exact Hc).
  repeat (apply elem_of_cons in Hin as [->|Hin]); try (by apply not_elem_of_nil in Hin);
    split; reflexivity.
Qed.

Lemma demo_all_wf c : 0 ≤ c < MAX_CPU → sched_wf c demo_all.
Proof.
  intros Hc. destruct (demo_all_at c Hc) as [Ht Hp].
  assert (Hid : thread_ok demo_all 100 4).
  { eexists. split; [reflexivity|]. split; [done|]. split; [by eexists|]. eexists. reflexivity. }
  split; rewrite ?Ht; simpl.
  - done.
  - apply no_lists_ok.
  - done.
  - split; [done|]. by exists 4.
  - intros th [= <-]. done.
  - split; [done|]. by left.
  - intros p t _ Hin. by apply not_elem_of_nil in Hin.
  - unfold cpu_threads, cur_list. rewrite Ht. change (0 < 2 ^ 31 - 1). lia.
  - rewrite Hp. done.
Qed.

Lemma thread_push_places_witness :
  ∃ st', thread_push 7 101 demo_all = Ok st' ∧ queue st' 7 2 = [101] ∧
    load (this 7 st') = 4.
Proof.
  destruct (thread_push_places demo_all 101 2) as (st' & Hr & _ & Hq & Hl & _).
  - apply demo_all_wf.
  - done.
  - done.
  - eexists. split; [reflexivity|]. split; [done|]. split; [by eexists|]. eexists. reflexivity.
  - done.
  - done.
  - exists st'. split; [exact Hr|]. split; [exact (Hq 7 2)|exact (Hl 7)].
Defined.

End Scheduler.
