(* ===== verification/Kmalloc.v ===== *)
(** The kernel's buddy allocator (kernel/kmalloc.c).

    [mem_allocator] is [struct mem_allocator]; the free blocks of size
    [list_size l] are chained in list [l], the unused nodes in list 0.
    [list_put] and [list_clean] call each other: [list_put] recurs on the
    number of lists above its own and hands itself to [list_clean].  [arep]
    says which blocks a state holds, [free_byte] which bytes are free; the
    theorems follow the set of free bytes through the operations. *)

From Stdlib Require Import ZArith Lia.
From stdpp Require Import base option list gmap sorting.
From S2P Require Import Prelude Interfaces.

Module Kmalloc.

Definition MEMALOC_SIZE : Z := 0x8000.
Definition ALOCATORS : Z := 16.
(** [sizeof(uint16)] is 2; [struct mem_node] is padded to 8 bytes. *)
Definition NODES : Z := (MEMALOC_SIZE - 2 * ALOCATORS) / 8.

Record mem_node := Node { addr : Z; next : Z }.
Definition node0 : mem_node := Node 0 0.

Record mem_allocator := MA { heads : gmap Z Z; nodes : gmap Z mem_node }.

(** The allocator in static storage. *)
Definition allocator0 : mem_allocator := MA ∅ ∅.

Definition get_node (a : mem_allocator) (i : Z) : res mem_node := aget node0 NODES (nodes a) i.
Definition set_node (i : Z) (n : mem_node) (a : mem_allocator) : res mem_allocator :=
  ns ← aset NODES (nodes a) i n; Ok (MA (heads a) ns).
Definition get_head (a : mem_allocator) (l : Z) : res Z := aget 0 ALOCATORS (heads a) l.
Definition set_head (l h : Z) (a : mem_allocator) : res mem_allocator :=
  hs ← aset ALOCATORS (heads a) l h; Ok (MA hs (nodes a)).
Definition set_next (i nx : Z) (a : mem_allocator) : res mem_allocator :=
  n ← get_node a i; set_node i (Node (addr n) nx) a.
Definition set_addr (i x : Z) (a : mem_allocator) : res mem_allocator :=
  n ← get_node a i; set_node i (Node x (next n)) a.

Definition list_size (l : Z) : Z := u32 (Z.shiftl 1 (l + 3)).

Definition mem_allocator_init (a : mem_allocator) : res mem_allocator :=
  a ← for_upto NODES (λ i a,
        a ← set_addr i 0 a; set_next i (u16 (i + 1)) a) a;
  a ← set_next (NODES - 1) 0 a;
  a ← set_head 0 1 a;
  for_from (λ i a, set_head i 0 a) (Z.to_nat (ALOCATORS - 1)) 1 a.

Definition node_new (a : mem_allocator) (x : Z) : res (Z * mem_allocator) :=
  r ← get_head a 0;
  n ← get_node a r;
  a ← set_head 0 (next n) a;
  a ← set_addr r x a;
  a ← set_next r 0 a;
  Ok (r, a).

Definition node_free (a : mem_allocator) (node : Z) : res mem_allocator :=
  h ← get_head a 0;
  a ← set_next node h a;
  a ← set_addr node 0 a;
  set_head 0 node a.

(** The fuel of the loops over one list, which has fewer than [NODES]
    elements. *)
Definition FUEL : nat := Z.to_nat 4096.

Definition put_cond (a : mem_allocator) (new_node : Z) (s : Z * Z) : res bool :=
  let '(prev, cur) := s in
  if bool_decide (cur = 0) then Ok false else
  n ← get_node a new_node; c ← get_node a cur; Ok (addr c <? addr n).

Definition put_step (a : mem_allocator) (s : Z * Z) : res (Z * Z) :=
  let '(prev, cur) := s in c ← get_node a cur; Ok (cur, next c).

(** One turn of the loop of [list_clean]; [put] is [list_put] on the lists
    above. *)
Definition clean_step (put : mem_allocator → Z → Z → res mem_allocator) (l : Z)
    (s : mem_allocator * Z * Z) : res (mem_allocator * Z * Z) :=
  let '(a, prev, cur) := s in
  let size := list_size l in
  let align := list_size (l + 1) in
  c ← get_node a cur;
  let nxt := next c in
  merge ← (if bool_decide (nxt = 0) then Ok false
           else if bool_decide (addr c mod align ≠ 0) then Ok false
           else n ← get_node a nxt; Ok (bool_decide (u32 (addr c + size) = addr n)));
  if (merge : bool) then
    n ← get_node a nxt;
    a ← (if bool_decide (prev ≠ 0) then set_next prev (next n) a else set_head l (next n) a);
    a ← put a (l + 1) cur;
    n ← get_node a nxt;
    let cur := next n in
    a ← node_free a nxt;
    Ok (a, prev, cur)
  else Ok (a, cur, nxt).

Definition clean_cond (s : mem_allocator * Z * Z) : res bool :=
  let '(_, _, cur) := s in Ok (bool_decide (cur ≠ 0)).

Definition list_clean (put : mem_allocator → Z → Z → res mem_allocator)
    (a : mem_allocator) (l : Z) : res mem_allocator :=
  cur ← get_head a l;
  '(a, _, _) ← while FUEL clean_cond (clean_step put l) (a, 0, cur);
  Ok a.

(** Linking [new_node] into its list in the order of the addresses. *)
Definition list_insert (a : mem_allocator) (l new_node : Z) : res mem_allocator :=
  cur ← get_head a l;
  '(prev, cur) ← while FUEL (put_cond a new_node) (put_step a) (0, cur);
  if bool_decide (prev ≠ 0) then
    a ← set_next new_node cur a; set_next prev new_node a
  else
    a ← set_next new_node cur a; set_head l new_node a.

Fixpoint list_put (lv : nat) (a : mem_allocator) (l new_node : Z) : res mem_allocator :=
  match lv with
  | O => Spin
  | Datatypes.S lv' =>
      a ← list_insert a l new_node;
      if l <? ALOCATORS - 1 then list_clean (list_put lv') a l else Ok a
  end.

(** There are 16 lists. *)
Definition LEVELS : nat := 17.

Fixpoint list_get (lv : nat) (a : mem_allocator) (l : Z) : res (Z * mem_allocator) :=
  match lv with
  | O => Spin
  | Datatypes.S lv' =>
      if ALOCATORS <=? l then Ok (0, a) else
      elem ← get_head a l;
      if bool_decide (elem ≠ 0) then
        n ← get_node a elem;
        a ← set_head l (next n) a;
        n ← get_node a elem;
        a ← node_free a elem;
        Ok (addr n, a)
      else
        '(r, a) ← list_get lv' a (l + 1);
        if bool_decide (r ≠ 0) then
          '(elem, a) ← node_new a (u32 (r + list_size (l + 1) / 2));
          a ← list_put LEVELS a l elem;
          Ok (r, a)
        else Ok (r, a)
  end.

(** The loops that find the list of a block size, from [i] and its size. *)
Definition size_loop (size : Z) : res (Z * Z) :=
  while FUEL (λ '(i, bs), Ok ((i <? NODES) && (bs <? size)))
    (λ '(i, bs), Ok (i + 1, u32 (Z.shiftl bs 1))) (1, list_size 1).

Section Alloc.
Context {B : Type} `{PageSource B}.

Fixpoint mem_alloc (fuel : nat) (a : mem_allocator) (b : B) (size : Z)
    : res (Z * mem_allocator * B) :=
  match fuel with
  | O => Spin
  | Datatypes.S f =>
      '(i, _) ← size_loop size;
      '(result, a) ← (if bool_decide (i = NODES) then Ok (0, a) else list_get LEVELS a i);
      if bool_decide (result ≠ 0) then Ok (result, a, b) else
      '(p, b) ← kbrk1 b;
      '(n, a) ← node_new a p;
      a ← list_put LEVELS a 9 n;
      mem_alloc f a b size
  end.

End Alloc.

Definition mem_free (a : mem_allocator) (x size : Z) : res mem_allocator :=
  '(new_node, a) ← node_new a x;
  '(i, _) ← while FUEL (λ '(i, bs), Ok (bs <? size))
              (λ '(i, bs), Ok (u8 (i + 1), u32 (Z.shiftl bs 1))) (1, list_size 1);
  list_put LEVELS a i new_node.

(** ** Representation *)

Definition nd (a : mem_allocator) (i : Z) : mem_node := arr node0 (nodes a) i.
Definition head_of (a : mem_allocator) (l : Z) : Z := arr 0 (heads a) l.

(** From [p] the nodes of [xs], with their addresses, are chained to [q]. *)
Fixpoint lseg (ns : gmap Z mem_node) (p : Z) (xs : list (Z * Z)) (q : Z) : Prop :=
  match xs with
  | [] => p = q
  | (i, x) :: xs =>
      p = i ∧ 0 < i < NODES ∧ addr (arr node0 ns i) = x ∧
      lseg ns (next (arr node0 ns i)) xs q
  end.

(** What the lists hold: for each of 1 to 15 its blocks, as pairs of a node
    and an address. *)
Definition blocks : Type := Z → list (Z * Z).

Definition upd (ls : blocks) (l : Z) (xs : list (Z * Z)) : blocks :=
  λ l', if decide (l' = l) then xs else ls l'.

Definition is_list (l : Z) : Prop := 1 ≤ l < ALOCATORS.
Definition lists : list Z := seqZ 1 15.

(** All nodes: the spare ones and those of the blocks. *)
Definition owned (ls : blocks) (pool : list Z) : list Z :=
  pool ++ flat_map (λ l, (ls l).*1) lists.

Record arep (a : mem_allocator) (ls : blocks) (pool : list Z) : Prop := {
  ar_pool : lseg (nodes a) (head_of a 0) ((λ i, (i, 0)) <$> pool) 0;
  ar_lists : ∀ l, is_list l → lseg (nodes a) (head_of a l) (ls l) 0;
  ar_nodup : NoDup (owned ls pool)
}.

(** The address order inside a list. *)
Definition before (p q : Z * Z) : Prop := p.2 < q.2.

(** [x] may be the address of a block of list [l]. *)
Definition block_at (l x : Z) : Prop :=
  0 < x ∧ x mod list_size l = 0 ∧ x + list_size l < 2 ^ 32.

(** Two blocks do not overlap. *)
Definition apart (l x l' x' : Z) : Prop :=
  x + list_size l ≤ x' ∨ x' + list_size l' ≤ x.

Record blocks_ok (ls : blocks) : Prop := {
  bk_at : ∀ l n x, is_list l → (n, x) ∈ ls l → block_at l x;
  bk_apart : ∀ l n x l' n' x', is_list l → is_list l' → (n, x) ∈ ls l → (n', x') ∈ ls l' →
    n ≠ n' → apart l x l' x';
  bk_sorted : ∀ l, is_list l → StronglySorted before (ls l)
}.

(** No block of list [l] has its buddy in the list. *)
Definition coalesced (l : Z) (ls : blocks) : Prop :=
  ∀ n x n', (n, x) ∈ ls l → x mod list_size (l + 1) = 0 → (n', x + list_size l) ∉ ls l.

Definition all_coalesced (ls : blocks) : Prop := ∀ l, 1 ≤ l < ALOCATORS - 1 → coalesced l ls.

(** A byte belongs to a free block. *)
Definition free_byte (ls : blocks) (b : Z) : Prop :=
  ∃ l n x, is_list l ∧ (n, x) ∈ ls l ∧ x ≤ b < x + list_size l.

(** ** Sizes *)

Lemma size_eq l : 0 ≤ l ≤ 16 → list_size l = 2 ^ (l + 3).
Proof.
  intros Hl. unfold list_size. rewrite Z.shiftl_1_l. apply u32_small. split; [lia|].
  apply Z.le_lt_trans with (2 ^ 19); [apply Z.pow_le_mono_r; lia|lia].
Qed.

Lemma size_pos l : 0 ≤ l ≤ 16 → 0 < list_size l.
Proof. intros Hl. rewrite size_eq by done. apply Z.pow_pos_nonneg; lia. Qed.

Lemma size_double l : 0 ≤ l < 16 → list_size (l + 1) = 2 * list_size l.
Proof.
  intros Hl. rewrite !size_eq by lia. replace (l + 1 + 3) with (Z.succ (l + 3)) by lia.
  by rewrite Z.pow_succ_r by lia.
Qed.

Lemma size_max l : 0 ≤ l ≤ 16 → list_size l ≤ 524288.
Proof.
  intros Hl. rewrite size_eq by done. change 524288 with (2 ^ 19). apply Z.pow_le_mono_r; lia.
Qed.

(** A size divides every larger one. *)
Lemma size_divide l l' : 0 ≤ l ≤ l' → l' ≤ 16 → (list_size l | list_size l').
Proof.
  intros Hl Hl'. rewrite !size_eq by lia. exists (2 ^ (l' - l)).
  rewrite <- Z.pow_add_r by lia. f_equal. lia.
Qed.

Lemma mod_divide x m m' : 0 < m → 0 < m' → (m | m') → x mod m' = 0 → x mod m = 0.
Proof.
  intros Hm Hm' Hd Hx. apply Z.mod_divide; [lia|]. apply Z.mod_divide in Hx; [|lia].
  by etransitivity.
Qed.

(** An aligned block that meets an aligned block of a larger size lies in it. *)
Lemma aligned_nested x y m m' b :
  0 < m → (m | m') → 0 < m' → x mod m = 0 → y mod m' = 0 →
  x ≤ b < x + m → y ≤ b < y + m' → y ≤ x ∧ x + m ≤ y + m'.
Proof.
  intros Hm [k ->] Hm' Hx Hy Hb Hb'.
  apply Z.mod_divide in Hx as [i ->]; [|lia]. apply Z.mod_divide in Hy as [j ->]; [|lia].
  set (j' := j * k). assert (Hj : j * (k * m) = j' * m) by (unfold j'; ring).
  rewrite Hj in *. assert (j' < i + 1) by (apply (Zmult_lt_reg_r _ _ m); lia).
  assert (i < j' + k) by (apply (Zmult_lt_reg_r _ _ m); lia).
  split; [apply Z.mul_le_mono_nonneg_r; lia|].
  assert ((i + 1) * m ≤ (j' + k) * m) by (apply Z.mul_le_mono_nonneg_r; lia). lia.
Qed.

Lemma aligned_next x y m :
  0 < m → x mod m = 0 → y mod m = 0 → x < y ≤ x + m → y = x + m.
Proof.
  intros Hm Hx Hy Hxy.
  apply Z.mod_divide in Hx as [i ->]; [|lia]. apply Z.mod_divide in Hy as [j ->]; [|lia].
  assert (i < j) by (apply (Zmult_lt_reg_r _ _ m); lia).
  assert (j ≤ i + 1) by (apply (Zmult_le_reg_r _ _ m); lia).
  replace j with (i + 1) by lia. ring.
Qed.

(** ** Chains of nodes *)

Lemma lseg_app ns p xs ys q :
  lseg ns p (xs ++ ys) q ↔ ∃ m, lseg ns p xs m ∧ lseg ns m ys q.
Proof.
  revert p. induction xs as [|[i x] xs IH]; intros p; simpl.
  - split; [by exists p|]. by intros (m & -> & ?).
  - rewrite IH. naive_solver.
Qed.

Lemma lseg_ext ns ns' p xs q :
  (∀ i, i ∈ xs.*1 → arr node0 ns' i = arr node0 ns i) → lseg ns p xs q → lseg ns' p xs q.
Proof.
  revert p. induction xs as [|[i x] xs IH]; intros p Heq; [done|].
  intros (-> & Hi & Hx & Hs). simpl. rewrite Heq by set_solver.
  split; [done|]. split; [done|]. split; [done|]. apply IH; [|done]. set_solver.
Qed.

Lemma lseg_range ns p xs q i : lseg ns p xs q → i ∈ xs.*1 → 0 < i < NODES.
Proof.
  revert p. induction xs as [|[j x] xs IH]; intros p; simpl; [set_solver|].
  intros (-> & Hj & _ & Hs) [->|Hi]%elem_of_cons; [done|]. by eapply IH.
Qed.

Lemma lseg_addr ns p xs q i x :
  lseg ns p xs q → (i, x) ∈ xs → addr (arr node0 ns i) = x.
Proof.
  revert p. induction xs as [|[j y] xs IH]; intros p; simpl; [set_solver|].
  intros (-> & Hj & Hy & Hs) [Heq|Hi]%elem_of_cons; [by simplify_eq|]. by eapply IH.
Qed.

Lemma lseg_zero ns xs q : lseg ns 0 xs q → xs = [] ∧ q = 0.
Proof. destruct xs as [|[i x] xs]; simpl; [naive_solver|]. intros (<- & ? & _). lia. Qed.

Lemma lseg_cons ns p xs : lseg ns p xs 0 → p ≠ 0 →
  ∃ xs', xs = (p, addr (arr node0 ns p)) :: xs' ∧ 0 < p < NODES ∧
    lseg ns (next (arr node0 ns p)) xs' 0.
Proof.
  destruct xs as [|[i x] xs]; simpl; [done|]. intros (-> & Hi & <- & Hs) _. by exists xs.
Qed.

(** Redirecting the last node of a chain. *)
Lemma lseg_redirect ns p xs i x q q' :
  lseg ns p (xs ++ [(i, x)]) q → i ∉ xs.*1 →
  lseg (<[i := Node x q']> ns) p (xs ++ [(i, x)]) q'.
Proof.
  intros (m & Hs & Hi)%lseg_app Hni. apply lseg_app. exists m. split.
  - eapply lseg_ext; [|done]. intros j Hj. rewrite arr_insert_ne; [done|]. set_solver.
  - simpl in *. destruct Hi as (-> & Hi & _ & _). rewrite arr_insert_eq. simpl. done.
Qed.

(** The node of the last block before a point, 0 at the front. *)
Definition last_id (xs : list (Z * Z)) : Z := default 0 (fst <$> last xs).

Lemma last_id_snoc xs i x : last_id (xs ++ [(i, x)]) = i.
Proof. unfold last_id. by rewrite last_snoc. Qed.

Lemma last_id_zero ns p xs q : lseg ns p xs q → last_id xs = 0 → xs = [].
Proof.
  destruct xs as [|[i x] xs _] using rev_ind; [done|]. rewrite last_id_snoc.
  intros Hs ->. apply lseg_range with (i := 0) in Hs; [lia|].
  rewrite fmap_app. set_solver.
Qed.

Lemma nodes_length (l : list Z) :
  NoDup l → (∀ i, i ∈ l → 0 < i < NODES) → (length l ≤ 4091)%nat.
Proof.
  intros Hnd Hr.
  assert (Hsub : l ⊆+ seqZ 1 4091).
  { apply NoDup_submseteq; [done|]. intros i Hi. apply elem_of_seqZ.
    pose proof (Hr i Hi) as Hri. change NODES with 4092 in Hri. lia. }
  apply submseteq_length in Hsub. rewrite length_seqZ in Hsub. lia.
Qed.

(** ** Writing nodes and heads *)

Definition with_next (i nx : Z) (a : mem_allocator) : mem_allocator :=
  MA (heads a) (<[i := Node (addr (nd a i)) nx]> (nodes a)).
Definition with_addr (i x : Z) (a : mem_allocator) : mem_allocator :=
  MA (heads a) (<[i := Node x (next (nd a i))]> (nodes a)).
Definition with_head (l h : Z) (a : mem_allocator) : mem_allocator :=
  MA (<[l := h]> (heads a)) (nodes a).

Lemma get_node_in a i : 0 ≤ i < NODES → get_node a i = Ok (nd a i).
Proof. apply aget_in. Qed.
Lemma get_head_in a l : 0 ≤ l < ALOCATORS → get_head a l = Ok (head_of a l).
Proof. apply aget_in. Qed.
Lemma set_next_in a i nx : 0 ≤ i < NODES → set_next i nx a = Ok (with_next i nx a).
Proof.
  intros Hi. unfold set_next, set_node. rewrite get_node_in by done. cbn [mbind res_bind].
  by rewrite aset_in.
Qed.
Lemma set_addr_in a i x : 0 ≤ i < NODES → set_addr i x a = Ok (with_addr i x a).
Proof.
  intros Hi. unfold set_addr, set_node. rewrite get_node_in by done. cbn [mbind res_bind].
  by rewrite aset_in.
Qed.
Lemma set_head_in a l h : 0 ≤ l < ALOCATORS → set_head l h a = Ok (with_head l h a).
Proof. intros Hl. unfold set_head. by rewrite aset_in. Qed.

Lemma nd_with_next a i nx j :
  nd (with_next i nx a) j = if decide (i = j) then Node (addr (nd a i)) nx else nd a j.
Proof. unfold nd at 1. simpl. by rewrite arr_insert. Qed.
Lemma nd_with_addr a i x j :
  nd (with_addr i x a) j = if decide (i = j) then Node x (next (nd a i)) else nd a j.
Proof. unfold nd at 1. simpl. by rewrite arr_insert. Qed.
Lemma head_with_head a l h l' :
  head_of (with_head l h a) l' = if decide (l = l') then h else head_of a l'.
Proof. unfold head_of. simpl. by rewrite arr_insert. Qed.

Lemma list_index l : is_list l → 0 ≤ l < ALOCATORS.
Proof. unfold is_list. lia. Qed.

(** ** The nodes of a state *)

Lemma elem_of_lists l : l ∈ lists ↔ is_list l.
Proof. unfold lists, is_list. rewrite elem_of_seqZ. change ALOCATORS with 16. lia. Qed.

Lemma elem_of_owned i ls pool :
  i ∈ owned ls pool ↔ i ∈ pool ∨ ∃ l, is_list l ∧ i ∈ (ls l).*1.
Proof.
  unfold owned. rewrite elem_of_app. f_equiv. rewrite list_elem_of_In, in_flat_map.
  f_equiv. intros l. by rewrite <- !list_elem_of_In, elem_of_lists.
Qed.

Lemma owned_list i x l ls pool : is_list l → (i, x) ∈ ls l → i ∈ owned ls pool.
Proof.
  intros Hl Hi. apply elem_of_owned. right. exists l. split; [done|].
  apply list_elem_of_fmap. by exists (i, x).
Qed.

Lemma upd_eq ls l xs : upd ls l xs l = xs.
Proof. unfold upd. by rewrite decide_True. Qed.
Lemma upd_ne ls l xs l' : l' ≠ l → upd ls l xs l' = ls l'.
Proof. intros ?. unfold upd. by rewrite decide_False. Qed.

Lemma owned_upd ls l xs pool e :
  is_list l → (ls l).*1 ≡ₚ xs.*1 ++ e → owned ls pool ≡ₚ owned (upd ls l xs) pool ++ e.
Proof.
  intros Hl Hp. unfold owned. rewrite <- app_assoc. f_equiv.
  apply (flat_map_update (λ l', (upd ls l xs l').*1) _ _ l).
  - apply NoDup_seqZ.
  - by apply elem_of_lists.
  - intros l' _ Hne. by rewrite upd_ne.
  - by rewrite upd_eq.
Qed.

Lemma owned_grow ls l ys pool e :
  is_list l → ys.*1 ≡ₚ (ls l).*1 ++ e → owned (upd ls l ys) pool ≡ₚ owned ls pool ++ e.
Proof.
  intros Hl Hp. unfold owned. rewrite <- app_assoc. f_equiv.
  apply (flat_map_update (λ l', (ls l').*1) _ _ l).
  - apply NoDup_seqZ.
  - by apply elem_of_lists.
  - intros l' _ Hne. by rewrite upd_ne.
  - by rewrite upd_eq.
Qed.

Lemma owned_ext ls ls' pool :
  (∀ l, is_list l → ls' l = ls l) → owned ls' pool = owned ls pool.
Proof.
  intros Heq. unfold owned. f_equal. apply flat_map_same. intros l Hl.
  rewrite Heq; [done|]. by apply elem_of_lists.
Qed.

Lemma owned_nodup_list ls pool l : NoDup (owned ls pool) → is_list l → NoDup (ls l).*1.
Proof.
  intros Hnd Hl. apply NoDup_app in Hnd as (_ & _ & Hnd).
  apply (flat_map_NoDup_in (λ l, (ls l).*1) _ l) in Hnd; [done|by apply elem_of_lists].
Qed.

Lemma owned_nodup_ne ls pool l l' i :
  NoDup (owned ls pool) → is_list l → is_list l' → i ∈ (ls l).*1 → i ∈ (ls l').*1 → l = l'.
Proof.
  intros Hnd Hl Hl' Hi Hi'. apply NoDup_app in Hnd as (_ & _ & Hnd).
  by apply (flat_map_NoDup_disj (λ l, (ls l).*1) lists l l' i Hnd);
    rewrite ?elem_of_lists.
Qed.

Lemma arep_range a ls pool i : arep a ls pool → i ∈ owned ls pool → 0 < i < NODES.
Proof.
  intros [Hp Hl _] [Hi|(l & Hil & Hi)]%elem_of_owned.
  - apply (lseg_range _ _ _ _ i Hp). rewrite <- list_fmap_compose. by rewrite list_fmap_id.
  - by apply (lseg_range _ _ _ _ i (Hl l Hil)).
Qed.

Lemma arep_length a ls pool l : arep a ls pool → is_list l → (length (ls l) ≤ 4091)%nat.
Proof.
  intros Ha Hl. rewrite <- (length_fmap fst). apply nodes_length.
  - eapply owned_nodup_list; [apply Ha|done].
  - intros i Hi. eapply arep_range; [done|]. apply elem_of_owned. right. by exists l.
Qed.

(** Replacing one list. *)
Lemma arep_list a a' ls pool l0 ys (ids : list Z) :
  arep a ls pool → is_list l0 →
  (∀ l, l ≠ l0 → head_of a' l = head_of a l) →
  (∀ i, i ∉ ids → nd a' i = nd a i) →
  (∀ i, i ∈ ids → i ∉ owned (upd ls l0 []) pool) →
  lseg (nodes a') (head_of a' l0) ys 0 → NoDup (owned (upd ls l0 ys) pool) →
  arep a' (upd ls l0 ys) pool.
Proof.
  intros [Hp Hl Hnd] Hl0 Hh Hn Hids Hys Hnd'. split; [| |done].
  - rewrite Hh by (unfold is_list in Hl0; lia). eapply lseg_ext; [|exact Hp].
    intros i Hi. apply Hn. intros Hin. apply (Hids i Hin). apply elem_of_owned. left.
    by rewrite <- list_fmap_compose, list_fmap_id in Hi.
  - intros l Hil. destruct (decide (l = l0)) as [->|Hne]; [by rewrite upd_eq|].
    rewrite upd_ne, Hh by done. eapply lseg_ext; [|by apply Hl].
    intros i Hi. apply Hn. intros Hin. apply (Hids i Hin). apply elem_of_owned. right.
    exists l. by rewrite upd_ne.
Qed.

(** The nodes of other lists are not those of list [l]. *)
Lemma owned_others ls pool l i :
  NoDup (owned ls pool) → is_list l → i ∈ (ls l).*1 → i ∉ owned (upd ls l []) pool.
Proof.
  intros Hnd Hl Hi Hin. pose proof (owned_upd ls l [] pool (ls l).*1 Hl) as Hp.
  rewrite Hp in Hnd by done. apply NoDup_app in Hnd as (_ & Hdisj & _). by apply (Hdisj i).
Qed.

(** ** Linking a node into its list *)

Lemma put_loop a ls pool l new :
  arep a ls pool → is_list l → 0 < new < NODES →
  ∃ prev cur pre post,
    while FUEL (put_cond a new) (put_step a) (0, head_of a l) = Ok (prev, cur) ∧
    ls l = pre ++ post ∧ prev = last_id pre ∧ lseg (nodes a) (head_of a l) pre cur ∧
    lseg (nodes a) cur post 0 ∧ (∀ p, p ∈ pre → p.2 < addr (nd a new)) ∧
    match post with [] => True | p :: _ => addr (nd a new) ≤ p.2 end.
Proof.
  intros Ha Hl Hnew.
  set (P := λ (n : nat) (s : Z * Z), ∃ pre post, ls l = pre ++ post ∧ s.1 = last_id pre ∧
    lseg (nodes a) (head_of a l) pre s.2 ∧ lseg (nodes a) s.2 post 0 ∧
    (∀ p, p ∈ pre → p.2 < addr (nd a new)) ∧ n = length post).
  destruct (while_total_ix P (put_cond a new) (put_step a)) with
    (fuel := FUEL) (n := length (ls l)) (s := (0, head_of a l)) as ([prev cur] & n & Hw & HP & Hc).
  - intros n [prev cur] (pre & post & Hls & Hprev & Hpre & Hpost & Hlt & ->).
    simpl in *. unfold put_cond. destruct (decide (cur = 0)) as [->|Hne].
    { rewrite bool_decide_true by done. by exists false. }
    rewrite bool_decide_false by done. rewrite (get_node_in a new) by lia.
    cbn [mbind res_bind]. destruct (lseg_cons _ _ _ Hpost Hne) as (post' & -> & Hcur & Hpost').
    rewrite get_node_in by lia. cbn [mbind res_bind]. eexists. split; [done|].
    intros Hb. apply Z.ltb_lt in Hb. eexists (cur, next (nd a cur)), _. split; [done|]. split.
    + exists (pre ++ [(cur, addr (nd a cur))]), post'. simpl.
      split; [by rewrite <- app_assoc|]. split; [by rewrite last_id_snoc|].
      split; [apply lseg_app; exists cur; split; [done|by simpl]|]. split; [done|].
      split; [|done]. intros p [Hp|Hp]%elem_of_app; [by apply Hlt|].
      apply list_elem_of_singleton in Hp as ->. done.
    + simpl. lia.
  - exists [], (ls l). split; [done|]. split; [done|]. split; [done|].
    split; [by apply (ar_lists _ _ _ Ha)|]. split; [set_solver|done].
  - pose proof (arep_length _ _ _ _ Ha Hl). unfold FUEL. lia.
  - destruct HP as (pre & post & Hls & Hprev & Hpre & Hpost & Hlt & _). simpl in *.
    exists prev, cur, pre, post. split; [done|]. split; [done|]. split; [done|].
    split; [done|]. split; [done|]. split; [done|].
    destruct post as [|[i x] post]; [done|]. destruct Hpost as (-> & Hi & <- & _). simpl.
    unfold put_cond in Hc. rewrite bool_decide_false in Hc by lia.
    rewrite !get_node_in in Hc by lia. cbn [mbind res_bind] in Hc.
    injection Hc as Hc. apply Z.ltb_ge in Hc. exact Hc.
Qed.

Lemma list_insert_ok a ls pool l new :
  arep a ls pool → is_list l → 0 < new < NODES → new ∉ owned ls pool →
  let x := addr (nd a new) in
  ∃ a' pre post, list_insert a l new = Ok a' ∧ ls l = pre ++ post ∧
    arep a' (upd ls l (pre ++ (new, x) :: post)) pool ∧
    owned (upd ls l (pre ++ (new, x) :: post)) pool ≡ₚ new :: owned ls pool ∧
    (∀ p, p ∈ pre → p.2 < x) ∧ match post with [] => True | p :: _ => x ≤ p.2 end ∧
    (∀ i, i ≠ new → i ∉ owned ls pool → nd a' i = nd a i).
Proof.
  intros Ha Hl Hnew Hfresh x.
  destruct (put_loop a ls pool l new Ha Hl Hnew)
    as (prev & cur & pre & post & Hloop & Hls & Hprev & Hpre & Hpost & Hlt & Hge).
  set (ys := pre ++ (new, x) :: post).
  assert (Hperm : owned (upd ls l ys) pool ≡ₚ new :: owned ls pool).
  { rewrite (owned_grow ls l ys pool [new] Hl); [by rewrite Permutation_app_comm|].
    unfold ys. rewrite Hls, !fmap_app, !fmap_cons. simpl.
    rewrite <- Permutation_middle, (Permutation_app_comm _ [new]). done. }
  assert (Hnd : NoDup (owned (upd ls l ys) pool)).
  { rewrite Hperm. apply NoDup_cons. split; [done|apply Ha]. }
  assert (Hnl : new ∉ (ls l).*1).
  { intros Hin. apply Hfresh, elem_of_owned. right. by exists l. }
  assert (Hndl : NoDup (ls l).*1) by (eapply owned_nodup_list; [apply Ha|done]).
  unfold list_insert. rewrite get_head_in by (by apply list_index). cbn [mbind res_bind].
  rewrite Hloop. cbn [mbind res_bind]. rewrite set_next_in by lia. cbn [mbind res_bind].
  assert (Hfo : new ∉ owned (upd ls l []) pool).
  { intros Hin. apply Hfresh. rewrite (owned_upd ls l [] pool (ls l).*1 Hl) by done.
    apply elem_of_app. by left. }
  destruct pre as [|[i y] pre' _] using rev_ind.
  - simpl in Hpre. change (last_id []) with 0 in Hprev. subst prev cur.
    rewrite bool_decide_false by (intros Hx; by apply Hx).
    rewrite set_head_in by (by apply list_index).
    eexists _, [], post. split; [done|]. split; [done|]. split.
    + eapply (arep_list a _ ls pool l ys [new] Ha Hl).
      * intros l' Hne. rewrite head_with_head. rewrite decide_False by done. done.
      * intros j Hj. unfold nd. simpl. apply arr_insert_ne. set_solver + Hj.
      * intros j Hj. apply list_elem_of_singleton in Hj as ->. done.
      * rewrite head_with_head, decide_True by done. simpl. split; [done|].
        rewrite arr_insert_eq. simpl. split; [done|]. split; [done|].
        eapply lseg_ext; [|exact Hpost]. intros j Hj. apply arr_insert_ne.
        intros ->. apply Hnl. rewrite Hls. exact Hj.
      * done.
    + split; [done|]. split; [set_solver +|]. split; [done|].
      intros j Hj Hjo. unfold nd. simpl. by apply arr_insert_ne.
  - rewrite last_id_snoc in Hprev. subst prev.
    assert (Hil : i ∈ (ls l).*1) by (rewrite Hls, !fmap_app; set_solver +).
    assert (Hi : 0 < i < NODES).
    { apply (lseg_range _ _ _ _ i (ar_lists _ _ _ Ha l Hl) Hil). }
    assert (Hin : i ≠ new) by (intros ->; done).
    assert (Hipre : i ∉ pre'.*1).
    { rewrite Hls, !fmap_app in Hndl. simpl in Hndl. rewrite <- app_assoc in Hndl.
      apply NoDup_app in Hndl as (_ & Hd & _). intros Hx. apply (Hd i Hx). set_solver +. }
    assert (Hipost : i ∉ post.*1).
    { rewrite Hls, !fmap_app in Hndl. simpl in Hndl.
      apply NoDup_app in Hndl as (_ & Hd & _). apply Hd. set_solver +. }
    rewrite bool_decide_true by lia. rewrite set_next_in by lia.
    eexists _, (pre' ++ [(i, y)]), post. split; [done|]. split; [done|]. split.
    + eapply (arep_list a _ ls pool l ys [new; i] Ha Hl).
      * done.
      * intros j Hj. rewrite !nd_with_next. rewrite !decide_False by set_solver + Hj. done.
      * intros j Hj. apply elem_of_cons in Hj as [->|Hj]; [done|].
        apply list_elem_of_singleton in Hj as ->. eapply owned_others; [apply Ha|done|done].
      * unfold ys. apply lseg_app. exists new. split.
        -- assert (Hy : addr (nd (with_next new cur a) i) = y).
           { rewrite nd_with_next, decide_False by done.
             eapply (lseg_addr _ _ (pre' ++ [(i, y)])); [exact Hpre|set_solver +]. }
           unfold with_next at 1. rewrite Hy. apply (lseg_redirect _ _ _ _ _ cur); [|done].
           eapply lseg_ext; [|exact Hpre]. intros j Hj. simpl. apply arr_insert_ne.
           intros <-. apply Hnl. rewrite Hls, fmap_app. apply elem_of_app. by left.
        -- simpl. split; [done|].
           rewrite !arr_insert_ne by done. rewrite arr_insert_eq. simpl.
           split; [done|]. split; [done|].
           eapply lseg_ext; [|exact Hpost]. intros j Hj. rewrite !arr_insert_ne; [done| |].
           ++ intros <-. apply Hnl. rewrite Hls, fmap_app. apply elem_of_app. by right.
           ++ intros <-. done.
      * done.
    + split; [done|]. split; [done|]. split; [done|].
      intros j Hj Hjo. rewrite !nd_with_next. rewrite !decide_False; [done|congruence|].
      intros ->. apply Hjo, elem_of_owned. right. by exists l.
Qed.

(** ** The spare nodes *)

Lemma fmap_fst_pool (pool : list Z) : ((λ i, (i, 0)) <$> pool).*1 = pool.
Proof. rewrite <- list_fmap_compose. by rewrite list_fmap_id. Qed.

Lemma node_free_ok a ls pool i :
  arep a ls pool → 0 < i < NODES → i ∉ owned ls pool →
  ∃ a', node_free a i = Ok a' ∧ arep a' ls (i :: pool) ∧
    (∀ j, j ≠ i → nd a' j = nd a j).
Proof.
  intros Ha Hi Hfresh. pose proof Ha as [Hp Hl Hnd]. unfold node_free.
  rewrite get_head_in by done. cbn [mbind res_bind]. rewrite set_next_in by lia.
  cbn [mbind res_bind]. rewrite set_addr_in by lia. cbn [mbind res_bind].
  rewrite set_head_in by done. eexists. split; [done|].
  assert (Hframe : ∀ j, j ≠ i → arr node0 (nodes
      (with_head 0 i (with_addr i 0 (with_next i (head_of a 0) a)))) j
      = arr node0 (nodes a) j).
  { intros j Hj. simpl. by rewrite !arr_insert_ne by congruence. }
  split; [|exact Hframe]. split.
  - rewrite head_with_head, decide_True by done. rewrite fmap_cons. simpl.
    split; [done|]. split; [done|]. rewrite arr_insert_eq. simpl. split; [done|].
    rewrite nd_with_next, decide_True by done. simpl.
    eapply lseg_ext; [|exact Hp]. intros j Hj. rewrite fmap_fst_pool in Hj.
    rewrite !arr_insert_ne; [done| |]; intros <-; apply Hfresh, elem_of_owned; by left.
  - intros l Hil. rewrite head_with_head, decide_False by (unfold is_list in Hil; lia).
    eapply lseg_ext; [|by apply Hl]. intros j Hj. apply Hframe. intros ->.
    apply Hfresh, elem_of_owned. right. by exists l.
  - unfold owned. simpl. apply NoDup_cons. by split.
Qed.

Lemma node_new_ok a ls i pool x :
  arep a ls (i :: pool) →
  ∃ a', node_new a x = Ok (i, a') ∧ arep a' ls pool ∧ 0 < i < NODES ∧
    i ∉ owned ls pool ∧ nd a' i = Node x 0 ∧ (∀ j, j ≠ i → nd a' j = nd a j).
Proof.
  intros [Hp Hl Hnd]. rewrite fmap_cons in Hp. destruct Hp as (Hh & Hi & Hz & Hp).
  unfold owned in Hnd. simpl in Hnd. apply NoDup_cons in Hnd as [Hfresh Hnd].
  unfold node_new. rewrite get_head_in by done. cbn [mbind res_bind].
  rewrite Hh. rewrite get_node_in by lia. cbn [mbind res_bind].
  rewrite set_head_in by done. cbn [mbind res_bind]. rewrite set_addr_in by lia.
  cbn [mbind res_bind]. rewrite set_next_in by lia. cbn [mbind res_bind].
  eexists. split; [done|].
  set (a' := with_next i 0 (with_addr i x (with_head 0 (next (nd a i)) a))).
  assert (Hframe : ∀ j, j ≠ i → arr node0 (nodes a') j = arr node0 (nodes a) j).
  { intros j Hj. simpl. by rewrite !arr_insert_ne by congruence. }
  split; [|split; [done|split; [done|split; [|exact Hframe]]]].
  - split; [| |done].
    + change (head_of a' 0) with (head_of (with_head 0 (next (nd a i)) a) 0).
      rewrite head_with_head, decide_True by done.
      eapply lseg_ext; [|exact Hp]. intros j Hj. apply Hframe. rewrite fmap_fst_pool in Hj.
      intros ->. apply Hfresh. apply elem_of_app. by left.
    + intros l Hil. change (head_of a' l) with (head_of (with_head 0 (next (nd a i)) a) l).
      rewrite head_with_head, decide_False by (unfold is_list in Hil; lia).
      eapply lseg_ext; [|by apply Hl]. intros j Hj. apply Hframe. intros ->.
      apply Hfresh. apply (elem_of_owned i ls pool). right. by exists l.
  - unfold a'. rewrite nd_with_next, decide_True by done. rewrite nd_with_addr.
    by rewrite decide_True.
Qed.

(** ** The blocks *)

Lemma list_bounds l : is_list l → 0 ≤ l ≤ 16 ∧ 0 < list_size l.
Proof.
  unfold is_list. change ALOCATORS with 16. intros ?. split; [lia|]. apply size_pos. lia.
Qed.

Lemma apart_sym l x l' x' : apart l x l' x' ↔ apart l' x' l x.
Proof. unfold apart. tauto. Qed.

Lemma blocks_ok_sub ls ls' :
  blocks_ok ls → (∀ l p, is_list l → p ∈ ls' l → p ∈ ls l) →
  (∀ l, is_list l → StronglySorted before (ls' l)) → blocks_ok ls'.
Proof. intros [Ha Hd _] Hsub Hs. split; [|intros; eapply Hd|]; eauto. Qed.

Lemma blocks_ok_insert ls l pre post n x :
  blocks_ok ls → is_list l → ls l = pre ++ post → block_at l x →
  (∀ l' n' x', is_list l' → (n', x') ∈ ls l' → apart l x l' x') →
  (∀ p, p ∈ pre → p.2 < x) → match post with [] => True | p :: _ => x ≤ p.2 end →
  blocks_ok (upd ls l (pre ++ (n, x) :: post)).
Proof.
  intros [Hat Hap Hs] Hl Hls Hx Hapx Hpre Hpost.
  assert (Hin : ∀ l' p, p ∈ upd ls l (pre ++ (n, x) :: post) l' →
                  l' = l ∧ p = (n, x) ∨ p ∈ ls l').
  { intros l' p Hp. destruct (decide (l' = l)) as [->|Hne].
    - rewrite upd_eq in Hp. rewrite Hls. set_solver + Hp.
    - rewrite upd_ne in Hp by done. by right. }
  split.
  - intros l' n' x' Hl' Hp. destruct (Hin _ _ Hp) as [[-> Heq]|Hp']; [|by eapply Hat].
    injection Heq as -> ->. done.
  - intros l1 n1 x1 l2 n2 x2 Hl1 Hl2 Hp1 Hp2 Hne.
    destruct (Hin _ _ Hp1) as [[-> Heq1]|Hp1'], (Hin _ _ Hp2) as [[-> Heq2]|Hp2'].
    + congruence.
    + injection Heq1 as -> ->. by eapply Hapx.
    + injection Heq2 as -> ->. apply apart_sym. by eapply Hapx.
    + by eapply Hap.
  - intros l' Hl'. destruct (decide (l' = l)) as [->|Hne]; [|rewrite upd_ne by done; by apply Hs].
    rewrite upd_eq. specialize (Hs l Hl). rewrite Hls in Hs.
    apply StronglySorted_app in Hs as (Hpp & Hspre & Hspost).
    assert (Hgt : ∀ p, p ∈ post → x < p.2).
    { assert (Hge : ∀ p, p ∈ post → x ≤ p.2).
      { destruct post as [|q post]; [set_solver +|].
        apply StronglySorted_cons in Hspost as [Hq _]. rewrite Forall_forall in Hq.
        intros p [->|Hp]%elem_of_cons; [done|]. specialize (Hq p Hp). unfold before in Hq. lia. }
      intros [np xp] Hp. specialize (Hge _ Hp). simpl in *.
      destruct (Hapx l np xp Hl) as [?|?]; [rewrite Hls; set_solver + Hp| |];
        destruct (list_bounds l Hl); lia. }
    apply StronglySorted_app. split; [|split; [done|]].
    + intros p q Hp [->|Hq]%elem_of_cons; [by apply Hpre|by apply Hpp].
    + apply StronglySorted_cons. split; [|done]. rewrite Forall_forall. exact Hgt.
Qed.

Lemma free_byte_diff ls ls' l (es : list (Z * Z)) b :
  is_list l → (∀ l', l' ≠ l → ls' l' = ls l') →
  (∀ p, p ∈ ls l ↔ p ∈ ls' l ∨ p ∈ es) →
  free_byte ls b ↔ free_byte ls' b ∨ ∃ n x, (n, x) ∈ es ∧ x ≤ b < x + list_size l.
Proof.
  intros Hl Hne Heq. split.
  - intros (l' & n & x & Hl' & Hin & Hb). destruct (decide (l' = l)) as [->|Hd].
    + apply Heq in Hin as [Hin|Hin]; [left; by exists l, n, x|right; by exists n, x].
    + left. exists l', n, x. by rewrite Hne.
  - intros [(l' & n & x & Hl' & Hin & Hb)|(n & x & Hin & Hb)].
    + destruct (decide (l' = l)) as [->|Hd].
      * exists l, n, x. rewrite Heq. tauto.
      * exists l', n, x. by rewrite <- Hne.
    + exists l, n, x. rewrite Heq. tauto.
Qed.

Lemma coalesced_sub l ls ls' :
  (∀ p, p ∈ ls' l → p ∈ ls l) → coalesced l ls → coalesced l ls'.
Proof. intros Hs Hc n x n' Hin Hm Hin'. exact (Hc n x n' (Hs _ Hin) Hm (Hs _ Hin')). Qed.

Lemma block_of_byte ls l n x :
  blocks_ok ls → is_list l → (n, x) ∈ ls l → free_byte ls x.
Proof.
  intros Hok Hl Hin. exists l, n, x. split; [done|]. split; [done|].
  destruct (list_bounds l Hl). lia.
Qed.

(** ** Unlinking *)

Definition first_id (xs : list (Z * Z)) : Z :=
  match xs with [] => 0 | (i, _) :: _ => i end.

Lemma lseg_first ns p xs : lseg ns p xs 0 → p = first_id xs.
Proof. destruct xs as [|[i x] xs]; simpl; [done|]. by intros [-> _]. Qed.

Lemma first_id_zero ns p xs : lseg ns p xs 0 → first_id xs = 0 → xs = [].
Proof. destruct xs as [|[i x] xs]; simpl; [done|]. intros (-> & ? & _) ->. lia. Qed.

(** Taking [mid] out of a list. *)
Lemma unlink_ok a ls pool l pre mid post :
  arep a ls pool → is_list l → ls l = pre ++ mid ++ post →
  ∃ a', (if bool_decide (last_id pre ≠ 0) then set_next (last_id pre) (first_id post) a
         else set_head l (first_id post) a) = Ok a' ∧
    arep a' (upd ls l (pre ++ post)) pool ∧
    owned ls pool ≡ₚ owned (upd ls l (pre ++ post)) pool ++ mid.*1 ∧
    (∀ j, j ∉ pre.*1 → nd a' j = nd a j).
Proof.
  intros Ha Hl Hls. pose proof (ar_lists _ _ _ Ha l Hl) as Hseg. rewrite Hls in Hseg.
  apply lseg_app in Hseg as (c & Hpre & Hseg). apply lseg_app in Hseg as (q & _ & Hpost).
  rewrite <- (lseg_first _ _ _ Hpost).
  assert (Hperm : owned ls pool ≡ₚ owned (upd ls l (pre ++ post)) pool ++ mid.*1).
  { apply owned_upd; [done|]. rewrite Hls, !fmap_app, <- app_assoc. f_equiv.
    apply Permutation_app_comm. }
  assert (Hnd : NoDup (owned (upd ls l (pre ++ post)) pool)).
  { pose proof (ar_nodup _ _ _ Ha) as Hnd. rewrite Hperm in Hnd.
    by apply NoDup_app in Hnd as (Hnd & _). }
  assert (Hndl : NoDup (ls l).*1) by (eapply owned_nodup_list; [apply Ha|done]).
  assert (Hdisj : ∀ j, j ∈ pre.*1 → j ∉ post.*1).
  { rewrite Hls, !fmap_app in Hndl. apply NoDup_app in Hndl as (_ & Hd & _).
    intros j Hj Hjp. apply (Hd j Hj). apply elem_of_app. by right. }
  destruct pre as [|[i y] pre' _] using rev_ind.
  - change (last_id []) with 0. rewrite bool_decide_false by (intros Hx; by apply Hx).
    rewrite set_head_in by (by apply list_index). eexists. split; [done|]. simpl.
    split; [|split; [done|done]].
    eapply (arep_list a _ ls pool l post [] Ha Hl).
    + intros l' Hne. rewrite head_with_head. by rewrite decide_False.
    + done.
    + intros j Hj. by apply not_elem_of_nil in Hj.
    + rewrite head_with_head, decide_True by done. exact Hpost.
    + done.
  - rewrite last_id_snoc.
    assert (Hil : i ∈ (ls l).*1) by (rewrite Hls, !fmap_app; set_solver +).
    assert (Hi : 0 < i < NODES).
    { apply (lseg_range _ _ _ _ i (ar_lists _ _ _ Ha l Hl) Hil). }
    rewrite bool_decide_true by lia. rewrite set_next_in by lia. eexists. split; [done|].
    split; [|split; [done|]].
    + eapply (arep_list a _ ls pool l _ [i] Ha Hl).
      * done.
      * intros j Hj. rewrite nd_with_next, decide_False; [done|]. set_solver + Hj.
      * intros j Hj. apply list_elem_of_singleton in Hj as ->.
        eapply owned_others; [apply Ha|done|done].
      * apply lseg_app. exists q. split.
        -- assert (Hy : addr (nd a i) = y).
           { eapply (lseg_addr _ _ (pre' ++ [(i, y)])); [exact Hpre|set_solver +]. }
           unfold with_next. rewrite Hy. apply (lseg_redirect _ _ _ _ _ c); [exact Hpre|].
           rewrite Hls, !fmap_app in Hndl. simpl in Hndl. rewrite <- app_assoc in Hndl.
           apply NoDup_app in Hndl as (_ & Hd & _). intros Hx. apply (Hd i Hx). set_solver +.
        -- eapply lseg_ext; [|exact Hpost]. intros j Hj. simpl. apply arr_insert_ne.
           intros <-. apply (Hdisj i); [|done]. rewrite fmap_app. set_solver +.
      * done.
    + intros j Hj. rewrite nd_with_next, decide_False; [done|]. intros <-. apply Hj.
      rewrite fmap_app. set_solver +.
Qed.

(** ** Growing the free memory *)

(** What [list_put] and [list_clean] do to the lists from [l] on: the nodes
    [new] come in, the bytes [add] become free, lists [l] and above are
    coalesced. *)
Record grown (l : Z) (a a' : mem_allocator) (ls ls' : blocks) (pool pool' new : list Z)
    (add : Z → Prop) : Prop := {
  gr_rep : arep a' ls' pool';
  gr_ok : blocks_ok ls';
  gr_low : ∀ l', l' < l → ls' l' = ls l';
  gr_coal : ∀ l', l ≤ l' < ALOCATORS - 1 → coalesced l' ls';
  gr_owned : owned ls' pool' ≡ₚ new ++ owned ls pool;
  gr_frame : ∀ i, i ∉ new → i ∉ owned ls pool → nd a' i = nd a i;
  gr_free : ∀ b, free_byte ls' b ↔ free_byte ls b ∨ add b;
  gr_pool : (length pool ≤ length pool')%nat
}.

(** A node outside the lists may be put into list [l]. *)
Record can_put (a : mem_allocator) (ls : blocks) (pool : list Z) (l new : Z) : Prop := {
  cp_rep : arep a ls pool;
  cp_ok : blocks_ok ls;
  cp_node : 0 < new < NODES ∧ new ∉ owned ls pool;
  cp_at : block_at l (addr (nd a new));
  cp_apart : ∀ l' n' x', is_list l' → (n', x') ∈ ls l' → apart l (addr (nd a new)) l' x';
  cp_coal : ∀ l', l < l' < ALOCATORS - 1 → coalesced l' ls
}.

Definition put_spec (put : mem_allocator → Z → Z → res mem_allocator) (l : Z) : Prop :=
  ∀ a ls pool new, can_put a ls pool l new →
  ∃ a' ls' pool', put a l new = Ok a' ∧
    grown l a a' ls ls' pool pool' [new]
      (λ b, addr (nd a new) ≤ b < addr (nd a new) + list_size l).

(** The states of the loop of [list_clean]: [pre] is done, [post] is left. *)
Definition clean_inv (l : Z) (a : mem_allocator) (ls : blocks) (pool : list Z)
    (n : nat) (s : mem_allocator * Z * Z) : Prop :=
  let '(a1, prev, cur) := s in
  ∃ ls1 pool1 pre post, ls1 l = pre ++ post ∧ prev = last_id pre ∧ cur = first_id post ∧
    n = length post ∧
    arep a1 ls1 pool1 ∧ blocks_ok ls1 ∧ (∀ l', l' < l → ls1 l' = ls l') ∧
    (∀ l', l < l' < ALOCATORS - 1 → coalesced l' ls1) ∧
    owned ls1 pool1 ≡ₚ owned ls pool ∧
    (∀ i, i ∉ owned ls pool → nd a1 i = nd a i) ∧
    (∀ b, free_byte ls1 b ↔ free_byte ls b) ∧ (length pool ≤ length pool1)%nat ∧
    (∀ m x m', (m, x) ∈ pre → x mod list_size (l + 1) = 0 → (m', x + list_size l) ∉ ls1 l).

(** What the current node of a chain leads to. *)
Lemma lseg_here ns p pre c x post :
  lseg ns p (pre ++ (c, x) :: post) 0 →
  0 < c < NODES ∧ addr (arr node0 ns c) = x ∧ next (arr node0 ns c) = first_id post ∧
  lseg ns (first_id post) post 0.
Proof.
  intros (m & _ & Hs)%lseg_app. simpl in Hs. destruct Hs as (-> & Hc & Hx & Hs).
  rewrite <- (lseg_first _ _ _ Hs). done.
Qed.

(** Blocks of one list: the buddy of a block, if it is there, is the next. *)
Lemma buddy_next ls l pre c x post m :
  blocks_ok ls → is_list l → ls l = pre ++ (c, x) :: post → (m, x + list_size l) ∈ ls l →
  ∃ m' post', post = (m', x + list_size l) :: post'.
Proof.
  intros [Hat Hap Hs] Hl Hls Hin. destruct (list_bounds l Hl) as [_ Hpos].
  specialize (Hs l Hl) as Hsl. rewrite Hls in Hin, Hsl.
  apply StronglySorted_app in Hsl as (Hpp & _ & Hspost).
  apply StronglySorted_cons in Hspost as [Hc Hspost]. rewrite Forall_forall in Hc.
  apply elem_of_app in Hin as [Hin|[Heq|Hin]%elem_of_cons].
  - specialize (Hpp _ (c, x) Hin). unfold before in Hpp. simpl in Hpp.
    assert (x + list_size l < x) by (apply Hpp; set_solver +). lia.
  - injection Heq. lia.
  - destruct post as [|[m' y] post]; [by apply not_elem_of_nil in Hin|].
    exists m', post. do 2 f_equal.
    assert (Hxy : x < y) by (apply (Hc (m', y)); set_solver +).
    assert (Hle : y ≤ x + list_size l).
    { apply elem_of_cons in Hin as [Heq|Hin]; [injection Heq; lia|].
      apply StronglySorted_cons in Hspost as [Hm _]. rewrite Forall_forall in Hm.
      specialize (Hm _ Hin). unfold before in Hm. simpl in Hm. lia. }
    apply aligned_next; [done| | |lia].
    + apply (Hat l c x Hl). rewrite Hls. set_solver +.
    + apply (Hat l m' y Hl). rewrite Hls. set_solver +.
Qed.

Definition should_merge (l x : Z) (post : list (Z * Z)) : Prop :=
  x mod list_size (l + 1) = 0 ∧ ∃ m post', post = (m, x + list_size l) :: post'.

(** The test of [list_clean]. *)
Lemma merge_test a ls pool l pre c x post :
  arep a ls pool → blocks_ok ls → 1 ≤ l < ALOCATORS - 1 → ls l = pre ++ (c, x) :: post →
  ∃ b, (if bool_decide (first_id post = 0) then Ok false
        else if bool_decide (x mod list_size (l + 1) ≠ 0) then Ok false
        else n ← get_node a (first_id post);
             Ok (bool_decide (u32 (x + list_size l) = addr n))) = Ok b ∧
    (b = true ↔ should_merge l x post).
Proof.
  intros Ha Hok Hl Hls. assert (Hil : is_list l) by (unfold is_list; lia).
  pose proof (ar_lists _ _ _ Ha l Hil) as Hseg. rewrite Hls in Hseg.
  destruct (lseg_here _ _ _ _ _ _ Hseg) as (Hc & Hx & Hn & Hpost).
  destruct (bk_at _ Hok l c x Hil) as (Hx0 & _ & Hxm); [rewrite Hls; set_solver +|].
  destruct (list_bounds l Hil) as [_ Hpos].
  destruct post as [|[m y] post].
  { exists false. simpl. split; [done|]. split; [done|]. intros (_ & m & post' & [=]). }
  destruct Hpost as (_ & Hm & Hy & _). simpl first_id.
  rewrite bool_decide_false by lia.
  destruct (decide (x mod list_size (l + 1) = 0)) as [Hal|Hal].
  - rewrite bool_decide_false by tauto. rewrite get_node_in by lia. cbn [mbind res_bind].
    eexists. split; [done|]. rewrite bool_decide_eq_true. rewrite u32_small by lia.
    unfold nd. rewrite Hy. unfold should_merge. split.
    + intros ->. split; [done|]. by exists m, post.
    + intros (_ & m' & post' & [=]). done.
  - rewrite bool_decide_true by done. exists false. split; [done|]. split; [done|].
    intros [? _]. done.
Qed.

(** Going on to the next block. *)
Lemma clean_skip l a ls pool a1 ls1 pre c x post put :
  1 ≤ l < ALOCATORS - 1 → ls1 l = pre ++ (c, x) :: post →
  (∃ pool1, arep a1 ls1 pool1 ∧ blocks_ok ls1 ∧ (∀ l', l' < l → ls1 l' = ls l') ∧
    (∀ l', l < l' < ALOCATORS - 1 → coalesced l' ls1) ∧
    owned ls1 pool1 ≡ₚ owned ls pool ∧
    (∀ i, i ∉ owned ls pool → nd a1 i = nd a i) ∧
    (∀ b, free_byte ls1 b ↔ free_byte ls b) ∧ (length pool ≤ length pool1)%nat) →
  (∀ m x m', (m, x) ∈ pre → x mod list_size (l + 1) = 0 → (m', x + list_size l) ∉ ls1 l) →
  ¬ should_merge l x post →
  ∃ s', clean_step put l (a1, last_id pre, c) = Ok s' ∧
    clean_inv l a ls pool (length post) s'.
Proof.
  intros Hl Hls (pool1 & Ha & Hok & Hrest) Hpairs Hno.
  assert (Hil : is_list l) by (unfold is_list; lia).
  pose proof (ar_lists _ _ _ Ha l Hil) as Hseg. rewrite Hls in Hseg.
  destruct (lseg_here _ _ _ _ _ _ Hseg) as (Hc & Hx & Hn & Hpost).
  change (addr (nd a1 c) = x) in Hx. change (next (nd a1 c) = first_id post) in Hn.
  unfold clean_step. rewrite (get_node_in a1 c) by lia. cbn [mbind res_bind].
  rewrite Hx, Hn.
  destruct (merge_test a1 ls1 pool1 l pre c x post Ha Hok Hl Hls) as (b & Ht & Hb).
  rewrite Ht. cbn [mbind res_bind].
  destruct b; [exfalso; by apply Hno, Hb|]. eexists. split; [done|].
  exists ls1, pool1, (pre ++ [(c, x)]), post. rewrite <- app_assoc, last_id_snoc.
  split; [done|]. split; [done|]. split; [done|]. split; [done|]. split; [done|].
  split; [done|]. destruct Hrest as (? & ? & ? & ? & ? & ?).
  do 6 (split; [done|]).
  intros m y m' [Hin|Hin]%elem_of_app; [by eapply Hpairs|].
  apply list_elem_of_singleton in Hin. injection Hin as -> ->. intros Hal Hin'.
  destruct (buddy_next ls1 l pre c x post m' Hok Hil Hls Hin') as (m2 & post' & ->).
  apply Hno. split; [done|]. by exists m2, post'.
Qed.

(** The merged block can be put into the next list. *)
Lemma merged_can_put l a1 a2 ls1 pool1 pre c x m post :
  1 ≤ l < ALOCATORS - 1 → arep a1 ls1 pool1 → blocks_ok ls1 →
  (∀ l', l < l' < ALOCATORS - 1 → coalesced l' ls1) →
  ls1 l = pre ++ [(c, x); (m, x + list_size l)] ++ post → x mod list_size (l + 1) = 0 →
  let ls2 := upd ls1 l (pre ++ post) in
  arep a2 ls2 pool1 → owned ls1 pool1 ≡ₚ owned ls2 pool1 ++ [c; m] →
  addr (nd a2 c) = x → can_put a2 ls2 pool1 (l + 1) c.
Proof.
  intros Hl Ha Hok Hco Hls Hal ls2 Ha2 Hperm Hx.
  assert (Hil : is_list l) by (unfold is_list; lia).
  destruct (list_bounds l Hil) as [Hl16 Hpos].
  assert (Hdbl : list_size (l + 1) = 2 * list_size l)
    by (apply size_double; change ALOCATORS with 16 in Hl; lia).
  assert (Hcin : (c, x) ∈ ls1 l) by (rewrite Hls; set_solver +).
  assert (Hmin : (m, x + list_size l) ∈ ls1 l) by (rewrite Hls; set_solver +).
  pose proof (bk_at _ Hok l c x Hil Hcin) as (Hx0 & _ & _).
  pose proof (bk_at _ Hok l m _ Hil Hmin) as (_ & _ & Hmx).
  assert (Hsub : ∀ l' p, p ∈ ls2 l' → p ∈ ls1 l').
  { intros l' p Hp. unfold ls2 in Hp. destruct (decide (l' = l)) as [->|Hne].
    - rewrite upd_eq in Hp. rewrite Hls. set_solver + Hp.
    - by rewrite upd_ne in Hp. }
  assert (Hnd : NoDup (owned ls2 pool1 ++ [c; m])) by (rewrite <- Hperm; apply Ha).
  apply NoDup_app in Hnd as (_ & Hdisj & _).
  split.
  - done.
  - apply (blocks_ok_sub ls1); [done|by intros; apply Hsub|].
    intros l' Hl'. unfold ls2. destruct (decide (l' = l)) as [->|Hne].
    + rewrite upd_eq. pose proof (bk_sorted _ Hok l Hl') as Hs. rewrite Hls in Hs.
      apply StronglySorted_app in Hs as (Hpp & Hspre & Hspost).
      apply StronglySorted_app in Hspost as (_ & _ & Hspost).
      apply StronglySorted_app. split; [|done]. intros p q Hp Hq. apply Hpp; [done|].
      set_solver + Hq.
    + rewrite upd_ne by done. by apply (bk_sorted _ Hok).
  - split; [eapply (arep_range a1 ls1 pool1); [done|by eapply owned_list]|].
    intros Hin. apply (Hdisj c Hin). set_solver +.
  - rewrite Hx. split; [done|]. split; [done|]. lia.
  - rewrite Hx. intros l' n' x' Hl' Hin.
    assert (Hon : n' ∈ owned ls2 pool1) by (by eapply owned_list).
    assert (c ≠ n') by (intros ->; apply (Hdisj n' Hon); set_solver +).
    assert (m ≠ n') by (intros ->; apply (Hdisj n' Hon); set_solver +).
    apply Hsub in Hin. destruct (list_bounds l' Hl') as [_ Hpos'].
    pose proof (bk_apart _ Hok l c x l' n' x' Hil Hl' Hcin Hin ltac:(done)) as Hc.
    pose proof (bk_apart _ Hok l m _ l' n' x' Hil Hl' Hmin Hin ltac:(done)) as Hm.
    unfold apart in *. lia.
  - intros l' Hl'. eapply coalesced_sub; [|apply (Hco l'); lia]. intros p. apply Hsub.
Qed.

(** Merging a block with its buddy. *)
Lemma clean_merge l a ls pool a1 ls1 pool1 pre c x m post put :
  1 ≤ l < ALOCATORS - 1 → put_spec put (l + 1) →
  ls1 l = pre ++ [(c, x); (m, x + list_size l)] ++ post → x mod list_size (l + 1) = 0 →
  arep a1 ls1 pool1 → blocks_ok ls1 → (∀ l', l' < l → ls1 l' = ls l') →
  (∀ l', l < l' < ALOCATORS - 1 → coalesced l' ls1) → owned ls1 pool1 ≡ₚ owned ls pool →
  (∀ i, i ∉ owned ls pool → nd a1 i = nd a i) →
  (∀ b, free_byte ls1 b ↔ free_byte ls b) → (length pool ≤ length pool1)%nat →
  (∀ m x m', (m, x) ∈ pre → x mod list_size (l + 1) = 0 → (m', x + list_size l) ∉ ls1 l) →
  ∃ s', clean_step put l (a1, last_id pre, c) = Ok s' ∧
    clean_inv l a ls pool (length post) s'.
Proof.
  intros Hl Hput Hls Hal Ha Hok Hlow Hco Hown Hfr Hfree Hlen Hpairs.
  assert (Hil : is_list l) by (unfold is_list; lia).
  destruct (list_bounds l Hil) as [Hl16 Hpos].
  assert (Hdbl : list_size (l + 1) = 2 * list_size l)
    by (apply size_double; change ALOCATORS with 16 in Hl; lia).
  pose proof (ar_lists _ _ _ Ha l Hil) as Hseg.
  assert (Hls' : ls1 l = (pre ++ [(c, x)]) ++ (m, x + list_size l) :: post)
    by (rewrite Hls, <- app_assoc; done).
  rewrite Hls' in Hseg. destruct (lseg_here _ _ _ _ _ _ Hseg) as (Hm & _ & Hnm & Hpost).
  rewrite <- Hls' in Hseg. rewrite Hls in Hseg.
  destruct (lseg_here _ _ _ _ _ _ Hseg) as (Hc & Hx & Hn & _).
  change (addr (nd a1 c) = x) in Hx. change (next (nd a1 c) = m) in Hn.
  change (next (nd a1 m) = first_id post) in Hnm.
  destruct (merge_test a1 ls1 pool1 l pre c x _ Ha Hok Hl Hls) as (b & Ht & Hb).
  destruct b; [|by exfalso; assert (false = true) as [=] by (apply Hb; split; [done|by eexists _, _])].
  simpl first_id in Ht. unfold clean_step. rewrite (get_node_in a1 c) by lia. cbn [mbind res_bind].
  rewrite Hx, Hn, Ht. cbn [mbind res_bind]. rewrite get_node_in by lia. cbn [mbind res_bind].
  rewrite Hnm.
  destruct (unlink_ok a1 ls1 pool1 l pre _ post Ha Hil Hls) as (a2 & Hun & Ha2 & Hperm & Hf2).
  rewrite Hun. cbn [mbind res_bind]. simpl fmap in Hperm.
  assert (Hndl : NoDup (ls1 l).*1) by (eapply owned_nodup_list; [apply Ha|done]).
  rewrite Hls, !fmap_app in Hndl. simpl in Hndl. apply NoDup_app in Hndl as (_ & Hdp & Hcm).
  apply NoDup_cons in Hcm as [Hcm _].
  assert (Hcp : c ∉ pre.*1) by (intros Hin; apply (Hdp c Hin); set_solver +).
  assert (Hmp : m ∉ pre.*1) by (intros Hin; apply (Hdp m Hin); set_solver +).
  set (ls2 := upd ls1 l (pre ++ post)) in *.
  assert (Hx2 : addr (nd a2 c) = x) by (by rewrite Hf2).
  pose proof (merged_can_put l a1 a2 ls1 pool1 pre c x m post Hl Ha Hok Hco Hls Hal Ha2 Hperm Hx2)
    as Hcan.
  destruct (Hput a2 ls2 pool1 c Hcan) as (a3 & ls3 & pool3 & Hp3 & Hg).
  rewrite Hp3. cbn [mbind res_bind]. rewrite get_node_in by lia. cbn [mbind res_bind].
  assert (Hm2 : m ∉ owned ls2 pool1 ∧ m ≠ c).
  { split; [|intros ->; apply Hcm; set_solver +].
    assert (Hnd : NoDup (owned ls2 pool1 ++ [c; m])) by (rewrite <- Hperm; apply Ha).
    apply NoDup_app in Hnd as (_ & Hd & _). intros Hin. apply (Hd m Hin). set_solver +. }
  destruct Hm2 as [Hm2 Hmc].
  assert (Hnm3 : next (nd a3 m) = first_id post).
  { rewrite (gr_frame _ _ _ _ _ _ _ _ _ Hg m); [by rewrite Hf2|by intros ->%list_elem_of_singleton|done]. }
  destruct (node_free_ok a3 ls3 pool3 m (gr_rep _ _ _ _ _ _ _ _ _ Hg) Hm) as (a4 & Hfr4 & Ha4 & Hf4).
  { rewrite (gr_owned _ _ _ _ _ _ _ _ _ Hg). by intros [?|?]%elem_of_cons. }
  rewrite Hfr4. cbn [mbind res_bind]. rewrite Hnm3. eexists. split; [done|].
  assert (Hlow3 : ∀ l', l' < l + 1 → ls3 l' = ls2 l') by apply Hg.
  assert (Hown4 : owned ls3 (m :: pool3) ≡ₚ owned ls pool).
  { change (owned ls3 (m :: pool3)) with (m :: owned ls3 pool3).
    rewrite (gr_owned _ _ _ _ _ _ _ _ _ Hg), <- Hown, Hperm.
    rewrite (Permutation_app_comm _ [c; m]). simpl. apply perm_swap. }
  exists ls3, (m :: pool3), pre, post. rewrite Hlow3 by lia. unfold ls2 at 1. rewrite upd_eq.
  split; [done|]. split; [done|]. split; [done|]. split; [done|]. split; [done|].
  split; [apply Hg|]. split; [intros l' Hl'; rewrite Hlow3 by lia; unfold ls2;
    rewrite upd_ne by lia; by apply Hlow|].
  split; [intros l' Hl'; apply (gr_coal _ _ _ _ _ _ _ _ _ Hg); lia|]. split; [done|].
  split; [|split; [|split]].
  - intros i Hi. assert (Hi2 : i ∉ owned ls2 pool1 ++ [c; m]) by (rewrite <- Hperm, Hown; done).
    rewrite Hf4 by (set_solver + Hi2).
    rewrite (gr_frame _ _ _ _ _ _ _ _ _ Hg); [|set_solver + Hi2|set_solver + Hi2].
    rewrite Hf2; [by apply Hfr|]. intros Hin. apply Hi. rewrite <- Hown.
    apply elem_of_owned. right. exists l. split; [done|]. rewrite Hls, fmap_app. set_solver + Hin.
  - intros b. rewrite (gr_free _ _ _ _ _ _ _ _ _ Hg), <- Hfree, Hx2.
    rewrite (free_byte_diff ls1 ls2 l [(c, x); (m, x + list_size l)] b Hil).
    + f_equiv. rewrite Hdbl. split.
      * intros Hb'. destruct (decide (b < x + list_size l)).
        -- exists c, x. split; [set_solver +|lia].
        -- exists m, (x + list_size l). split; [set_solver +|lia].
      * intros (n' & x' & Hin & Hb'). repeat (apply elem_of_cons in Hin as [[= -> ->]|Hin]; [lia|]).
        by apply not_elem_of_nil in Hin.
    + intros l' Hne. unfold ls2. by rewrite upd_ne.
    + intros p. unfold ls2. rewrite upd_eq, Hls. set_solver +.
  - pose proof (gr_pool _ _ _ _ _ _ _ _ _ Hg). simpl. lia.
  - intros n' y m' Hin Hy Hin'. apply (Hpairs n' y m' Hin Hy). unfold ls2 in Hin'. rewrite upd_eq in Hin'.
    rewrite Hls, !elem_of_app. apply elem_of_app in Hin' as [?|?]; tauto.
Qed.

Lemma clean_inv_start l a ls pool :
  1 ≤ l < ALOCATORS - 1 → arep a ls pool → blocks_ok ls →
  (∀ l', l < l' < ALOCATORS - 1 → coalesced l' ls) →
  clean_inv l a ls pool (length (ls l)) (a, 0, first_id (ls l)).
Proof.
  intros Hl Ha Hok Hco. exists ls, pool, [], (ls l).
  do 11 (split; [done|]). split; [lia|]. intros m x m' Hin. by apply not_elem_of_nil in Hin.
Qed.

Lemma list_clean_ok put a ls pool l :
  1 ≤ l < ALOCATORS - 1 → put_spec put (l + 1) → arep a ls pool → blocks_ok ls →
  (∀ l', l < l' < ALOCATORS - 1 → coalesced l' ls) →
  ∃ a' ls' pool', list_clean put a l = Ok a' ∧
    grown l a a' ls ls' pool pool' [] (λ _, False).
Proof.
  intros Hl Hput Ha Hok Hco. assert (Hil : is_list l) by (unfold is_list; lia).
  unfold list_clean. rewrite get_head_in by (by apply list_index). cbn [mbind res_bind].
  rewrite (lseg_first _ _ _ (ar_lists _ _ _ Ha l Hil)).
  destruct (while_total_ix (clean_inv l a ls pool) clean_cond (clean_step put l)) with
    (fuel := FUEL) (n := length (ls l)) (s := (a, 0, first_id (ls l)))
    as ([[a1 prev] cur] & n & Hw & HP & Hc).
  - intros n [[a1 prev] cur] (ls1 & pool1 & pre & post & Hls & -> & -> & -> & Ha1 & Hok1 & Hrest).
    simpl. eexists. split; [done|]. intros Hne. apply bool_decide_eq_true in Hne.
    destruct post as [|[c x] post]; [done|]. simpl first_id.
    assert (Hdec : should_merge l x post ∨ ¬ should_merge l x post).
    { destruct (merge_test a1 ls1 pool1 l pre c x post Ha1 Hok1 Hl Hls) as ([|] & _ & Hb);
        [left; by apply Hb|right; intros Hs; by apply Hb in Hs]. }
    destruct Hrest as (Hlow & Hco1 & Hown & Hfr & Hfree & Hlen & Hpairs).
    destruct Hdec as [(Hal & m & post' & ->)|Hno].
    + destruct (clean_merge l a ls pool a1 ls1 pool1 pre c x m post' put) as (s' & Hs & Hinv);
        try done.
      exists s', (length post'). split; [done|]. split; [done|]. simpl. lia.
    + destruct (clean_skip l a ls pool a1 ls1 pre c x post put Hl Hls) as (s' & Hs & Hinv);
        [by exists pool1|done|done|].
      exists s', (length post). split; [done|]. split; [done|]. simpl. lia.
  - by apply clean_inv_start.
  - pose proof (arep_length _ _ _ _ Ha Hil). unfold FUEL. lia.
  - rewrite Hw. cbn [mbind res_bind].
    destruct HP as (ls1 & pool1 & pre & post & Hls & -> & -> & _ & Ha1 & Hok1 & Hlow & Hco1 &
      Hown & Hfr & Hfree & Hlen & Hpairs).
    injection Hc as Hc. apply bool_decide_eq_false in Hc. apply dec_stable in Hc.
    pose proof (ar_lists _ _ _ Ha1 l Hil) as Hseg. rewrite Hls in Hseg.
    apply lseg_app in Hseg as (q & _ & Hseg).
    pose proof (lseg_first _ _ _ Hseg) as Hq. rewrite Hc in Hq. subst q.
    destruct (lseg_zero _ _ _ Hseg) as [-> _]. rewrite app_nil_r in Hls.
    exists a1, ls1, pool1. split; [done|]. split; try done.
    + intros l' Hl'. destruct (decide (l' = l)) as [->|Hne]; [|apply Hco1; lia].
      intros n' x n2 Hin Hal. rewrite Hls in Hin. by eapply Hpairs.
    + intros i _ Hi. by apply Hfr.
    + intros b. rewrite Hfree. tauto.
Qed.

Lemma list_put_ok lv : ∀ l,
  is_list l → ALOCATORS - l ≤ Z.of_nat lv → put_spec (list_put lv) l.
Proof.
  induction lv as [|lv IH]; intros l Hil Hlv; [unfold is_list in Hil; lia|].
  intros a ls pool new [Ha Hok [Hnew Hfresh] Hat Hap Hco]. set (x := addr (nd a new)) in *.
  destruct (list_insert_ok a ls pool l new Ha Hil Hnew Hfresh)
    as (a1 & pre & post & Hins & Hls & Ha1 & Hperm & Hpre & Hpost & Hfr).
  fold x in Ha1, Hperm, Hpre, Hpost. set (ls1 := upd ls l (pre ++ (new, x) :: post)) in *.
  assert (Hok1 : blocks_ok ls1) by (apply blocks_ok_insert; done).
  assert (Hfree : ∀ b, free_byte ls1 b ↔ free_byte ls b ∨ x ≤ b < x + list_size l).
  { intros b. rewrite (free_byte_diff ls1 ls l [(new, x)] b Hil).
    - f_equiv. split; [|intros Hb; exists new, x; split; [set_solver +|done]].
      intros (n' & x' & Hin & Hb). apply list_elem_of_singleton in Hin as [= -> ->]. done.
    - intros l' Hne. unfold ls1. by rewrite upd_ne.
    - intros p. unfold ls1. rewrite upd_eq, Hls. set_solver +. }
  assert (Hco1 : ∀ l', l < l' < ALOCATORS - 1 → coalesced l' ls1).
  { intros l' Hl'. eapply coalesced_sub; [|by apply (Hco l')]. intros p Hp.
    unfold ls1 in Hp. by rewrite upd_ne in Hp by lia. }
  cbn [list_put]. rewrite Hins. cbn [mbind res_bind].
  destruct (Z.ltb_spec l (ALOCATORS - 1)) as [Hlt|Hge].
  - destruct (list_clean_ok (list_put lv) a1 ls1 pool l) as (a2 & ls2 & pool2 & Hcl & Hg);
      [unfold is_list in Hil; lia|apply IH; [unfold is_list in *; lia|lia]|done|done|done|].
    exists a2, ls2, pool2. split; [done|]. split.
    + apply Hg.
    + apply Hg.
    + intros l' Hl'. rewrite (gr_low _ _ _ _ _ _ _ _ _ Hg) by done.
      unfold ls1. by rewrite upd_ne by lia.
    + apply Hg.
    + rewrite (gr_owned _ _ _ _ _ _ _ _ _ Hg). simpl. by rewrite Hperm.
    + intros i Hi Hio. apply not_elem_of_cons in Hi as [Hi _].
      rewrite (gr_frame _ _ _ _ _ _ _ _ _ Hg).
      * by apply Hfr.
      * by apply not_elem_of_nil.
      * rewrite Hperm. by apply not_elem_of_cons.
    + intros b. rewrite (gr_free _ _ _ _ _ _ _ _ _ Hg), Hfree. tauto.
    + apply Hg.
  - exists a1, ls1, pool. split; [done|]. split; try done.
    + intros l' Hl'. unfold ls1. by rewrite upd_ne by lia.
    + intros l' Hl'. lia.
    + intros i Hi Hio. apply not_elem_of_cons in Hi as [Hi _]. by apply Hfr.
Qed.

(** ** Whole states *)

(** A good state of the allocator. *)
Record good (a : mem_allocator) (ls : blocks) (pool : list Z) : Prop := {
  gd_rep : arep a ls pool;
  gd_ok : blocks_ok ls;
  gd_coal : all_coalesced ls
}.

(** Putting a block that overlaps no free one. *)
Lemma put_block_ok a ls i pool l x :
  good a ls (i :: pool) → is_list l → block_at l x →
  (∀ b, x ≤ b < x + list_size l → ¬ free_byte ls b) →
  ∃ a1 a' ls' pool', node_new a x = Ok (i, a1) ∧ list_put LEVELS a1 l i = Ok a' ∧
    good a' ls' pool' ∧ (length pool ≤ length pool')%nat ∧
    (∀ l', l' < l → ls' l' = ls l') ∧
    ∀ b, free_byte ls' b ↔ free_byte ls b ∨ x ≤ b < x + list_size l.
Proof.
  intros [Ha Hok Hco] Hl Hat Hdisj.
  destruct (node_new_ok a ls i pool x Ha) as (a1 & Hnew & Ha1 & Hi & Hfresh & Hnd & _).
  assert (Hlv : ALOCATORS - l ≤ Z.of_nat LEVELS).
  { unfold is_list in Hl. change (Z.of_nat LEVELS) with 17. change ALOCATORS with 16. lia. }
  destruct (list_put_ok LEVELS l Hl Hlv a1 ls pool i) as (a' & ls' & pool' & Hput & Hg).
  - split; try done.
    + by rewrite Hnd.
    + rewrite Hnd. simpl. intros l' n' x' Hl' Hin.
      destruct (list_bounds l Hl) as [_ Hp], (list_bounds l' Hl') as [_ Hp'].
      unfold apart. destruct (decide (x + list_size l ≤ x')) as [|H1]; [by left|].
      destruct (decide (x' + list_size l' ≤ x)) as [|H2]; [by right|]. exfalso.
      apply (Hdisj (Z.max x x')); [lia|]. exists l', n', x'. split; [done|]. split; [done|]. lia.
    + intros l' Hl'. apply Hco. unfold is_list in Hl. lia.
  - exists a1, a', ls', pool'. rewrite Hnd in Hg. split; [done|]. split; [done|]. split.
    + split; [apply Hg|apply Hg|]. intros l' Hl'. destruct (decide (l' < l)).
      * eapply coalesced_sub; [|by apply (Hco l')].
        intros p. by rewrite (gr_low _ _ _ _ _ _ _ _ _ Hg).
      * apply (gr_coal _ _ _ _ _ _ _ _ _ Hg). lia.
    + split; [apply Hg|]. split; [apply Hg|]. apply Hg.
Qed.

(** ** Taking a block *)

(** Free bytes of [ls] are those of [ls'] and, apart from them, the block of
    list [l] at [r]. *)
Definition took (l r : Z) (ls ls' : blocks) : Prop :=
  (∀ b, free_byte ls b ↔ free_byte ls' b ∨ r ≤ b < r + list_size l) ∧
  (∀ b, r ≤ b < r + list_size l → ¬ free_byte ls' b).

Lemma block_pop_ok a ls pool l e x post :
  good a ls pool → is_list l → ls l = (e, x) :: post →
  ∃ a1 a' ls', get_node a e = Ok (nd a e) ∧ set_head l (next (nd a e)) a = Ok a1 ∧
    get_node a1 e = Ok (nd a1 e) ∧ addr (nd a1 e) = x ∧ node_free a1 e = Ok a' ∧
    good a' ls' (e :: pool) ∧ block_at l x ∧ took l x ls ls'.
Proof.
  intros [Ha Hok Hco] Hl Hls.
  pose proof (ar_lists _ _ _ Ha l Hl) as Hseg. rewrite Hls in Hseg.
  destruct (lseg_here _ _ [] _ _ _ Hseg) as (He & Hx & Hn & _).
  change (addr (nd a e) = x) in Hx. change (next (nd a e) = first_id post) in Hn.
  destruct (unlink_ok a ls pool l [] [(e, x)] post Ha Hl Hls) as (a1 & Hun & Ha1 & Hperm & Hfr).
  change (last_id []) with 0 in Hun.
  rewrite bool_decide_false in Hun by (intros Hz; by apply Hz). simpl app in *.
  set (ls' := upd ls l post) in *. simpl fmap in Hperm.
  assert (Hnd : NoDup (owned ls' pool ++ [e])) by (rewrite <- Hperm; apply Ha).
  apply NoDup_app in Hnd as (_ & Hdisj & _).
  assert (Hfresh : e ∉ owned ls' pool) by (intros Hin; apply (Hdisj e Hin); set_solver +).
  destruct (node_free_ok a1 ls' pool e Ha1 He Hfresh) as (a' & Hnf & Ha' & _).
  assert (Hfr' : nd a1 e = nd a e) by (apply Hfr; apply not_elem_of_nil).
  assert (Hsub : ∀ l' p, p ∈ ls' l' → p ∈ ls l').
  { intros l' p Hp. unfold ls' in Hp. destruct (decide (l' = l)) as [->|Hne].
    - rewrite upd_eq in Hp. rewrite Hls. set_solver + Hp.
    - by rewrite upd_ne in Hp. }
  assert (Hin : (e, x) ∈ ls l) by (rewrite Hls; set_solver +).
  exists a1, a', ls'. rewrite Hn, Hfr'.
  split; [by apply get_node_in; lia|]. split; [done|].
  split; [rewrite <- Hfr'; by apply get_node_in; lia|]. split; [done|]. split; [done|].
  split; [split|split; [by apply (bk_at _ Hok l e)|split]].
  - done.
  - apply (blocks_ok_sub ls); [done|by intros; apply Hsub|].
    intros l' Hl'. unfold ls'. destruct (decide (l' = l)) as [->|Hne].
    + rewrite upd_eq. pose proof (bk_sorted _ Hok l Hl') as Hs. rewrite Hls in Hs.
      by apply StronglySorted_cons in Hs as [_ Hs].
    + rewrite upd_ne by done. by apply (bk_sorted _ Hok).
  - intros l' Hl'. eapply coalesced_sub; [|by apply (Hco l')]. apply Hsub.
  - intros b. rewrite (free_byte_diff ls ls' l [(e, x)] b Hl).
    + f_equiv. split; [|intros Hb; exists e, x; split; [set_solver +|done]].
      intros (n' & x' & Hi & Hb). apply list_elem_of_singleton in Hi as [= -> ->]. done.
    + intros l' Hne. unfold ls'. by rewrite upd_ne.
    + intros p. unfold ls'. rewrite upd_eq, Hls. set_solver +.
  - intros b Hb (l' & n' & x' & Hl' & Hin' & Hb').
    assert (e ≠ n') by (intros ->; apply Hfresh; by eapply owned_list).
    destruct (bk_apart _ Hok l e x l' n' x') as [?|?]; [done|done|done|by apply Hsub|done| |]; lia.
Qed.

(** No block of list [l] or above. *)
Definition none_from (l : Z) (ls : blocks) : Prop :=
  ∀ l', l ≤ l' < ALOCATORS → ls l' = [].

(** Splitting off the upper half of a taken block. *)
Lemma split_ok a ls i pool l r :
  good a ls (i :: pool) → is_list l → l + 1 < ALOCATORS → block_at (l + 1) r →
  (∀ b, r ≤ b < r + list_size (l + 1) → ¬ free_byte ls b) →
  ∃ a1 a' ls' pool', node_new a (u32 (r + list_size (l + 1) / 2)) = Ok (i, a1) ∧
    list_put LEVELS a1 l i = Ok a' ∧ good a' ls' pool' ∧ (length pool ≤ length pool')%nat ∧
    block_at l r ∧
    (∀ b, free_byte ls' b ↔ free_byte ls b ∨ r + list_size l ≤ b < r + list_size (l + 1)).
Proof.
  intros Hg Hl Hl1 (Hr0 & Hal & Hr) Hnf. destruct (list_bounds l Hl) as [Hb Hpos].
  assert (Hdbl : list_size (l + 1) = 2 * list_size l)
    by (apply size_double; change ALOCATORS with 16 in Hl1; lia).
  assert (Hhalf : list_size (l + 1) / 2 = list_size l)
    by (rewrite Hdbl, Z.mul_comm; by apply Z.div_mul).
  rewrite Hhalf, u32_small by lia.
  assert (Hrm : r mod list_size l = 0).
  { apply (mod_divide _ _ (list_size (l + 1))); [done|lia| |done]. exists 2. lia. }
  assert (Hat : block_at l (r + list_size l)).
  { split; [lia|]. split; [|lia]. rewrite <- (Z.mul_1_l (list_size l)) at 1.
    by rewrite Z.mod_add by lia. }
  destruct (put_block_ok a ls i pool l (r + list_size l) Hg Hl Hat)
    as (a1 & a' & ls' & pool' & Hnew & Hput & Hg' & Hlen & _ & Hfree).
  { intros b Hb'. apply Hnf. lia. }
  exists a1, a', ls', pool'. split; [done|]. split; [done|]. split; [done|]. split; [done|].
  split; [split; [done|]; split; [done|lia]|].
  intros b. rewrite Hfree. replace (r + list_size l + list_size l) with (r + list_size (l + 1)) by lia.
  done.
Qed.

Lemma list_get_ok lv : ∀ l a ls pool,
  1 ≤ l ≤ ALOCATORS → ALOCATORS - l < Z.of_nat lv → good a ls pool →
  ALOCATORS - 1 - l ≤ Z.of_nat (length pool) →
  (list_get lv a l = Ok (0, a) ∧ none_from l ls) ∨
  ∃ r a' ls' pool', list_get lv a l = Ok (r, a') ∧ good a' ls' pool' ∧
    Z.of_nat (length pool) - (ALOCATORS - 1 - l) ≤ Z.of_nat (length pool') ∧
    block_at l r ∧ took l r ls ls'.
Proof.
  induction lv as [|lv IH]; intros l a ls pool Hl Hlv Hg Hpool; [lia|]. cbn [list_get].
  destruct (Z.leb_spec ALOCATORS l) as [Hge|Hlt].
  { left. split; [done|]. intros l' Hl'. lia. }
  assert (Hil : is_list l) by (unfold is_list; lia).
  rewrite get_head_in by (by apply list_index). cbn [mbind res_bind].
  pose proof (ar_lists _ _ _ (gd_rep _ _ _ Hg) l Hil) as Hseg.
  rewrite (lseg_first _ _ _ Hseg). destruct (ls l) as [|[e x] post] eqn:Hls.
  - simpl first_id. rewrite bool_decide_false by (intros Hz; by apply Hz).
    destruct (IH (l + 1) a ls pool) as [[Heq Hnone]|(r & a1 & ls1 & pool1 & Heq & Hg1 & Hlen & Hat & Hf & Hnf)];
      [lia|lia|done|lia| |].
    + left. rewrite Heq. cbn [mbind res_bind]. split; [done|]. intros l' Hl'.
      destruct (decide (l' = l)) as [->|]; [done|]. apply Hnone. lia.
    + right. rewrite Heq. cbn [mbind res_bind]. pose proof Hat as (Hr0 & _).
      rewrite bool_decide_true by lia.
      destruct (decide (l + 1 < ALOCATORS)) as [Hl1|Hl1].
      2: { assert (Hz : l + 1 = ALOCATORS) by lia. exfalso. destruct lv as [|lv]; [lia|].
           cbn [list_get] in Heq. rewrite Hz in Heq. simpl in Heq. injection Heq as <- _. lia. }
      destruct pool1 as [|i pool1]; [simpl in Hlen; lia|].
      destruct (split_ok a1 ls1 i pool1 l r Hg1 Hil Hl1 Hat Hnf)
        as (a2 & a' & ls' & pool' & Hnew & Hput & Hg' & Hlen' & Hat' & Hf').
      rewrite Hnew. cbn [mbind res_bind]. rewrite Hput. cbn [mbind res_bind].
      exists r, a', ls', pool'. split; [done|]. split; [done|].
      split; [rewrite length_cons in Hlen; lia|]. split; [done|].
      destruct (list_bounds l Hil) as [Hb Hpos].
      assert (Hdbl : list_size (l + 1) = 2 * list_size l)
        by (apply size_double; change ALOCATORS with 16 in Hl1; lia).
      split.
      * intros b. rewrite Hf, Hf'. rewrite Hdbl.
        assert (r ≤ b < r + 2 * list_size l ↔
                r + list_size l ≤ b < r + 2 * list_size l ∨ r ≤ b < r + list_size l) by lia.
        tauto.
      * intros b Hb'. rewrite Hf', Hdbl. intros [Hfb|?]; [|lia].
        apply (Hnf b); [lia|done].
  - right. destruct (block_pop_ok a ls pool l e x post Hg Hil Hls)
      as (a1 & a' & ls' & Hn1 & Hs1 & Hn2 & Hx & Hnf & Hg' & Hat & Ht).
    pose proof (lseg_range _ _ _ _ e Hseg) as He. simpl first_id.
    rewrite bool_decide_true by (intros ->; assert (0 < 0 < NODES) by (apply He; set_solver +); lia).
    rewrite Hn1. cbn [mbind res_bind]. rewrite Hs1. cbn [mbind res_bind]. rewrite Hn2.
    cbn [mbind res_bind]. rewrite Hnf. cbn [mbind res_bind]. rewrite Hx.
    exists x, a', ls', (e :: pool). split; [done|]. split; [done|].
    split; [rewrite length_cons; lia|]. done.
Qed.

(** ** Coalesced memory *)

(** An aligned range of free bytes lies in one free block of at least its
    size. *)
Lemma covered ls i : ∀ t,
  (0 < i)%nat → Z.of_nat i < ALOCATORS → blocks_ok ls → all_coalesced ls →
  t mod list_size (Z.of_nat i) = 0 →
  (∀ b, t ≤ b < t + list_size (Z.of_nat i) → free_byte ls b) →
  ∃ l n x, Z.of_nat i ≤ l < ALOCATORS ∧ (n, x) ∈ ls l ∧
    x ≤ t ∧ t + list_size (Z.of_nat i) ≤ x + list_size l.
Proof.
  induction i as [|i IH]; intros t Hi0 Hi Hok Hco Hal Hfree; [lia|].
  set (k := Z.of_nat (Datatypes.S i)) in *. change ALOCATORS with 16 in Hi.
  assert (Hk : is_list k) by (unfold is_list; change ALOCATORS with 16; lia).
  destruct (list_bounds k Hk) as [_ Hpk].
  assert (Hnest : ∀ l n x b, k ≤ l → is_list l → (n, x) ∈ ls l → t ≤ b < t + list_size k →
    x ≤ b < x + list_size l → ∃ l n x, k ≤ l < ALOCATORS ∧ (n, x) ∈ ls l ∧
      x ≤ t ∧ t + list_size k ≤ x + list_size l).
  { intros l n x b Hkl Hl Hin Hb Hb'. exists l, n, x. unfold is_list in Hl.
    split; [lia|]. split; [done|]. destruct (list_bounds l Hl) as [Hl16 Hpl].
    apply (aligned_nested t x (list_size k) (list_size l) b); try done.
    - apply size_divide; lia.
    - by apply (bk_at _ Hok l n). }
  destruct (decide (i = 0%nat)) as [->|Hne].
  - destruct (Hfree t ltac:(lia)) as (l & n & x & Hl & Hin & Hb).
    apply (Hnest l n x t); try done; [unfold is_list in Hl; lia|lia].
  - assert (Hi' : is_list (Z.of_nat i)) by (unfold is_list; change ALOCATORS with 16; lia).
    assert (Hdbl : list_size k = 2 * list_size (Z.of_nat i)).
    { rewrite <- size_double by lia. f_equal. lia. }
    destruct (list_bounds (Z.of_nat i) Hi') as [_ Hpi].
    assert (Hali : t mod list_size (Z.of_nat i) = 0).
    { apply (mod_divide _ _ (list_size k)); [done|done| |done]. exists 2. lia. }
    destruct (IH t) as (l1 & n1 & x1 & Hl1 & Hin1 & Hx1 & Hx1'); try done;
      [lia|change ALOCATORS with 16; lia|intros b Hb; apply Hfree; lia|].
    destruct (IH (t + list_size (Z.of_nat i))) as (l2 & n2 & x2 & Hl2 & Hin2 & Hx2 & Hx2');
      try done; [lia|change ALOCATORS with 16; lia| |intros b Hb; apply Hfree; lia|].
    { rewrite <- (Z.mul_1_l (list_size (Z.of_nat i))) at 1. by rewrite Z.mod_add by lia. }
    destruct (decide (k ≤ l1)) as [Hk1|Hk1].
    { apply (Hnest l1 n1 x1 t); try done; [unfold is_list; lia|lia|lia]. }
    destruct (decide (k ≤ l2)) as [Hk2|Hk2].
    { apply (Hnest l2 n2 x2 (t + list_size (Z.of_nat i))); try done;
        [unfold is_list; lia|lia|lia]. }
    exfalso. assert (l1 = Z.of_nat i) as -> by lia. assert (l2 = Z.of_nat i) as -> by lia.
    assert (x1 = t) as -> by lia. assert (x2 = t + list_size (Z.of_nat i)) as -> by lia.
    apply (Hco (Z.of_nat i)) with (n := n1) (x := t) (n' := n2); try done.
    + change ALOCATORS with 16. lia.
    + replace (Z.of_nat i + 1) with k by lia. done.
Qed.

(** The smallest list whose blocks hold [size] bytes. *)
Definition fits (size i : Z) : Prop :=
  1 ≤ i < ALOCATORS ∧ size ≤ list_size i ∧ (i = 1 ∨ list_size (i - 1) < size).

Lemma shift_size i : 0 ≤ i < 16 → u32 (Z.shiftl (list_size i) 1) = list_size (i + 1).
Proof.
  intros Hi. rewrite Z.shiftl_mul_pow2 by lia. change (2 ^ 1) with 2.
  rewrite size_double by done. rewrite u32_small; [lia|].
  pose proof (size_pos i). pose proof (size_max i). lia.
Qed.

(** The loops over the block sizes, with their condition and the step [inc]
    of the index. *)
Lemma fit_loop (inc : Z → Z) (cond : Z * Z → res bool) size :
  (∀ i, 1 ≤ i < 15 → inc i = i + 1) →
  (∀ i bs, 1 ≤ i ≤ 15 → cond (i, bs) = Ok (bs <? size)) → size ≤ list_size 15 →
  ∃ i, while FUEL cond (λ '(i, bs), Ok (inc i, u32 (Z.shiftl bs 1))) (1, list_size 1)
       = Ok (i, list_size i) ∧ fits size i.
Proof.
  intros Hinc Hcond Hsize.
  destruct (while_total_ix (λ n (s : Z * Z), 1 ≤ s.1 ≤ 15 ∧ s.2 = list_size s.1 ∧
      (s.1 = 1 ∨ list_size (s.1 - 1) < size) ∧ n = Z.to_nat (15 - s.1))
    cond (λ '(i, bs), Ok (inc i, u32 (Z.shiftl bs 1)))) with
    (fuel := FUEL) (n := 14%nat) (s := (1, list_size 1)) as ([i bs] & n & Hw & HP & Hc).
  - intros n [i bs] (Hi & Hbs & Hlow & ->). simpl in *. subst bs. rewrite Hcond by done.
    eexists. split; [done|]. intros Hlt%Z.ltb_lt.
    assert (i ≠ 15) by (intros ->; lia).
    eexists (_, _), _. split; [done|]. simpl. rewrite Hinc by lia.
    rewrite shift_size by lia.
    split; [split; [lia|]; split; [done|]; split; [right; by replace (i + 1 - 1) with i by lia|done]|].
    lia.
  - simpl. split; [lia|]. split; [done|]. split; [by left|done].
  - unfold FUEL. lia.
  - destruct HP as (Hi & Hbs & Hlow & _). cbn [fst snd] in Hi, Hbs, Hlow. subst bs. exists i. split; [done|].
    rewrite Hcond in Hc by done. injection Hc as Hc. apply Z.ltb_ge in Hc. split; [change ALOCATORS with 16; lia|]. done.
Qed.

Lemma size_loop_ok size :
  size ≤ list_size 15 → ∃ i, size_loop size = Ok (i, list_size i) ∧ fits size i.
Proof.
  intros Hs. unfold size_loop.
  apply (fit_loop (λ i, i + 1)); [done| |exact Hs].
  intros i bs Hi. by rewrite (proj2 (Z.ltb_lt i NODES)) by (change NODES with 4092; lia).
Qed.

(** ** Allocation *)

Section AllocProofs.
Context {B : Type} `{PageSource B}.

(** The free memory ends below the end of the heap. *)
Definition below (ls : blocks) (b : B) : Prop := ∀ x, free_byte ls x → x < brk_at b.

(** The outcome of an allocation from list [i] that took [n] pages: the block
    at [r] comes out of the free memory and the new pages. *)
Record allocated (i : Z) (ls : blocks) (b : B) (n : nat) (pool : list Z)
    (r : Z) (a' : mem_allocator) (b' : B) (ls' : blocks) (pool' : list Z) : Prop := {
  al_good : good a' ls' pool';
  al_at : block_at i r;
  al_brk : brk_at b' = brk_at b + PAGE_SIZE * Z.of_nat n;
  al_below : below ls' b' ∧ r + list_size i ≤ brk_at b';
  al_bytes : ∀ x, free_byte ls x ∨ brk_at b ≤ x < brk_at b' ↔
                  free_byte ls' x ∨ r ≤ x < r + list_size i;
  al_apart : ∀ x, r ≤ x < r + list_size i → ¬ free_byte ls' x;
  al_pool : Z.of_nat (length pool) ≤ Z.of_nat (length pool') + Z.of_nat n + ALOCATORS
}.

(** Taking a page of the heap's end into the free memory. *)
Lemma take_page a ls pool b n :
  good a ls pool → below ls b → brk_room b (Datatypes.S n) → (0 < length pool)%nat →
  ∃ b' nn a1 a' ls' pool', kbrk1 b = Ok (brk_at b, b') ∧ node_new a (brk_at b) = Ok (nn, a1) ∧
    list_put LEVELS a1 9 nn = Ok a' ∧ good a' ls' pool' ∧ below ls' b' ∧ brk_room b' n ∧
    brk_at b' = brk_at b + PAGE_SIZE ∧ (length pool ≤ Datatypes.S (length pool'))%nat ∧
    ∀ x, free_byte ls' x ↔ free_byte ls x ∨ brk_at b ≤ x < brk_at b'.
Proof.
  intros Hg Hbel Hroom Hpool. destruct (kbrk1_spec b n Hroom) as (b' & Hk & Hat & Hroom').
  destruct (brk_bounds b _ Hroom) as (Hb0 & Hbal & Hbm).
  change PAGE_SIZE with 4096 in *. change (list_size 9) with 4096 in *.
  destruct pool as [|nn pool]; [simpl in Hpool; lia|].
  destruct (put_block_ok a ls nn pool 9 (brk_at b) Hg)
    as (a1 & a' & ls' & pool' & Hnew & Hput & Hg' & Hlen & _ & Hfree).
  { unfold is_list. change ALOCATORS with 16. lia. }
  { split; [done|]. change (list_size 9) with 4096. split; [done|]. lia. }
  { intros x Hx Hf. apply Hbel in Hf. lia. }
  change (list_size 9) with 4096 in Hfree.
  exists b', nn, a1, a', ls', pool'. do 4 (split; [done|]).
  rewrite Hat. split; [|split; [done|split; [done|split; [simpl; lia|done]]]].
  intros x Hx. apply Hfree in Hx as [Hx|Hx]; [apply Hbel in Hx|]; lia.
Qed.

(** A turn that finds a block ... *)
Lemma alloc_found f size i a b ls pool r a1 ls1 pool1 :
  size_loop size = Ok (i, list_size i) → fits size i → below ls b →
  Z.of_nat (length pool) - (ALOCATORS - 1 - i) ≤ Z.of_nat (length pool1) →
  list_get LEVELS a i = Ok (r, a1) → good a1 ls1 pool1 → block_at i r → took i r ls ls1 →
  mem_alloc (Datatypes.S f) a b size = Ok (r, a1, b) ∧
  allocated i ls b 0 pool r a1 b ls1 pool1.
Proof.
  intros Hloop [Hi _] Hbel Hlen Hget Hg1 Hat [Htf Htn].
  pose proof Hat as (Hr0 & _). change ALOCATORS with 16 in *. split.
  - cbn [mem_alloc]. rewrite Hloop. cbn [mbind res_bind].
    rewrite bool_decide_false by (change NODES with 4092; lia).
    rewrite Hget. cbn [mbind res_bind]. by rewrite bool_decide_true by lia.
  - assert (Hil : is_list i) by (unfold is_list; change ALOCATORS with 16; lia).
    destruct (list_bounds i Hil) as [_ Hpos]. split; try done.
    + lia.
    + split; [intros x Hx; apply Hbel, Htf; by left|].
      assert (Hlast : free_byte ls (r + list_size i - 1)) by (apply Htf; right; lia).
      apply Hbel in Hlast. lia.
    + intros x. rewrite <- Htf. split; [|by left]. intros [?|?]; [done|lia].
    + change ALOCATORS with 16. lia.
Qed.

(** ... and one that takes a page. *)
Lemma alloc_page f size i a b ls pool n :
  size_loop size = Ok (i, list_size i) → fits size i → list_get LEVELS a i = Ok (0, a) →
  good a ls pool → below ls b → brk_room b (Datatypes.S n) → (0 < length pool)%nat →
  ∃ b1 a1 ls1 pool1, mem_alloc (Datatypes.S f) a b size = mem_alloc f a1 b1 size ∧
    good a1 ls1 pool1 ∧ below ls1 b1 ∧ brk_room b1 n ∧ brk_at b1 = brk_at b + PAGE_SIZE ∧
    (length pool ≤ Datatypes.S (length pool1))%nat ∧
    ∀ x, free_byte ls1 x ↔ free_byte ls x ∨ brk_at b ≤ x < brk_at b1.
Proof.
  intros Hloop [Hi _] Hget Hg Hbel Hroom Hpool. change ALOCATORS with 16 in Hi.
  destruct (take_page a ls pool b n Hg Hbel Hroom Hpool)
    as (b1 & nn & a1 & a2 & ls2 & pool2 & Hk & Hnew & Hput & Hrest).
  exists b1, a2, ls2, pool2. split; [|done].
  cbn [mem_alloc]. rewrite Hloop. cbn [mbind res_bind].
  rewrite bool_decide_false by (change NODES with 4092; lia).
  rewrite Hget. cbn [mbind res_bind]. rewrite bool_decide_false by (intros Hz; by apply Hz).
  rewrite Hk. cbn [mbind res_bind]. rewrite Hnew. cbn [mbind res_bind]. by rewrite Hput.
Qed.

Lemma mem_alloc_loop size i t : size_loop size = Ok (i, list_size i) → fits size i →
  t mod list_size i = 0 → ∀ k fuel a b ls pool n,
  good a ls pool → below ls b → brk_room b n → (k ≤ n)%nat → (k < fuel)%nat →
  Z.of_nat k + ALOCATORS ≤ Z.of_nat (length pool) →
  (∀ x, t ≤ x < brk_at b → free_byte ls x) →
  t + list_size i ≤ brk_at b + PAGE_SIZE * Z.of_nat k →
  ∃ r a' b' ls' pool' m, mem_alloc fuel a b size = Ok (r, a', b') ∧ (m ≤ k)%nat ∧
    brk_room b' (n - m) ∧ allocated i ls b m pool r a' b' ls' pool'.
Proof.
  intros Hloop Hfit Hal k. assert (Hi : 1 ≤ i < ALOCATORS) by apply Hfit.
  change ALOCATORS with 16 in *.
  induction k as [|k IH]; intros fuel a b ls pool n Hg Hbel Hroom Hkn Hf Hpool Hreg Hend;
    (destruct fuel as [|f]; [lia|]);
    (destruct (list_get_ok LEVELS i a ls pool) as
      [[Hget Hnone]|(r & a1 & ls1 & pool1 & Hget & Hg1 & Hlen & Hat & Ht)];
      [change ALOCATORS with 16; lia|change (Z.of_nat LEVELS) with 17; change ALOCATORS with 16; lia
      |done|change ALOCATORS with 16; lia| |
       destruct (alloc_found f size i a b ls pool r a1 ls1 pool1) as [Heq Hall]; try done;
       exists r, a1, b, ls1, pool1, 0%nat; split; [done|split;
         [lia|split; [by rewrite Nat.sub_0_r|done]]]]).
  - exfalso.
    destruct (covered ls (Z.to_nat i) t) as (l & nn & x & Hl & Hin & _);
      rewrite ?Z2Nat.id by lia; [lia|change ALOCATORS with 16; lia|apply Hg|apply Hg|done
      |intros x Hx; apply Hreg; lia|].
    rewrite Z2Nat.id in Hl by lia. rewrite (Hnone l Hl) in Hin. by apply not_elem_of_nil in Hin.
  - destruct n as [|n]; [lia|].
    destruct (alloc_page f size i a b ls pool n)
      as (b1 & a1 & ls1 & pool1 & Heq & Hg1 & Hbel1 & Hroom1 & Hat1 & Hlen1 & Hfree1);
      try done; [lia|].
    change PAGE_SIZE with 4096 in *.
    destruct (IH f a1 b1 ls1 pool1 n Hg1 Hbel1 Hroom1)
      as (r & a' & b' & ls' & pool' & m & Heq' & Hm & Hroom' & [? ? Hbrk ? Hbytes ? Hp]);
      [lia|lia|lia| |lia|].
    { intros x Hx. apply Hfree1. destruct (decide (x < brk_at b)); [left; apply Hreg|right]; lia. }
    exists r, a', b', ls', pool', (Datatypes.S m). rewrite Heq. split; [done|]. split; [lia|].
    split; [done|]. split; try done; change PAGE_SIZE with 4096 in *; try lia.
    intros x. rewrite <- Hbytes, Hfree1.
    assert (brk_at b ≤ x < brk_at b' ↔ brk_at b ≤ x < brk_at b1 ∨ brk_at b1 ≤ x < brk_at b')
      by lia. tauto.
Qed.

Lemma fits_unique size i j : fits size i → fits size j → i = j.
Proof.
  assert (Hlt : ∀ i j, fits size i → fits size j → ¬ i < j).
  { intros x y (Hx & Hsx & _) (Hy & _ & Hly) Hxy. change ALOCATORS with 16 in *.
    destruct Hly as [->|Hly]; [lia|].
    assert (list_size x ≤ list_size (y - 1)); [|lia].
    rewrite !size_eq by lia. apply Z.pow_le_mono_r; lia. }
  intros Hi Hj. pose proof (Hlt i j Hi Hj). pose proof (Hlt j i Hj Hi). lia.
Qed.

(** The pages an allocation from list [i] takes at most: enough for an
    aligned block of that size. *)
Definition pages_for (i : Z) : nat :=
  Z.to_nat (2 * (Z.max (list_size i) PAGE_SIZE / PAGE_SIZE) - 1).

(** The first address from the page [p] on that is aligned for list [i]. *)
Lemma aligned_above i p :
  is_list i → 0 < p → p mod PAGE_SIZE = 0 →
  ∃ t, p ≤ t ∧ t mod list_size i = 0 ∧
    t + list_size i ≤ p + PAGE_SIZE * Z.of_nat (pages_for i).
Proof.
  intros Hi Hp Hal. destruct (list_bounds i Hi) as [Hi16 Hpos].
  set (M := Z.max (list_size i) PAGE_SIZE).
  assert (HM : (list_size i | M) ∧ ∃ q, M = PAGE_SIZE * q ∧ 0 < q).
  { unfold M. change PAGE_SIZE with (list_size 9). destruct (decide (i ≤ 9)) as [Hle|Hgt].
    - assert (list_size i ≤ list_size 9) by (rewrite !size_eq by lia; apply Z.pow_le_mono_r; lia).
      rewrite Z.max_r by done. split; [apply size_divide; lia|]. exists 1. lia.
    - assert (list_size 9 ≤ list_size i) by (rewrite !size_eq by lia; apply Z.pow_le_mono_r; lia).
      rewrite Z.max_l by done. split; [done|].
      destruct (size_divide 9 i) as [q Hq]; [lia|lia|]. exists q.
      pose proof (size_pos 9). split; [lia|]. nia. }
  destruct HM as (Hdiv & q & HM & Hq). change PAGE_SIZE with 4096 in *.
  set (z := (p + M - 1) / M). exists (M * z).
  assert (Hz : p ≤ M * z ≤ p + M - 1) by (unfold z; dlia).
  split; [lia|]. split.
  { apply Z.mod_divide; [lia|]. by apply Z.divide_mul_l. }
  assert (Hpf : Z.of_nat (pages_for i) = 2 * q - 1).
  { unfold pages_for. change PAGE_SIZE with 4096. fold M. rewrite HM.
    rewrite (Z.mul_comm 4096 q), Z.div_mul by lia. lia. }
  rewrite Hpf. assert (list_size i ≤ M) by (unfold M; lia).
  assert (Hw : M * z = 4096 * (q * z)) by (rewrite HM; ring).
  assert (q * z ≤ p / 4096 + q - 1) by dlia.
  assert (p = 4096 * (p / 4096)) by dlia. lia.
Qed.

(** Allocation of at most 256 KiB. *)
Lemma mem_alloc_ok size i k fuel a b ls pool :
  good a ls pool → below ls b → fits size i → brk_room b k →
  (pages_for i ≤ k)%nat →
  Z.of_nat (pages_for i) + ALOCATORS ≤ Z.of_nat (length pool) → (pages_for i < fuel)%nat →
  ∃ r a' b' ls' pool' n, mem_alloc fuel a b size = Ok (r, a', b') ∧ (n ≤ pages_for i)%nat ∧
    brk_room b' (k - n) ∧ allocated i ls b n pool r a' b' ls' pool'.
Proof.
  intros Hg Hbel Hfit Hroom Hk Hpool Hf. pose proof Hfit as (Hi & Hsz & _).
  assert (Hmax : size ≤ list_size 15).
  { etrans; [exact Hsz|]. change ALOCATORS with 16 in Hi. rewrite !size_eq by lia.
    apply Z.pow_le_mono_r; lia. }
  destruct (size_loop_ok size Hmax) as (j & Hloop & Hfj).
  rewrite (fits_unique size j i Hfj Hfit) in Hloop.
  destruct (brk_bounds b _ Hroom) as (Hb0 & Hbal & _).
  destruct (aligned_above i (brk_at b) Hi Hb0 Hbal) as (t & Hpt & Hal & Hend).
  eapply (mem_alloc_loop size i t Hloop Hfit Hal (pages_for i) fuel a b ls pool); try done.
  intros x Hx. lia.
Qed.

(** C12. An allocation of at most 256 KiB, with memory for the pages it may
    need, ends and returns an aligned block of the smallest block size that
    holds it.  The block consists of bytes that were free or come from the
    pages taken, it overlaps no byte that stays free, no other byte is lost,
    and the free memory is as coalesced as before. *)
Theorem mem_alloc_block size i fuel a b ls pool :
  good a ls pool → below ls b → fits size i → brk_room b (pages_for i) →
  Z.of_nat (pages_for i) + ALOCATORS ≤ Z.of_nat (length pool) → (pages_for i < fuel)%nat →
  ∃ r a' b' ls' pool' n, mem_alloc fuel a b size = Ok (r, a', b') ∧ (n ≤ pages_for i)%nat ∧
    allocated i ls b n pool r a' b' ls' pool'.
Proof.
  intros Hg Hbel Hfit Hroom Hpool Hf.
  destruct (mem_alloc_ok size i (pages_for i) fuel a b ls pool Hg Hbel Hfit Hroom)
    as (r & a' & b' & ls' & pool' & n & Heq & Hn & _ & Hal); [done|done|done|].
  by exists r, a', b', ls', pool', n.
Qed.

(** C38. A request of more than 256 KiB never returns: every turn takes another
    page, but no list holds blocks of that size. *)
Theorem mem_alloc_oversize size a b :
  list_size 15 < size → ¬ ∃ fuel r, mem_alloc fuel a b size = Ok r.
Proof.
  intros Hsize (fuel & r & Heq0). revert a b Heq0. induction fuel as [|f IH]; intros a b Heq; [done|].
  cbn [mem_alloc] in Heq. apply res_bind_Ok in Heq as ([i bs] & Hloop & Heq).
  assert (Hi : 16 ≤ i).
  { unfold size_loop in Hloop.
    apply (while_inv (λ s : Z * Z, (1 ≤ s.1 ≤ 15 ∧ s.2 = list_size s.1) ∨ 16 ≤ s.1)) in Hloop
      as [[[Hi Hbs]|Hi] Hc]; cbn [fst snd] in *.
    - subst bs. rewrite (proj2 (Z.ltb_lt i NODES)) in Hc by (change NODES with 4092; lia).
      assert (list_size i ≤ list_size 15) by (rewrite !size_eq by lia; apply Z.pow_le_mono_r; lia).
      rewrite (proj2 (Z.ltb_lt _ size)) in Hc by lia. done.
    - done.
    - intros [j bj] s Hj [= <-]. cbn [fst snd] in *. destruct Hj as [[Hj ->]|Hj]; [|right; lia].
      rewrite shift_size by lia. destruct (decide (j = 15)); [right; lia|left].
      split; [lia|done].
    - left. split; [lia|done]. }
  assert (Hget : (if bool_decide (i = NODES) then Ok (0, a) else list_get LEVELS a i) = Ok (0, a)).
  { case_bool_decide; [done|]. unfold LEVELS. cbn [list_get].
    by rewrite (proj2 (Z.leb_le ALOCATORS i)) by done. }
  rewrite Hget in Heq. cbn [mbind res_bind] in Heq.
  rewrite bool_decide_false in Heq by (intros Hz; by apply Hz).
  apply res_bind_Ok in Heq as ([p b1] & _ & Heq). apply res_bind_Ok in Heq as ([n a1] & _ & Heq).
  apply res_bind_Ok in Heq as (a2 & _ & Heq). by apply IH in Heq.
Qed.

(** Returning a block. *)
Lemma mem_free_ok a ls pool size l x :
  good a ls pool → pool ≠ [] → fits size l → block_at l x →
  (∀ b, x ≤ b < x + list_size l → ¬ free_byte ls b) →
  ∃ a' ls' pool', mem_free a x size = Ok a' ∧ good a' ls' pool' ∧
    ∀ b, free_byte ls' b ↔ free_byte ls b ∨ x ≤ b < x + list_size l.
Proof.
  intros Hg Hp Hfit Hat Hdisj. destruct pool as [|i pool]; [done|].
  pose proof Hfit as (Hl & Hsz & _).
  assert (Hmax : size ≤ list_size 15).
  { etrans; [exact Hsz|]. change ALOCATORS with 16 in Hl. rewrite !size_eq by lia.
    apply Z.pow_le_mono_r; lia. }
  destruct (put_block_ok a ls i pool l x Hg Hl Hat Hdisj)
    as (a1 & a' & ls' & pool' & Hnew & Hput & Hg' & _ & _ & Hfree).
  exists a', ls', pool'. split; [|done]. unfold mem_free. rewrite Hnew. cbn [mbind res_bind].
  destruct (fit_loop (λ i, u8 (i + 1)) (λ '(i, bs), Ok (bs <? size)) size) as (j & Hw & Hfj);
    [intros k Hk; apply u8_small; lia|done|done|].
  rewrite Hw. cbn [mbind res_bind]. by rewrite (fits_unique size j l Hfj Hfit).
Qed.

(** C13. Giving a block back: what [mem_alloc] returned can be passed to
    [mem_free] with the same size, and then the free memory is what it was
    before the allocation, with the pages it took, and coalesced again. *)
Theorem mem_alloc_free size i fuel a b ls pool :
  good a ls pool → below ls b → fits size i → brk_room b (pages_for i) →
  Z.of_nat (pages_for i) * 2 + ALOCATORS * 2 ≤ Z.of_nat (length pool) →
  (pages_for i < fuel)%nat →
  ∃ r a' b' a'' ls'' pool'', mem_alloc fuel a b size = Ok (r, a', b') ∧
    mem_free a' r size = Ok a'' ∧ good a'' ls'' pool'' ∧
    ∀ x, free_byte ls'' x ↔ free_byte ls x ∨ brk_at b ≤ x < brk_at b'.
Proof.
  intros Hg Hbel Hfit Hroom Hpool Hf. change ALOCATORS with 16 in Hpool.
  destruct (mem_alloc_block size i fuel a b ls pool) as (r & a' & b' & ls' & pool' & n & Heq & Hn & Hal);
    try done; [change ALOCATORS with 16; lia|].
  destruct Hal as [Hg' Hat Hbrk _ Hbytes Hap Hp]. change ALOCATORS with 16 in Hp.
  destruct (mem_free_ok a' ls' pool' size i r Hg') as (a'' & ls'' & pool'' & Hfr & Hg'' & Hfree);
    try done; [intros ->; change (length (@nil Z)) with 0%nat in Hp; unfold pages_for in *; lia|].
  exists r, a', b', a'', ls'', pool''. split; [done|]. split; [done|]. split; [done|].
  intros x. by rewrite Hfree, Hbytes.
Qed.

End AllocProofs.

(** ** The initial state *)

Definition no_blocks : blocks := λ _, [].

(** After [k] turns the first [k] nodes are chained. *)
Definition chained (k : Z) (a : mem_allocator) : Prop :=
  ∀ i, 0 ≤ i < k → nd a i = Node 0 (i + 1).

Lemma init_loop a0 :
  ∃ a, for_upto NODES (λ i a, a ← set_addr i 0 a; set_next i (u16 (i + 1)) a) a0 = Ok a ∧
    chained NODES a.
Proof.
  apply (for_upto_inv (λ k a, chained k a)); [by change NODES with 4092|intros i Hi; lia|].
  intros k a Hk Hc. change NODES with 4092 in Hk.
  rewrite set_addr_in by (change NODES with 4092; lia). cbn [mbind res_bind].
  rewrite set_next_in by (change NODES with 4092; lia). eexists. split; [done|].
  intros i Hi. rewrite nd_with_next. case_decide as Hd; [subst i|].
  - rewrite nd_with_addr, decide_True by done. by rewrite u16_small by lia.
  - rewrite nd_with_addr, decide_False by done. apply Hc. lia.
Qed.

Lemma heads_loop k : ∀ l a, 1 ≤ l → l + Z.of_nat k ≤ ALOCATORS →
  ∃ a', for_from (λ i a, set_head i 0 a) k l a = Ok a' ∧ nodes a' = nodes a ∧
    ∀ l', head_of a' l' = if decide (l ≤ l' < l + Z.of_nat k) then 0 else head_of a l'.
Proof.
  induction k as [|k IH]; intros l a Hl Hk.
  { exists a. split; [done|]. split; [done|]. intros l'. rewrite decide_False by lia. done. }
  cbn [for_from]. rewrite set_head_in by lia. cbn [mbind res_bind].
  destruct (IH (l + 1) (with_head l 0 a)) as (a' & Heq & Hn & Hh); [lia|lia|].
  exists a'. split; [done|]. split; [done|]. intros l'. rewrite Hh, head_with_head.
  repeat case_decide; lia || done.
Qed.

Lemma pool_lseg ns k : ∀ i, 0 < i → i + Z.of_nat k = NODES →
  (∀ j, i ≤ j < NODES → arr node0 ns j = Node 0 (if decide (j = NODES - 1) then 0 else j + 1)) →
  lseg ns (if decide (k = 0%nat) then 0 else i) ((λ i, (i, 0)) <$> seqZ i (Z.of_nat k)) 0.
Proof.
  induction k as [|k IH]; intros i Hi Hk Hns; [done|].
  rewrite seqZ_cons by lia. replace (Z.pred (Z.of_nat (Datatypes.S k))) with (Z.of_nat k) by lia.
  rewrite fmap_cons. cbn [lseg]. rewrite decide_False by lia. rewrite Hns by lia. simpl.
  split; [done|]. split; [lia|]. split; [done|].
  specialize (IH (Z.succ i)). destruct (decide (k = 0%nat)) as [->|Hne].
  - rewrite decide_True by lia. done.
  - rewrite decide_False by lia. apply IH; [lia|lia|]. intros j Hj. apply Hns. lia.
Qed.

(** [mem_allocator_init] puts any allocator into a good state without
    free blocks, with every node but the null one spare. *)
Lemma mem_allocator_init_good a0 :
  ∃ a, mem_allocator_init a0 = Ok a ∧ good a no_blocks (seqZ 1 (NODES - 1)).
Proof.
  destruct (init_loop a0) as (a1 & Heq1 & Hc). unfold mem_allocator_init. rewrite Heq1.
  cbn [mbind res_bind].
  rewrite (set_next_in a1 (NODES - 1) 0) by (change NODES with 4092; lia).
  cbn [mbind res_bind]. rewrite set_head_in by (change ALOCATORS with 16; lia).
  cbn [mbind res_bind].
  set (a2 := with_head 0 1 (with_next (NODES - 1) 0 a1)).
  destruct (heads_loop (Z.to_nat (ALOCATORS - 1)) 1 a2) as (a & Heq & Hn & Hh);
    [lia|change ALOCATORS with 16; lia|].
  exists a. split; [done|].
  assert (Hhead : head_of a 0 = 1).
  { rewrite Hh, decide_False by lia. unfold a2. by rewrite head_with_head, decide_True. }
  assert (Hheads : ∀ l, is_list l → head_of a l = 0).
  { intros l Hl. rewrite Hh. change ALOCATORS with 16. unfold is_list in Hl.
    change ALOCATORS with 16 in Hl. by rewrite decide_True by lia. }
  split; [split|split|].
  - rewrite Hhead, Hn. change 1 with (if decide (4091%nat = 0%nat) then 0 else 1).
    change (seqZ 1 (NODES - 1)) with (seqZ 1 (Z.of_nat 4091)).
    apply (pool_lseg _ 4091%nat 1); [lia|done|].
    intros j Hj. change (nodes a2) with (nodes (with_next (NODES - 1) 0 a1)).
    change (arr node0 (nodes (with_next (NODES - 1) 0 a1)) j)
      with (nd (with_next (NODES - 1) 0 a1) j).
    rewrite nd_with_next. case_decide as Hd.
    + rewrite decide_True by lia.
      rewrite Hc by (change NODES with 4092; lia). reflexivity.
    + rewrite decide_False by lia. apply Hc. lia.
  - intros l Hl. rewrite Hheads by done. reflexivity.
  - unfold owned. assert (Hz : flat_map (λ l, (no_blocks l).*1) lists = []) by done.
    rewrite Hz, app_nil_r. apply NoDup_seqZ.
  - intros l n x _ Hin. destruct (not_elem_of_nil _ Hin).
  - intros l n x l' n' x' _ _ Hin. destruct (not_elem_of_nil _ Hin).
  - intros l _. constructor.
  - intros l _ n x n' Hin. destruct (not_elem_of_nil _ Hin).
Qed.

(** The nodes that [n] calls of [node_new] return. *)
Fixpoint take_nodes (n : nat) (a : mem_allocator) (x : Z) : res (list Z) :=
  match n with
  | O => Ok []
  | Datatypes.S n' =>
      '(i, a) ← node_new a x; rs ← take_nodes n' a (x + 4096); Ok (i :: rs)
  end.

(** [node_new] does not notice that no node is spare: after the 4091
    spare nodes it returns node 0, the null node, and then node 1 again, which
    is still in use. *)
Theorem node_pool_wraps :
  (a ← mem_allocator_init allocator0; take_nodes 4093 a 0xC3000000)
  = Ok (seqZ 1 4091 ++ [0; 1]).
Proof. vm_compute. reflexivity. Qed.

(** ** Concrete runs *)

(** A heap that ends at its state and grows without further conditions. *)
#[global] Instance bump_pages : PageSource Z.
Proof.
  refine {| kbrk1 := λ b, Ok (b, b + PAGE_SIZE); brk_at := λ b, b;
            brk_room := λ b n, 0 < b ∧ b mod PAGE_SIZE = 0 ∧
              b + PAGE_SIZE * Z.of_nat n < 2 ^ 32 |}.
  - done.
  - intros b n (Hb & Hal & Hr). exists (b + PAGE_SIZE). split; [done|]. split; [done|].
    change PAGE_SIZE with 4096 in *. split; [lia|]. split; [dlia|lia].
Defined.

Lemma below_nothing (b : Z) : below no_blocks b.
Proof. intros x (l & n & y & _ & Hin & _). by apply not_elem_of_nil in Hin. Qed.

Lemma fits_100 : fits 100 4.
Proof. split; [by change ALOCATORS with 16|]. split; [done|]. by right. Qed.

Lemma room_1 : brk_room 0xC3000000 (pages_for 4).
Proof. split; [done|]. split; [done|]. by vm_compute. Qed.

Lemma enough_fuel : (pages_for 4 < 5)%nat.
Proof. change (pages_for 4) with 1%nat. lia. Qed.

Lemma spare_nodes' :
  Z.of_nat (pages_for 4) * 2 + ALOCATORS * 2 ≤ Z.of_nat (length (seqZ 1 (NODES - 1))).
Proof.
  rewrite length_seqZ. change ALOCATORS with 16. change NODES with 4092.
  change (pages_for 4) with 1%nat. lia.
Qed.

Lemma spare_nodes :
  Z.of_nat (pages_for 4) + ALOCATORS ≤ Z.of_nat (length (seqZ 1 (NODES - 1))).
Proof. pose proof spare_nodes'. change ALOCATORS with 16 in *. lia. Qed.

Lemma mem_alloc_block_witness :
  ∃ a r a' b' ls' pool' n, mem_allocator_init allocator0 = Ok a ∧
    mem_alloc 5 a 0xC3000000 100 = Ok (r, a', b') ∧ (n ≤ 1)%nat ∧
    allocated 4 no_blocks 0xC3000000 n (seqZ 1 (NODES - 1)) r a' b' ls' pool'.
Proof.
  destruct (mem_allocator_init_good allocator0) as (a & Ha & Hg).
  destruct (mem_alloc_block 100 4 5 a 0xC3000000 no_blocks (seqZ 1 (NODES - 1)) Hg)
    as (r & a' & b' & ls' & pool' & n & Heq & Hn & Hal).
  - apply below_nothing.
  - exact fits_100.
  - exact room_1.
  - exact spare_nodes.
  - exact enough_fuel.
  - exact (ex_intro _ a (ex_intro _ r (ex_intro _ a' (ex_intro _ b' (ex_intro _ ls'
      (ex_intro _ pool' (ex_intro _ n (conj Ha (conj Heq (conj Hn Hal)))))))))).
Defined.

Lemma mem_alloc_free_witness :
  ∃ a r a' b' a'', mem_allocator_init allocator0 = Ok a ∧
    mem_alloc 5 a 0xC3000000 100 = Ok (r, a', b') ∧ mem_free a' r 100 = Ok a''.
Proof.
  destruct (mem_allocator_init_good allocator0) as (a & Ha & Hg).
  destruct (mem_alloc_free 100 4 5 a 0xC3000000 no_blocks (seqZ 1 (NODES - 1)) Hg)
    as (r & a' & b' & a'' & _ & _ & Heq & Hfr & _).
  - apply below_nothing.
  - exact fits_100.
  - exact room_1.
  - exact spare_nodes'.
  - exact enough_fuel.
  - exact (ex_intro _ a (ex_intro _ r (ex_intro _ a' (ex_intro _ b' (ex_intro _ a''
      (conj Ha (conj Heq Hfr))))))).
Defined.

Lemma mem_alloc_oversize_witness :
  ¬ ∃ fuel r, mem_alloc fuel allocator0 0xC3000000 300000 = Ok r.
Proof. apply (mem_alloc_oversize 300000). vm_compute. reflexivity. Defined.

End Kmalloc.
