(* ===== verification/Memory.v ===== *)
(** Kernel memory (kernel/memory.c, kernel/message.c).

    [brk] is the end of the kernel's heap with the paging machine below it;
    [kbrk] is the [PageSource] the buddy allocator of Kmalloc.v runs on.
    [mem_init] reads the memory map of the boot loader, which [mmap_at] gives
    as a list of regions, and hands the frames to Palloc.v.  [kmalloc] and
    [kfree] are the allocator behind its lock; [message_alloc] and
    [message_free] use them.

    The bytes of the kernel's memory are a [mem8] beside the page tables, as in
    Strings.v. *)

From Stdlib Require Import ZArith Lia.
From stdpp Require Import base option list gmap.
From S2P Require Import Prelude Interfaces Locks Palloc Util Strings Paging Kmalloc.

Module Memory.
Import Paging.

Notation mem8 := Strings.mem8.

Definition page_count (bytes : Z) : Z := u32 (bytes + PAGE_SIZE - 1) / PAGE_SIZE.

Definition page_align (addr : Z) : Z :=
  u32 (Z.shiftl (Z.shiftr addr PAGE_SHIFT) PAGE_SHIFT).

(** The 32-bit word at [a]. *)
Definition load32 (a : Z) (m : mem8) : res Z :=
  b0 ← Strings.load8 a m; b1 ← Strings.load8 (a + 1) m;
  b2 ← Strings.load8 (a + 2) m; b3 ← Strings.load8 (a + 3) m;
  Ok (b0 + 256 * b1 + 65536 * b2 + 16777216 * b3).

Definition store32 (a v : Z) (m : mem8) : res mem8 :=
  m ← Strings.store8 a v m; m ← Strings.store8 (a + 1) (v / 256) m;
  m ← Strings.store8 (a + 2) (v / 65536) m; Strings.store8 (a + 3) (v / 16777216) m.

(** The words [ws] one behind the other from [a] on. *)
Fixpoint store_words (a : Z) (ws : list Z) (m : mem8) : res mem8 :=
  match ws with
  | [] => Ok m
  | w :: ws => m ← store32 a w m; store_words (a + 4) ws m
  end.

(** *** Words in memory *)

Lemma store32_ok a w m :
  Strings.writable m a 4 → 0 ≤ w < 2 ^ 32 →
  ∃ m', store32 a w m = Ok m' ∧ load32 a m' = Ok w ∧ Strings.changed a 4 m m'.
Proof.
  intros Hw Hv. unfold store32.
  assert (H0 : is_Some (m !! a)) by (apply Hw; lia).
  assert (H1 : is_Some (m !! (a + 1))) by (apply Hw; lia).
  assert (H2 : is_Some (m !! (a + 2))) by (apply Hw; lia).
  assert (H3 : is_Some (m !! (a + 3))) by (apply Hw; lia).
  rewrite Strings.store8_Some by done. cbn [mbind res_bind].
  rewrite Strings.store8_Some by (by rewrite lookup_insert_ne by lia). cbn [mbind res_bind].
  rewrite Strings.store8_Some by (by rewrite !lookup_insert_ne by lia). cbn [mbind res_bind].
  rewrite Strings.store8_Some by (by rewrite !lookup_insert_ne by lia).
  eexists. split; [reflexivity|]. split.
  - unfold load32, Strings.load8.
    repeat first [rewrite lookup_insert_eq|rewrite lookup_insert_ne by lia].
    cbn [mbind res_bind]. f_equal. unfold u8. dlia.
  - split.
    + intros b Hb. by rewrite !lookup_insert_ne by lia.
    + intros b Hb. rewrite !lookup_insert. repeat case_decide; by eauto.
Qed.

Lemma load32_changed a k p m m' :
  Strings.changed p k m m' → (a + 4 ≤ p ∨ p + k ≤ a) → load32 a m' = load32 a m.
Proof.
  intros [Hs _] Ha. unfold load32, Strings.load8. by rewrite !Hs by lia.
Qed.

Lemma store_words_ok ws : ∀ a m,
  Strings.writable m a (4 * Z.of_nat (length ws)) → Forall (λ w, 0 ≤ w < 2 ^ 32) ws →
  ∃ m', store_words a ws m = Ok m' ∧ Strings.changed a (4 * Z.of_nat (length ws)) m m' ∧
    ∀ i w, ws !! i = Some w → load32 (a + 4 * Z.of_nat i) m' = Ok w.
Proof.
  induction ws as [|w ws IH]; intros a m Hw Hf; cbn [store_words].
  - exists m. split; [done|]. split; [apply Strings.changed_refl|]. intros i w Hi. by rewrite lookup_nil in Hi.
  - apply Forall_cons in Hf as [Hv Hf]. cbn [length] in Hw.
    destruct (store32_ok a w m) as (m1 & -> & Hl & Hc); [|done|].
    { eapply Strings.writable_sub; [exact Hw|lia|lia]. }
    cbn [mbind res_bind].
    destruct (IH (a + 4) m1) as (m2 & -> & Hc2 & Hl2); [|done|].
    { eapply Strings.writable_changed; [exact Hc|].
      eapply Strings.writable_sub; [exact Hw|lia|lia]. }
    exists m2. split; [done|]. split.
    + cbn [length]. eapply Strings.changed_trans;
        (eapply Strings.changed_widen; [eassumption|lia|lia]).
    + intros [|i] v Hi; simpl in Hi.
      * injection Hi as <-. replace (a + 4 * Z.of_nat 0) with a by lia.
        rewrite (load32_changed a _ (a + 4) m1 m2 Hc2); [done|left; lia].
      * replace (a + 4 * Z.of_nat (S i)) with (a + 4 + 4 * Z.of_nat i) by lia. by apply Hl2.
Qed.

(** ** The end of the heap *)

Section Brk.
Context {F : Type} `{FrameAlloc F}.

Record brk := Brk { heap : Z; vm : mm F }.

(** One turn of the loop of [kbrk]. *)
Definition kbrk_step (b : brk) : res brk :=
  r ← paging_is_mapped (heap b) (vm b);
  vm ← (if bool_decide (r = 0) then
          '(phys, vm) ← alloc_frame (vm b);
          paging_map (heap b) phys (Z.lor PAGE_PRESENT PAGE_WRITABLE) vm
        else Ok (vm b));
  Ok (Brk (u32 (heap b + PAGE_SIZE)) vm).

Definition kbrk (pages : Z) (b : brk) : res (Z * brk) :=
  let res := heap b in
  b ← for_upto pages (λ _, kbrk_step) b;
  Ok (res, b).

(** What [n] more pages need: at most two frames each (the page and a table),
    below the pages of the interrupt controllers. *)
Record room (b : brk) (n : nat) : Prop := {
  room_inv : paging_inv (vm b);
  room_frames : frames_left (2 * n) (frames (vm b));
  room_start : 0 < heap b;
  room_aligned : heap b mod PAGE_SIZE = 0;
  room_end : heap b + PAGE_SIZE * Z.of_nat n ≤ 0xFEC00000
}.

Lemma room_le b n k : (k ≤ n)%nat → room b n → room b k.
Proof.
  intros Hle [Hinv Hfr Hst Hal Hend].
  split; [done|by apply (frames_left_le (2 * n)); [lia|]|done|done|].
  rewrite PAGE_SIZE_eq in *. lia.
Qed.

Definition maps (s : mm F) (va pa : Z) : Prop := walk (ram s) (cr3 s) va = Some pa.

(** Mapping a page that has no translation keeps the translations there are. *)
Lemma paging_map_new s virt phys flags va pa s' :
  paging_inv s → 0 ≤ virt < 2 ^ 32 → page_dir_index virt < 1023 → 0 ≤ phys < 2 ^ 32 →
  (∃ p, frame_free (frames s) p) → walk (ram s) (cr3 s) virt = None →
  paging_map virt phys flags s = Ok s' →
  0 ≤ va < 2 ^ 32 → page_dir_index va < 1023 → maps s va pa → maps s' va pa.
Proof.
  intros Hs Hv Hi Hp Hfree Hnone Heq Hva Hd Hm.
  destruct (paging_map_ok s virt phys flags Hs Hv Hi Hp (or_intror Hfree))
    as (s1 & s2 & a & Heq2 & Hcase & Ha & Hs2 & Hinv1 & _).
  assert (s2 = s') as -> by congruence. clear Heq2.
  assert (Hw : ∀ v, 0 ≤ v < 2 ^ 32 → page_dir_index v < 1023 →
    walk (ram s1) (cr3 s1) v = walk (ram s) (cr3 s) v).
  { intros v Hv' Hd'. destruct Hcase as [->|(He & q & Hq & Hqf & Hft)]; [done|].
    destruct (index_bounds virt Hv) as [Hi0 _].
    apply (walk_fresh_table s s1 (page_dir_index virt) q v); done || lia. }
  unfold maps in *. rewrite <- (Hw va) in Hm by done. rewrite <- (Hw virt) in Hnone by done.
  rewrite walk_slot in Hm, Hnone. rewrite walk_slot, Hs2.
  rewrite (slot_store s1 virt a) by done. rewrite Ha in Hnone.
  destruct (slot s1 va) as [b|]; [|done]. cbv zeta in *. cbn [ram].
  destruct (decide (a = b)) as [Hab|Hne].
  - subst b. destruct (present (ld (ram s1) a)); [discriminate Hnone|discriminate Hm].
  - unfold ld. rewrite arr_insert_ne by done. exact Hm.
Qed.

Lemma heap_index h : 0 < h → h mod PAGE_SIZE = 0 → h < 0xFEC00000 →
  0 ≤ h < 2 ^ 32 ∧ page_dir_index h < 1023.
Proof. intros. split; [lia|]. rewrite page_dir_index_eq. dlia. Qed.

(** The address of page [i] behind [h]. *)
Definition page_at (h i : Z) : Z := h + PAGE_SIZE * i.

(** The heap of [b] has grown by [n] pages, which are mapped, to [b']: no
    translation is lost, and a translation [b] does not have leads to a frame
    that was free and is not any more. *)
Record grown (b b' : brk) (n : Z) : Prop := {
  gr_heap : heap b' = page_at (heap b) n;
  gr_pages : ∀ i, 0 ≤ i < n → ∃ pa, maps (vm b') (page_at (heap b) i) pa;
  gr_kept : ∀ va pa, 0 ≤ va < 2 ^ 32 → page_dir_index va < 1023 →
    maps (vm b) va pa → maps (vm b') va pa;
  gr_new : ∀ va pa, 0 ≤ va < 2 ^ 32 → page_dir_index va < 1023 →
    maps (vm b') va pa → maps (vm b) va pa ∨
      ∃ q, pa = PAGE_SIZE * q + va mod PAGE_SIZE ∧ frame_free (frames (vm b)) q ∧
        ¬ frame_free (frames (vm b')) q;
  gr_free : ∀ q, frame_free (frames (vm b')) q → frame_free (frames (vm b)) q
}.

Lemma grown_refl b : grown b b 0.
Proof.
  split; [unfold page_at; lia|lia|done| |done]. intros va pa _ _ ?. by left.
Qed.

Lemma grown_trans b1 b2 b3 n :
  0 ≤ n → room b1 (Z.to_nat n + 1) → grown b1 b2 n → grown b2 b3 1 → grown b1 b3 (n + 1).
Proof.
  intros Hn Hroom [Hh Hp Hk Hw Hf] [Hh' Hp' Hk' Hw' Hf'].
  pose proof (room_start _ _ Hroom). pose proof (room_end _ _ Hroom) as Hend.
  pose proof (room_aligned _ _ Hroom) as Hal. rewrite PAGE_SIZE_eq in Hend.
  split.
  - rewrite Hh', Hh. unfold page_at. lia.
  - intros i Hi. destruct (decide (i < n)) as [Hlt|].
    + destruct (Hp i) as [pa Hpa]; [lia|]. exists pa. unfold page_at in *. rewrite PAGE_SIZE_eq in *.
      apply Hk'; [lia| |done]. rewrite page_dir_index_eq. dlia.
    + destruct (Hp' 0) as [pa Hpa]; [lia|]. exists pa. replace i with n by lia.
      rewrite Hh in Hpa. unfold page_at in *. by replace (heap b1 + PAGE_SIZE * n + PAGE_SIZE * 0)
        with (heap b1 + PAGE_SIZE * n) in Hpa by lia.
  - intros va pa Hva Hd Hm. by apply Hk', Hk.
  - intros va pa Hva Hd Hm.
    destruct (Hw' va pa Hva Hd Hm) as [Hm2|(q & Hq & Hqf & Hqn)];
      [destruct (Hw va pa Hva Hd Hm2) as [Hm1|(q & Hq & Hqf & Hqn)]; [by left|]|];
      right; exists q; (split; [done|]); split; auto.
  - auto.
Qed.

(** One page. *)
Lemma kbrk_step_ok b n :
  room b (S n) → ∃ b', kbrk_step b = Ok b' ∧ room b' n ∧ grown b b' 1.
Proof.
  intros [Hinv Hfr Hst Hal Hend]. rewrite PAGE_SIZE_eq in Hend.
  destruct (heap_index (heap b)) as [Hr Hi]; [done..|lia|].
  assert (Hu : u32 (heap b + PAGE_SIZE) = heap b + PAGE_SIZE).
  { apply u32_small. rewrite PAGE_SIZE_eq in *. lia. }
  assert (Hh0 : ∀ i, 0 ≤ i < 1 → page_at (heap b) i = heap b) by (intros i ?; replace i with 0 by lia; unfold page_at; lia).
  unfold kbrk_step. rewrite paging_is_mapped_walk by done. cbn [mbind res_bind].
  destruct (walk (ram (vm b)) (cr3 (vm b)) (heap b)) as [pa|] eqn:Hw.
  - rewrite bool_decide_false by done. cbn [mbind res_bind]. rewrite Hu.
    eexists. split; [reflexivity|]. split.
    + split; cbn [vm heap]; [done|by apply (frames_left_le (2 * S n)); [lia|]|..];
        rewrite PAGE_SIZE_eq in *; [lia|dlia|lia].
    + split; cbn [vm heap]; [unfold page_at; lia| |done| |done].
      * intros i Hi1. rewrite Hh0 by done. by exists pa.
      * intros va pa' _ _ ?. by left.
  - rewrite bool_decide_true by done.
    assert (Hfr2 : frames_left (S (S (2 * n))) (frames (vm b))).
    { by replace (S (S (2 * n)))%nat with (2 * S n)%nat by lia. }
    destruct (frames_left_some _ _ Hfr2) as [p Hp].
    destruct (inv_alloc_frame (vm b) p Hinv Hp)
      as (q & s1 & Ha & Hq & Hinv1 & Hf1 & Hram & Hc & Hfree). rewrite Ha. cbn [mbind res_bind].
    pose proof (frames_left_take _ _ _ _ Hfr2 Hfree) as Hfr1.
    destruct (frame_addr q (proj1 Hf1)) as (Hqb & Hqf & _).
    set (fl := Z.lor PAGE_PRESENT PAGE_WRITABLE).
    assert (Hsome : ∃ p, frame_free (frames s1) p) by (by apply (frames_left_some _ _ Hfr1)).
    destruct (paging_map_step s1 (heap b) (PAGE_SIZE * q) fl q (2 * n) Hinv1 Hf1 Hr Hi Hqb Hfr1)
      as (s2 & Hpm & Hinv2 & Hf2 & _ & Hleft & _ & Hwalk & _).
    pose proof (paging_map_new s1 (heap b) (PAGE_SIZE * q) fl) as Hnew.
    destruct (paging_map_foreign s1 s2 (heap b) (PAGE_SIZE * q) fl q Hinv1 Hr Hi Hqb)
      as (_ & _ & _ & Hfrs); [by right|done|done|].
    assert (Hmono : ∀ r, frame_free (frames s2) r → frame_free (frames (vm b)) r).
    { intros r Hrr. destruct Hfrs as [Heq|[q' Hq']];
        [rewrite Heq in Hrr|apply Hq' in Hrr as [Hrr _]]; apply Hfree in Hrr as [Hrr _]; exact Hrr. }
    rewrite Hpm. cbn [mbind res_bind]. rewrite Hu.
    eexists. split; [reflexivity|]. cbn [vm heap]. split.
    + split; cbn [vm heap]; [done|done|..]; rewrite PAGE_SIZE_eq in *; [lia|dlia|lia].
    + split; cbn [vm heap]; [unfold page_at; lia|..|done].
      * intros i Hi1. rewrite Hh0 by done. exists (frame_of (PAGE_SIZE * q) + heap b mod 4096).
        unfold maps. rewrite Hwalk, decide_True by done. done.
      * intros va pa Hva Hd Hm. apply (Hnew va pa); try done; [by rewrite Hram, Hc|].
        unfold maps. by rewrite Hram, Hc.
      * intros va pa Hva Hd Hm. unfold maps in Hm. rewrite Hwalk in Hm by done.
        rewrite Hram, Hc in Hm. case_decide; [|by left]. change (Z.odd fl) with true in Hm.
        injection Hm as <-. right. exists q. rewrite Hqf. split; [done|]. split; [done|].
        exact (proj1 (proj2 Hf2)).
Qed.

Lemma kbrk_ok b (n k : nat) :
  room b (n + k) →
  ∃ b', kbrk (Z.of_nat n) b = Ok (heap b, b') ∧ grown b b' (Z.of_nat n) ∧ room b' k.
Proof.
  intros Hroom. unfold kbrk.
  destruct (for_upto_inv (λ i t, 0 ≤ i ≤ Z.of_nat n ∧ grown b t i ∧ room t (n - Z.to_nat i + k))
    (Z.of_nat n) (λ _, kbrk_step) b) as (b' & -> & Hi & Hg & Hr').
  - lia.
  - split; [lia|]. split; [apply grown_refl|]. by replace (n - Z.to_nat 0 + k)%nat with (n + k)%nat by lia.
  - intros i t Hi (_ & Hg & Hr).
    replace (n - Z.to_nat i + k)%nat with (S (n - Z.to_nat (i + 1) + k)) in Hr by lia.
    destruct (kbrk_step_ok t _ Hr) as (t' & Hs & Hr' & Hg'). exists t'. split; [done|].
    split; [lia|]. split; [|done]. apply (grown_trans b t t'); [lia| |done|done].
    apply (room_le b (n + k)); [lia|done].
  - cbn [mbind res_bind]. exists b'. split; [done|]. split; [done|].
    by replace (n - Z.to_nat (Z.of_nat n) + k)%nat with k in Hr' by lia.
Qed.

(** The heap is what the buddy allocator needs. *)
#[global] Instance memory_pages : PageSource brk.
Proof.
  refine {| kbrk1 := kbrk 1; brk_at := heap; brk_room := room |}.
  - intros b n [_ _ Hst Hal Hend]. rewrite PAGE_SIZE_eq in *. lia.
  - intros b n Hr. destruct (kbrk_ok b 1 n) as (b' & Hk & Hg & Hr'); [done|].
    exists b'. split; [done|]. split; [|done]. rewrite (gr_heap _ _ _ Hg). unfold page_at. lia.
Defined.

End Brk.
(** ** kmalloc and kfree *)

Section Heap.
Context {F : Type} `{FrameAlloc F}.

(** The variables of memory.c; the lock word is its own. *)
Record memory := Mem {
  area : brk (F := F); lock : Z; stats : Z; allocator : Kmalloc.mem_allocator
}.

Definition kmalloc (fuel : nat) (size : Z) (s : memory) (m : mem8) : res (Z * memory * mem8) :=
  l ← Locks.section_enter (lock s);
  let st := u32 (stats s + size) in
  '(buf, a, b) ← Kmalloc.mem_alloc fuel (allocator s) (area s) size;
  '(_, m) ← Strings.kmemset m buf 0x00 size;
  Ok (buf, Mem b (Locks.section_leave l) st a, m).

Definition kfree (ptr size : Z) (s : memory) : res memory :=
  l ← Locks.section_enter (lock s);
  let st := u32 (stats s - size) in
  a ← Kmalloc.mem_free (allocator s) ptr size;
  Ok (Mem (area s) (Locks.section_leave l) st a).

Definition mem_stats (s : memory) : Z := stats s.

(** [NEW(type)] and [DELETE(ptr)] for an object of [size] bytes. *)
Definition NEW (fuel : nat) (size : Z) (s : memory) (m : mem8) : res (Z * memory * mem8) :=
  '(p, s, m) ← kmalloc fuel size s m;
  '(p, m) ← Strings.kmemset m p 0 size;
  Ok (p, s, m).

Definition DELETE (ptr size : Z) (s : memory) : res memory := kfree ptr size s.

(** ** message.c *)

(** [struct message]: [length] at offset 0, [buf] at offset 4. *)
Definition MESSAGE_SIZE : Z := 8.

Definition message_alloc (fuel : nat) (length buf : Z) (s : memory) (m : mem8)
    : res (Z * memory * mem8) :=
  '(result, s, m) ← NEW fuel MESSAGE_SIZE s m;
  m ← store32 result length m;
  '(b, s, m) ← kmalloc fuel length s m;
  m ← store32 (result + 4) b m;
  '(_, m) ← Strings.kmemcpy m b buf length;
  Ok (result, s, m).

Definition message_free (this : Z) (s : memory) (m : mem8) : res memory :=
  b ← load32 (this + 4) m;
  length ← load32 this m;
  s ← kfree b length s;
  DELETE this MESSAGE_SIZE s.

End Heap.

(** ** Start-up *)

Definition LAPIC_BASE : Z := 0xFEE00000.
Definition IOAPIC_BASE : Z := 0xFEC00000.

(** [struct mmap] of kernel/mboot.h. *)
Record mmap := Mmap {
  size : Z; base_low : Z; base_high : Z; length_low : Z; length_high : Z; type : Z
}.

(** The locals [addr] and [pages] of a usable region. *)
Definition region_addr (base : Z) : Z := page_align (u32 (base + PAGE_SIZE - 1)).
Definition region_pages (base length : Z) : Z :=
  u32 (page_align (u32 (base + length)) - region_addr base) / PAGE_SIZE.

(** One turn of the loop of [mem_init], with [ptr] and the frames. *)
Definition mmap_step (m : mem8) (s : Z * Palloc.palloc) : res (Z * Palloc.palloc) :=
  let '(ptr, fr) := s in
  type ← load32 (ptr + 20) m;
  fr ← (if bool_decide (type = 1) then
          base_low ← load32 (ptr + 4) m;
          length_low ← load32 (ptr + 12) m;
          Palloc.mem_phys_free_range (region_addr base_low) (region_pages base_low length_low) fr
        else Ok fr);
  size ← load32 ptr m;
  Ok (u32 (ptr + u32 (size + 4)), fr).

Definition mem_init (fuel : nat) (m : mem8) (mmap length : Z) (s : memory (F := Palloc.palloc))
    : res (memory (F := Palloc.palloc)) :=
  let fin := u32 (mmap + length) in
  a ← Kmalloc.mem_allocator_init (allocator s);
  let v := vm (area s) in
  '(_, fr) ← while fuel (λ '(ptr, _), Ok (ptr <? fin)) (mmap_step m) (mmap, frames v);
  fr ← Palloc.mem_phys_reserve 0x00000000 fr;
  fr ← Palloc.mem_phys_reserve_range 0x00100000 (0x100000 / PAGE_SIZE) fr;
  fr ← Palloc.mem_phys_reserve LAPIC_BASE fr;
  fr ← Palloc.mem_phys_reserve IOAPIC_BASE fr;
  v ← paging_map 0xFEC00000 0xFEC00000 (Z.lor PAGE_PRESENT PAGE_WRITABLE)
        (MM (ram v) (cr3 v) fr);
  v ← paging_map 0xFEE00000 0xFEE00000 (Z.lor PAGE_PRESENT PAGE_WRITABLE) v;
  Ok (Mem (Brk 0xC3000000 v) (lock s) (stats s) a).

(** ** The memory map *)

Definition entry_at (m : mem8) (p : Z) (e : mmap) : Prop :=
  load32 p m = Ok (size e) ∧ load32 (p + 4) m = Ok (base_low e) ∧
  load32 (p + 8) m = Ok (base_high e) ∧ load32 (p + 12) m = Ok (length_low e) ∧
  load32 (p + 16) m = Ok (length_high e) ∧ load32 (p + 20) m = Ok (type e) ∧
  0 ≤ size e ∧ 0 ≤ base_low e < 2 ^ 32 ∧ 0 ≤ length_low e < 2 ^ 32.

(** The regions [es] stand one behind the other from [p] to [fin]. *)
Fixpoint mmap_at (m : mem8) (p : Z) (es : list mmap) (fin : Z) : Prop :=
  match es with
  | [] => p = fin
  | e :: es => entry_at m p e ∧ mmap_at m (p + size e + 4) es fin
  end.

(** What the loop frees. *)
Definition freed (es : list mmap) (p : Z) : Prop :=
  ∃ e, e ∈ es ∧ type e = 1 ∧
    Palloc.in_range (region_addr (base_low e)) (region_pages (base_low e) (length_low e)) p.

(** What [mem_init] takes back: frame 0, the second megabyte and the frames of
    the two interrupt controllers. *)
Definition reserved (p : Z) : Prop :=
  p = 0 ∨ 0x100 ≤ p < 0x200 ∨ p = 0xFEE00 ∨ p = 0xFEC00.

Lemma page_align_eq a : 0 ≤ a < 2 ^ 32 → page_align a = PAGE_SIZE * (a / PAGE_SIZE).
Proof.
  intros Ha. unfold page_align. rewrite Z.shiftl_mul_pow2, Z.shiftr_div_pow2 by done.
  rewrite PAGE_SIZE_eq. change (2 ^ PAGE_SHIFT) with 4096. rewrite u32_small by dlia. lia.
Qed.

Lemma mmap_at_le m p es fin : mmap_at m p es fin → p ≤ fin.
Proof.
  revert p. induction es as [|e es IH]; intros p; simpl; [lia|].
  intros (He & Hes). apply IH in Hes. destruct He as (_ & _ & _ & _ & _ & _ & ? & _). lia.
Qed.

Lemma mmap_entry m p es fin e :
  mmap_at m p es fin → e ∈ es → 0 ≤ base_low e < 2 ^ 32 ∧ 0 ≤ length_low e < 2 ^ 32.
Proof.
  revert p. induction es as [|x es IH]; intros p; simpl; [by intros _ ?%not_elem_of_nil|].
  intros (Hx & Hes) [->|He]%elem_of_cons; [|by eapply IH].
  destruct Hx as (_ & _ & _ & _ & _ & _ & _ & ? & ?). done.
Qed.

Lemma freed_cons e es p :
  freed (e :: es) p ↔
  (type e = 1 ∧ Palloc.in_range (region_addr (base_low e))
                  (region_pages (base_low e) (length_low e)) p) ∨ freed es p.
Proof.
  unfold freed. split.
  - intros (x & [->|Hx]%elem_of_cons & Ht & Hr); [by left|right; by exists x].
  - intros [[Ht Hr]|(x & Hx & Ht & Hr)]; [exists e|exists x]; (split; [|done]);
      apply elem_of_cons; [by left|by right].
Qed.

(** One region. *)
Lemma mmap_step_ok m p e fr :
  entry_at m p e → 0 ≤ p → p + size e + 4 < 2 ^ 32 → Palloc.pwf fr →
  ∃ fr', mmap_step m (p, fr) = Ok (p + size e + 4, fr') ∧
    Palloc.pwf fr' ∧ Palloc.lock fr' = Palloc.lock fr ∧
    ∀ q, Palloc.page_free fr' q ↔ Palloc.page_free fr q ∨
      (type e = 1 ∧ Palloc.in_range (region_addr (base_low e))
         (region_pages (base_low e) (length_low e)) q).
Proof.
  intros (Hsz & Hbl & _ & Hll & _ & Hty & Hs0 & Hb & Hl) Hp Hfin Hwf.
  unfold mmap_step. rewrite Hty, Hbl, Hll, Hsz. cbn [mbind res_bind].
  rewrite u32_add_r, u32_small by lia. replace (p + (size e + 4)) with (p + size e + 4) by lia.
  case_bool_decide as Ht.
  - destruct (Palloc.mem_phys_free_range_ok (region_addr (base_low e))
      (region_pages (base_low e) (length_low e)) fr) as (fr1 & Heq & Hw & Hlk & Hf); [|done|].
    + unfold region_pages. apply Z.div_pos; [apply u32_range|done].
    + rewrite Heq. cbn [mbind res_bind]. exists fr1. split; [done|]. split; [done|].
      split; [done|]. intros q. rewrite Hf. tauto.
  - cbn [mbind res_bind]. exists fr. split; [done|]. split; [done|]. split; [done|]. tauto.
Qed.

(** The loop over the map. *)
Lemma mmap_loop m fin es : ∀ fuel p fr,
  mmap_at m p es fin → 0 ≤ p → fin < 2 ^ 32 → (length es < fuel)%nat → Palloc.pwf fr →
  ∃ fr', while fuel (λ '(ptr, _), Ok (ptr <? fin)) (mmap_step m) (p, fr) = Ok (fin, fr') ∧
    Palloc.pwf fr' ∧ Palloc.lock fr' = Palloc.lock fr ∧
    ∀ q, Palloc.page_free fr' q ↔ Palloc.page_free fr q ∨ freed es q.
Proof.
  induction es as [|e es IH]; intros [|fuel] p fr Hm Hp Hfin Hfuel Hwf; try (simpl in Hfuel; lia).
  - simpl in Hm. subst p. exists fr. cbn [while mbind res_bind].
    rewrite Z.ltb_irrefl. split; [done|]. split; [done|]. split; [done|].
    intros q. split; [by left|]. intros [?|(x & Hx & _)]; [done|]. by apply not_elem_of_nil in Hx.
  - destruct Hm as [He Hes]. pose proof (mmap_at_le _ _ _ _ Hes) as Hle.
    assert (Hs0 : 0 ≤ size e) by apply He.
    destruct (mmap_step_ok m p e fr He Hp ltac:(lia) Hwf) as (fr1 & Hs & Hwf1 & Hl1 & Hf1).
    destruct (IH fuel (p + size e + 4) fr1 Hes) as (fr' & Heq & Hw & Hl' & Hf);
      [lia|done|simpl in Hfuel; lia|done|].
    exists fr'. split; [|split; [done|split; [congruence|]]].
    + cbn [while mbind res_bind]. rewrite (proj2 (Z.ltb_lt p fin)) by lia.
      rewrite Hs. cbn [mbind res_bind]. exact Heq.
    + intros q. rewrite Hf, Hf1, freed_cons. tauto.
Qed.

Lemma in_range_bound addr pages p : Palloc.in_range addr pages p → 0 ≤ p < PAGES.
Proof.
  intros (i & _ & ->). pose proof (u32_range (addr + u32 (PAGE_SIZE * i))) as Hu.
  rewrite PAGE_SIZE_eq in *. change PAGES with 1048576. dlia.
Qed.

(** Taking the reserved frames back. *)
Lemma reserve_ok fr :
  Palloc.pwf fr →
  ∃ fr', (fr ← Palloc.mem_phys_reserve 0x00000000 fr;
          fr ← Palloc.mem_phys_reserve_range 0x00100000 (0x100000 / PAGE_SIZE) fr;
          fr ← Palloc.mem_phys_reserve LAPIC_BASE fr;
          Palloc.mem_phys_reserve IOAPIC_BASE fr) = Ok fr' ∧
    Palloc.pwf fr' ∧ Palloc.lock fr' = Palloc.lock fr ∧
    ∀ q, Palloc.page_free fr' q ↔ Palloc.page_free fr q ∧ ¬ reserved q.
Proof.
  intros Hw.
  destruct (Palloc.mem_phys_reserve_ok 0 fr) as (f1 & H1 & Hw1 & Hl1 & Hf1); [lia|exact Hw|].
  destruct (Palloc.mem_phys_reserve_range_ok 0x100000 (0x100000 / PAGE_SIZE) f1)
    as (f2 & H2 & Hw2 & Hl2 & Hf2); [by vm_compute|exact Hw1|].
  destruct (Palloc.mem_phys_reserve_ok LAPIC_BASE f2) as (f3 & H3 & Hw3 & Hl3 & Hf3);
    [unfold LAPIC_BASE; lia|exact Hw2|].
  destruct (Palloc.mem_phys_reserve_ok IOAPIC_BASE f3) as (f4 & H4 & Hw4 & Hl4 & Hf4);
    [unfold IOAPIC_BASE; lia|exact Hw3|].
  rewrite (bind_ok _ _ _ H1), (bind_ok _ _ _ H2), (bind_ok _ _ _ H3). exists f4. split; [exact H4|]. split; [exact Hw4|].
  split; [congruence|]. intros q. rewrite Hf4, Hf3, Hf2, Hf1.
  rewrite Palloc.in_range_interval by (by vm_compute). unfold reserved.
  change (0x100000 / PAGE_SIZE) with 256. change (0 / PAGE_SIZE) with 0.
  change (LAPIC_BASE / PAGE_SIZE) with 0xFEE00. change (IOAPIC_BASE / PAGE_SIZE) with 0xFEC00.
  clear. intuition lia.
Qed.

Section Boot.
Context {F : Type} `{FrameAlloc F}.

(** Other frames may be free as long as no table is among them. *)
Lemma inv_with_frames (v : mm F) f' :
  paging_inv v → frame_ok f' →
  ¬ frame_free f' (frame_of (cr3 v) / PAGE_SIZE) →
  (∀ i, 0 ≤ i < 1023 → present (pde v i) = true →
     ¬ frame_free f' (frame_of (pde v i) / PAGE_SIZE)) →
  paging_inv (MM (ram v) (cr3 v) f').
Proof.
  intros [Hw Hc Hself Ht Hd Hf] Hok Hdir Htab. split; simpl; try done.
  intros i Hi Hp. split; [by apply Ht|by apply Htab].
Qed.

(** [paging_map] takes no frame when the table is there, and at most one. *)
Lemma paging_map_frames (v v' : mm F) virt phys flags :
  paging_inv v → 0 ≤ virt < 2 ^ 32 → page_dir_index virt < 1023 → 0 ≤ phys < 2 ^ 32 →
  (present (pde v (page_dir_index virt)) = true ∨ ∃ p, frame_free (frames v) p) →
  paging_map virt phys flags v = Ok v' →
  (present (pde v (page_dir_index virt)) = true → frames v' = frames v) ∧
  (frames v' = frames v ∨
   ∃ q, ∀ r, frame_free (frames v') r ↔ frame_free (frames v) r ∧ r ≠ q).
Proof.
  intros Hs Hv Hi Hp Hfree Heq.
  destruct (paging_map_ok v virt phys flags Hs Hv Hi Hp Hfree)
    as (s1 & s2 & a & Heq2 & Hcase & Ha & Hs2 & _).
  assert (s2 = v') as -> by congruence.
  rewrite Hs2. cbn [frames]. destruct Hcase as [->|(Hno & q & _ & _ & Hft)].
  - split; [done|by left].
  - split; [congruence|]. right. exists q. apply Hft.
Qed.

(** Mapping a page to itself, the pages of the interrupt controllers. *)
Lemma map_devices (v : mm F) :
  paging_inv v → (∃ p, frame_free (frames v) p) →
  ∃ v', (v ← paging_map 0xFEC00000 0xFEC00000 (Z.lor PAGE_PRESENT PAGE_WRITABLE) v;
         paging_map 0xFEE00000 0xFEE00000 (Z.lor PAGE_PRESENT PAGE_WRITABLE) v) = Ok v' ∧
    paging_inv v' ∧ cr3 v' = cr3 v ∧ kept 2 v v' ∧
    maps v' 0xFEC00000 0xFEC00000 ∧ maps v' 0xFEE00000 0xFEE00000 ∧
    ∃ qs, (length qs ≤ 1)%nat ∧
      ∀ r, frame_free (frames v') r ↔ frame_free (frames v) r ∧ r ∉ qs.
Proof.
  intros Hv Hfree. set (fl := Z.lor PAGE_PRESENT PAGE_WRITABLE).
  assert (Hc : 0 ≤ 0xFEC00000 < 2 ^ 32) by lia. assert (He : 0 ≤ 0xFEE00000 < 2 ^ 32) by lia.
  assert (Hci : page_dir_index 0xFEC00000 < 1023) by (by vm_compute).
  assert (Hei : page_dir_index 0xFEE00000 < 1023) by (by vm_compute).
  destruct (paging_map_walk v 0xFEC00000 0xFEC00000 fl Hv Hc Hci Hc (or_intror Hfree))
    as (v1 & H1 & Hv1 & Hc1 & Hs1 & Hw1).
  assert (Hp1 : present (pde v1 (page_dir_index 0xFEE00000)) = true).
  { change (page_dir_index 0xFEE00000) with (page_dir_index 0xFEC00000).
    unfold slot in Hs1. by destruct (present _). }
  destruct (paging_map_walk v1 0xFEE00000 0xFEE00000 fl Hv1 He Hei He (or_introl Hp1))
    as (v2 & H2 & Hv2 & Hc2 & Hs2 & Hw2).
  assert (Hne : slot v2 0xFEC00000 ≠ slot v2 0xFEE00000).
  { intros Heq. destruct (slot_inj v2 0xFEC00000 0xFEE00000 Hc He) as [_ Ht];
      [by apply pde_range|by apply pde_range|done|by rewrite Heq|].
    by vm_compute in Ht. }
  rewrite H1. cbn [mbind res_bind]. exists v2. split; [done|]. split; [done|].
  split; [congruence|]. split.
  { exact (kept_trans 1 1 _ _ _ (kept_map v v1 _ _ _ Hv Hc Hci Hc (or_intror Hfree) H1)
      (kept_map v1 v2 _ _ _ Hv1 He Hei He (or_introl Hp1) H2)). }
  split; [|split].
  - unfold maps. rewrite Hw2, decide_False by done. by rewrite Hw1, decide_True by done.
  - unfold maps. by rewrite Hw2, decide_True by done.
  - destruct (paging_map_frames v1 v2 _ _ _ Hv1 He Hei He (or_introl Hp1) H2) as [Hf2 _].
    rewrite (Hf2 Hp1).
    destruct (paging_map_frames v v1 _ _ _ Hv Hc Hci Hc (or_intror Hfree) H1) as [_ [->|[q Hq]]].
    + exists []. split; [simpl; lia|]. intros r. pose proof (not_elem_of_nil r). tauto.
    + exists [q]. split; [simpl; lia|]. intros r. rewrite Hq, list_elem_of_singleton. done.
Qed.

End Boot.

(** No table of [v] can be freed: they are in the reserved frames. *)
Definition tables_reserved {F} (v : mm F) : Prop :=
  reserved (frame_of (cr3 v) / PAGE_SIZE) ∧
  ∀ i, 0 ≤ i < 1023 → present (pde v i) = true → reserved (frame_of (pde v i) / PAGE_SIZE).

(** What [mem_init] leaves, when the free frames [free] are given. *)
Record initialised (free : Z → Prop) (s s' : memory (F := Palloc.palloc)) : Prop := {
  in_heap : heap (area s') = 0xC3000000;
  in_alloc : Kmalloc.good (allocator s') Kmalloc.no_blocks (seqZ 1 (Kmalloc.NODES - 1));
  in_paging : paging_inv (vm (area s'));
  in_ioapic : maps (vm (area s')) 0xFEC00000 0xFEC00000;
  in_lapic : maps (vm (area s')) 0xFEE00000 0xFEE00000;
  in_lock : lock s' = lock s;
  in_cr3 : cr3 (vm (area s')) = cr3 (vm (area s));
  in_pde k : 0 ≤ k < 1024 → present (pde (vm (area s)) k) = true →
    pde (vm (area s')) k = pde (vm (area s)) k;
  in_shared canon : shared_as canon (vm (area s)) → shared_as canon (vm (area s'));
  in_frames : ∃ qs, (length qs ≤ 1)%nat ∧ ∀ p,
    Palloc.page_free (frames (vm (area s'))) p ↔ free p ∧ ¬ reserved p ∧ p ∉ qs
}.

Lemma mem_init_ok fuel m mmap length s es :
  mmap_at m mmap es (mmap + length) → 0 ≤ mmap → mmap + length < 2 ^ 32 →
  (List.length es < fuel)%nat →
  paging_inv (vm (area s)) → tables_reserved (vm (area s)) →
  (∀ p, ¬ Palloc.page_free (frames (vm (area s))) p) →
  (∃ p, 0 ≤ p < PAGES ∧ freed es p ∧ ¬ reserved p) →
  ∃ s', mem_init fuel m mmap length s = Ok s' ∧
    initialised (λ p, 0 ≤ p < PAGES ∧ freed es p) s s'.
Proof.
  intros Hm Hp Hfin Hfuel Hinv [Hdir Htab] Hnone (p0 & Hp0 & Hfr0 & Hr0).
  destruct (Kmalloc.mem_allocator_init_good (allocator s)) as (a & Ha & Hga).
  pose proof (inv_frames _ Hinv) as [Hwf Hlk].
  destruct (mmap_loop m (mmap + length) es fuel mmap (frames (vm (area s))) Hm Hp Hfin Hfuel Hwf)
    as (f1 & H1 & Hwf1 & Hl1 & Hf1).
  destruct (reserve_ok f1 Hwf1) as (f2 & H2 & Hwf2 & Hl2 & Hf2).
  assert (Hfree : ∀ p, Palloc.page_free f2 p ↔ (0 ≤ p < PAGES ∧ freed es p) ∧ ¬ reserved p).
  { clear H1 H2 Ha. intros p. rewrite Hf2, Hf1. pose proof (Hnone p) as Hn. split; [|tauto].
    intros [[?|Hfr] Hr]; [done|]. split; [|done]. split; [|done].
    destruct Hfr as (e & _ & _ & Hir). by apply in_range_bound in Hir. }
  set (v := vm (area s)) in *.
  destruct (map_devices (MM (ram v) (cr3 v) f2)) as (v' & Hv & Hinv' & Hcr & Hkept & Hio & Hla & qs & Hqs & Hfin').
  { clear H1 H2 Ha. apply inv_with_frames; [done|split; [done|congruence]| |].
    - intros Hf. by apply Hfree in Hf as [_ Hf].
    - intros i Hi Hpr Hf. apply Hfree in Hf as [_ Hf]. by apply Hf, Htab. }
  { exists p0. exact (proj2 (Hfree p0) (conj (conj Hp0 Hfr0) Hr0)). }
  exists (Mem (Brk 0xC3000000 v') (lock s) (stats s) a). split.
  - apply res_bind_Ok in H2 as (fa & HA & H2). apply res_bind_Ok in H2 as (fb & HB & H2).
    apply res_bind_Ok in H2 as (fc & HC & HD). apply res_bind_Ok in Hv as (w & Hw & Hv).
    pose proof (mmap_at_le _ _ _ _ Hm) as Hle.
    unfold mem_init. rewrite (u32_small (mmap + length)) by (clear -Hle Hp Hfin; lia). rewrite (bind_ok _ _ _ Ha). cbv zeta. fold v.
    rewrite (bind_ok _ _ _ H1), (bind_ok _ _ _ HA), (bind_ok _ _ _ HB), (bind_ok _ _ _ HC),
      (bind_ok _ _ _ HD), (bind_ok _ _ _ Hw), (bind_ok _ _ _ Hv). reflexivity.
  - split; cbn [area heap vm allocator lock]; try assumption; try reflexivity.
    { exact (kept_pde _ _ _ Hkept). }
    { intros canon [Hu1 Hu2]. apply (kept_shared _ _ _ Hkept). split; [exact Hu1|exact Hu2]. }
    exists qs. split; [exact Hqs|]. intros p. rewrite Hfin'. cbn [frames]. rewrite Hfree. clear. tauto.
Qed.

(** A region with the rounding of [mem_init] in order: the frames that lie in
    it. *)
Definition region_ok (e : mmap) : Prop :=
  base_low e + (PAGE_SIZE - 1) < 2 ^ 32 ∧ base_low e + length_low e < 2 ^ 32 ∧
  (base_low e + (PAGE_SIZE - 1)) / PAGE_SIZE ≤ (base_low e + length_low e) / PAGE_SIZE.

(** A region without a page boundary in it. *)
Definition region_small (e : mmap) : Prop :=
  base_low e + (PAGE_SIZE - 1) < 2 ^ 32 ∧ base_low e + length_low e < 2 ^ 32 ∧
  (base_low e + length_low e) / PAGE_SIZE < (base_low e + (PAGE_SIZE - 1)) / PAGE_SIZE.

(** Frame [p] lies in the region. *)
Definition whole (e : mmap) (p : Z) : Prop :=
  base_low e ≤ PAGE_SIZE * p ∧ PAGE_SIZE * (p + 1) ≤ base_low e + length_low e.

Lemma region_addr_eq e :
  0 ≤ base_low e → base_low e + (PAGE_SIZE - 1) < 2 ^ 32 →
  region_addr (base_low e) = PAGE_SIZE * ((base_low e + (PAGE_SIZE - 1)) / PAGE_SIZE).
Proof.
  intros Hb Hlt. unfold region_addr. rewrite PAGE_SIZE_eq in *.
  rewrite u32_small by lia. rewrite page_align_eq by lia. rewrite PAGE_SIZE_eq.
  by replace (base_low e + 4096 - 1) with (base_low e + (4096 - 1)) by lia.
Qed.

Lemma region_ok_range e p :
  0 ≤ base_low e → 0 ≤ length_low e → region_ok e →
  Palloc.in_range (region_addr (base_low e)) (region_pages (base_low e) (length_low e)) p ↔
  whole e p.
Proof.
  intros Hb Hl (H1 & H2 & H3). unfold region_pages. rewrite region_addr_eq by done.
  rewrite (u32_small (base_low e + length_low e)), page_align_eq by lia. unfold whole.
  rewrite PAGE_SIZE_eq in *. rewrite u32_small by dlia.
  rewrite Palloc.in_range_interval; rewrite ?PAGE_SIZE_eq; dlia.
Qed.

Lemma region_small_range e p :
  0 ≤ base_low e → 0 ≤ length_low e → region_small e → 0 ≤ p < PAGES →
  p ≠ (base_low e + length_low e) / PAGE_SIZE →
  Palloc.in_range (region_addr (base_low e)) (region_pages (base_low e) (length_low e)) p.
Proof.
  intros Hb Hl (H1 & H2 & H3) Hp Hne. unfold region_pages. rewrite region_addr_eq by done.
  rewrite (u32_small (base_low e + length_low e)), page_align_eq by lia.
  rewrite PAGE_SIZE_eq in *. change PAGES with 1048576 in Hp.
  set (k := (base_low e + length_low e) / 4096) in *.
  assert (Hk : (base_low e + (4096 - 1)) / 4096 = k + 1) by (unfold k in *; dlia).
  assert (Hk0 : 0 ≤ k < 1048575) by (unfold k in *; dlia). rewrite Hk.
  replace (4096 * k - 4096 * (k + 1)) with (-4096) by lia. change (u32 (-4096) / 4096) with 1048575.
  exists (if decide (k < p) then p - (k + 1) else p - (k + 1) + 1048576).
  rewrite u32_add_r, PAGE_SIZE_eq. case_decide.
  - rewrite u32_small by lia. split; [lia|dlia].
  - replace (4096 * (k + 1) + 4096 * (p - (k + 1) + 1048576)) with (4096 * p + 1 * 2 ^ 32) by lia.
    unfold u32. rewrite Z.mod_add by done. rewrite Z.mod_small by lia. split; [lia|dlia].
Qed.

(** ** Filling and allocating *)

Lemma kmemset_ok m p v size :
  0 ≤ p → 0 ≤ size → p + size < 2 ^ 32 → Strings.writable m p size →
  ∃ m', Strings.kmemset m p v size = Ok (p, m') ∧
    (∀ a, p ≤ a < p + size → m' !! a = Some (u8 v)) ∧
    ∀ a, ¬ (p ≤ a < p + size) → m' !! a = m !! a.
Proof.
  intros Hp Hs Hlt Hw. unfold Strings.kmemset, Util.KMEMSET_IMPL.
  destruct (Util.kmemset_loop_inv
    (λ j m', (∀ a, p ≤ a < p + j → m' !! a = Some (u8 v)) ∧
       ∀ a, ¬ (p ≤ a < p + j) → m' !! a = m !! a)
    Strings.store8 1 v (Z.to_nat size) 0 p m) as (m' & Heq & Hin & Hout); [lia..| | |lia|].
  - split; [lia|done].
  - intros j t Hj [Hin Hout]. exists (<[p + j := u8 v]> t). rewrite u32_small by lia.
    replace (p + 1 * (j - 0)) with (p + j) by lia. split; [|split].
    + apply Strings.store8_Some. rewrite Hout by lia. apply Hw. lia.
    + intros a Ha. destruct (decide (a = p + j)) as [->|]; [by rewrite lookup_insert_eq|].
      rewrite lookup_insert_ne by lia. apply Hin. lia.
    + intros a Ha. rewrite lookup_insert_ne by lia. apply Hout. lia.
  - rewrite Heq. cbn [mbind res_bind]. exists m'. split; [done|].
    rewrite Z2Nat.id in Hin, Hout by lia. by split.
Qed.

(** The memory that an allocation may use has bytes. *)
Definition heap_bytes {F} `{FrameAlloc F} (m : mem8) (ls : Kmalloc.blocks)
    (b : brk (F := F)) (n : nat) : Prop :=
  ∀ x, Kmalloc.free_byte ls x ∨ heap b ≤ x < heap b + PAGE_SIZE * Z.of_nat n → is_Some (m !! x).

(** [kmalloc] with more pages at hand than it needs. *)
Lemma kmalloc_run `{FrameAlloc F} size i k fuel (s : memory (F := F)) m ls pool :
  Kmalloc.good (allocator s) ls pool → Kmalloc.below ls (area s) → Kmalloc.fits size i →
  0 ≤ size → room (area s) k → (Kmalloc.pages_for i ≤ k)%nat →
  Z.of_nat (Kmalloc.pages_for i) + Kmalloc.ALOCATORS ≤ Z.of_nat (length pool) →
  (Kmalloc.pages_for i < fuel)%nat → lock s = 0 →
  heap_bytes m ls (area s) (Kmalloc.pages_for i) →
  ∃ r s' m' ls' pool' n, kmalloc fuel size s m = Ok (r, s', m') ∧
    (n ≤ Kmalloc.pages_for i)%nat ∧ room (area s') (k - n) ∧
    Kmalloc.allocated i ls (area s) n pool r (allocator s') (area s') ls' pool' ∧
    lock s' = 0 ∧ stats s' = u32 (stats s + size) ∧
    (∀ a, r ≤ a < r + size → m' !! a = Some 0) ∧
    (∀ a, ¬ (r ≤ a < r + size) → m' !! a = m !! a).
Proof.
  intros Hg Hbel Hfit Hsz Hroom Hk Hpool Hfuel Hlock Hbytes.
  destruct (Kmalloc.mem_alloc_ok size i k fuel _ _ ls pool Hg Hbel Hfit Hroom Hk Hpool Hfuel)
    as (r & a' & b' & ls' & pool' & n & Heq & Hn & Hroom' & Hal).
  destruct (Kmalloc.al_at _ _ _ _ _ _ _ _ _ _ Hal) as (Hr0 & _ & Hr).
  destruct Hfit as (_ & Hle & _).
  destruct (kmemset_ok m r 0 size) as (m' & Hset & Hin & Hout); [lia|done|lia| |].
  { intros x Hx. apply Hbytes. pose proof (Kmalloc.al_brk _ _ _ _ _ _ _ _ _ _ Hal) as Hbrk.
    destruct (proj2 (Kmalloc.al_bytes _ _ _ _ _ _ _ _ _ _ Hal x)) as [Hf|Hf];
      [right; lia|by left|]. right. cbn [brk_at memory_pages] in *. rewrite PAGE_SIZE_eq in *. lia. }
  exists r, (Mem b' 0 (u32 (stats s + size)) a'), m', ls', pool', n.
  split; [|done]. unfold kmalloc. rewrite Hlock, (bind_ok _ _ 1) by done. cbv zeta.
  rewrite (bind_ok _ _ _ Heq). cbv iota beta. rewrite (bind_ok _ _ _ Hset). reflexivity.
Qed.

(** A heap in which the bytes [live] are in use, ready for [n] more
    allocations of at most a page. *)
Record heap_rep `{FrameAlloc F} (live : Z → Prop) (n : nat) (s : memory (F := F)) (m : mem8)
    (ls : Kmalloc.blocks) (pool : list Z) : Prop := {
  hr_good : Kmalloc.good (allocator s) ls pool;
  hr_below : Kmalloc.below ls (area s);
  hr_room : room (area s) n;
  hr_pool : 17 * Z.of_nat n ≤ Z.of_nat (length pool);
  hr_lock : lock s = 0;
  hr_bytes : heap_bytes m ls (area s) n;
  hr_live : ∀ x, live x → ¬ Kmalloc.free_byte ls x ∧ x < heap (area s)
}.

Definition heap_ok `{FrameAlloc F} (live : Z → Prop) (n : nat) (s : memory (F := F)) (m : mem8)
  : Prop := ∃ ls pool, heap_rep live n s m ls pool.

(** A fresh block at [p]: aligned, cleared, and nobody's. *)
Record fresh_block (live : Z → Prop) (p size : Z) (m m' : mem8) : Prop := {
  fb_pos : 0 < p;
  fb_end : p + size < 2 ^ 32;
  fb_aligned : p mod 16 = 0;
  fb_zero : ∀ a, p ≤ a < p + size → m' !! a = Some 0;
  fb_same : ∀ a, ¬ (p ≤ a < p + size) → m' !! a = m !! a;
  fb_fresh : ∀ a, p ≤ a < p + size → ¬ live a
}.

(** Fuel for a request of at most a page. *)
Definition KFUEL : nat := 2.

Lemma page_fits size :
  0 ≤ size ≤ PAGE_SIZE → ∃ i, Kmalloc.fits size i ∧ 1 ≤ i ≤ 9 ∧ Kmalloc.pages_for i = 1%nat.
Proof.
  intros Hs. rewrite PAGE_SIZE_eq in Hs.
  destruct (Kmalloc.size_loop_ok size) as (i & _ & Hfit); [change (Kmalloc.list_size 15) with 262144; lia|].
  pose proof Hfit as (Hi & Hsz & Hlow). change Kmalloc.ALOCATORS with 16 in Hi.
  exists i. split; [done|].
  assert (Hi9 : 1 ≤ i ≤ 9).
  { split; [lia|]. destruct Hlow as [->|Hlow]; [lia|].
    destruct (decide (i ≤ 9)); [done|]. exfalso.
    assert (Kmalloc.list_size 9 ≤ Kmalloc.list_size (i - 1)).
    { rewrite !Kmalloc.size_eq by lia. apply Z.pow_le_mono_r; lia. }
    change (Kmalloc.list_size 9) with 4096 in *. lia. }
  split; [done|]. unfold Kmalloc.pages_for.
  assert (Kmalloc.list_size i ≤ Kmalloc.list_size 9).
  { rewrite !Kmalloc.size_eq by lia. apply Z.pow_le_mono_r; lia. }
  change (Kmalloc.list_size 9) with 4096 in *. rewrite PAGE_SIZE_eq, Z.max_r by lia. done.
Qed.

(** Allocating at most a page. *)
Lemma kmalloc_page `{FrameAlloc F} live n size (s : memory (F := F)) m :
  0 ≤ size ≤ PAGE_SIZE → heap_ok live (S n) s m →
  ∃ p s' m', kmalloc KFUEL size s m = Ok (p, s', m') ∧ fresh_block live p size m m' ∧
    heap_ok (λ a, live a ∨ p ≤ a < p + size) n s' m'.
Proof.
  intros Hs (ls & pool & [Hg Hbel Hroom Hpool Hlock Hbytes Hlive]).
  destruct (page_fits size Hs) as (i & Hfit & Hi & Hpg).
  destruct (kmalloc_run size i (S n) KFUEL s m ls pool Hg Hbel Hfit)
    as (r & s' & m' & ls' & pool' & k & Heq & Hk & Hroom' & Hal & Hl' & _ & Hz & Hsame);
    rewrite ?Hpg; [lia|done|lia|change Kmalloc.ALOCATORS with 16; lia|unfold KFUEL; lia|done| |].
  { intros x Hx. apply Hbytes. rewrite PAGE_SIZE_eq in *. destruct Hx as [Hx|Hx]; [by left|right; lia]. }
  rewrite Hpg in Hk. pose proof Hal as [Hg' (Hr0 & Hmod & Hend) Hbrk [Hbel' Htop] Hbyt Hap Hpl].
  destruct Hfit as (_ & Hle & _). cbn [brk_at memory_pages] in *. rewrite PAGE_SIZE_eq in *.
  assert (Hfresh : ∀ a, r ≤ a < r + size → ¬ live a).
  { intros a Ha Hla. destruct (Hlive a Hla) as [Hnf Hlt].
    destruct (proj2 (Hbyt a)) as [?|?]; [right; lia|done|lia]. }
  exists r, s', m'. split; [exact Heq|]. split.
  - split; [done|lia| |done|done|done].
    apply (Kmalloc.mod_divide _ 16 (Kmalloc.list_size i)); [lia|apply Kmalloc.size_pos; lia| |done].
    apply (Kmalloc.size_divide 1); lia.
  - exists ls', pool'. split.
    + exact Hg'.
    + exact Hbel'.
    + apply (room_le _ (S n - k)); [lia|exact Hroom'].
    + change Kmalloc.ALOCATORS with 16 in Hpl. lia.
    + exact Hl'.
    + intros x Hx. assert (Hm : is_Some (m !! x)).
      { apply Hbytes. rewrite PAGE_SIZE_eq. destruct Hx as [Hx|Hx]; [|rewrite PAGE_SIZE_eq in Hx; right; lia].
        destruct (proj2 (Hbyt x)) as [?|?]; [by left|by left|right; lia]. }
      destruct (decide (r ≤ x < r + size)) as [Hin|Hout]; [rewrite Hz by done; eauto|].
      by rewrite Hsame.
    + intros x [Hx|Hx].
      * destruct (Hlive x Hx) as [Hnf Hlt]. split; [|lia]. intros Hf.
        destruct (proj2 (Hbyt x)) as [?|?]; [by left|done|lia].
      * split; [apply Hap; lia|lia].
Qed.

(** Writing to bytes there are keeps the heap. *)
Lemma heap_ok_bytes `{FrameAlloc F} live n (s : memory (F := F)) m m' :
  (∀ a, is_Some (m !! a) → is_Some (m' !! a)) → heap_ok live n s m → heap_ok live n s m'.
Proof.
  intros Hd (ls & pool & [Hg Hbel Hroom Hpool Hlock Hbytes Hlive]).
  exists ls, pool. split; [done..| |done]. intros x Hx. by apply Hd, Hbytes.
Qed.

Lemma heap_ok_changed `{FrameAlloc F} live n (s : memory (F := F)) p k m m' :
  Strings.changed p k m m' → heap_ok live n s m → heap_ok live n s m'.
Proof. intros [_ Hd]. by apply heap_ok_bytes. Qed.

Lemma heap_ok_live `{FrameAlloc F} (live live' : Z → Prop) n (s : memory (F := F)) m :
  (∀ a, live' a → live a) → heap_ok live n s m → heap_ok live' n s m.
Proof.
  intros Hsub (ls & pool & [Hg Hbel Hroom Hpool Hlock Hbytes Hlive]).
  exists ls, pool. split; [done..|]. intros x Hx. by apply Hlive, Hsub.
Qed.

Lemma fresh_writable live p size m m' :
  fresh_block live p size m m' → Strings.writable m' p size.
Proof. intros Hb a Ha. exists 0. by apply (fb_zero _ _ _ _ _ Hb). Qed.

(** [NEW] clears once more. *)
Lemma NEW_page `{FrameAlloc F} live n size (s : memory (F := F)) m :
  0 ≤ size ≤ PAGE_SIZE → heap_ok live (S n) s m →
  ∃ p s' m', NEW KFUEL size s m = Ok (p, s', m') ∧ fresh_block live p size m m' ∧
    heap_ok (λ a, live a ∨ p ≤ a < p + size) n s' m'.
Proof.
  intros Hs Hh. destruct (kmalloc_page live n size s m Hs Hh) as (p & s' & m1 & Hk & Hb & Hh').
  pose proof (fresh_writable _ _ _ _ _ Hb) as Hw. destruct Hb as [Hp He Ha Hz Hsame Hf].
  destruct (kmemset_ok m1 p 0 size) as (m2 & Hset & Hin & Hout); [lia..|done|].
  assert (Hc : Strings.changed p size m1 m2).
  { split; [done|]. intros a Hm. destruct (decide (p ≤ a < p + size)) as [Hi|Hi].
    - exists (u8 0). by apply Hin.
    - by rewrite Hout. }
  exists p, s', m2. split; [|split].
  - unfold NEW. rewrite (bind_ok _ _ _ Hk). cbv iota beta. by rewrite (bind_ok _ _ _ Hset).
  - split; [done..| |done]. intros a Hi. by rewrite Hout, Hsame.
  - by apply (heap_ok_changed _ _ _ _ _ _ _ Hc).
Qed.

(** ** What allocations do to the page tables *)

Section Spent.
Context {F : Type} `{FrameAlloc F}.

(** [c] frames are taken at most; the directory stays, with what it has. *)
Record spent (c : nat) (v v' : mm F) : Prop := {
  sp_inv : paging_inv v';
  sp_cr3 : cr3 v' = cr3 v;
  sp_kept : kept c v v'
}.

Lemma spent_refl v : paging_inv v → spent 0 v v.
Proof. intros Hv. split; [done|done|by apply kept_same]. Qed.

Lemma spent_trans c1 c2 v1 v2 v3 : spent c1 v1 v2 → spent c2 v2 v3 → spent (c1 + c2) v1 v3.
Proof. intros [_ Hc Hk] [Hi Hc' Hk']. split; [done|congruence|by eapply kept_trans]. Qed.

Lemma spent_map v virt phys flags :
  paging_inv v → 0 ≤ virt < 2 ^ 32 → page_dir_index virt < 1023 → 0 ≤ phys < 2 ^ 32 →
  frames_left 1 (frames v) → ∃ v', paging_map virt phys flags v = Ok v' ∧ spent 1 v v'.
Proof.
  intros Hi Hv Hd Hp Hl. assert (Hf : ∃ p, frame_free (frames v) p) by by apply (frames_left_some 0).
  destruct (paging_map_walk v virt phys flags Hi Hv Hd Hp (or_intror Hf)) as (v' & Hm & Hi' & Hc & _).
  exists v'. split; [done|]. split; [done|done|].
  exact (kept_map v v' virt phys flags Hi Hv Hd Hp (or_intror Hf) Hm).
Qed.

Lemma kept_none c v : kept 0 v v → kept c v v.
Proof.
  intros [Hp Hf Hu Hl]. split; [done|done|done|]. intros j Hj.
  by apply (frames_left_le (c + j)); [lia|].
Qed.

(** The heap grows by a page. *)
Lemma kbrk_spent j (b b' : brk) : room b (S j) → kbrk_step b = Ok b' → spent 2 (vm b) (vm b').
Proof.
  intros [Hinv Hfr Hst Hal Hend] Heq. rewrite PAGE_SIZE_eq in Hend.
  destruct (heap_index (heap b)) as [Hr Hi]; [done..|lia|].
  unfold kbrk_step in Heq. rewrite paging_is_mapped_walk in Heq by done. cbn [mbind res_bind] in Heq.
  case_bool_decide.
  - destruct (frames_left_some (2 * j + 1) (frames (vm b))) as [p Hp].
    { by apply (frames_left_le (2 * S j)); [lia|]. }
    destruct (inv_alloc_frame (vm b) p Hinv Hp) as (q & v1 & Ha & _ & Hi1 & Hq & Hram & Hc1 & Hfree).
    pose proof (kept_alloc _ _ q Hram Hc1 Hfree) as Hk1.
    destruct (spent_map v1 (heap b) (PAGE_SIZE * q) (Z.lor PAGE_PRESENT PAGE_WRITABLE) Hi1 Hr Hi)
      as (v2 & Hm & Hg); [apply (frame_addr q (proj1 Hq))| |].
    { apply (kept_left _ _ _ Hk1). by apply (frames_left_le (2 * S j)); [lia|]. }
    rewrite Ha in Heq. cbn [mbind res_bind] in Heq. rewrite Hm in Heq. cbn [mbind res_bind] in Heq.
    injection Heq as <-. cbn [vm]. by apply (spent_trans 1 1 _ v1).
  - injection Heq as <-. split; [done|done|by apply kept_none, kept_same].
Qed.

(** With fuel for a page at most, the allocator asks for one page at most. *)
Lemma mem_alloc_pages (a a' : Kmalloc.mem_allocator) (b b' : brk (F := F)) size r :
  Kmalloc.mem_alloc KFUEL a b size = Ok (r, a', b') →
  b' = b ∨ ∃ p, kbrk 1 b = Ok (p, b').
Proof.
  unfold KFUEL. cbn [Kmalloc.mem_alloc]. intros Heq.
  apply res_bind_Ok in Heq as ([i x] & _ & Heq).
  apply res_bind_Ok in Heq as ([res a1] & _ & Heq). case_bool_decide.
  { injection Heq as _ _ <-. by left. }
  apply res_bind_Ok in Heq as ([p b1] & Hb & Heq).
  apply res_bind_Ok in Heq as ([n a2] & _ & Heq).
  apply res_bind_Ok in Heq as (a3 & _ & Heq).
  apply res_bind_Ok in Heq as ([i2 x2] & _ & Heq).
  apply res_bind_Ok in Heq as ([res2 a4] & _ & Heq). case_bool_decide.
  { injection Heq as _ _ <-. right. by exists p. }
  apply res_bind_Ok in Heq as ([p2 b2] & _ & Heq).
  apply res_bind_Ok in Heq as ([n2 a5] & _ & Heq).
  by apply res_bind_Ok in Heq as (a6 & _ & Heq).
Qed.

Lemma kbrk_one p (b b' : brk (F := F)) :
  kbrk 1 b = Ok (p, b') → kbrk_step b = Ok b'.
Proof.
  unfold kbrk. intros Heq. apply res_bind_Ok in Heq as (b1 & Hb & Heq).
  injection Heq as _ <-. unfold for_upto in Hb. cbn in Hb.
  by apply res_bind_Ok in Hb as (b2 & Hb2 & [= <-]).
Qed.

(** An allocation of at most a page. *)
Lemma kmalloc_spent j live size p (h h' : memory (F := F)) m m' :
  heap_ok live (S j) h m → kmalloc KFUEL size h m = Ok (p, h', m') →
  spent 2 (vm (area h)) (vm (area h')).
Proof.
  intros (ls & pool & Hrep) Heq. pose proof (hr_room _ _ _ _ _ _ Hrep) as Hroom.
  unfold kmalloc in Heq. apply res_bind_Ok in Heq as (l & _ & Heq).
  apply res_bind_Ok in Heq as ([[r a] b] & Ha & Heq).
  apply res_bind_Ok in Heq as ([x m1] & _ & Heq). injection Heq as _ <- _. cbn [area].
  destruct (mem_alloc_pages _ _ _ _ _ _ Ha) as [->|[q Hq]].
  - split; [apply Hroom|done|by apply kept_none, kept_same].
  - exact (kbrk_spent j _ _ Hroom (kbrk_one _ _ _ Hq)).
Qed.

Lemma NEW_spent j live size p (h h' : memory (F := F)) m m' :
  heap_ok live (S j) h m → NEW KFUEL size h m = Ok (p, h', m') →
  spent 2 (vm (area h)) (vm (area h')).
Proof.
  intros Hh Heq. unfold NEW in Heq. apply res_bind_Ok in Heq as ([[r h1] m1] & Hk & Heq).
  apply res_bind_Ok in Heq as ([x m2] & _ & Heq). injection Heq as _ <- _. by eapply kmalloc_spent.
Qed.

End Spent.

(** With the regions instead of what the loop frees. *)
Lemma mem_init_whole fuel m mmap length s es :
  let usable p := ∃ e, e ∈ es ∧ type e = 1 ∧ whole e p in
  mmap_at m mmap es (mmap + length) → 0 ≤ mmap → mmap + length < 2 ^ 32 →
  (List.length es < fuel)%nat → (∀ e, e ∈ es → type e = 1 → region_ok e) →
  paging_inv (vm (area s)) → tables_reserved (vm (area s)) →
  (∀ p, ¬ Palloc.page_free (frames (vm (area s))) p) →
  (∃ p, usable p ∧ ¬ reserved p) →
  ∃ s', mem_init fuel m mmap length s = Ok s' ∧ initialised usable s s'.
Proof.
  intros usable Hm Hp Hfin Hfuel Hok Hinv Htab Hnone (p0 & Hp0 & Hr0).
  assert (Heq : ∀ p, usable p ↔ 0 ≤ p < PAGES ∧ freed es p).
  { intros p. split.
    - intros (e & He & Ht & Hw). destruct (mmap_entry _ _ _ _ _ Hm He) as [Hb Hl].
      apply (region_ok_range e p) in Hw; [|lia|lia|by apply Hok].
      split; [by apply in_range_bound in Hw|]. by exists e.
    - intros (_ & e & He & Ht & Hr). exists e. split; [done|]. split; [done|].
      destruct (mmap_entry _ _ _ _ _ Hm He) as [Hb Hl].
      apply region_ok_range; [lia|lia|by apply Hok|done]. }
  destruct (mem_init_ok fuel m mmap length s es) as (s' & Hs & Hi); try assumption.
  { exists p0. apply Heq in Hp0 as [? ?]. done. }
  exists s'. split; [exact Hs|]. destruct Hi as [H1 H2 H3 H4 H5 H6 H7 H8 H9 (qs & Hq & Hf)].
  split; try assumption. exists qs. split; [exact Hq|]. intros p. by rewrite Hf, Heq.
Qed.

(** [kbrk] returns the end of the heap and moves it by the pages asked for,
    each of which is mapped afterwards.  Pages that were mapped stay as they
    are, and a new translation leads to a frame that was free and is free no
    more. *)
Theorem kbrk_grows `{FrameAlloc F} (b : brk (F := F)) (n k : nat) :
  room b (n + k) →
  ∃ b', kbrk (Z.of_nat n) b = Ok (heap b, b') ∧ grown b b' (Z.of_nat n) ∧ room b' k.
Proof. apply kbrk_ok. Qed.

(** [kmalloc] of at most 256 KiB, run on the page tables and the frame
    allocator: it returns with its lock free an aligned block that overlaps no
    free byte, counts the bytes in [stats], and clears exactly the bytes asked
    for. *)
Theorem kmalloc_clears `{FrameAlloc F} size i fuel (s : memory (F := F)) m ls pool :
  Kmalloc.good (allocator s) ls pool → Kmalloc.below ls (area s) → Kmalloc.fits size i →
  0 ≤ size → room (area s) (Kmalloc.pages_for i) →
  Z.of_nat (Kmalloc.pages_for i) + Kmalloc.ALOCATORS ≤ Z.of_nat (length pool) →
  (Kmalloc.pages_for i < fuel)%nat → lock s = 0 →
  heap_bytes m ls (area s) (Kmalloc.pages_for i) →
  ∃ r s' m' ls' pool' n, kmalloc fuel size s m = Ok (r, s', m') ∧
    Kmalloc.allocated i ls (area s) n pool r (allocator s') (area s') ls' pool' ∧
    lock s' = 0 ∧ stats s' = u32 (stats s + size) ∧
    (∀ a, r ≤ a < r + size → m' !! a = Some 0) ∧
    (∀ a, ¬ (r ≤ a < r + size) → m' !! a = m !! a).
Proof.
  intros Hg Hbel Hfit Hsz Hroom Hpool Hfuel Hlock Hbytes.
  destruct (kmalloc_run size i _ fuel s m ls pool Hg Hbel Hfit Hsz Hroom (le_n _) Hpool Hfuel Hlock Hbytes)
    as (r & s' & m' & ls' & pool' & n & Heq & _ & _ & Hrest).
  by exists r, s', m', ls', pool', n.
Qed.

(** [mem_init] frees the frames that lie in the usable regions, takes back
    the reserved ones and at most one for a page table, maps the interrupt
    controllers to themselves and initialises the allocator - provided that
    every usable region contains a page boundary or more and ends below 4 GiB,
    and that the kernel's tables are in reserved frames. *)
Theorem mem_init_frames fuel m mmap length s es :
  let usable p := ∃ e, e ∈ es ∧ type e = 1 ∧ whole e p in
  mmap_at m mmap es (mmap + length) → 0 ≤ mmap → mmap + length < 2 ^ 32 →
  (List.length es < fuel)%nat → (∀ e, e ∈ es → type e = 1 → region_ok e) →
  paging_inv (vm (area s)) → tables_reserved (vm (area s)) →
  (∀ p, ¬ Palloc.page_free (frames (vm (area s))) p) →
  (∃ p, usable p ∧ ¬ reserved p) →
  ∃ s', mem_init fuel m mmap length s = Ok s' ∧ initialised usable s s'.
Proof. apply mem_init_whole. Qed.

(** A usable region without a page boundary makes the number of pages wrap
    around: [mem_init] hands out every frame below 4 GiB but the reserved ones,
    one next to the region and at most one for a table, whatever the memory map
    says about them. *)
Theorem mem_init_small_region fuel m mmap length s es e :
  mmap_at m mmap es (mmap + length) → 0 ≤ mmap → mmap + length < 2 ^ 32 →
  (List.length es < fuel)%nat → e ∈ es → type e = 1 → region_small e →
  paging_inv (vm (area s)) → tables_reserved (vm (area s)) →
  (∀ p, ¬ Palloc.page_free (frames (vm (area s))) p) →
  ∃ s' qs, mem_init fuel m mmap length s = Ok s' ∧ (List.length qs ≤ 1)%nat ∧
    ∀ p, 0 ≤ p < PAGES → ¬ reserved p → p ∉ qs →
      p ≠ (base_low e + length_low e) / PAGE_SIZE →
      Palloc.page_free (frames (vm (area s'))) p.
Proof.
  intros Hm Hp Hfin Hfuel He Ht Hsm Hinv Htab Hnone.
  destruct (mmap_entry _ _ _ _ _ Hm He) as [Hb Hl].
  assert (Hfr : ∀ p, 0 ≤ p < PAGES → p ≠ (base_low e + length_low e) / PAGE_SIZE → freed es p).
  { intros p Hpp Hne. exists e. split; [done|]. split; [done|].
    apply region_small_range; [lia|lia|done|done|done]. }
  destruct (mem_init_ok fuel m mmap length s es) as (s' & Hs & Hi); try assumption.
  { set (k := (base_low e + length_low e) / PAGE_SIZE) in *.
    exists (if decide (k = 1) then 2 else 1).
    assert (Hr : ¬ reserved (if decide (k = 1) then 2 else 1)).
    { unfold reserved. case_decide; lia. }
    split; [change PAGES with 1048576; case_decide; lia|]. split; [|exact Hr].
    apply Hfr; [change PAGES with 1048576; case_decide; lia|case_decide; lia]. }
  destruct (in_frames _ _ _ Hi) as (qs & Hq & Hf). exists s', qs.
  split; [exact Hs|]. split; [exact Hq|]. intros p Hpp Hr Hnq Hne. apply Hf. auto.
Qed.

(** ** Concrete runs *)

Definition bare_brk : brk := Brk 0xC3000000 bare_mm.

Lemma bare_room : room bare_brk 1.
Proof.
  split; [exact bare_mm_inv| |done|done|done].
  apply (frames_left_le 3); [lia|]. exact Palloc.three_frames_left.
Qed.

Lemma kbrk_grows_witness :
  ∃ b', kbrk 1 bare_brk = Ok (0xC3000000, b') ∧ heap b' = 0xC3001000 ∧
    ∃ pa, maps (vm b') 0xC3000000 pa.
Proof.
  destruct (kbrk_grows bare_brk 1 0 bare_room) as (b' & Hk & Hg & _).
  exists b'. split; [exact Hk|]. split; [exact (gr_heap _ _ _ Hg)|].
  exact (gr_pages _ _ _ Hg 0 (conj (Z.le_refl 0) Z.lt_0_1)).
Defined.

Lemma bare_bytes :
  heap_bytes (Strings.blank 0xC3000000 (Z.to_nat 4096)) Kmalloc.no_blocks bare_brk
    (Kmalloc.pages_for 4).
Proof.
  intros x [(l & n & y & _ & Hin & _)|Hx].
  { exfalso. by apply not_elem_of_nil in Hin. }
  apply (Strings.blank_writable 0xC3000000 (Z.to_nat 4096)). exact Hx.
Qed.

Lemma no_blocks_below : Kmalloc.below Kmalloc.no_blocks bare_brk.
Proof. intros x (l & n & y & _ & Hin & _). by apply not_elem_of_nil in Hin. Qed.

Lemma kmalloc_clears_witness :
  ∃ a r s' m', Kmalloc.mem_allocator_init Kmalloc.allocator0 = Ok a ∧
    kmalloc 5 100 (Mem bare_brk 0 0 a) (Strings.blank 0xC3000000 (Z.to_nat 4096))
      = Ok (r, s', m') ∧ mem_stats s' = 100 ∧ m' !! r = Some 0.
Proof.
  destruct (Kmalloc.mem_allocator_init_good Kmalloc.allocator0) as (a & Ha & Hg).
  destruct (kmalloc_clears 100 4 5 (Mem bare_brk 0 0 a)
    (Strings.blank 0xC3000000 (Z.to_nat 4096)) Kmalloc.no_blocks (seqZ 1 (Kmalloc.NODES - 1)))
    as (r & s' & m' & ls' & pool' & n & Heq & _ & _ & Hst & Hz & _).
  - exact Hg.
  - exact no_blocks_below.
  - exact Kmalloc.fits_100.
  - lia.
  - exact bare_room.
  - exact Kmalloc.spare_nodes.
  - exact Kmalloc.enough_fuel.
  - reflexivity.
  - exact bare_bytes.
  - exists a, r, s', m'. split; [exact Ha|]. split; [exact Heq|]. split; [exact Hst|].
    apply Hz. lia.
Defined.

(** The machine [mem_init] starts from: a directory in the kernel's image, no
    free frame. *)
Definition boot_mm : mm Palloc.palloc :=
  MM (<[0x101000 + 4 * 1023 := 0x101007]> ∅) 0x101000 Palloc.booted.

Lemma boot_pde i : 0 ≤ i < 1023 → present (pde boot_mm i) = false.
Proof.
  intros Hi. unfold present, pde, ld. simpl.
  change (frame_of 0x101000) with 0x101000. rewrite arr_insert_ne, arr_empty by lia. done.
Qed.

Lemma boot_mm_inv : paging_inv boot_mm.
Proof.
  split.
  - intros a. unfold ld. simpl. rewrite arr_insert. case_decide; [|rewrite arr_empty]; lia.
  - by vm_compute.
  - by vm_compute.
  - intros i Hi Hp. by rewrite boot_pde in Hp.
  - apply Palloc.booted_none.
  - split; [exact Palloc.booted_wf|done].
Qed.

Lemma boot_tables : tables_reserved boot_mm.
Proof.
  split; [right; left; by vm_compute|]. intros i Hi Hp. by rewrite boot_pde in Hp.
Qed.

Definition boot_memory : memory := Mem (Brk 0 boot_mm) 0 0 Kmalloc.allocator0.

(** A memory map in memory. *)
Definition le32 (v : Z) : list Z :=
  [v mod 256; v / 256 mod 256; v / 65536 mod 256; v / 16777216 mod 256].

Definition entry_bytes (e : mmap) : list Z :=
  le32 (size e) ++ le32 (base_low e) ++ le32 (base_high e) ++ le32 (length_low e)
    ++ le32 (length_high e) ++ le32 (type e).

Fixpoint fill (p : Z) (bs : list Z) : mem8 :=
  match bs with [] => ∅ | b :: bs => <[p := b]> (fill (p + 1) bs) end.

Definition pc_map : list mmap :=
  [Mmap 20 0 0 0x9fc00 0 1; Mmap 20 0x9fc00 0 0x400 0 2; Mmap 20 0x100000 0 0x700000 0 1].

Definition map_bytes (es : list mmap) : mem8 := fill 0x9000 (concat (entry_bytes <$> es)).

Lemma pc_map_at : mmap_at (map_bytes pc_map) 0x9000 pc_map (0x9000 + 72).
Proof. repeat split; by vm_compute. Qed.

Lemma pc_map_ok e : e ∈ pc_map → type e = 1 → region_ok e.
Proof.
  unfold pc_map. rewrite !elem_of_cons, elem_of_nil.
  intros [->|[->|[->|[]]]] Ht; [by repeat split; vm_compute|discriminate Ht|].
  by repeat split; vm_compute.
Qed.

Lemma mem_init_frames_witness :
  ∃ s', mem_init 4 (map_bytes pc_map) 0x9000 72 boot_memory = Ok s' ∧
    maps (vm (area s')) 0xFEE00000 0xFEE00000.
Proof.
  destruct (mem_init_frames 4 (map_bytes pc_map) 0x9000 72 boot_memory pc_map) as (s' & Hs & Hi).
  - exact pc_map_at.
  - lia.
  - lia.
  - simpl. lia.
  - exact pc_map_ok.
  - exact boot_mm_inv.
  - exact boot_tables.
  - exact Palloc.booted_none.
  - exists 1. split; [|unfold reserved; lia]. eexists. split; [apply elem_of_cons; by left|].
    split; [reflexivity|]. unfold whole. rewrite PAGE_SIZE_eq. simpl. lia.
  - exists s'. split; [exact Hs|exact (in_lapic _ _ _ Hi)].
Defined.

(** A map whose only usable region is the last kilobyte below 640 KiB. *)
Definition ebda_map : list mmap := [Mmap 20 0x9fc00 0 0x200 0 1].

Lemma ebda_map_at : mmap_at (map_bytes ebda_map) 0x9000 ebda_map (0x9000 + 24).
Proof. repeat split; by vm_compute. Qed.

Lemma mem_init_small_region_witness :
  ∃ s' qs, mem_init 2 (map_bytes ebda_map) 0x9000 24 boot_memory = Ok s' ∧
    (List.length qs ≤ 1)%nat ∧
    ∀ p, 0x80000 ≤ p < 0xF0000 → p ∉ qs → Palloc.page_free (frames (vm (area s'))) p.
Proof.
  destruct (mem_init_small_region 2 (map_bytes ebda_map) 0x9000 24 boot_memory ebda_map
    (Mmap 20 0x9fc00 0 0x200 0 1)) as (s' & qs & Hs & Hq & Hf).
  - exact ebda_map_at.
  - lia.
  - lia.
  - simpl. lia.
  - apply elem_of_cons. by left.
  - reflexivity.
  - repeat split; by vm_compute.
  - exact boot_mm_inv.
  - exact boot_tables.
  - exact Palloc.booted_none.
  - exists s', qs. split; [exact Hs|]. split; [exact Hq|]. intros p Hp Hn.
    apply Hf; [change PAGES with 1048576; lia|unfold reserved; lia|exact Hn|].
    change ((base_low _ + length_low _) / PAGE_SIZE) with 0x9f. lia.
Defined.

End Memory.
