(* ===== verification/Screen.v ===== *)
(** The kernel's console (kernel/screen.c), and what the screen servers of
    SrvScreen.v and SrvFullscreen.v share with it.

    Video memory is an array of 16-bit cells without a declared size, so every
    index may be written; the screen shows the cells 0 to 1999.  Filling and
    copying work on whole cells here, where the code copies their two bytes one
    after the other.  [cell s x y] is what the screen shows. *)

From Stdlib Require Import ZArith Lia.
From stdpp Require Import base option list gmap.
From S2P Require Import Prelude Locks Strings.

Module Screen.

Definition SCREEN_HEIGHT : Z := 25.
Definition SCREEN_WIDTH : Z := 80.

(** [enum ScreenColor] *)
Definition BLACK : Z := 0.
Definition LIGHTGREY : Z := 7.
Definition WHITE : Z := 15.

Record screen := Scr { cur_style : Z; cur_x : Z; cur_y : Z; videomem : gmap Z Z }.

Definition screen0 : screen := Scr (Z.lor (Z.shiftl BLACK 4) LIGHTGREY) 0 0 ∅.

Definition set_cur (x y : Z) (s : screen) : screen := Scr (cur_style s) x y (videomem s).
Definition set_video (v : gmap Z Z) (s : screen) : screen :=
  Scr (cur_style s) (cur_x s) (cur_y s) v.
Definition set_style (st : Z) (s : screen) : screen := Scr st (cur_x s) (cur_y s) (videomem s).

(** [kmemset16(videomem + i, value, count)] *)
Fixpoint kmemset16 (count : nat) (i value : Z) (v : gmap Z Z) : gmap Z Z :=
  match count with
  | O => v
  | S c => kmemset16 c (i + 1) value (<[i := value]> v)
  end.

(** [kmemcpy] of [count] cells. *)
Fixpoint copy_cells (count : nat) (dst src : Z) (v : gmap Z Z) : gmap Z Z :=
  match count with
  | O => v
  | S c => copy_cells c (dst + 1) (src + 1) (<[dst := arr 0 v src]> v)
  end.

Definition screen_getstyle (bg fg : Z) : Z :=
  u8 (Z.lor (u8 (Z.shiftl (u8 bg) 4)) fg).

(** The local [blank] of [clear_line] and [screen_clear]. *)
Definition blank (style : Z) : Z :=
  let c := Z.shiftr style 4 in
  u16 (Z.lor (u16 (Z.shiftl (screen_getstyle c c) 8)) 32).

Definition clear_line (lineno : Z) (s : screen) : screen :=
  set_video (kmemset16 (Z.to_nat SCREEN_WIDTH) (SCREEN_WIDTH * (SCREEN_HEIGHT - 1))
    (blank (cur_style s)) (videomem s)) s.

Definition move_screen (s : screen) : screen :=
  set_video (copy_cells (Z.to_nat (SCREEN_WIDTH * (SCREEN_HEIGHT - 1))) 0 SCREEN_WIDTH
    (videomem s)) s.

(** The [switch] of [mv_cur]. *)
Definition advance (c : Z) (s : screen) : screen :=
  if c =? 13 then set_cur 0 (cur_y s) s else
  if c =? 10 then set_cur 0 (u8 (cur_y s + 1)) s else
  set_cur (u8 (cur_x s + 1)) (cur_y s) s.

(** [cur_y += cur_x / SCREEN_WIDTH; cur_x %= SCREEN_WIDTH;] *)
Definition wrap (s : screen) : screen :=
  set_cur (cur_x s mod SCREEN_WIDTH) (u8 (cur_y s + cur_x s / SCREEN_WIDTH)) s.

Definition mv_cur (c : Z) (s : screen) : screen :=
  let s := advance c s in
  if SCREEN_WIDTH <? cur_x s then wrap s else s.

(** Scrolling by one line. *)
Definition scroll (s : screen) : screen :=
  set_cur (cur_x s) (SCREEN_HEIGHT - 1)
    (clear_line (SCREEN_HEIGHT - 1) (move_screen s)).

(** [value = style; value <<= 8; value |= c;] *)
Definition styled (style c : Z) : Z := u16 (Z.lor (u16 (Z.shiftl style 8)) c).

Definition put_cell (c style : Z) (s : screen) : screen :=
  if 32 <=? c then
    set_video (<[cur_y s * SCREEN_WIDTH + cur_x s := styled style c]> (videomem s)) s
  else s.

Definition screen_putchar (c style : Z) (s : screen) : screen :=
  let s := if SCREEN_HEIGHT <=? cur_y s then scroll s else s in
  mv_cur c (put_cell c style s).

Definition clear_cells (s : screen) : gmap Z Z :=
  kmemset16 (Z.to_nat (SCREEN_HEIGHT * SCREEN_WIDTH)) 0 (blank (cur_style s)) (videomem s).

(** With the lock of the console. *)
Definition screen_clear (lock : Z) (s : screen) : res (Z * screen) :=
  lock ← Locks.section_enter lock;
  let s := set_cur 0 0 (set_video (clear_cells s) s) in
  Ok (Locks.section_leave lock, s).

Definition screen_set_bg (color : Z) (s : screen) : screen :=
  let st := u8 (Z.land (cur_style s) 0x0f) in
  set_style (u8 (Z.lor st (Z.shiftl color 4))) s.

Definition screen_set_fg (color : Z) (s : screen) : screen :=
  let st := u8 (Z.land (cur_style s) 0xf0) in
  set_style (u8 (Z.lor st color)) s.

(** [while( *c) putchar( *c++, cur_style);] *)
Fixpoint putstr (putchar : Z → Z → screen → screen) (fuel : nat) (m : Strings.mem8) (c : Z)
    (s : screen) : res screen :=
  match fuel with
  | O => Spin
  | S f =>
      x ← Strings.load8 c m;
      if bool_decide (x = 0) then Ok s
      else putstr putchar f m (c + 1) (putchar (s8 x) (cur_style s) s)
  end.

Definition screen_putstr (fuel : nat) (m : Strings.mem8) (c : Z) (s : screen) : res screen :=
  putstr screen_putchar fuel m c s.

(** ** What the screen shows *)

(** The cell in column [x] of line [y]. *)
Definition cell (s : screen) (x y : Z) : Z := arr 0 (videomem s) (y * SCREEN_WIDTH + x).

Definition on_screen (x y : Z) : Prop := 0 ≤ x < SCREEN_WIDTH ∧ 0 ≤ y < SCREEN_HEIGHT.

(** [s'] shows what [s] shows, one line up, over a blank line. *)
Definition scrolled (s s' : screen) : Prop :=
  ∀ x y, on_screen x y →
    cell s' x y = if decide (y = SCREEN_HEIGHT - 1) then blank (cur_style s) else cell s x (y + 1).

(** Nothing is written outside the [n] first cells. *)
Definition within (n : Z) (s s' : screen) : Prop :=
  ∀ i, ¬ (0 ≤ i < n) → arr 0 (videomem s') i = arr 0 (videomem s) i.

(** The screen after [c] is put at its cursor. *)
Definition shows (c style : Z) (s : screen) (x y : Z) : Z :=
  if decide (32 ≤ c ∧ x = cur_x s ∧ y = cur_y s) then styled style c else cell s x y.

Ltac dims := change SCREEN_WIDTH with 80 in *; change SCREEN_HEIGHT with 25 in *.

Lemma kmemset16_at count : ∀ i value v j,
  arr 0 (kmemset16 count i value v) j =
  if decide (i ≤ j < i + Z.of_nat count) then value else arr 0 v j.
Proof.
  induction count as [|c IH]; intros i value v j; cbn [kmemset16].
  - by rewrite decide_False by lia.
  - rewrite IH, arr_insert. repeat case_decide; lia || done.
Qed.

(** Copying downwards: source cells are read before they are written. *)
Lemma copy_cells_at count : ∀ dst src v j,
  dst < src →
  arr 0 (copy_cells count dst src v) j =
  if decide (dst ≤ j < dst + Z.of_nat count) then arr 0 v (j + (src - dst)) else arr 0 v j.
Proof.
  induction count as [|c IH]; intros dst src v j Hlt; cbn [copy_cells].
  - by rewrite decide_False by lia.
  - rewrite IH by lia. replace (src + 1 - (dst + 1)) with (src - dst) by lia.
    rewrite !arr_insert. repeat case_decide; try lia; try done. f_equal; lia.
Qed.

Lemma scroll_ok s : scrolled s (scroll s) ∧ within 2000 s (scroll s).
Proof.
  unfold scrolled, within, cell, scroll, clear_line, move_screen, on_screen. dims.
  cbn [videomem cur_style set_cur set_video].
  change (Z.to_nat 80) with 80%nat. change (Z.to_nat (80 * (25 - 1))) with 1920%nat. split.
  - intros x y [Hx Hy]. rewrite kmemset16_at, copy_cells_at by lia.
    repeat case_decide; try lia; try done; f_equal; lia.
  - intros i Hi. rewrite kmemset16_at, copy_cells_at by lia.
    repeat case_decide; lia || done.
Qed.

(** The cells after [put_cell]. *)
Lemma put_cell_shows c style s x y :
  0 ≤ cur_x s < SCREEN_WIDTH → on_screen x y →
  cell (put_cell c style s) x y = shows c style s x y.
Proof.
  unfold on_screen, cell, shows, put_cell. dims. intros Hx [Hx' Hy'].
  destruct (Z.leb_spec 32 c); cbn [videomem set_video].
  - rewrite arr_insert. repeat case_decide; try lia; done.
  - by rewrite decide_False by lia.
Qed.

Lemma put_cell_within n c style s :
  0 ≤ cur_x s → 0 ≤ cur_y s → cur_y s * SCREEN_WIDTH + cur_x s < n →
  within n s (put_cell c style s).
Proof.
  intros Hx Hy Hn i Hi. unfold put_cell. dims. destruct (32 <=? c); [|done].
  cbn [videomem set_video]. by rewrite arr_insert_ne by lia.
Qed.

Lemma put_cell_cur c style s :
  cur_x (put_cell c style s) = cur_x s ∧ cur_y (put_cell c style s) = cur_y s ∧
  cur_style (put_cell c style s) = cur_style s.
Proof. unfold put_cell. by destruct (32 <=? c). Qed.

Lemma set_cur_cells x y s : videomem (set_cur x y s) = videomem s.
Proof. done. Qed.

(** ** The console *)

(** Where the cursor of the console may be. *)
Definition console_ok (s : screen) : Prop :=
  0 ≤ cur_x s ≤ SCREEN_WIDTH ∧ 0 ≤ cur_y s ≤ SCREEN_HEIGHT.

Lemma mv_cur_ok c s :
  0 ≤ cur_x s ≤ SCREEN_WIDTH → 0 ≤ cur_y s < SCREEN_HEIGHT →
  console_ok (mv_cur c s) ∧ videomem (mv_cur c s) = videomem s ∧
  cur_style (mv_cur c s) = cur_style s.
Proof.
  destruct s as [st x y v]. unfold console_ok, mv_cur, advance, wrap, set_cur.
  cbn [cur_x cur_y cur_style videomem]. intros Hx Hy. dims.
  destruct (c =? 13); cbn [cur_x cur_y cur_style videomem].
  { change (80 <? 0) with false. cbn [cur_x cur_y cur_style videomem]. split; [lia|done]. }
  destruct (c =? 10); cbn [cur_x cur_y cur_style videomem].
  { change (80 <? 0) with false. cbn [cur_x cur_y cur_style videomem].
    rewrite (u8_small (y + 1)) by lia. split; [lia|done]. }
  rewrite (u8_small (x + 1)) by lia. destruct (Z.ltb_spec 80 (x + 1));
    cbn [cur_x cur_y cur_style videomem]; [|split; [lia|done]].
  replace (x + 1) with 81 by lia. change (81 mod 80) with 1. change (81 `div` 80) with 1.
  rewrite u8_small by lia. split; [lia|done].
Qed.

Lemma console_putchar_ok c style s :
  console_ok s →
  console_ok (screen_putchar c style s) ∧ within 2001 s (screen_putchar c style s) ∧
  cur_style (screen_putchar c style s) = cur_style s.
Proof.
  intros [Hx Hy]. unfold screen_putchar.
  set (t := if SCREEN_HEIGHT <=? cur_y s then scroll s else s).
  assert (Ht : 0 ≤ cur_x t ≤ SCREEN_WIDTH ∧ 0 ≤ cur_y t < SCREEN_HEIGHT ∧
               within 2000 s t ∧ cur_style t = cur_style s).
  { unfold t. dims. destruct (Z.leb_spec 25 (cur_y s)).
    - destruct (scroll_ok s) as [_ Hw]. change (cur_x (scroll s)) with (cur_x s).
      change (cur_y (scroll s)) with 24. split; [done|]. split; [lia|]. by split.
    - split; [done|]. split; [lia|]. by split. }
  clearbody t. destruct Ht as (Htx & Hty & Htw & Hts).
  destruct (put_cell_cur c style t) as (Hpx & Hpy & Hps).
  destruct (mv_cur_ok c (put_cell c style t)) as (Hok & Hv & Hst); [by rewrite Hpx|by rewrite Hpy|].
  split; [done|]. split; [|congruence]. intros i Hi. rewrite Hv.
  rewrite (put_cell_within 2001 c style t) by (dims; lia). apply Htw. lia.
Qed.

Lemma within_trans n s1 s2 s3 : within n s1 s2 → within n s2 s3 → within n s1 s3.
Proof. intros H1 H2 i Hi. by rewrite H2, H1. Qed.

(** Printing a string, as a fold over its characters. *)
Lemma putstr_fold putchar fuel m p str s :
  Strings.cstr m p str → (length str < fuel)%nat →
  putstr putchar fuel m p s = Ok (foldl (λ s c, putchar (s8 c) (cur_style s) s) s str).
Proof.
  revert fuel p s. induction str as [|c str IH]; intros [|fuel] p s Hc Hf; simpl in Hf; try lia;
    cbn [putstr].
  - rewrite (Strings.load8_Some m p 0) by exact Hc. reflexivity.
  - destruct Hc as (Hm & Hok & Hr). rewrite (Strings.load8_Some _ _ _ Hm). cbn [mbind res_bind].
    rewrite bool_decide_false by (unfold Strings.char_ok in Hok; lia).
    apply IH; [exact Hr|lia].
Qed.

(** Printing a string with a [putchar] that keeps an invariant and stays
    within [n] cells. *)
Lemma putstr_ok (P : screen → Prop) n putchar fuel m p str s :
  (∀ c s, P s → P (putchar c (cur_style s) s) ∧ within n s (putchar c (cur_style s) s)) →
  Strings.cstr m p str → (length str < fuel)%nat → P s →
  ∃ s', putstr putchar fuel m p s = Ok s' ∧
    s' = foldl (λ s c, putchar (s8 c) (cur_style s) s) s str ∧ P s' ∧ within n s s'.
Proof.
  intros Hput. revert fuel p s. induction str as [|c str IH]; intros [|fuel] p s Hc Hf HP;
    simpl in Hf; try lia; cbn [putstr].
  - rewrite (Strings.load8_Some m p 0) by exact Hc. cbn [mbind res_bind].
    rewrite bool_decide_true by done. exists s. split; [done|]. split; [done|]. by split.
  - destruct Hc as (Hc & Hok & Hrest). rewrite (Strings.load8_Some m p c) by exact Hc.
    cbn [mbind res_bind]. rewrite bool_decide_false by (unfold Strings.char_ok in Hok; lia).
    destruct (Hput (s8 c) s HP) as [HP' Hw].
    destruct (IH fuel (p + 1) (putchar (s8 c) (cur_style s) s)) as (s' & Heq & Hs' & HPs & Hws);
      [done|lia|done|].
    exists s'. split; [done|]. split; [done|]. split; [done|]. by eapply within_trans.
Qed.

(** The console after a text. *)
Definition typed (str : list Z) (s : screen) : screen :=
  foldl (λ s c, screen_putchar (s8 c) (cur_style s) s) s str.

(** [screen_putstr(kprintf(buf, fmt, args))] with a buffer of [size] bytes. *)
Lemma message_ok fuel g buf size fmt ps m sc :
  Forall Strings.piece_ok ps → Strings.cstr m fmt (concat (Strings.format_of <$> ps)) →
  Strings.writable m buf size → Strings.room ps + 1 ≤ size →
  Strings.outside fmt (concat (Strings.format_of <$> ps)) buf size →
  Forall (Strings.arg_in m buf (Strings.room ps + 1) g) ps → (length ps + g < fuel)%nat →
  (Z.to_nat (Strings.room ps) < fuel)%nat → console_ok sc →
  ∃ m' outs, Strings.kprintf fuel m buf fmt (concat (Strings.args_of <$> ps)) = Ok (buf, m') ∧
    Forall2 Strings.prints ps outs ∧ Strings.changed buf size m m' ∧
    screen_putstr fuel m' buf sc = Ok (typed (concat outs) sc) ∧
    console_ok (typed (concat outs) sc).
Proof.
  intros Hok Hf Hw Hr Ho Ha Hg Hfuel Hsc.
  destruct (Strings.kprintf_ok fuel g m buf fmt ps) as (m' & outs & Hk & Hp & Hl & Hb & Hch); try done.
  { eapply Strings.writable_sub; [exact Hw|lia|lia]. }
  { unfold Strings.outside in *. lia. }
  apply Strings.bytes_app in Hb as [Hb [H0 _]].
  assert (Hc : Strings.cstr m' buf (concat outs)).
  { apply Strings.cstr_bytes. split; [done|]. split; [by apply (Strings.all_prints_chars ps)|done]. }
  destruct (putstr_ok console_ok 2001 screen_putchar fuel m' buf (concat outs) sc)
    as (sc' & Hput & -> & Hsc' & _); [|done|lia|done|].
  { intros x t Ht. by destruct (console_putchar_ok x (cur_style t) t Ht) as (? & ? & _). }
  exists m', outs. split; [done|]. split; [done|]. split; [|by split].
  eapply Strings.changed_widen; [exact Hch|lia|lia].
Qed.

(** ** Properties *)

(** C40. The console keeps its cursor up to column 80 and writes one cell behind
    the screen at most.  It gets there: a printable character for column 80 of
    the last line is stored in cell 2000 and not shown, and the next one
    stands in column 1 of the last line with a blank before it. *)
Theorem console_overruns fuel m p str s :
  console_ok s → Strings.cstr m p str → (length str < fuel)%nat →
  (∃ s', screen_putstr fuel m p s = Ok s' ∧ console_ok s' ∧
     within (SCREEN_HEIGHT * SCREEN_WIDTH + 1) s s') ∧
  ∀ c1 c2 style, 32 ≤ c1 → 32 ≤ c2 → cur_x s = 80 → cur_y s = 24 →
    let s1 := screen_putchar c1 style s in
    let s2 := screen_putchar c2 style s1 in
    arr 0 (videomem s1) (SCREEN_HEIGHT * SCREEN_WIDTH) = styled style c1 ∧
    (∀ x y, on_screen x y → cell s1 x y = cell s x y) ∧
    cell s2 0 24 = blank (cur_style s) ∧ cell s2 1 24 = styled style c2.
Proof.
  intros Hs Hc Hf. split.
  - destruct (putstr_ok console_ok 2001 screen_putchar fuel m p str s) as (s' & ? & _ & ? & ?);
      try assumption; [|by exists s'].
    intros c t Ht. destruct (console_putchar_ok c (cur_style t) t Ht) as (? & ? & _). done.
  - intros c1 c2 style Hc1 Hc2 Hx Hy. cbv zeta.
    assert (H1 : screen_putchar c1 style s =
      Scr (cur_style s) 1 25 (<[2000 := styled style c1]> (videomem s))).
    { unfold screen_putchar. rewrite Hy. dims. cbn [Z.leb Z.compare Pos.compare Pos.compare_cont].
      unfold put_cell. rewrite (proj2 (Z.leb_le 32 c1)), Hx, Hy by done.
      unfold mv_cur, advance, set_video. cbn [cur_x cur_y videomem cur_style].
      rewrite (proj2 (Z.eqb_neq c1 13)), (proj2 (Z.eqb_neq c1 10)) by lia. by rewrite Hx, Hy. }
    rewrite H1. dims. change (25 * 80) with 2000. cbn [videomem].
    split; [by rewrite arr_insert_eq|]. split.
    + unfold on_screen, cell. dims. intros x y Hxy. cbn [videomem].
      rewrite arr_insert_ne by lia. done.
    + set (s1 := Scr (cur_style s) 1 25 (<[2000 := styled style c1]> (videomem s))).
      unfold screen_putchar. change (cur_y s1) with 25. dims.
      change (25 <=? 25) with true. cbv iota.
      destruct (put_cell_cur c2 style (scroll s1)) as (Hpx & Hpy & _).
      destruct (mv_cur_ok c2 (put_cell c2 style (scroll s1))) as (_ & Hv & _);
        [by rewrite Hpx|by rewrite Hpy|].
      unfold cell. rewrite Hv. fold (cell (put_cell c2 style (scroll s1)) 0 24).
      fold (cell (put_cell c2 style (scroll s1)) 1 24).
      rewrite !put_cell_shows by (by vm_compute). unfold shows.
      change (cur_x (scroll s1)) with 1. change (cur_y (scroll s1)) with 24.
      rewrite decide_False by lia. rewrite decide_True by lia. split; [|done].
      destruct (scroll_ok s1) as [Hsc _]. rewrite (Hsc 0 24) by (by vm_compute). done.
Qed.

(** ** Concrete runs *)

Definition text : Strings.mem8 := Strings.with_str 0x5000 [79; 75; 10] ∅.

Lemma text_cstr : Strings.cstr text 0x5000 [79; 75; 10].
Proof. apply Strings.with_str_cstr. repeat constructor. Qed.

Lemma console_overruns_witness :
  ∃ s', screen_putstr 4 text 0x5000 (set_cur 80 24 screen0) = Ok s' ∧ console_ok s' ∧
    cell (screen_putchar 79 7 (set_cur 80 24 screen0)) 0 24 = 0.
Proof.
  destruct (console_overruns 4 text 0x5000 [79; 75; 10] (set_cur 80 24 screen0))
    as ((s' & Hs & Hok & _) & Hover).
  - by vm_compute.
  - exact text_cstr.
  - simpl. lia.
  - exists s'. split; [exact Hs|]. split; [exact Hok|].
    destruct (Hover 79 75 7) as (_ & Hcell & _); [lia|lia|reflexivity|reflexivity|].
    exact (Hcell 0 24 ltac:(by vm_compute)).
Defined.

End Screen.
