(* ===== verification/Snake.v ===== *)
(** The game (userspace/snake.c).

    [game] holds the static variables of snake.c.  Array accesses outside the
    declared sizes are faults.  [body] is the snake as a list, head first. *)

From Stdlib Require Import ZArith Lia.
From stdpp Require Import base option list gmap.
From S2P Require Import Prelude.

Module Snake.

Definition SCREEN_WIDTH : Z := 80.
Definition SCREEN_HEIGHT : Z := 25.
Definition KEY_UP : Z := 0x11.
Definition KEY_DOWN : Z := 0x1F.
Definition KEY_LEFT : Z := 0x1E.
Definition KEY_RIGHT : Z := 0x20.
Definition MAX_LEN : Z := 400.
(** [sizeof(status)] and [sizeof(buf)]. *)
Definition STATUS : Z := 128.
Definition BUF : Z := SCREEN_WIDTH * SCREEN_HEIGHT.
(** ['.'] *)
Definition symbol : Z := 46.

Record pos := Pos { x : Z; y : Z }.
Definition pos0 : pos := Pos 0 0.

#[export] Instance pos_eq_dec : EqDecision pos.
Proof. solve_decision. Defined.

Record game := Game {
  status : gmap Z Z; snake : gmap Z pos; snake_len : Z; direction : pos;
  iterations : Z; buf : gmap Z Z
}.

Definition set_snake (s : gmap Z pos) (len : Z) (g : game) : game :=
  Game (status g) s len (direction g) (iterations g) (buf g).
Definition set_direction (d : pos) (g : game) : game :=
  Game (status g) (snake g) (snake_len g) d (iterations g) (buf g).
Definition set_buf (b : gmap Z Z) (g : game) : game :=
  Game (status g) (snake g) (snake_len g) (direction g) (iterations g) b.

Definition get_pos (g : game) (i : Z) : res pos := aget pos0 MAX_LEN (snake g) i.
Definition set_pos (i : Z) (p : pos) (g : game) : res game :=
  s ← aset MAX_LEN (snake g) i p; Ok (set_snake s (snake_len g) g).
Definition key (g : game) (k : Z) : res bool :=
  v ← aget 0 STATUS (status g) k; Ok (negb (bool_decide (v = 0))).

(** The [if]s with their [goto check]: the direction the keys ask for. *)
Definition wanted (g : game) : res pos :=
  up ← key g KEY_UP;
  if (up : bool) then Ok (Pos 0 (-1)) else
  down ← key g KEY_DOWN;
  if (down : bool) then Ok (Pos 0 1) else
  left ← key g KEY_LEFT;
  if (left : bool) then Ok (Pos (-1) 0) else
  right ← key g KEY_RIGHT;
  if (right : bool) then Ok (Pos 1 0) else Ok (Pos 0 0).

Definition change_dir (g : game) : res game :=
  next ← wanted g;
  if bool_decide (x next = 0) && bool_decide (y next = 0) then Ok g else
  if bool_decide (x next + x (direction g) = 0) && bool_decide (y next + y (direction g) = 0)
  then Ok g else Ok (set_direction next g).

(** [while(i-- > 1) snake[i] = snake[i - 1];] from [i = k + 1]. *)
Fixpoint shift_loop (k : nat) (g : game) : res game :=
  match k with
  | O => Ok g
  | S k' =>
      p ← get_pos g (Z.of_nat k - 1);
      g ← set_pos (Z.of_nat k) p g;
      shift_loop k' g
  end.

(** One coordinate of the new head: [short] arithmetic with C's remainder. *)
Definition step_coord (size v d : Z) : Z := s16 (Z.rem (size + v + d) size).

Definition move_snake (g : game) : res game :=
  g ← shift_loop (Z.to_nat (snake_len g - 1)) g;
  p ← get_pos g 1;
  g ← set_pos 0 p g;
  p ← get_pos g 0;
  g ← set_pos 0 (Pos (step_coord SCREEN_WIDTH (x p) (x (direction g))) (y p)) g;
  p ← get_pos g 0;
  set_pos 0 (Pos (x p) (step_coord SCREEN_HEIGHT (y p) (y (direction g)))) g.

(** [memset(buf, ' ', sizeof(buf))] *)
Definition clear_buf (g : game) : res game :=
  b ← for_upto BUF (λ i b, aset BUF b i 32) (buf g); Ok (set_buf b g).

Definition draw_snake (g : game) : res game :=
  g ← clear_buf g;
  for_upto (snake_len g) (λ i g,
    p ← get_pos g i;
    b ← aset BUF (buf g) (x p + y p * SCREEN_WIDTH) symbol;
    Ok (set_buf b g)) g.

Definition enlarge_snake (g : game) : res game :=
  if bool_decide (Z.rem (iterations g) 16 ≠ 0) then Ok g else
  if bool_decide (snake_len g = MAX_LEN) then Ok g else
  p ← get_pos g (snake_len g - 1);
  g ← set_pos (snake_len g) p g;
  Ok (set_snake (snake g) (s32 (snake_len g + 1)) g).

(** One turn of the loop of [main] without its system calls: [status] holds
    what was read last. *)
Definition turn (g : game) : res game :=
  g ← change_dir g;
  g ← enlarge_snake g;
  g ← move_snake g;
  g ← draw_snake g;
  Ok (Game (status g) (snake g) (snake_len g) (direction g) (s32 (iterations g + 1)) (buf g)).

(** The start of [main]: the head, then the other positions behind it. *)
Definition start (g : game) : res game :=
  g ← set_pos 0 (Pos 20 12) g;
  let g := set_direction (Pos 1 0) (set_snake (snake g) 5 g) in
  for_from (λ i g,
    p ← get_pos g (i - 1);
    set_pos i (Pos (s16 (x p - x (direction g))) (s16 (y p - y (direction g)))) g) 4 1 g.

Definition game0 : game := Game ∅ ∅ 0 pos0 0 ∅.

(** ** What the game should do *)

Definition at_ (g : game) (i : Z) : pos := arr pos0 (snake g) i.
Definition body (g : game) : list pos := at_ g <$> seqZ 0 (snake_len g).

Definition on_screen (p : pos) : Prop := 0 ≤ x p < SCREEN_WIDTH ∧ 0 ≤ y p < SCREEN_HEIGHT.

Definition directions : list pos := [Pos 0 (-1); Pos 0 1; Pos (-1) 0; Pos 1 0].

Record game_ok (g : game) : Prop := {
  ok_len : 2 ≤ snake_len g ≤ MAX_LEN;
  ok_body : ∀ i, 0 ≤ i < snake_len g → on_screen (at_ g i);
  ok_dir : direction g ∈ directions
}.

(** The screen is a torus. *)
Definition ahead (d p : pos) : pos :=
  Pos ((x p + x d) mod SCREEN_WIDTH) ((y p + y d) mod SCREEN_HEIGHT).

Definition opposite (d e : pos) : Prop := x d + x e = 0 ∧ y d + y e = 0.

(** The snake grows every sixteenth turn, up to its maximum, by doubling its
    end. *)
Definition grown (g : game) : list pos :=
  if decide (Z.rem (iterations g) 16 = 0 ∧ snake_len g ≠ MAX_LEN)
  then body g ++ [at_ g (snake_len g - 1)] else body g.

Definition pressed (g : game) (k : Z) : Prop := arr 0 (status g) k ≠ 0.

(** The direction after the keys were looked at. *)
Definition steered (g g' : game) : Prop :=
  direction g' ∈ directions ∧ ¬ opposite (direction g') (direction g) ∧
  (direction g' ≠ direction g →
     (direction g' = Pos 0 (-1) ∧ pressed g KEY_UP) ∨ (direction g' = Pos 0 1 ∧ pressed g KEY_DOWN) ∨
     (direction g' = Pos (-1) 0 ∧ pressed g KEY_LEFT) ∨ (direction g' = Pos 1 0 ∧ pressed g KEY_RIGHT)).

Ltac dims := change SCREEN_WIDTH with 80 in *; change SCREEN_HEIGHT with 25 in *;
  change MAX_LEN with 400 in *; change BUF with 2000 in *; change STATUS with 128 in *.

Lemma key_ok g k : 0 ≤ k < STATUS → key g k = Ok (bool_decide (pressed g k)).
Proof.
  intros Hk. unfold key, pressed. rewrite aget_in by done. cbn [mbind res_bind].
  by rewrite bool_decide_not.
Qed.

Lemma step_coord_ok size v d :
  0 < size < 1000 → 0 ≤ v < size → -1 ≤ d ≤ 1 →
  step_coord size v d = (v + d) mod size.
Proof.
  intros Hs Hv Hd. unfold step_coord. rewrite Z.rem_mod_nonneg by lia.
  replace (size + v + d) with (v + d + 1 * size) by lia. rewrite Z.mod_add by lia.
  pose proof (Z.mod_pos_bound (v + d) size). unfold s16. rewrite Z.mod_small; lia.
Qed.

(** The keys. *)
Lemma wanted_ok g :
  ∃ d, wanted g = Ok d ∧
    (d = Pos 0 0 ∨
     (d = Pos 0 (-1) ∧ pressed g KEY_UP) ∨ (d = Pos 0 1 ∧ pressed g KEY_DOWN) ∨
     (d = Pos (-1) 0 ∧ pressed g KEY_LEFT) ∨ (d = Pos 1 0 ∧ pressed g KEY_RIGHT)).
Proof.
  unfold wanted. rewrite (key_ok g KEY_UP), (key_ok g KEY_DOWN), (key_ok g KEY_LEFT), (key_ok g KEY_RIGHT)
    by (split; [discriminate|reflexivity]). cbn [mbind res_bind].
  repeat case_bool_decide; cbn [mbind res_bind]; eexists; (split; [reflexivity|]); tauto.
Qed.

Lemma opposite_dec_ok d e :
  bool_decide (x d + x e = 0) && bool_decide (y d + y e = 0) = bool_decide (opposite d e).
Proof. unfold opposite. by rewrite bool_decide_and. Qed.

Lemma change_dir_ok g :
  direction g ∈ directions →
  ∃ g', change_dir g = Ok g' ∧ steered g g' ∧ g' = set_direction (direction g') g.
Proof.
  intros Hd. unfold change_dir. destruct (wanted_ok g) as (d & -> & Hw). cbn [mbind res_bind].
  assert (Hself : ¬ opposite (direction g) (direction g)).
  { unfold directions in Hd. rewrite !elem_of_cons, elem_of_nil in Hd. unfold opposite.
    destruct Hd as [->|[->|[->|[->|[]]]]]; simpl; lia. }
  assert (Hstay : steered g g) by (split; [done|]; split; [done|]; by intros []).
  assert (Hg : g = set_direction (direction g) g) by (by destruct g).
  rewrite opposite_dec_ok.
  destruct (bool_decide (x d = 0) && bool_decide (y d = 0)) eqn:Hz; [by exists g|].
  destruct (bool_decide (opposite d (direction g))) eqn:Ho; [by exists g|].
  apply bool_decide_eq_false in Ho.
  exists (set_direction d g). split; [done|]. split; [|done].
  destruct Hw as [->|Hw]; [done|]. split; [|split; [exact Ho|intros _; exact Hw]].
  unfold directions. rewrite !elem_of_cons. cbn [direction set_direction]. tauto.
Qed.

(** An access within the array. *)
Ltac arr_step :=
  first [rewrite aget_in by lia|rewrite aset_in by lia];
  cbn [mbind res_bind snake set_snake snake_len direction status iterations buf set_buf].

(** ** Moving *)

Lemma body_length g : 0 ≤ snake_len g → length (body g) = Z.to_nat (snake_len g).
Proof. intros. unfold body. by rewrite length_fmap, length_seqZ. Qed.

Lemma body_lookup g i : 0 ≤ i < snake_len g → body g !! Z.to_nat i = Some (at_ g i).
Proof.
  intros Hi. unfold body. rewrite list_lookup_fmap, lookup_seqZ_lt by lia. simpl.
  f_equal. f_equal. lia.
Qed.

(** The loop moves positions 0 to [k - 1] up by one. *)
Lemma shift_loop_ok k : ∀ g,
  Z.of_nat k < MAX_LEN →
  ∃ s, shift_loop k g = Ok (set_snake s (snake_len g) g) ∧
    ∀ i, arr pos0 s i = if decide (1 ≤ i ≤ Z.of_nat k) then at_ g (i - 1) else at_ g i.
Proof.
  induction k as [|k IH]; intros g Hk.
  - exists (snake g). split; [by destruct g|]. intros i. by rewrite decide_False by lia.
  - cbn [shift_loop]. unfold get_pos. rewrite aget_in by lia. cbn [mbind res_bind].
    unfold set_pos. rewrite aset_in by lia. cbn [mbind res_bind].
    destruct (IH (set_snake (<[Z.of_nat (S k) := arr pos0 (snake g) (Z.of_nat (S k) - 1)]> (snake g))
      (snake_len g) g)) as (s & Heq & Hs); [lia|].
    exists s. split; [exact Heq|]. intros i. rewrite Hs. unfold at_. cbn [snake set_snake].
    repeat case_decide; try lia; rewrite arr_insert; case_decide; try lia; try done.
    f_equal. lia.
Qed.

(** A list is determined by its elements. *)
Lemma body_eq g l :
  0 ≤ snake_len g → length l = Z.to_nat (snake_len g) →
  (∀ i, 0 ≤ i < snake_len g → l !! Z.to_nat i = Some (at_ g i)) → body g = l.
Proof.
  intros H0 Hl Hi. apply list_eq. intros n.
  destruct (decide (Z.of_nat n < snake_len g)) as [Hn|Hn].
  - rewrite <- (Nat2Z.id n). rewrite body_lookup, Hi by lia. done.
  - rewrite !lookup_ge_None_2; [done|lia|]. rewrite body_length by lia. lia.
Qed.

Lemma move_snake_ok g :
  game_ok g →
  ∃ s, move_snake g = Ok (set_snake s (snake_len g) g) ∧
    arr pos0 s 0 = ahead (direction g) (at_ g 0) ∧
    (∀ i, 1 ≤ i < snake_len g → arr pos0 s i = at_ g (i - 1)).
Proof.
  intros [Hlen Hbody Hdir]. dims.
  assert (Hh : on_screen (at_ g 0)) by (apply Hbody; lia).
  assert (Hd : -1 ≤ x (direction g) ≤ 1 ∧ -1 ≤ y (direction g) ≤ 1).
  { unfold directions in Hdir. rewrite !elem_of_cons, elem_of_nil in Hdir.
    destruct Hdir as [->|[->|[->|[->|[]]]]]; simpl; lia. }
  unfold move_snake.
  destruct (shift_loop_ok (Z.to_nat (snake_len g - 1)) g) as (s & -> & Hs); [dims; lia|].
  cbn [mbind res_bind]. unfold get_pos, set_pos. dims. cbn [snake set_snake snake_len direction].
  do 2 arr_step. rewrite (Hs 1), decide_True by lia. change (1 - 1) with 0.
  do 2 (do 2 arr_step; rewrite arr_insert_eq; cbn [x y]).
  eexists. split; [reflexivity|]. unfold on_screen in Hh. dims. split.
  - rewrite arr_insert_eq. unfold ahead. dims. by rewrite !step_coord_ok by lia.
  - intros i Hi. rewrite !arr_insert_ne by lia. by rewrite Hs, decide_True by lia.
Qed.

Lemma ahead_on_screen d p : on_screen (ahead d p).
Proof. unfold on_screen, ahead. dims. cbn [x y]. split; apply Z.mod_pos_bound; lia. Qed.

Lemma body_cons g s :
  2 ≤ snake_len g →
  arr pos0 s 0 = ahead (direction g) (at_ g 0) →
  (∀ i, 1 ≤ i < snake_len g → arr pos0 s i = at_ g (i - 1)) →
  body (set_snake s (snake_len g) g) = ahead (direction g) (at_ g 0) :: removelast (body g).
Proof.
  intros Hl H0 Hi.
  assert (Hr : removelast (body g) = take (length (body g) - 1) (body g)).
  { rewrite removelast_firstn_len. by rewrite Nat.sub_1_r. }
  apply body_eq; cbn [snake_len set_snake]; [lia| |].
  - rewrite Hr. simpl. rewrite length_take, body_length by lia. lia.
  - intros i Hr'. unfold at_ at 2. cbn [snake set_snake].
    destruct (decide (i = 0)) as [->|]; [by rewrite H0|].
    rewrite lookup_cons_ne_0 by lia. replace (pred (Z.to_nat i)) with (Z.to_nat (i - 1)) by lia.
    rewrite Hr, Hi, lookup_take_lt by (rewrite ?body_length; lia).
    by rewrite body_lookup by lia.
Qed.

(** ** Growing and drawing *)

Lemma body_snoc g s len :
  0 ≤ snake_len g → len = snake_len g + 1 →
  (∀ i, 0 ≤ i < snake_len g → arr pos0 s i = at_ g i) →
  body (set_snake s len g) = body g ++ [arr pos0 s (snake_len g)].
Proof.
  intros H0 -> Hs. apply body_eq; cbn [snake_len set_snake]; [lia| |].
  - rewrite length_app, body_length by lia. simpl. lia.
  - intros i Hi. unfold at_ at 1. cbn [snake set_snake].
    destruct (decide (i < snake_len g)).
    + rewrite lookup_app_l by (rewrite body_length; lia). rewrite body_lookup by lia.
      f_equal. symmetry. apply Hs. lia.
    + rewrite lookup_app_r by (rewrite body_length; lia). rewrite body_length by lia.
      replace (Z.to_nat i - Z.to_nat (snake_len g))%nat with 0%nat by lia.
      simpl. by replace i with (snake_len g) by lia.
Qed.

Lemma enlarge_snake_ok g :
  game_ok g →
  ∃ s len, enlarge_snake g = Ok (set_snake s len g) ∧ game_ok (set_snake s len g) ∧
    body (set_snake s len g) = grown g ∧ at_ (set_snake s len g) 0 = at_ g 0.
Proof.
  intros Hok. pose proof Hok as [Hlen Hbody Hdir]. unfold enlarge_snake, grown. dims.
  assert (Hg : g = set_snake (snake g) (snake_len g) g) by (by destruct g).
  case_bool_decide as Hit.
  { exists (snake g), (snake_len g). rewrite <- Hg, decide_False by tauto. done. }
  case_bool_decide as Hmax.
  { exists (snake g), (snake_len g). rewrite <- Hg, decide_False by tauto. done. }
  rewrite decide_True by (split; [|done]; by destruct (decide (Z.rem (iterations g) 16 = 0))).
  unfold get_pos, set_pos. dims. do 2 arr_step. rewrite s32_small by lia.
  set (p := arr pos0 (snake g) (snake_len g - 1)).
  eexists _, _. split; [reflexivity|].
  assert (Hold : ∀ i, 0 ≤ i < snake_len g → arr pos0 (<[snake_len g := p]> (snake g)) i = at_ g i).
  { intros i Hi. by rewrite arr_insert_ne by lia. }
  split; [|split; [|by apply Hold; lia]].
  - split; cbn [snake_len set_snake direction]; dims; [lia| |done].
    intros i Hi. unfold at_. cbn [snake set_snake]. destruct (decide (i = snake_len g)) as [->|].
    + rewrite arr_insert_eq. apply Hbody. lia.
    + rewrite Hold by lia. apply Hbody. lia.
  - rewrite (body_snoc g _ (snake_len g + 1)) by (done || lia). by rewrite arr_insert_eq.
Qed.

(** The cell of a position. *)
Definition place (p : pos) : Z := x p + y p * SCREEN_WIDTH.

Lemma place_inj p q : on_screen p → on_screen q → place p = place q → p = q.
Proof.
  destruct p as [a b], q as [c d]. unfold on_screen, place. dims. cbn [x y].
  intros Hp Hq Heq. assert (b = d) by lia. assert (a = c) by lia. congruence.
Qed.

Lemma clear_buf_ok g :
  ∃ b, clear_buf g = Ok (set_buf b g) ∧ ∀ i, 0 ≤ i < BUF → arr 0 b i = 32.
Proof.
  unfold clear_buf.
  destruct (for_upto_inv (λ j b, 0 ≤ j ∧ ∀ i, 0 ≤ i < j → arr 0 b i = 32) BUF
    (λ i b, aset BUF b i 32) (buf g)) as (b & -> & _ & Hb).
  - by vm_compute.
  - split; [done|]. lia.
  - intros j b Hj [_ Hb]. eexists. split; [by apply aset_in|]. split; [lia|].
    intros i Hi. rewrite arr_insert. case_decide; [done|]. apply Hb. lia.
  - by exists b.
Qed.

Lemma draw_snake_ok g :
  0 ≤ snake_len g ≤ MAX_LEN → (∀ i, 0 ≤ i < snake_len g → on_screen (at_ g i)) →
  ∃ b, draw_snake g = Ok (set_buf b g) ∧
    ∀ p, on_screen p → arr 0 b (place p) = if decide (p ∈ body g) then symbol else 32.
Proof.
  intros Hlen Hbody. unfold draw_snake. destruct (clear_buf_ok g) as (b0 & -> & Hb0).
  cbn [mbind res_bind].
  assert (Hin : ∀ p, on_screen p → 0 ≤ place p < BUF).
  { intros p. unfold on_screen, place. dims. lia. }
  destruct (for_upto_inv (λ i g', ∃ b, g' = set_buf b g ∧
      (∀ j, 0 ≤ j < i → arr 0 b (place (at_ g j)) = symbol) ∧
      (∀ p, on_screen p → (∀ j, 0 ≤ j < i → at_ g j ≠ p) → arr 0 b (place p) = 32))
    (snake_len g) (λ i g,
      p ← get_pos g i;
      b ← aset BUF (buf g) (x p + y p * SCREEN_WIDTH) symbol;
      Ok (set_buf b g)) (set_buf b0 g)) as (g' & Heq & b & -> & Hon & Hoff).
  - lia.
  - exists b0. split; [done|]. split; [lia|]. intros p Hp _. by apply Hb0, Hin.
  - intros i t Hi (b & -> & Hon & Hoff). unfold get_pos. cbn [snake set_buf].
    rewrite aget_in by lia. cbn [mbind res_bind buf set_buf].
    fold (at_ g i). fold (place (at_ g i)).
    rewrite aset_in by (apply Hin, Hbody; lia). cbn [mbind res_bind].
    eexists. split; [reflexivity|]. eexists. split; [reflexivity|]. split.
    + intros j Hj. rewrite arr_insert. case_decide; [done|]. apply Hon.
      destruct (decide (j = i)) as [->|]; [done|lia].
    + intros p Hp Hne. rewrite arr_insert. case_decide as Hpl.
      * exfalso. apply (Hne i); [lia|]. apply place_inj; [apply Hbody; lia|done|done].
      * apply Hoff; [done|]. intros j Hj. apply Hne. lia.
  - exists b. split; [exact Heq|]. intros p Hp. case_decide as Hb.
    + unfold body in Hb. apply list_elem_of_fmap in Hb as (j & -> & Hj%elem_of_seqZ).
      apply Hon. lia.
    + apply Hoff; [done|]. intros j Hj <-. apply Hb. unfold body.
      apply list_elem_of_fmap. exists j. split; [done|]. apply elem_of_seqZ. lia.
Qed.

(** ** Properties *)

(** C34. A turn of the game never leaves its arrays: from a snake that lies on
    the screen it turns into a pressed key's direction but never back, grows
    every sixteenth turn up to 400 positions, moves its head one position on
    over the edges of the screen while its end gives way, and draws exactly
    the snake. *)
Theorem turn_moves g :
  game_ok g →
  ∃ g', turn g = Ok g' ∧ game_ok g' ∧ steered g g' ∧
    body g' = ahead (direction g') (at_ g 0) :: removelast (grown g) ∧
    ∀ p, on_screen p →
      arr 0 (buf g') (place p) = if decide (p ∈ body g') then symbol else 32.
Proof.
  intros Hok. unfold turn.
  destruct (change_dir_ok g (ok_dir g Hok)) as (g1 & -> & Hst & Hg1). cbn [mbind res_bind].
  assert (Hok1 : game_ok g1).
  { rewrite Hg1. destruct Hok as [H1 H2 _]. split; [done|done|]. apply Hst. }
  destruct (enlarge_snake_ok g1 Hok1) as (s2 & len & -> & Hok2 & Hb2 & Hh2).
  cbn [mbind res_bind]. set (g2 := set_snake s2 len g1) in *.
  destruct (move_snake_ok g2 Hok2) as (s3 & -> & Hh3 & Ht3). cbn [mbind res_bind].
  set (g3 := set_snake s3 (snake_len g2) g2).
  assert (Hok3 : game_ok g3).
  { destruct Hok2 as [Hl Hb Hd]. split; [done| |done]. intros i Hi. unfold at_. cbn [snake g3 set_snake].
    cbn [snake_len g3 set_snake] in Hi.
    destruct (decide (i = 0)) as [->|]; [rewrite Hh3; apply ahead_on_screen|].
    rewrite Ht3 by lia. apply Hb. lia. }
  assert (Hb3 : body g3 = ahead (direction g2) (at_ g2 0) :: removelast (body g2)).
  { apply body_cons; [apply Hok2|done|done]. }
  destruct (draw_snake_ok g3) as (b & -> & Hdraw);
    [pose proof (ok_len _ Hok3); lia|apply Hok3|].
  cbn [mbind res_bind]. eexists. split; [reflexivity|].
  assert (Hbody : body g3 = ahead (direction g1) (at_ g 0) :: removelast (grown g)).
  { rewrite Hb3, Hb2, Hh2. by rewrite Hg1. }
  split; [|split; [|split]].
  - destruct Hok3 as [H1 H2 H3]. by split.
  - exact Hst.
  - exact Hbody.
  - exact Hdraw.
Qed.

(** ** Concrete runs *)

(** What [start] makes. *)
Definition started : game :=
  match start game0 with Ok g => g | _ => game0 end.

Lemma started_ok : start game0 = Ok started ∧ game_ok started.
Proof.
  split; [reflexivity|]. split; [split; discriminate| |].
  - change (snake_len started) with 5. intros i Hi.
    assert (i = 0 ∨ i = 1 ∨ i = 2 ∨ i = 3 ∨ i = 4) as [->|[->|[->|[->| ->]]]] by lia;
      repeat split; by vm_compute.
  - unfold directions. rewrite !elem_of_cons. do 3 right. by left.
Qed.

Lemma turn_moves_witness :
  ∃ g, start game0 = Ok g ∧ ∃ g', turn g = Ok g' ∧
    body g' = [Pos 21 12; Pos 20 12; Pos 19 12; Pos 18 12; Pos 17 12; Pos 16 12].
Proof.
  exists started. destruct started_ok as [Hs Hok]. split; [exact Hs|].
  destruct (turn_moves started Hok) as (g' & Hg & _ & (_ & _ & Hkeys) & Hb & _).
  exists g'. split; [exact Hg|]. rewrite Hb.
  assert (Hd : direction g' = Pos 1 0).
  { destruct (decide (direction g' = Pos 1 0)) as [|Hne]; [done|].
    destruct (Hkeys Hne) as [[_ H]|[[_ H]|[[_ H]|[_ H]]]]; destruct (H eq_refl). }
  rewrite Hd. vm_compute. reflexivity.
Defined.

End Snake.
