(* ===== verification/Isr.v ===== *)
(** The entry and the end of an interrupt (kernel/isr.s).  A processor pushes an
    error code for interrupt 17 as well, for which the stub has none; no code
    turns the check on that raises it.

    [isr_enter] is what the processor, the stub of an interrupt number and
    [isr_common] push before the call of [irq_handler], which finds the words
    as its argument, a [struct thread_state]; [isr_leave] is the code behind
    the call.  An interrupt of user mode starts on the stack of the task state,
    one of the kernel on the stack in use and without the two words of that
    stack. *)

From Stdlib Require Import ZArith Lia.
From stdpp Require Import base option list gmap.
From S2P Require Import Prelude Interfaces Strings Memory.

Module Isr.

Notation mem8 := Strings.mem8.

(** The registers of the interrupted code and the task priority of its
    processor. *)
Record registers := Regs {
  tpr : Z; ds : Z; es : Z; fs : Z; gs : Z; edi : Z; esi : Z; ebp : Z; esp : Z; ebx : Z; edx : Z; ecx : Z; eax : Z;
  eip : Z; cs : Z; eflags : Z; ss : Z
}.

Definition with_eax (v : Z) (r : registers) : registers :=
  Regs (tpr r) (ds r) (es r) (fs r) (gs r) (edi r) (esi r) (ebp r) (esp r) (ebx r) (edx r) (ecx r) v (eip r) (cs r)
    (eflags r) (ss r).

Definition user_mode (cs : Z) : bool := bool_decide (Z.land cs 3 = 3).

(** The instruction [push]. *)
Definition push (stack value : Z) (m : mem8) : res (Z * mem8) :=
  let stack := u32 (stack - 4) in
  m ← Memory.store32 stack value m; Ok (stack, m).

Fixpoint push_all (stack : Z) (ws : list Z) (m : mem8) : res (Z * mem8) :=
  match ws with
  | [] => Ok (stack, m)
  | w :: ws => '(stack, m) ← push stack w m; push_all stack ws m
  end.

(** The interrupts of [ISR_EC], the others are of [ISR_NEC]. *)
Definition has_code (id : Z) : bool := bool_decide (id ∈ [8; 10; 11; 12; 13; 14]).

(** The words that the processor pushes, [code] the error code that it has for
    the interrupt, then those of the stub, which pushes 0 where it expects no
    code. *)
Definition frame (id : Z) (code : option Z) (r : registers) : list Z :=
  (if user_mode (cs r) then [ss r; esp r] else []) ++ [eflags r; cs r; eip r] ++
  option_list code ++ (if has_code id then [] else [0]) ++ [id].

(** [pusha], %ds and the register at 0xFEE00080. *)
Definition isr_enter (id : Z) (code : option Z) (esp0 : Z) (r : registers) (m : mem8) : res (Z * mem8) :=
  '(stack, m) ← push_all (if user_mode (cs r) then esp0 else esp r) (frame id code r) m;
  push_all stack [eax r; ecx r; edx r; ebx r; stack; ebp r; esi r; edi r; Z.land (ds r) 0xFFFF; tpr r] m.

(** The argument of [irq_handler] is at [stack]; [popa] skips %esp, and two
    words are dropped.  [iret] loads the stack when it leaves for user mode. *)
Definition isr_leave (ss : Z) (stack : Z) (m : mem8) : res registers :=
  let ld i := Memory.load32 (stack + 4 * i) m in
  tpr ← ld 0; ds ← ld 1;
  edi ← ld 2; esi ← ld 3; ebp ← ld 4; ebx ← ld 6; edx ← ld 7; ecx ← ld 8; eax ← ld 9;
  eip ← ld 12; cs ← ld 13; eflags ← ld 14;
  let ds := Z.land ds 0xFFFF in
  if user_mode cs then
    esp ← ld 15; ss ← ld 16;
    Ok (Regs tpr ds ds ds ds edi esi ebp esp ebx edx ecx eax eip cs eflags ss)
  else Ok (Regs tpr ds ds ds ds edi esi ebp (stack + 60) ebx edx ecx eax eip cs eflags ss).

(** ** Lemmas *)

Lemma push_all_ok ws : ∀ stack m,
  4 * Z.of_nat (length ws) ≤ stack < 2 ^ 32 →
  Strings.writable m (stack - 4 * Z.of_nat (length ws)) (4 * Z.of_nat (length ws)) →
  Forall (λ w, 0 ≤ w < 2 ^ 32) ws →
  ∃ m', push_all stack ws m = Ok (stack - 4 * Z.of_nat (length ws), m') ∧
    Strings.changed (stack - 4 * Z.of_nat (length ws)) (4 * Z.of_nat (length ws)) m m' ∧
    ∀ i w, ws !! i = Some w → Memory.load32 (stack - 4 - 4 * Z.of_nat i) m' = Ok w.
Proof.
  induction ws as [|w ws IH]; intros stack m Hs Hw Hf; cbn [push_all length] in *.
  { exists m. split; [do 2 f_equal; lia|]. split; [apply Strings.changed_refl|]. intros i w Hi. done. }
  apply Forall_cons in Hf as [Hv Hf]. unfold push. rewrite u32_small by lia.
  destruct (Memory.store32_ok (stack - 4) w m) as (m1 & H1 & Hl & Hc1); [|done|].
  { eapply Strings.writable_sub; [exact Hw|lia|lia]. }
  rewrite (bind_ok _ _ _ H1). cbn [mbind res_bind].
  destruct (IH (stack - 4) m1) as (m2 & H2 & Hc2 & Hl2); [lia| |done|].
  { eapply Strings.writable_changed; [exact Hc1|]. eapply Strings.writable_sub; [exact Hw|lia|lia]. }
  rewrite H2. exists m2. split; [do 2 f_equal; lia|]. split.
  - eapply Strings.changed_trans; eapply Strings.changed_widen; [exact Hc1|lia|lia|exact Hc2|lia|lia].
  - intros [|i] x Hi; simpl in Hi.
    + injection Hi as <-. rewrite (Memory.load32_changed _ _ _ _ _ Hc2) by lia.
      replace (stack - 4 - 4 * Z.of_nat 0) with (stack - 4) by lia. exact Hl.
    + rewrite <- (Hl2 i x Hi). f_equal. lia.
Qed.

Lemma push_all_app a b : ∀ stack m,
  push_all stack (a ++ b) m = ('(stack, m) ← push_all stack a m; push_all stack b m).
Proof.
  induction a as [|w a IH]; intros stack m; cbn [push_all app]; [done|].
  destruct (push stack w m) as [[st m1]| |]; [|done|done]. apply IH.
Qed.

Lemma load32_same a m m' :
  (∀ x, a ≤ x < a + 4 → m' !! x = m !! x) → Memory.load32 a m' = Memory.load32 a m.
Proof.
  intros Hs. unfold Memory.load32, Strings.load8. by rewrite !Hs by lia.
Qed.

(** The end of an interrupt reads nothing but the saved words. *)
Lemma isr_leave_same ss stack m m' :
  (∀ x, stack ≤ x < stack + 68 → m' !! x = m !! x) → isr_leave ss stack m' = isr_leave ss stack m.
Proof.
  intros Hs. unfold isr_leave. cbv zeta.
  rewrite !(load32_same _ m m') by (intros x Hx; apply Hs; lia). done.
Qed.

(** Everything that is pushed. *)
Definition pushed (id : Z) (code : option Z) (top : Z) (r : registers) : list Z :=
  let f := frame id code r in
  f ++ [eax r; ecx r; edx r; ebx r; top - 4 * Z.of_nat (length f); ebp r; esi r; edi r;
        Z.land (ds r) 0xFFFF; tpr r].

(** The stack pointer that the words are pushed at. *)
Definition top_of (esp0 : Z) (r : registers) : Z := if user_mode (cs r) then esp0 else esp r.

(** Words and one data selector, of 16 bits: %es, %fs and %gs are not saved,
    they get the value of %ds. *)
Record fits (r : registers) : Prop := {
  ft_words : Forall (λ w, 0 ≤ w < 2 ^ 32)
    [tpr r; edi r; esi r; ebp r; esp r; ebx r; edx r; ecx r; eax r; eip r; cs r; eflags r; ss r];
  ft_ds : 0 ≤ ds r < 2 ^ 16;
  ft_es : es r = ds r;
  ft_fs : fs r = ds r;
  ft_gs : gs r = ds r
}.

(** The processor pushes an error code where the stub expects one. *)
Definition coded (id : Z) (code : option Z) : Prop :=
  match code with Some c => has_code id = true ∧ 0 ≤ c < 2 ^ 32 | None => has_code id = false end.

Lemma frame_coded id code r :
  coded id code →
  frame id code r = (if user_mode (cs r) then [ss r; esp r] else []) ++
    [eflags r; cs r; eip r; default 0 code; id].
Proof.
  unfold frame, coded. intros Hc. f_equal. destruct code as [c|]; [by destruct Hc as [-> _]|by rewrite Hc].
Qed.

Lemma pushed_words id code top r :
  fits r → 0 ≤ id < 256 → coded id code → 28 ≤ top < 2 ^ 32 →
  Forall (λ w, 0 ≤ w < 2 ^ 32) (pushed id code top r) ∧ Z.land (ds r) 0xFFFF = ds r.
Proof.
  intros [Hw Hds _ _ _] Hid Hc Ht. assert (Hland : Z.land (ds r) 0xFFFF = ds r).
  { change 0xFFFF with (Z.ones 16). rewrite Z.land_ones by lia. apply Z.mod_small. lia. }
  split; [|done]. unfold pushed. cbv zeta. rewrite Hland, frame_coded by done.
  rewrite !Forall_cons in Hw. destruct_and!. assert (0 ≤ default 0 code < 2 ^ 32).
  { destruct code; simpl in *; [by destruct Hc|lia]. }
  destruct (user_mode (cs r)); cbn [app length]; repeat (apply Forall_cons_2; [lia|]); apply Forall_nil_2.
Qed.

Lemma isr_enter_pushes id code esp0 r m :
  let n := Z.of_nat (length (pushed id code (top_of esp0 r) r)) in
  let top := top_of esp0 r in
  fits r → 0 ≤ id < 256 → coded id code → 4 * n ≤ top < 2 ^ 32 → Strings.writable m (top - 4 * n) (4 * n) →
  ∃ m', isr_enter id code esp0 r m = Ok (top - 4 * n, m') ∧ Strings.changed (top - 4 * n) (4 * n) m m' ∧
    ∀ i w, pushed id code top r !! i = Some w → Memory.load32 (top - 4 - 4 * Z.of_nat i) m' = Ok w.
Proof.
  intros n top Hf Hid Hc Ht Hw.
  assert (Hn : 14 ≤ n).
  { unfold n, pushed, frame. rewrite length_app. cbn [length]. rewrite !length_app. cbn [length]. lia. }
  destruct (pushed_words id code top r Hf Hid Hc) as [Hall _]; [lia|].
  destruct (push_all_ok (pushed id code top r) top m Ht Hw Hall) as (m' & Hm & Hch & Hl).
  exists m'. split; [|by split].
  assert (Hpre : pushed id code top r = frame id code r ++ skipn (length (frame id code r)) (pushed id code top r)).
  { unfold pushed. cbv zeta. by rewrite drop_app_length. }
  rewrite Hpre, push_all_app in Hm.
  destruct (push_all_ok (frame id code r) top m) as (m1 & H1 & _).
  { subst n. fold top in Ht. rewrite Hpre, length_app in Ht. lia. }
  { subst n. fold top in Hw. rewrite Hpre, length_app in Hw. eapply Strings.writable_sub; [exact Hw|lia|lia]. }
  { rewrite Hpre in Hall. by apply Forall_app in Hall as [? _]. }
  rewrite H1 in Hm. cbn [mbind res_bind] in Hm. unfold pushed in Hm. cbv zeta in Hm. rewrite drop_app_length in Hm.
  unfold isr_enter. fold (top_of esp0 r). fold top. rewrite H1. exact Hm.
Qed.

(** Loads the next word of [isr_leave]. *)
Ltac word H :=
  match goal with |- context [Memory.load32 (?b + 4 * ?k) ?m ≫= ?f] =>
    rewrite (bind_ok _ _ _ (H k _ ltac:(lia) ltac:(lia) eq_refl)) end.

(** ** Properties *)

(** C25. An interrupt does not show in the code it interrupts: [irq_handler] finds
    the number and the error code below the saved registers, and whatever
    memory the handler changes but the saved words, the code goes on with the
    registers, the stack and the task priority that it had - and with the value
    of %eax that a system call has put in its place. *)
Theorem isr_transparent id code esp0 r m :
  let n := if user_mode (cs r) then 17 else 15 in
  let top := top_of esp0 r in
  let stack := top - 4 * n in
  fits r → 0 ≤ id < 256 → coded id code → 4 * n ≤ top < 2 ^ 32 → Strings.writable m stack (4 * n) →
  ∃ m', isr_enter id code esp0 r m = Ok (stack, m') ∧ Strings.changed stack (4 * n) m m' ∧
    Memory.load32 (stack + 36) m' = Ok (eax r) ∧ Memory.load32 (stack + 40) m' = Ok id ∧
    Memory.load32 (stack + 44) m' = Ok (default 0 code) ∧
    ∀ m2 v, (∀ a, stack ≤ a < top → ¬ (stack + 36 ≤ a < stack + 40) → m2 !! a = m' !! a) →
      Memory.load32 (stack + 36) m2 = Ok v → isr_leave (ss r) stack m2 = Ok (with_eax v r).
Proof.
  intros n top stack Hf Hid Hc Ht Hw.
  assert (Hlen : Z.of_nat (length (pushed id code top r)) = n).
  { unfold n, pushed. cbv zeta. rewrite frame_coded by done. by destruct (user_mode (cs r)). }
  destruct (isr_enter_pushes id code esp0 r m) as (m' & Hm & Hch & Hl); try done.
  { fold top. by rewrite Hlen. } { fold top. by rewrite Hlen. }
  fold top in Hm, Hch, Hl. rewrite Hlen in Hm, Hch. fold stack in Hm, Hch.
  destruct (pushed_words id code top r Hf Hid Hc) as [_ Hds]; [unfold n in Ht; destruct (user_mode (cs r)); lia|].
  assert (Hg : ∀ k w, 0 ≤ k < n → pushed id code top r !! Z.to_nat (n - 1 - k) = Some w →
    Memory.load32 (stack + 4 * k) m' = Ok w).
  { intros k w Hk Hi. rewrite <- (Hl _ _ Hi). f_equal. unfold stack. lia. }
  pose proof (frame_coded id code r Hc) as Hp.
  exists m'. split; [done|]. split; [done|].
  split; [|split; [|split]]; [| | |intros m2 v Hsame Hv].
  - apply (Hg 9); [unfold n; by destruct (user_mode (cs r))|]. unfold n, pushed. cbv zeta. rewrite Hp.
    by destruct (user_mode (cs r)).
  - apply (Hg 10); [unfold n; by destruct (user_mode (cs r))|]. unfold n, pushed. cbv zeta. rewrite Hp. by destruct (user_mode (cs r)).
  - apply (Hg 11); [unfold n; by destruct (user_mode (cs r))|]. unfold n, pushed. cbv zeta. rewrite Hp. by destruct (user_mode (cs r)).
  - assert (Hg2 : ∀ k w, 0 ≤ k < n → k ≠ 9 → pushed id code top r !! Z.to_nat (n - 1 - k) = Some w →
      Memory.load32 (stack + 4 * k) m2 = Ok w).
    { intros k w Hk H9 Hi. rewrite <- (Hg k w Hk Hi). apply load32_same. intros x Hx. apply Hsame; unfold stack in *; lia. }
    pose proof (ft_es _ Hf) as He. pose proof (ft_fs _ Hf) as Hfs. pose proof (ft_gs _ Hf) as Hgs.
    clear - Hg2 Hv Hds Hp He Hfs Hgs. subst stack n. unfold isr_leave, pushed in *. cbv zeta in *. rewrite Hp in Hg2.
    destruct (user_mode (cs r)) eqn:Hu.
    + do 8 word Hg2. rewrite (bind_ok _ _ _ Hv). do 3 word Hg2. rewrite Hu. do 2 word Hg2.
      unfold with_eax. rewrite Hds, He, Hfs, Hgs. f_equal. f_equal; done.
    + do 8 word Hg2. rewrite (bind_ok _ _ _ Hv). do 3 word Hg2. rewrite Hu, Hds, Hds.
      unfold with_eax. rewrite He, Hfs, Hgs. f_equal. f_equal. unfold top_of in top. subst top. rewrite Hu. lia.
Qed.

(** A system call of a process, and a page fault of the kernel. *)
Definition sys_regs : registers :=
  Regs 0 0x23 0x23 0x23 0x23 1 2 3 0x3FFFF0 4 5 6 7 0x401000 0x1B 0x202 0x23.
Definition kernel_regs : registers :=
  Regs 0x20 0x10 0x10 0x10 0x10 1 2 3 0x11F0 4 5 6 7 0x101000 0x8 0x202 0x10.

Definition stack_bytes : mem8 := Strings.blank 0x1000 512.

Lemma stack_room p k : 0x1000 ≤ p → p + k ≤ 0x1200 → Strings.writable stack_bytes p k.
Proof.
  intros H1 H2. eapply Strings.writable_sub; [exact (Strings.blank_writable 0x1000 512)|exact H1|exact H2].
Qed.

Lemma isr_transparent_witness :
  let m := stack_bytes in
  (∃ m', isr_enter 0x80 None 0x1100 sys_regs m = Ok (0x10BC, m') ∧
    isr_leave 0x23 0x10BC m' = Ok sys_regs) ∧
  ∃ m', isr_enter 14 (Some 2) 0x1100 kernel_regs m = Ok (0x11B4, m') ∧ Memory.load32 0x11E0 m' = Ok 2.
Proof.
  split.
  - destruct (isr_transparent 0x80 None 0x1100 sys_regs stack_bytes) as (m' & H & _ & Ha & _ & _ & Hl).
    { by split; [repeat constructor|..]. } { done. } { done. } { done. }
    { by apply (stack_room 0x10BC 68). }
    exists m'. exact (conj H (Hl m' (eax sys_regs) (λ _ _ _, eq_refl) Ha)).
  - destruct (isr_transparent 14 (Some 2) 0x1100 kernel_regs stack_bytes) as (m' & H & _ & _ & _ & Hc & _).
    { by split; [repeat constructor|..]. } { done. } { done. } { done. }
    { by apply (stack_room 0x11B4 60). }
    exists m'. exact (conj H Hc).
Defined.

End Isr.
