(* ===== verification/Process.v ===== *)
(** Processes and the creation of threads (kernel/process.c, kernel/thread.c).

    [pstate] joins the process table, the kernel's memory of Memory.v and the
    bytes of that memory.  The structures that [NEW] allocates live in the maps
    [procs] and [threads] at their addresses; stacks and strings are bytes.
    For the string routines the name of a process is laid over the bytes at
    its address ([name_view]), together with the byte behind it, the first of
    its descriptor table.

    [kdir] is the address of the kernel's page directory, [leave_kernel_at]
    that of [_leave_kernel], both given by the linker. *)

From Stdlib Require Import ZArith Lia.
From stdpp Require Import base option list gmap.
From S2P Require Import Prelude Interfaces Locks Palloc Strings Paging Stream Thread Kmalloc Memory Interrupts Isr.

Module Process.
Import Thread.

Notation mem8 := Strings.mem8.

Definition PROC_MAX_NAME_LEN : Z := 64.
(** Offsets and sizes of [struct process] and [struct thread]. *)
Definition NAME : Z := 56.
Definition PROCESS_SIZE : Z := 376.
Definition THREAD_SIZE : Z := 36.
(** [sizeof(struct thread_state)] *)
Definition STATE_SIZE : Z := 68.

Section Processes.
Context {F : Type} `{FrameAlloc F} (kdir leave_kernel_at : Z).

Record pstate := PState {
  table : gmap Z Z; plock : Z; mem : Memory.memory (F := F); bytes : mem8;
  procs : gmap Z process; threads : gmap Z thread
}.

Definition set_plock (l : Z) (s : pstate) : pstate :=
  PState (table s) l (mem s) (bytes s) (procs s) (threads s).
Definition set_table (t : gmap Z Z) (s : pstate) : pstate :=
  PState t (plock s) (mem s) (bytes s) (procs s) (threads s).
Definition set_mem (h : Memory.memory (F := F)) (m : mem8) (s : pstate) : pstate :=
  PState (table s) (plock s) h m (procs s) (threads s).
Definition set_procs (p : gmap Z process) (s : pstate) : pstate :=
  PState (table s) (plock s) (mem s) (bytes s) p (threads s).
Definition set_threads (t : gmap Z thread) (s : pstate) : pstate :=
  PState (table s) (plock s) (mem s) (bytes s) (procs s) t.

(** The paging machine below the heap. *)
Definition vm_of (s : pstate) : Paging.mm F := Memory.vm (Memory.area (mem s)).
Definition set_vm (v : Paging.mm F) (s : pstate) : pstate :=
  let h := mem s in
  set_mem (Memory.Mem (Memory.Brk (Memory.heap (Memory.area h)) v) (Memory.lock h)
    (Memory.stats h) (Memory.allocator h)) (bytes s) s.

Definition get_process (p : Z) (s : pstate) : res process :=
  match procs s !! p with Some pr => Ok pr | None => Fault end.

(** [kmalloc] and [NEW] on the state. *)
Definition kmalloc (size : Z) (s : pstate) : res (Z * pstate) :=
  '(p, h, m) ← Memory.kmalloc Memory.KFUEL size (mem s) (bytes s); Ok (p, set_mem h m s).
Definition NEW (size : Z) (s : pstate) : res (Z * pstate) :=
  '(p, h, m) ← Memory.NEW Memory.KFUEL size (mem s) (bytes s); Ok (p, set_mem h m s).

(** ** process.c *)

(** The loop of [find_next_pid] with [k] iterations left. *)
Fixpoint pid_from (t : gmap Z Z) (k : nat) (i : Z) : Z :=
  match k with
  | O => 0
  | S k' => if bool_decide (arr 0 t i = 0) then i else pid_from t k' (i + 1)
  end.

Definition find_next_pid (s : pstate) : res (Z * pstate) :=
  l ← Locks.section_enter (plock s);
  let i := pid_from (table s) (Z.to_nat MAX_PROCESSES) 0 in
  Ok (i, set_plock (Locks.section_leave l) s).

Definition proc_create (text data bss rodata : proc_section) (s : pstate) : res (Z * pstate) :=
  '(pid, s) ← find_next_pid s;
  '(new_dir_phys, v) ← Paging.page_dir_clone kdir (vm_of s);
  '(p, s) ← NEW PROCESS_SIZE (set_vm v s);
  t ← aset MAX_PROCESSES (table s) pid p;
  let pr := Proc pid text data bss rodata new_dir_phys ∅ ∅ in
  let s := set_procs (<[p := pr]> (procs s)) (set_table t s) in
  let user := Z.lor Paging.PAGE_PRESENT Paging.PAGE_USERMODE in
  let v := Paging.page_dir_switch new_dir_phys (vm_of s) in
  v ← Paging.paging_map (Memory.page_align (virt_addr text)) (phys_addr text) user v;
  v ← Paging.paging_map (Memory.page_align (virt_addr data)) (phys_addr data)
        (Z.lor user Paging.PAGE_WRITABLE) v;
  v ← Paging.paging_map (Memory.page_align (virt_addr bss)) (phys_addr bss)
        (Z.lor user Paging.PAGE_WRITABLE) v;
  v ← Paging.paging_map (Memory.page_align (virt_addr rodata)) (phys_addr rodata) user v;
  Ok (p, set_vm (Paging.page_dir_switch kdir v) s).

Definition proc_get_by_pid (pid : Z) (s : pstate) : res Z := aget 0 MAX_PROCESSES (table s) pid.

(** The bytes the string routines see for the process at [p]. *)
Definition name_view (p : Z) (pr : process) (m : mem8) : mem8 :=
  <[p + NAME + PROC_MAX_NAME_LEN :=
      Stream.input (arr Stream.null_ios (iodescr pr) 0) mod 256]>
    (foldr (λ i, <[p + NAME + i := arr 0 (name pr) i]>) m (seqZ 0 PROC_MAX_NAME_LEN)).

(** The process after they wrote there. *)
Definition read_back (p : Z) (m : mem8) (pr : process) : process :=
  let io := arr Stream.null_ios (iodescr pr) 0 in
  let low := default 0 (m !! (p + NAME + PROC_MAX_NAME_LEN)) in
  Proc (pid pr) (text pr) (data pr) (bss pr) (rodata pr) (pdir pr)
    (foldr (λ i, <[i := default 0 (m !! (p + NAME + i))]>) ∅ (seqZ 0 PROC_MAX_NAME_LEN))
    (<[0 := Stream.IOS (Stream.input io - Stream.input io mod 256 + low) (Stream.output io)]>
       (iodescr pr)).

(** The loop of [proc_get_by_name]. *)
Fixpoint by_name_from (fuel : nat) (nm : Z) (s : pstate) (k : nat) (i : Z) : res Z :=
  match k with
  | O => Ok 0
  | S k' =>
      p ← aget 0 MAX_PROCESSES (table s) i;
      if bool_decide (p = 0) then by_name_from fuel nm s k' (i + 1) else
      pr ← get_process p s;
      r ← Strings.kstrcmp fuel (name_view p pr (bytes s)) nm (p + NAME);
      if bool_decide (r = 0) then Ok p else by_name_from fuel nm s k' (i + 1)
  end.

Definition proc_get_by_name (fuel : nat) (nm : Z) (s : pstate) : res Z :=
  by_name_from fuel nm s (Z.to_nat (MAX_PROCESSES - 1)) 1.

(** Fuel: [kstrncpy] stops after 65 bytes. *)
Definition proc_register (proc nm : Z) (s : pstate) : res (Z * pstate) :=
  pr ← get_process proc s;
  m ← Strings.kstrncpy 66 (name_view proc pr (bytes s)) (proc + NAME) nm PROC_MAX_NAME_LEN;
  Ok (0, set_procs (<[proc := read_back proc m pr]> (procs s)) s).

Definition proc_create_kernel_proc (s : pstate) : res (Z * pstate) :=
  '(pid, s) ← find_next_pid s;
  '(new, s) ← NEW PROCESS_SIZE s;
  t ← aset MAX_PROCESSES (table s) pid new;
  let pr := Proc pid section0 section0 section0 section0 kdir ∅ ∅ in
  Ok (new, set_procs (<[new := pr]> (procs s)) (set_table t s)).

(** ** thread.c *)

Definition alloc_stack (stack size : Z) : Z := u32 (stack - size).

(** The new stack pointer and memory. *)
Definition push_stack (stack value : Z) (m : mem8) : res (Z * mem8) :=
  let stack := u32 (stack - 4) in
  m ← Memory.store32 stack value m; Ok (stack, m).

(** The words of a [struct thread_state], in memory order. *)
Definition state_words (r : Interrupts.thread_state) : list Z :=
  [Interrupts.tpr r; Interrupts.ds r; Interrupts.edi r; Interrupts.esi r; Interrupts.ebp r;
   Interrupts.esp r; Interrupts.ebx r; Interrupts.edx r; Interrupts.ecx r; Interrupts.eax r;
   Interrupts.int_id r; Interrupts.err r; Interrupts.eip r; Interrupts.cs r;
   Interrupts.eflags r; Interrupts.useresp r; Interrupts.ss r].

(** From the allocated thread and kernel stack on, with the other stack. *)
Definition thread_context (parent stack kernel_stack entry flags : Z) (m : mem8)
    : res (thread * mem8) :=
  let esp := alloc_stack kernel_stack STATE_SIZE in
  m ← Memory.store_words esp
        (state_words (Interrupts.regs_init (u32 (stack + PAGE_SIZE - 16)) entry flags)) m;
  '(esp, m) ← push_stack esp 0 m;
  '(esp, m) ← push_stack esp 0 m;
  '(esp, m) ← push_stack esp kernel_stack m;
  Ok (Thr parent 0 stack kernel_stack esp leave_kernel_at 0 0 NoEvent, m).

Definition thread_create (parent entry flags : Z) (s : pstate) : res (Z * pstate) :=
  '(new, s) ← NEW THREAD_SIZE s;
  '(k, s) ← kmalloc PAGE_SIZE s;
  let kernel_stack := u32 (k + PAGE_SIZE - 16) in
  '(stack, s) ← (if negb (bool_decide (flags = 0)) then
      pr ← get_process parent s;
      let v := Paging.page_dir_switch (pdir pr) (vm_of s) in
      '(phys, v) ← Paging.alloc_frame v;
      v ← Paging.paging_map 0xa00000 phys
            (Z.lor (Z.lor Paging.PAGE_USERMODE Paging.PAGE_PRESENT) Paging.PAGE_WRITABLE) v;
      Ok (0xa00000, set_vm (Paging.page_dir_switch kdir v) s)
    else kmalloc PAGE_SIZE s);
  '(th, m) ← thread_context parent stack kernel_stack entry flags (bytes s);
  Ok (new, set_threads (<[new := th]> (threads s)) (set_mem (mem s) m s)).

End Processes.

(** ** What returning to a thread does *)

(** [_leave_kernel] of kernel/isr.s with the stack pointer [esp] and the stack
    segment [ss]: three words are dropped, and the instructions that follow are
    those at the end of [isr_common].  Only a return to user mode takes the
    stack pointer and the segment from the stack. *)
Definition leave_kernel (ss esp : Z) (m : mem8) : res Isr.registers := Isr.isr_leave ss (esp + 12) m.

(** The registers of a saved state, with the stack in use. *)
Definition loaded (sp ss : Z) (r : Interrupts.thread_state) : Isr.registers :=
  let ds := Interrupts.ds r in
  Isr.Regs (Interrupts.tpr r) ds ds ds ds (Interrupts.edi r) (Interrupts.esi r) (Interrupts.ebp r) sp
    (Interrupts.ebx r) (Interrupts.edx r) (Interrupts.ecx r) (Interrupts.eax r) (Interrupts.eip r)
    (Interrupts.cs r) (Interrupts.eflags r) ss.

(** What a return to the state [r] loads, its words [useresp] and [ss] being at
    [sp]. *)
Definition returned (sp ss : Z) (r : Interrupts.thread_state) : Isr.registers :=
  if Isr.user_mode (Interrupts.cs r) then loaded (Interrupts.useresp r) (Interrupts.ss r) r
  else loaded sp ss r.

(** ** Process ids *)

Lemma pid_from_spec t k : ∀ i,
  (pid_from t k i = 0 ∧ ∀ j, i ≤ j < i + Z.of_nat k → arr 0 t j ≠ 0) ∨
  (i ≤ pid_from t k i < i + Z.of_nat k ∧ arr 0 t (pid_from t k i) = 0 ∧
   ∀ j, i ≤ j < pid_from t k i → arr 0 t j ≠ 0).
Proof.
  induction k as [|k IH]; intros i; cbn [pid_from].
  { left. split; [done|]. lia. }
  case_bool_decide as Hi.
  { right. split; [lia|]. split; [done|]. lia. }
  destruct (IH (i + 1)) as [[H1 H2]|(H1 & H2 & H3)]; [left|right].
  - split; [done|]. intros j Hj. destruct (decide (j = i)) as [->|]; [done|]. apply H2. lia.
  - split; [lia|]. split; [done|]. intros j Hj.
    destruct (decide (j = i)) as [->|]; [done|]. apply H3. lia.
Qed.

(** [i] is the lowest free slot of the table [t]; it is 0 when there is none. *)
Definition slot_for (t : gmap Z Z) (i : Z) : Prop :=
  0 ≤ i < MAX_PROCESSES ∧ (∀ j, 0 ≤ j < i → arr 0 t j ≠ 0) ∧
  (arr 0 t i = 0 ∨ i = 0 ∧ ∀ j, 0 ≤ j < MAX_PROCESSES → arr 0 t j ≠ 0).

Lemma find_next_pid_ok `{FrameAlloc F} (s : pstate (F := F)) :
  plock s = 0 → ∃ i, find_next_pid s = Ok (i, set_plock 0 s) ∧ slot_for (table s) i.
Proof.
  intros Hl. unfold find_next_pid. rewrite Hl, (bind_ok _ _ 1) by done. eexists.
  split; [reflexivity|]. assert (Hm : 0 < MAX_PROCESSES) by done. unfold slot_for.
  destruct (pid_from_spec (table s) (Z.to_nat MAX_PROCESSES) 0) as [[H1 H2]|(H1 & H2 & H3)];
    rewrite Z2Nat.id in * by lia.
  - rewrite H1. split; [lia|]. split; [lia|]. right. split; [done|]. intros j Hj. apply H2. lia.
  - split; [lia|]. split; [done|]. by left.
Qed.

(** ** Names *)

(** A block of bytes laid over a memory. *)
Lemma overlay_lookup (base : Z) (g : Z → Z) (m : mem8) (l : list Z) x :
  foldr (λ i, <[base + i := g i]>) m l !! x =
  if decide (x - base ∈ l) then Some (g (x - base)) else m !! x.
Proof.
  induction l as [|i l IH]; cbn [foldr].
  { rewrite decide_False; [done|]. apply not_elem_of_nil. }
  rewrite lookup_insert, IH. destruct (decide (base + i = x)) as [<-|H1].
  - replace (base + i - base) with i by lia. rewrite decide_True; [done|].
    apply elem_of_cons. by left.
  - destruct (decide (x - base ∈ l)) as [H2|H2].
    + rewrite decide_True; [done|]. apply elem_of_cons. by right.
    + rewrite decide_False; [done|]. rewrite elem_of_cons. intros [?|?]; [lia|done].
Qed.

Lemma name_view_name p pr m i :
  0 ≤ i < PROC_MAX_NAME_LEN → name_view p pr m !! (p + NAME + i) = Some (arr 0 (name pr) i).
Proof.
  intros Hi. unfold name_view. rewrite lookup_insert_ne by lia.
  rewrite overlay_lookup, decide_True by (apply elem_of_seqZ; lia). do 2 f_equal. lia.
Qed.

Lemma name_view_behind p pr m :
  name_view p pr m !! (p + NAME + PROC_MAX_NAME_LEN) =
  Some (Stream.input (arr Stream.null_ios (iodescr pr) 0) mod 256).
Proof. apply lookup_insert_eq. Qed.

Lemma name_view_changed p pr m :
  Strings.changed (p + NAME) (PROC_MAX_NAME_LEN + 1) m (name_view p pr m).
Proof.
  change PROC_MAX_NAME_LEN with 64.
  assert (Ho : ∀ a, ¬ (p + NAME ≤ a < p + NAME + (64 + 1)) →
    name_view p pr m !! a = m !! a).
  { intros a Ha. unfold name_view. change PROC_MAX_NAME_LEN with 64.
    rewrite lookup_insert_ne by lia.
    rewrite overlay_lookup, decide_False; [done|]. rewrite elem_of_seqZ. lia. }
  split; [done|]. intros a Ha.
  destruct (decide (p + NAME ≤ a < p + NAME + (64 + 1))) as [Hi|Hi];
    [|by rewrite Ho].
  replace a with (p + NAME + (a - (p + NAME))) by lia.
  destruct (decide (a - (p + NAME) = 64)) as [->|Hn].
  - change 64 with PROC_MAX_NAME_LEN. rewrite name_view_behind. by eexists.
  - rewrite name_view_name by (change PROC_MAX_NAME_LEN with 64; lia). by eexists.
Qed.

(** The name of a process, terminated inside its array. *)
Definition named (pr : process) (str : list Z) : Prop :=
  Forall Strings.char_ok str ∧ Z.of_nat (length str) < PROC_MAX_NAME_LEN ∧
  (∀ i c, str !! i = Some c → arr 0 (name pr) (Z.of_nat i) = c) ∧
  arr 0 (name pr) (Z.of_nat (length str)) = 0.

Lemma bytes_at_intro m p l :
  (∀ i c, l !! i = Some c → m !! (p + Z.of_nat i) = Some c) → Strings.bytes_at m p l.
Proof.
  revert p. induction l as [|c l IH]; intros p Hl; cbn [Strings.bytes_at]; [done|]. split.
  - rewrite <- (Hl 0%nat c eq_refl). f_equal. lia.
  - apply IH. intros i d Hi. rewrite <- (Hl (S i) d Hi). f_equal. lia.
Qed.

Lemma bytes_at_lookup m p l i c :
  Strings.bytes_at m p l → l !! i = Some c → m !! (p + Z.of_nat i) = Some c.
Proof.
  revert p i. induction l as [|b l IH]; intros p [|i] Hb Hi; simpl in Hi; [done..| |].
  - injection Hi as <-. destruct Hb as [Hb _]. rewrite <- Hb. f_equal. lia.
  - destruct Hb as [_ Hb]. rewrite <- (IH _ _ Hb Hi). f_equal. lia.
Qed.

Lemma named_cstr p pr m str : named pr str → Strings.cstr (name_view p pr m) (p + NAME) str.
Proof.
  intros (Hc & Hlen & Hn & H0). apply Strings.cstr_bytes. split; [|split; [done|]].
  - apply bytes_at_intro. intros i c Hi. pose proof (lookup_lt_Some _ _ _ Hi).
    rewrite name_view_name by lia. f_equal. by apply Hn.
  - rewrite name_view_name by lia. by rewrite H0.
Qed.

(** The process in slot [i] is called [str]. *)
Definition called {F} `{FrameAlloc F} (s : pstate (F := F)) (i : Z) (str : list Z) : Prop :=
  let p := arr 0 (table s) i in p ≠ 0 ∧ ∃ pr, procs s !! p = Some pr ∧ named pr str.

(** Every process of the table has a terminated name that does not overlap the
    string at [nm]. *)
Definition names_ok {F} `{FrameAlloc F} (s : pstate (F := F)) (nm : Z) (str : list Z) : Prop :=
  ∀ i, 1 ≤ i < MAX_PROCESSES → arr 0 (table s) i ≠ 0 →
    (∃ n, called s i n) ∧
    (nm + Z.of_nat (length str) < arr 0 (table s) i + NAME ∨
     arr 0 (table s) i + NAME + PROC_MAX_NAME_LEN < nm).

(** One comparison of [proc_get_by_name]. *)
Lemma compare_name `{FrameAlloc F} (s : pstate (F := F)) fuel nm str i :
  Strings.cstr (bytes s) nm str → names_ok s nm str → (length str < fuel)%nat →
  1 ≤ i < MAX_PROCESSES → arr 0 (table s) i ≠ 0 →
  ∃ pr r, procs s !! arr 0 (table s) i = Some pr ∧
    Strings.kstrcmp fuel (name_view (arr 0 (table s) i) pr (bytes s)) nm
      (arr 0 (table s) i + NAME) = Ok r ∧ (r = 0 ↔ called s i str).
Proof.
  intros Hs Hok Hf Hi Hne. destruct (Hok i Hi Hne) as [(n & _ & pr & Hpr & Hn) Hap].
  set (p := arr 0 (table s) i) in *.
  assert (Hs' : Strings.cstr (name_view p pr (bytes s)) nm str).
  { eapply Strings.cstr_changed; [apply name_view_changed| |exact Hs]. lia. }
  destruct (Strings.kstrcmp_ok fuel _ _ _ _ _ Hs' (named_cstr p pr (bytes s) n Hn) Hf)
    as (r & Hr & H0 & _).
  exists pr, r. split; [done|]. split; [done|]. split.
  - intros ->. split; [done|]. exists pr. split; [done|]. by rewrite (proj1 H0 eq_refl).
  - intros (_ & pr' & Hpr' & Hn'). fold p in Hpr'. rewrite Hpr in Hpr'. injection Hpr' as <-.
    destruct (Strings.kstrcmp_ok fuel _ _ _ _ _ Hs' (named_cstr p pr (bytes s) str Hn') Hf)
      as (r' & Hr' & H0' & _).
    rewrite Hr in Hr'. injection Hr' as <-. by apply H0'.
Qed.

Lemma by_name_from_ok `{FrameAlloc F} (s : pstate (F := F)) fuel nm str :
  Strings.cstr (bytes s) nm str → names_ok s nm str → (length str < fuel)%nat →
  ∀ k i, 1 ≤ i → i + Z.of_nat k ≤ MAX_PROCESSES →
  ∃ r, by_name_from fuel nm s k i = Ok r ∧
    ((r = 0 ∧ ∀ j, i ≤ j < i + Z.of_nat k → ¬ called s j str) ∨
     (∃ j, i ≤ j < i + Z.of_nat k ∧ r = arr 0 (table s) j ∧ called s j str ∧
        ∀ j', i ≤ j' < j → ¬ called s j' str)).
Proof.
  intros Hs Hok Hf k. induction k as [|k IH]; intros i Hi Hk; cbn [by_name_from].
  { exists 0. split; [done|]. left. split; [done|]. lia. }
  rewrite aget_in by lia. cbn [mbind res_bind].
  assert (Hskip : ¬ called s i str → ∃ r, by_name_from fuel nm s k (i + 1) = Ok r ∧
    ((r = 0 ∧ ∀ j, i ≤ j < i + Z.of_nat (S k) → ¬ called s j str) ∨
     (∃ j, i ≤ j < i + Z.of_nat (S k) ∧ r = arr 0 (table s) j ∧ called s j str ∧
        ∀ j', i ≤ j' < j → ¬ called s j' str))).
  { intros Hn. destruct (IH (i + 1)) as (r & Hr & Hc); [lia|lia|]. exists r. split; [done|].
    assert (Hle : ∀ j, i ≤ j → j ≠ i → i + 1 ≤ j) by lia.
    destruct Hc as [[H0 Hc]|(j & Hj & H0 & Hc & Hfst)]; [left|right].
    - split; [done|]. intros j Hj. destruct (decide (j = i)) as [->|]; [done|]. apply Hc. lia.
    - exists j. split; [lia|]. split; [done|]. split; [done|]. intros j' Hj'.
      destruct (decide (j' = i)) as [->|]; [done|]. apply Hfst. lia. }
  case_bool_decide as H0.
  { apply Hskip. by intros [? _]. }
  destruct (compare_name s fuel nm str i Hs Hok Hf) as (pr & r & Hpr & Hr & Hc); [lia|done|].
  unfold get_process. rewrite Hpr. cbn [mbind res_bind]. rewrite (bind_ok _ _ _ Hr).
  case_bool_decide as Hr0.
  - exists (arr 0 (table s) i). split; [done|]. right. exists i. apply Hc in Hr0.
    split; [lia|]. split; [done|]. split; [done|]. lia.
  - apply Hskip. by rewrite <- Hc.
Qed.

(** ** Registering a name *)

Lemma read_back_name p m pr i :
  0 ≤ i < PROC_MAX_NAME_LEN →
  arr 0 (name (read_back p m pr)) i = default 0 (m !! (p + NAME + i)).
Proof.
  intros Hi. unfold arr, read_back. cbn [name].
  set (g j := default 0 (m !! (p + NAME + j))).
  transitivity (default 0 ((foldr (λ j, <[0 + j := g j]>) ∅ (seqZ 0 PROC_MAX_NAME_LEN)
    : gmap Z Z) !! i)); [reflexivity|].
  rewrite overlay_lookup, Z.sub_0_r, decide_True by (apply elem_of_seqZ; lia). done.
Qed.

(** What [kstrncpy] takes from the string [str]: up to 65 bytes. *)
Definition copied (str : list Z) : list Z := take 65 (str ++ [0]).

Lemma copied_lookup str i c :
  copied str !! i = Some c ↔ (i < 65)%nat ∧ (str ++ [0]) !! i = Some c.
Proof. unfold copied. rewrite lookup_take_Some. tauto. Qed.

Lemma copied_short str : (length str < 65)%nat → copied str = str ++ [0].
Proof. intros Hl. apply take_ge. rewrite length_app. simpl. lia. Qed.

Lemma length_copied str : length (copied str) = Nat.min 65 (S (length str)).
Proof. unfold copied. rewrite length_take, length_app. cbn [length]. lia. Qed.

Lemma copied_bytes m p str : Strings.cstr m p str → Strings.bytes_at m p (copied str).
Proof.
  intros Hs. apply Strings.cstr_bytes in Hs as (Hb & _ & H0).
  assert (Ha : Strings.bytes_at m p (str ++ [0])) by (apply Strings.bytes_app; by split).
  unfold copied. rewrite <- (take_drop 65 (str ++ [0])) in Ha.
  by apply Strings.bytes_app in Ha as [Ha _].
Qed.

Lemma copied_chars m p str :
  Strings.cstr m p str → Forall (λ c, 0 ≤ c < 256) (copied str).
Proof.
  intros Hs. apply Strings.cstr_bytes in Hs as (_ & Hc & _). apply Forall_take, Forall_app.
  split; [|by repeat constructor].
  eapply Forall_impl; [exact Hc|]. unfold Strings.char_ok. intros c Hcc. simpl. lia.
Qed.

Lemma copied_nonzero str i c :
  Forall Strings.char_ok str → copied str !! i = Some c → (S i < length (copied str))%nat → c ≠ 0.
Proof.
  intros Hc [Hi Hl]%copied_lookup Hlt. rewrite length_copied in Hlt.
  rewrite lookup_app_l in Hl by lia. eapply Forall_lookup_1 in Hc; [|exact Hl].
  unfold Strings.char_ok in Hc. lia.
Qed.

Lemma copied_end str :
  last (copied str) = Some 0 ∨ Z.of_nat (length (copied str)) = PROC_MAX_NAME_LEN + 1.
Proof.
  destruct (decide (length str < 65)%nat) as [Hl|Hl].
  - left. rewrite copied_short by done. apply last_snoc.
  - right. rewrite length_copied. change PROC_MAX_NAME_LEN with 64. lia.
Qed.

(** The bytes [proc_register] leaves: the copied ones and those behind them. *)
Lemma proc_register_run `{FrameAlloc F} (s : pstate (F := F)) proc pr nm str :
  procs s !! proc = Some pr → Strings.cstr (bytes s) nm str →
  (nm + Z.of_nat (length str) < proc + NAME ∨ proc + NAME + PROC_MAX_NAME_LEN < nm) →
  ∃ m, proc_register proc nm s = Ok (0, set_procs (<[proc := read_back proc m pr]> (procs s)) s) ∧
    Strings.bytes_at m (proc + NAME) (copied str) ∧
    Strings.changed (proc + NAME) (Z.of_nat (length (copied str)))
      (name_view proc pr (bytes s)) m.
Proof.
  intros Hpr Hs Hap. set (v := name_view proc pr (bytes s)).
  assert (Hs' : Strings.cstr v nm str).
  { eapply Strings.cstr_changed; [apply name_view_changed| |exact Hs]. lia. }
  pose proof (length_copied str) as Hlen.
  assert (Hw : Strings.writable v (proc + NAME) 65).
  { intros a Ha. replace a with (proc + NAME + (a - (proc + NAME))) by lia.
    destruct (decide (a - (proc + NAME) = 64)) as [->|].
    - change 64 with PROC_MAX_NAME_LEN. unfold v. rewrite name_view_behind. by eexists.
    - unfold v. rewrite name_view_name by (change PROC_MAX_NAME_LEN with 64; lia). by eexists. }
  change PROC_MAX_NAME_LEN with 64 in Hap.
  destruct (Strings.kstrncpy_ok (copied str) 66 v (proc + NAME) nm PROC_MAX_NAME_LEN)
    as (m & Hm & Hb & Hc).
  - by apply copied_bytes.
  - by apply (copied_chars v nm).
  - lia.
  - intros i c Hi Hl. apply Strings.cstr_bytes in Hs as (_ & Hcs & _).
    by apply (copied_nonzero str i c).
  - apply copied_end.
  - change PROC_MAX_NAME_LEN with 64. lia.
  - by change PROC_MAX_NAME_LEN with 64.
  - eapply Strings.writable_sub; [exact Hw|lia|lia].
  - lia.
  - exists m. split; [|by split]. unfold proc_register, get_process. rewrite Hpr.
    cbn [mbind res_bind]. by rewrite (bind_ok _ _ _ Hm).
Qed.

(** What is behind the name in memory. *)
Definition behind (pr : process) : Stream.iostream := arr Stream.null_ios (iodescr pr) 0.

(** [pr'] is [pr] with another name, and perhaps other descriptors. *)
Definition renamed (pr pr' : process) : Prop :=
  pid pr' = pid pr ∧ text pr' = text pr ∧ data pr' = data pr ∧ bss pr' = bss pr ∧
  rodata pr' = rodata pr ∧ pdir pr' = pdir pr ∧
  ∀ i, i ≠ 0 → arr Stream.null_ios (iodescr pr') i = arr Stream.null_ios (iodescr pr) i.

Lemma read_back_renamed p m pr : renamed pr (read_back p m pr).
Proof. repeat split. intros i Hi. unfold read_back. cbn [iodescr]. by rewrite arr_insert_ne. Qed.

(** A name of at most 63 bytes. *)
Lemma register_short p pr m0 m str :
  Forall Strings.char_ok str → (length str < 64)%nat →
  Strings.bytes_at m (p + NAME) (copied str) →
  Strings.changed (p + NAME) (Z.of_nat (length (copied str))) (name_view p pr m0) m →
  named (read_back p m pr) str ∧ behind (read_back p m pr) = behind pr.
Proof.
  intros Hc Hl Hb [Hch _]. rewrite copied_short in * by lia. split.
  - split; [done|]. split; [change PROC_MAX_NAME_LEN with 64; lia|]. split.
    + intros i c Hi. pose proof (lookup_lt_Some _ _ _ Hi).
      rewrite read_back_name by (change PROC_MAX_NAME_LEN with 64; lia).
      rewrite (bytes_at_lookup _ _ _ _ _ Hb (lookup_app_l_Some _ _ _ _ Hi)). done.
    + rewrite read_back_name by (change PROC_MAX_NAME_LEN with 64; lia).
      assert (H0 : (str ++ [0]) !! length str = Some 0)
        by (by rewrite lookup_app_r, Nat.sub_diag by lia).
      by rewrite (bytes_at_lookup _ _ _ _ _ Hb H0).
  - unfold behind, read_back. cbn [iodescr]. rewrite arr_insert_eq, Hch, name_view_behind.
    + fold (behind pr). destruct (behind pr) as [i o]. cbn. f_equal. lia.
    + rewrite length_app. simpl. change PROC_MAX_NAME_LEN with 64. lia.
Qed.

(** A longer one. *)
Lemma register_long p pr m str :
  (64 ≤ length str)%nat → Strings.bytes_at m (p + NAME) (copied str) →
  (∀ i c, str !! i = Some c → (i < 64)%nat →
     arr 0 (name (read_back p m pr)) (Z.of_nat i) = c) ∧
  Stream.output (behind (read_back p m pr)) = Stream.output (behind pr) ∧
  Some (Stream.input (behind (read_back p m pr)) -
    (Stream.input (behind pr) - Stream.input (behind pr) mod 256)) = (str ++ [0]) !! 64%nat.
Proof.
  intros Hl Hb. split; [|split].
  - intros i c Hi Hlt. rewrite read_back_name by (change PROC_MAX_NAME_LEN with 64; lia).
    rewrite (bytes_at_lookup m (p + NAME) (copied str) i c Hb); [done|]. apply copied_lookup.
    split; [lia|]. by apply lookup_app_l_Some.
  - unfold behind, read_back. cbn [iodescr]. by rewrite arr_insert_eq.
  - destruct ((str ++ [0]) !! 64%nat) as [c|] eqn:H64.
    + unfold behind, read_back. cbn [iodescr]. rewrite arr_insert_eq. cbn [Stream.input].
      assert (Hc : copied str !! 64%nat = Some c) by (apply copied_lookup; split; [lia|done]).
      pose proof (bytes_at_lookup _ _ _ _ _ Hb Hc) as Hm.
      change (Z.of_nat 64) with PROC_MAX_NAME_LEN in Hm. rewrite Hm. simpl. f_equal. lia.
    + apply lookup_ge_None in H64. rewrite length_app in H64. simpl in H64. lia.
Qed.

(** ** The first return to a thread *)

Lemma push_stack_ok sp v m :
  4 ≤ sp < 2 ^ 32 → 0 ≤ v < 2 ^ 32 → Strings.writable m (sp - 4) 4 →
  ∃ m', push_stack sp v m = Ok (sp - 4, m') ∧ Strings.changed (sp - 4) 4 m m'.
Proof.
  intros Hsp Hv Hw. destruct (Memory.store32_ok (sp - 4) v m Hw Hv) as (m' & Hm & _ & Hc).
  exists m'. split; [|done]. unfold push_stack. rewrite u32_small by lia. cbv zeta.
  by rewrite (bind_ok _ _ _ Hm).
Qed.

Lemma regs_words stack entry flags :
  0 ≤ stack < 2 ^ 32 → 0 ≤ entry < 2 ^ 32 →
  Forall (λ w, 0 ≤ w < 2 ^ 32) (state_words (Interrupts.regs_init stack entry flags)).
Proof.
  intros Hs He. unfold Interrupts.regs_init, state_words.
  rewrite (bool_decide_false (Interrupts.THREAD_USERSPACE = 0)) by done.
  destruct (bool_decide (flags = 0)); cbn [negb andb Interrupts.tpr Interrupts.ds
    Interrupts.edi Interrupts.esi Interrupts.ebp Interrupts.esp Interrupts.ebx Interrupts.edx
    Interrupts.ecx Interrupts.eax Interrupts.int_id Interrupts.err Interrupts.eip Interrupts.cs
    Interrupts.eflags Interrupts.useresp Interrupts.ss];
    repeat (apply Forall_cons; split; [first [assumption|split; [discriminate|reflexivity]]|]);
    apply Forall_nil; exact I.
Qed.

(** The words of a state in memory are what [_leave_kernel] loads. *)
Lemma leave_kernel_ok ss esp m r :
  0 ≤ Interrupts.ds r < 2 ^ 16 →
  (∀ i w, state_words r !! i = Some w → Memory.load32 (esp + 12 + 4 * Z.of_nat i) m = Ok w) →
  leave_kernel ss esp m = Ok (returned (esp + 72) ss r).
Proof.
  intros Hds Hw. destruct r as [tp d ? ? ? ? ? ? ? ? ? ? ? ? ? ? ?]. cbn [Interrupts.ds] in Hds.
  assert (Hland : Z.land d 0xFFFF = d).
  { change 0xFFFF with (Z.ones 16). rewrite Z.land_ones by lia. apply Z.mod_small. lia. }
  unfold leave_kernel, Isr.isr_leave, returned. unfold state_words in Hw.
  cbn [Interrupts.tpr Interrupts.ds Interrupts.edi Interrupts.esi Interrupts.ebp Interrupts.esp
    Interrupts.ebx Interrupts.edx Interrupts.ecx Interrupts.eax Interrupts.int_id Interrupts.err
    Interrupts.eip Interrupts.cs Interrupts.eflags Interrupts.useresp Interrupts.ss] in Hw.
  rewrite (Hw 0%nat _ eq_refl : Memory.load32 (esp + 12 + 4 * 0) m = _),
    (Hw 1%nat _ eq_refl : Memory.load32 (esp + 12 + 4 * 1) m = _),
    (Hw 2%nat _ eq_refl : Memory.load32 (esp + 12 + 4 * 2) m = _),
    (Hw 3%nat _ eq_refl : Memory.load32 (esp + 12 + 4 * 3) m = _),
    (Hw 4%nat _ eq_refl : Memory.load32 (esp + 12 + 4 * 4) m = _),
    (Hw 6%nat _ eq_refl : Memory.load32 (esp + 12 + 4 * 6) m = _),
    (Hw 7%nat _ eq_refl : Memory.load32 (esp + 12 + 4 * 7) m = _),
    (Hw 8%nat _ eq_refl : Memory.load32 (esp + 12 + 4 * 8) m = _),
    (Hw 9%nat _ eq_refl : Memory.load32 (esp + 12 + 4 * 9) m = _),
    (Hw 12%nat _ eq_refl : Memory.load32 (esp + 12 + 4 * 12) m = _),
    (Hw 13%nat _ eq_refl : Memory.load32 (esp + 12 + 4 * 13) m = _),
    (Hw 14%nat _ eq_refl : Memory.load32 (esp + 12 + 4 * 14) m = _),
    (Hw 15%nat _ eq_refl : Memory.load32 (esp + 12 + 4 * 15) m = _),
    (Hw 16%nat _ eq_refl : Memory.load32 (esp + 12 + 4 * 16) m = _).
  cbn [mbind res_bind Interrupts.cs]. rewrite Hland.
  destruct (Isr.user_mode _); [reflexivity|]. by replace (esp + 12 + 60) with (esp + 72) by lia.
Qed.

(** [thread_context] on a kernel stack of a page at [k]. *)
Lemma thread_context_ok at_leave parent stack k entry flags m :
  0 < k → k + PAGE_SIZE < 2 ^ 32 → 0 ≤ entry < 2 ^ 32 → Strings.writable m k PAGE_SIZE →
  let ks := k + PAGE_SIZE - 16 in
  ∃ m', thread_context at_leave parent stack ks entry flags m =
      Ok (Thr parent 0 stack ks (ks - 80) at_leave 0 0 NoEvent, m') ∧
    (∀ ss, leave_kernel ss (ks - 80) m' =
       Ok (returned (ks - 8) ss (Interrupts.regs_init (u32 (stack + PAGE_SIZE - 16)) entry flags))) ∧
    Strings.changed k PAGE_SIZE m m'.
Proof.
  intros Hk Hend Hent Hw. rewrite PAGE_SIZE_eq in *. intros ks. unfold thread_context, alloc_stack.
  change STATE_SIZE with 68. rewrite PAGE_SIZE_eq, (u32_small (ks - 68)) by lia. cbv zeta.
  set (r := Interrupts.regs_init (u32 (stack + 4096 - 16)) entry flags).
  destruct (Memory.store_words_ok (state_words r) (ks - 68) m) as (m1 & H1 & Hc1 & Hl1).
  { change (length (state_words r)) with 17%nat. eapply Strings.writable_sub; [exact Hw|lia|lia]. }
  { apply regs_words; [apply u32_range|done]. }
  change (4 * Z.of_nat (length (state_words r))) with 68 in Hc1.
  assert (Hin : ∀ q j m', Strings.changed q j m m' → Strings.writable m' k 4096).
  { intros q j m' Hc. by eapply Strings.writable_changed. }
  destruct (push_stack_ok (ks - 68) 0 m1) as (m2 & H2 & Hc2); [lia|lia| |].
  { eapply Strings.writable_sub; [exact (Hin _ _ _ Hc1)|lia|lia]. }
  destruct (push_stack_ok (ks - 68 - 4) 0 m2) as (m3 & H3 & Hc3); [lia|lia| |].
  { eapply Strings.writable_changed; [exact Hc2|].
    eapply Strings.writable_sub; [exact (Hin _ _ _ Hc1)|lia|lia]. }
  destruct (push_stack_ok (ks - 68 - 4 - 4) ks m3) as (m4 & H4 & Hc4); [lia|lia| |].
  { eapply Strings.writable_changed; [exact Hc3|]. eapply Strings.writable_changed; [exact Hc2|].
    eapply Strings.writable_sub; [exact (Hin _ _ _ Hc1)|lia|lia]. }
  replace (ks - 68 - 4 - 4 - 4) with (ks - 80) in * by lia.
  exists m4. split; [|split].
  - rewrite (bind_ok _ _ _ H1), (bind_ok _ _ _ H2). cbv iota beta.
    rewrite (bind_ok _ _ _ H3). cbv iota beta. rewrite (bind_ok _ _ _ H4). reflexivity.
  - intros ss. replace (ks - 8) with (ks - 80 + 72) by lia. apply leave_kernel_ok.
    { unfold r, Interrupts.regs_init. cbn [Interrupts.ds]. destruct (negb _ && negb _); lia. }
    intros i w Hi.
    rewrite (Memory.load32_changed _ _ _ _ _ Hc4), (Memory.load32_changed _ _ _ _ _ Hc3),
      (Memory.load32_changed _ _ _ _ _ Hc2) by lia.
    replace (ks - 80 + 12 + 4 * Z.of_nat i) with (ks - 68 + 4 * Z.of_nat i) by lia. by apply Hl1.
  - do 3 (eapply Strings.changed_trans; [|eapply Strings.changed_widen; [eassumption|lia|lia]]).
    eapply Strings.changed_widen; [eassumption|lia|lia].
Qed.

(** A thread made on a heap with room for three blocks, and [j] more. *)
Lemma thread_create_kernel `{FrameAlloc F} kdir at_leave live j parent entry (s : pstate (F := F)) :
  Memory.heap_ok live (j + 3) (mem s) (bytes s) → 0 ≤ entry < 2 ^ 32 →
  ∃ new s' th live', thread_create kdir at_leave parent entry Interrupts.THREAD_KERNEL s
      = Ok (new, s') ∧
    threads s' = <[new := th]> (threads s) ∧ procs s' = procs s ∧ table s' = table s ∧
    th = Thr parent 0 (stack th) (kernel_stack th) (esp th) at_leave 0 0 NoEvent ∧
    (∀ ss, leave_kernel ss (esp th) (bytes s') =
       Ok (loaded (kernel_stack th - 8) ss
             (Interrupts.regs_init (stack th + PAGE_SIZE - 16) entry Interrupts.THREAD_KERNEL))) ∧
    Memory.heap_ok live' j (mem s') (bytes s') ∧
    (∀ a, live a ∨ new ≤ a < new + THREAD_SIZE ∨ stack th ≤ a < stack th + PAGE_SIZE ∨
       kernel_stack th - (PAGE_SIZE - 16) ≤ a < kernel_stack th + 16 → live' a) ∧
    (∀ a, live a → ¬ (new ≤ a < new + THREAD_SIZE) ∧ ¬ (stack th ≤ a < stack th + PAGE_SIZE) ∧
       ¬ (kernel_stack th - (PAGE_SIZE - 16) ≤ a < kernel_stack th + 16) ∧
       bytes s' !! a = bytes s !! a) ∧
    Memory.spent 6 (vm_of s) (vm_of s') ∧ plock s' = plock s ∧ new ≠ 0.
Proof.
  intros Hh He. replace (j + 3)%nat with (S (S (S j))) in Hh by lia.
  destruct (Memory.NEW_page live (S (S j)) THREAD_SIZE (mem s) (bytes s)) as (new & h1 & m1 & H1 & Hb1 & Hh1);
    [split; [discriminate|by rewrite PAGE_SIZE_eq]|done|].
  destruct (Memory.kmalloc_page _ (S j) PAGE_SIZE h1 m1 ltac:(done) Hh1) as (k & h2 & m2 & H2 & Hb2 & Hh2).
  destruct (Memory.kmalloc_page _ j PAGE_SIZE h2 m2 ltac:(done) Hh2) as (st & h3 & m3 & H3 & Hb3 & Hh3).
  pose proof (Memory.spent_trans 2 4 _ _ _ (Memory.NEW_spent _ _ _ _ _ _ _ _ Hh H1)
    (Memory.spent_trans 2 2 _ _ _ (Memory.kmalloc_spent _ _ _ _ _ _ _ _ Hh1 H2)
      (Memory.kmalloc_spent _ _ _ _ _ _ _ _ Hh2 H3))) as Hspent.
  destruct Hb1 as [Hp1 _ _ _ Hs1 Hf1], Hb2 as [Hp2 He2 _ Hz2 Hs2 Hf2], Hb3 as [Hp3 He3 _ _ Hs3 Hf3].
  assert (Hw : Strings.writable m3 k PAGE_SIZE).
  { intros a Ha. rewrite Hs3; [rewrite Hz2 by done; by eexists|]. intros Hin.
    apply (Hf3 a Hin). by right. }
  destruct (thread_context_ok at_leave parent st k entry Interrupts.THREAD_KERNEL m3 Hp2 He2 He Hw)
    as (m4 & H4 & Hlv & [Hc4 Hd4]).
  rewrite PAGE_SIZE_eq in *.
  exists new. eexists. eexists (Thr parent 0 st (k + 4096 - 16) (k + 4096 - 16 - 80) at_leave 0 0 NoEvent).
  eexists. split; [|split; [|split; [|split; [|split; [|split; [|split; [|split; [|split]]]]]]]].
  - unfold thread_create, NEW, kmalloc. rewrite (bind_ok _ _ _ H1). cbn [mbind res_bind set_mem mem bytes].
    rewrite (bind_ok _ _ _ H2). cbn [mbind res_bind set_mem mem bytes].
    rewrite (bool_decide_true (Interrupts.THREAD_KERNEL = 0)) by done. cbn [negb].
    rewrite (bind_ok _ _ _ H3). cbn [mbind res_bind set_mem mem bytes].
    rewrite (u32_small (k + PAGE_SIZE - 16)) by (rewrite PAGE_SIZE_eq; lia).
    rewrite PAGE_SIZE_eq, (bind_ok _ _ _ H4). reflexivity.
  - reflexivity.
  - reflexivity.
  - reflexivity.
  - reflexivity.
  - cbn [esp stack bytes set_threads set_mem].
    rewrite (u32_small (st + 4096 - 16)) in Hlv by lia. exact Hlv.
  - cbn [mem bytes set_threads set_mem]. eapply Memory.heap_ok_changed; [by split|exact Hh3].
  - cbn [stack kernel_stack]. intros a [Ha|[Ha|[Ha|Ha]]]; [by do 3 left|left; left; by right|by right|].
    left; right. lia.
  - cbn [stack kernel_stack bytes set_threads set_mem]. intros a Ha.
    assert (N1 : ¬ (new ≤ a < new + THREAD_SIZE)) by (intros Hin; by apply (Hf1 a Hin)).
    assert (N2 : ¬ (k ≤ a < k + 4096)) by (intros Hin; apply (Hf2 a Hin); by left).
    assert (N3 : ¬ (st ≤ a < st + 4096)) by (intros Hin; apply (Hf3 a Hin); by do 2 left).
    split; [done|]. split; [done|]. split; [lia|]. by rewrite Hc4, Hs3, Hs2, Hs1.
  - split; [exact Hspent|]. split; [done|lia].
Qed.

(** ** The process table *)

(** [NEW] on the state. *)
Lemma NEW_state `{FrameAlloc F} live n size (s : pstate (F := F)) :
  0 ≤ size ≤ PAGE_SIZE → Memory.heap_ok live (S n) (mem s) (bytes s) →
  ∃ p h m, NEW size s = Ok (p, set_mem h m s) ∧
    Memory.fresh_block live p size (bytes s) m ∧
    Memory.heap_ok (λ a, live a ∨ p ≤ a < p + size) n h m.
Proof.
  intros Hs Hh. destruct (Memory.NEW_page live n size _ _ Hs Hh) as (p & h & m & H1 & Hb & Hh').
  exists p, h, m. split; [|done]. unfold NEW. by rewrite (bind_ok _ _ _ H1).
Qed.

(** ** Properties *)

(** A new process takes the lowest free slot of the table and is a fresh
    object; when all slots are in use it replaces the process in slot 0, the
    kernel's. *)
Theorem proc_create_kernel_slot `{FrameAlloc F} kdir live (s : pstate (F := F)) :
  plock s = 0 → Memory.heap_ok live 1 (mem s) (bytes s) →
  ∃ i new s', proc_create_kernel_proc kdir s = Ok (new, s') ∧ slot_for (table s) i ∧
    table s' = <[i := new]> (table s) ∧ new ≠ 0 ∧
    procs s' = <[new := Proc i section0 section0 section0 section0 kdir ∅ ∅]> (procs s) ∧
    (∀ a, new ≤ a < new + PROCESS_SIZE → ¬ live a) ∧ plock s' = 0 ∧
    ((∀ j, 0 ≤ j < MAX_PROCESSES → arr 0 (table s) j ≠ 0) → arr 0 (table s') 0 = new).
Proof.
  intros Hl Hh. destruct (find_next_pid_ok s Hl) as (i & Hi & Hslot).
  destruct (NEW_state live 0 PROCESS_SIZE (set_plock 0 s)) as (p & h & m & Hp & Hb & _);
    [split; [discriminate|by rewrite PAGE_SIZE_eq]|exact Hh|].
  exists i, p. eexists. split.
  { unfold proc_create_kernel_proc. rewrite (bind_ok _ _ _ Hi). cbv iota beta.
    rewrite (bind_ok _ _ _ Hp). cbv iota beta. cbn [table set_mem set_plock].
    rewrite aset_in by apply Hslot. reflexivity. }
  cbn [table plock procs set_procs set_table set_mem set_plock]. destruct Hb as [Hp0 _ _ _ _ Hf].
  split; [done|]. split; [done|]. split; [lia|]. split; [done|]. split; [done|]. split; [done|].
  intros Hfull. destruct Hslot as (Hr & _ & [H0|[-> _]]).
  - exfalso. by apply (Hfull i).
  - by rewrite arr_insert_eq.
Qed.

(** C39. [proc_register] with a name of at most 63 bytes names the process and
    changes nothing else; a longer one is cut after 64 bytes without a
    terminator, and its next byte replaces the low byte of the pointer to the
    first input stream of the process. *)
Theorem proc_register_names `{FrameAlloc F} (s : pstate (F := F)) proc pr nm str :
  procs s !! proc = Some pr → Strings.cstr (bytes s) nm str →
  (nm + Z.of_nat (length str) < proc + NAME ∨ proc + NAME + PROC_MAX_NAME_LEN < nm) →
  ∃ pr', proc_register proc nm s = Ok (0, set_procs (<[proc := pr']> (procs s)) s) ∧
    renamed pr pr' ∧ Stream.output (behind pr') = Stream.output (behind pr) ∧
    if decide (length str < 64)%nat then
      named pr' str ∧ Stream.input (behind pr') = Stream.input (behind pr)
    else
      (∀ i c, str !! i = Some c → (i < 64)%nat → arr 0 (name pr') (Z.of_nat i) = c) ∧
      Some (Stream.input (behind pr') -
        (Stream.input (behind pr) - Stream.input (behind pr) mod 256)) = (str ++ [0]) !! 64%nat.
Proof.
  intros Hpr Hs Hap. destruct (proc_register_run s proc pr nm str Hpr Hs Hap) as (m & Hm & Hb & Hc).
  exists (read_back proc m pr). split; [exact Hm|]. split; [apply read_back_renamed|].
  apply Strings.cstr_bytes in Hs as (_ & Hok & _). case_decide as Hl.
  - destruct (register_short proc pr (bytes s) m str Hok Hl Hb Hc) as [Hn ->]. done.
  - destruct (register_long proc pr m str) as (H1 & H2 & H3); [lia|done|]. done.
Qed.

(** C17. After a process with slot [i] has registered a name of at most 63
    bytes, [proc_get_by_name] ends with the process of the first slot from 1
    on that carries the name, which is that process when no lower slot does. *)
Theorem register_then_find `{FrameAlloc F} (s : pstate (F := F)) i pr nm nm' str fuel :
  1 ≤ i < MAX_PROCESSES → arr 0 (table s) i ≠ 0 → procs s !! arr 0 (table s) i = Some pr →
  Strings.cstr (bytes s) nm str → Strings.cstr (bytes s) nm' str →
  names_ok s nm str → names_ok s nm' str →
  (length str < 64)%nat → (length str < fuel)%nat →
  ∃ s' j, proc_register (arr 0 (table s) i) nm s = Ok (0, s') ∧
    proc_get_by_name fuel nm' s' = Ok (arr 0 (table s) j) ∧ 1 ≤ j ≤ i ∧ called s' j str ∧
    (∀ k, 1 ≤ k < j → ¬ called s' k str) ∧
    ((∀ k, 1 ≤ k < i → ¬ called s k str) → arr 0 (table s) j = arr 0 (table s) i).
Proof.
  intros Hi Hne Hpr Hs Hs' Hok Hok' Hl Hf. set (p := arr 0 (table s) i) in *.
  destruct (proc_register_run s p pr nm str Hpr Hs (proj2 (Hok i Hi Hne))) as (m & Hm & Hb & Hc).
  pose proof Hs as (_ & Hch & _)%Strings.cstr_bytes.
  destruct (register_short p pr (bytes s) m str Hch Hl Hb Hc) as [Hn _].
  set (pr' := read_back p m pr) in *. set (s1 := set_procs (<[p := pr']> (procs s)) s) in *.
  assert (Hcall : ∀ k, arr 0 (table s) k = p → called s1 k str).
  { intros k Hk. unfold called, s1. cbn [table procs set_procs]. rewrite Hk. split; [done|].
    exists pr'. by rewrite lookup_insert_eq. }
  assert (Hother : ∀ k n, arr 0 (table s) k ≠ p → called s1 k n ↔ called s k n).
  { intros k n Hk. unfold called, s1. cbn [table procs set_procs]. by rewrite lookup_insert_ne. }
  assert (Hok1 : names_ok s1 nm' str).
  { intros k Hk Hkn. cbn [table set_procs s1] in *. destruct (Hok' k Hk Hkn) as [[n Hcn] Hap].
    split; [|done]. destruct (decide (arr 0 (table s) k = p)) as [He|Hd].
    - exists str. by apply Hcall.
    - exists n. by apply Hother. }
  destruct (by_name_from_ok s1 fuel nm' str Hs' Hok1 Hf (Z.to_nat (MAX_PROCESSES - 1)) 1)
    as (r & Hr & Hcase); [lia|lia|]. rewrite Z2Nat.id in Hcase by lia.
  destruct Hcase as [[_ Hno]|(j & Hj & -> & Hcj & Hfst)].
  { exfalso. apply (Hno i); [lia|]. by apply Hcall. }
  assert (Hji : j ≤ i).
  { destruct (decide (j ≤ i)); [done|]. exfalso. apply (Hfst i); [lia|]. by apply Hcall. }
  exists s1, j. split; [exact Hm|]. split; [exact Hr|]. split; [lia|]. split; [done|].
  split; [done|]. intros Hnone. destruct (decide (j = i)) as [->|]; [done|].
  destruct (decide (arr 0 (table s) j = p)) as [|Hd]; [done|].
  exfalso. apply (Hnone j); [lia|]. by apply Hother.
Qed.

(** C18. A kernel thread starts at its entry point on its kernel stack: the
    first switch to it continues at [_leave_kernel], which loads the registers
    of the state that [regs_init] made for it.  The return stays in the kernel
    and leaves the stack pointer on the last two words of that state, 8 bytes
    below [kernel_stack]; the page allocated as [stack] is only in %ebp.  Both
    stacks and the object are fresh, and the bytes in use keep their values. *)
Theorem thread_create_starts `{FrameAlloc F} kdir at_leave live parent entry (s : pstate (F := F)) :
  Memory.heap_ok live 3 (mem s) (bytes s) → 0 ≤ entry < 2 ^ 32 →
  ∃ new s' th, thread_create kdir at_leave parent entry Interrupts.THREAD_KERNEL s = Ok (new, s') ∧
    threads s' !! new = Some th ∧ eip th = at_leave ∧ event th = NoEvent ∧
    (∀ ss, leave_kernel ss (esp th) (bytes s') =
       Ok (Isr.Regs 0 0x10 0x10 0x10 0x10 0 0 (stack th + PAGE_SIZE - 16) (kernel_stack th - 8) 0 0 0 0
             entry 0x08 Interrupts.FLAGS_INT_ENABLE ss)) ∧
    (∀ a, live a → ¬ (new ≤ a < new + THREAD_SIZE) ∧ ¬ (stack th ≤ a < stack th + PAGE_SIZE) ∧
       ¬ (kernel_stack th - (PAGE_SIZE - 16) ≤ a < kernel_stack th + 16) ∧
       bytes s' !! a = bytes s !! a).
Proof.
  intros Hh He. destruct (thread_create_kernel kdir at_leave live 0 parent entry s Hh He)
    as (new & s' & th & live' & H1 & H2 & _ & _ & H3 & H4 & _ & _ & H5 & _).
  exists new, s', th. split; [exact H1|]. rewrite H2, lookup_insert_eq. split; [done|].
  rewrite H3. split; [done|]. split; [done|]. rewrite <- H3. by split.
Qed.

(** ** Concrete runs *)

(** A fresh heap of eight pages, with frames for them. *)
Definition heap_mm : Paging.mm Palloc.palloc := Paging.bare (Palloc.word_frames 0xFFFCFFE0).

Lemma heap_mm_inv : Paging.paging_inv heap_mm.
Proof.
  apply Paging.bare_inv; [apply Palloc.word_frames_ok; split; [discriminate|reflexivity]|].
  intros [_ Hb]. by vm_compute in Hb.
Qed.

Lemma heap_mm_left : frames_left 16 (Paging.frames heap_mm).
Proof.
  exists [5; 6; 7; 8; 9; 10; 11; 12; 13; 14; 15; 18; 19; 20; 21; 22]. split; [apply (bool_decide_unpack _); by vm_compute|].
  split; [done|]. repeat constructor; by vm_compute.
Qed.

Definition heap_bytes : mem8 := Strings.blank 0xC3000000 (Z.to_nat 32768).

(** A heap of which nothing is used yet. *)
Definition fresh_heap (v : Paging.mm Palloc.palloc) (a : Kmalloc.mem_allocator) : Memory.memory :=
  Memory.Mem (Memory.Brk 0xC3000000 v) 0 0 a.

Lemma unused_heap_ok (live : Z → Prop) n (h : Memory.memory (F := Palloc.palloc)) m :
  Kmalloc.good (Memory.allocator h) Kmalloc.no_blocks (seqZ 1 (Kmalloc.NODES - 1)) →
  Memory.heap (Memory.area h) = 0xC3000000 → Memory.lock h = 0 →
  Paging.paging_inv (Memory.vm (Memory.area h)) →
  frames_left (2 * n) (Paging.frames (Memory.vm (Memory.area h))) → (n ≤ 200)%nat →
  (∀ x, 0xC3000000 ≤ x < 0xC3000000 + PAGE_SIZE * Z.of_nat n → is_Some (m !! x)) →
  (∀ x, live x → x < 0xC3000000) → Memory.heap_ok live n h m.
Proof.
  intros Hg Hh Hl Hv Hfr Hn Hm Hlive. exists Kmalloc.no_blocks, (seqZ 1 (Kmalloc.NODES - 1)).
  split; rewrite ?Hh.
  - exact Hg.
  - intros x (l & k & y & _ & Hin & _). by apply not_elem_of_nil in Hin.
  - split; rewrite ?Hh, ?PAGE_SIZE_eq; [done|done|done|done|lia].
  - rewrite length_seqZ. change (Kmalloc.NODES - 1) with 4091. lia.
  - exact Hl.
  - intros x [(l & k & y & _ & Hin & _)|Hx]; [exfalso; by apply not_elem_of_nil in Hin|].
    rewrite Hh in Hx. by apply Hm.
  - intros x Hx. split; [|exact (Hlive x Hx)].
    intros (l & k & y & _ & Hin & _). by apply not_elem_of_nil in Hin.
Qed.

Lemma fresh_heap_ok (live : Z → Prop) v a n m :
  Paging.paging_inv v → frames_left (2 * n) (Paging.frames v) → (n ≤ 200)%nat →
  Kmalloc.good a Kmalloc.no_blocks (seqZ 1 (Kmalloc.NODES - 1)) →
  (∀ x, 0xC3000000 ≤ x < 0xC3000000 + PAGE_SIZE * Z.of_nat n → is_Some (m !! x)) →
  (∀ x, live x → x < 0xC3000000) → Memory.heap_ok live n (fresh_heap v a) m.
Proof. intros Hv Hfr Hn Hg Hm Hlive. by apply unused_heap_ok. Qed.

Definition heap_of : Kmalloc.mem_allocator → Memory.memory := fresh_heap heap_mm.

Lemma heap_of_ok (live : Z → Prop) a n m :
  (n ≤ 8)%nat → Kmalloc.good a Kmalloc.no_blocks (seqZ 1 (Kmalloc.NODES - 1)) →
  (∀ x, 0xC3000000 ≤ x < 0xC3000000 + 32768 → is_Some (m !! x)) →
  (∀ x, live x → x < 0xC3000000) → Memory.heap_ok live n (heap_of a) m.
Proof.
  intros Hn Hg Hm Hlive. apply fresh_heap_ok; [exact heap_mm_inv| |lia|exact Hg| |exact Hlive].
  - apply (frames_left_le 16); [lia|exact heap_mm_left].
  - intros x Hx. apply Hm. rewrite PAGE_SIZE_eq in Hx. lia.
Qed.

Definition start (a : Kmalloc.mem_allocator) : pstate :=
  PState ∅ 0 (heap_of a) heap_bytes ∅ ∅.

Lemma start_ok a n :
  (n ≤ 8)%nat → Kmalloc.good a Kmalloc.no_blocks (seqZ 1 (Kmalloc.NODES - 1)) →
  Memory.heap_ok (λ _, False) n (mem (start a)) (bytes (start a)).
Proof.
  intros Hn Hg. apply heap_of_ok; [exact Hn|exact Hg| |intros x []].
  apply (Strings.blank_writable 0xC3000000 (Z.to_nat 32768)).
Qed.

Lemma proc_create_kernel_slot_witness :
  ∃ a new s', Kmalloc.mem_allocator_init Kmalloc.allocator0 = Ok a ∧
    proc_create_kernel_proc 0x10000 (start a) = Ok (new, s') ∧ table s' = {[0 := new]} ∧ new ≠ 0.
Proof.
  destruct (Kmalloc.mem_allocator_init_good Kmalloc.allocator0) as (a & Ha & Hg).
  destruct (proc_create_kernel_slot 0x10000 (λ _, False) (start a) eq_refl
    (start_ok a 1 ltac:(lia) Hg)) as (i & new & s' & Hs & (Hi & Hbelow & _) & Ht & Hne & _).
  exists a, new, s'. split; [exact Ha|]. split; [exact Hs|]. split; [|exact Hne].
  rewrite Ht. destruct (decide (0 < i)) as [Hp|Hp].
  - exfalso. apply (Hbelow 0); [lia|reflexivity].
  - replace i with 0 by lia. reflexivity.
Defined.

Lemma thread_create_starts_witness :
  ∃ a new s' th, Kmalloc.mem_allocator_init Kmalloc.allocator0 = Ok a ∧
    thread_create 0x10000 0xC0101000 0 0xC0100000 Interrupts.THREAD_KERNEL (start a) = Ok (new, s') ∧
    threads s' !! new = Some th ∧ eip th = 0xC0101000.
Proof.
  destruct (Kmalloc.mem_allocator_init_good Kmalloc.allocator0) as (a & Ha & Hg).
  destruct (thread_create_starts 0x10000 0xC0101000 (λ _, False) 0 0xC0100000 (start a)
    (start_ok a 3 ltac:(lia) Hg)) as (new & s' & th & Hs & Hth & He & _).
  - split; [discriminate|reflexivity].
  - exists a, new, s', th. split; [exact Ha|]. split; [exact Hs|]. by split.
Defined.

(** Two nameless processes, in slots 1 and 2, and a string at [0x500]. *)
Definition blank_proc (i : Z) : process := Proc i section0 section0 section0 section0 0 ∅ ∅.

Definition two_procs (str : list Z) : pstate (F := Palloc.palloc) :=
  PState {[1 := 0x1000; 2 := 0x2000]} 0 (heap_of Kmalloc.allocator0)
    (Strings.with_str 0x500 str ∅) {[0x1000 := blank_proc 1; 0x2000 := blank_proc 2]} ∅.

Definition long_name : list Z := replicate 70 65.

Lemma long_name_at : Strings.cstr (bytes (two_procs long_name)) 0x500 long_name.
Proof. apply Strings.with_str_cstr. by repeat (constructor; [split; reflexivity|]). Qed.

Lemma proc_register_names_witness :
  ∃ pr', proc_register 0x1000 0x500 (two_procs long_name) =
      Ok (0, set_procs (<[0x1000 := pr']> (procs (two_procs long_name))) (two_procs long_name)) ∧
    Stream.input (behind pr') = 65.
Proof.
  destruct (proc_register_names (two_procs long_name) 0x1000 (blank_proc 1) 0x500 long_name)
    as (pr' & Hm & _ & _ & Hcase).
  - reflexivity.
  - exact long_name_at.
  - left. reflexivity.
  - exists pr'. split; [exact Hm|]. destruct Hcase as [_ Hin].
    change ((long_name ++ [0]) !! 64%nat) with (Some 65) in Hin. injection Hin as Hin.
    change (behind (blank_proc 1)) with Stream.null_ios in Hin.
    change (Stream.input Stream.null_ios) with 0 in Hin. rewrite Zmod_0_l in Hin. lia.
Defined.

Definition short_name : list Z := [115; 110; 97; 107; 101].

Lemma short_name_at : Strings.cstr (bytes (two_procs short_name)) 0x500 short_name.
Proof. apply Strings.with_str_cstr. by repeat (constructor; [split; reflexivity|]). Qed.

Lemma blank_named i : named (blank_proc i) [].
Proof. split; [by constructor|]. split; [done|]. split; [intros j c Hj; discriminate Hj|done]. Qed.

Lemma two_procs_slot str i :
  arr 0 (table (two_procs str)) i ≠ 0 →
  (i = 1 ∧ arr 0 (table (two_procs str)) i = 0x1000) ∨
  (i = 2 ∧ arr 0 (table (two_procs str)) i = 0x2000).
Proof.
  unfold two_procs. cbn [table]. rewrite arr_insert. case_decide; [by left|].
  unfold arr. rewrite lookup_singleton. case_decide; [by right|done].
Qed.

Lemma two_procs_ok : names_ok (two_procs short_name) 0x500 short_name.
Proof.
  intros i Hi Hne. destruct (two_procs_slot _ _ Hne) as [[-> Heq]|[-> Heq]].
  - split; [|left; rewrite Heq; reflexivity]. exists []. split; [done|].
    exists (blank_proc 1). split; [done|apply blank_named].
  - split; [|left; rewrite Heq; reflexivity]. exists []. split; [done|].
    exists (blank_proc 2). split; [done|apply blank_named].
Qed.

Lemma register_then_find_witness :
  ∃ s' j, proc_register 0x2000 0x500 (two_procs short_name) = Ok (0, s') ∧
    proc_get_by_name 8 0x500 s' = Ok (arr 0 (table (two_procs short_name)) j) ∧ 1 ≤ j ≤ 2.
Proof.
  destruct (register_then_find (two_procs short_name) 2 (blank_proc 2) 0x500 0x500 short_name 8)
    as (s' & j & H1 & H2 & H3 & _).
  - split; [discriminate|reflexivity].
  - discriminate.
  - reflexivity.
  - exact short_name_at.
  - exact short_name_at.
  - exact two_procs_ok.
  - exact two_procs_ok.
  - simpl. lia.
  - simpl. lia.
  - exists s', j. split; [exact H1|]. split; [exact H2|exact H3].
Defined.

End Process.
