(* ===== verification/System.v ===== *)
(** The state of the running kernel (the globals of kernel/scheduler.c,
    process.c, memory.c, interrupts.c, drivers.c and screen.c together).

    [sys] joins the states of the components.  The threads, processes and
    streams are those of the scheduler's state; the operations of Process.v
    run on a view of it ([on_process]) in which the page tables are used
    through the directory the processor has loaded.  [bytes] is memory as
    that processor sees it.  [new_element] takes the element that [list_push]
    asks for from the kernel's heap, for [sched_thread_ready] and for a thread
    that yields. *)

From Stdlib Require Import ZArith Lia.
From stdpp Require Import base option list gmap.
From S2P Require Import Prelude Interfaces Locks Palloc Strings Paging Stream Timer Thread Scheduler.
From S2P Require Import Kmalloc Memory Screen Interrupts Process.

Module System.
Import Thread.

Notation mem8 := Strings.mem8.

Section Sys.
Context {F : Type} `{FrameAlloc F} {M : Type} `{QueueStore (Z * Z) M}.

Record sys := Sys {
  sched : Scheduler.kstate M; table : gmap Z Z; plock : Z;
  mem : Memory.memory (F := F); bytes : mem8; ints : Interrupts.state;
  handlers : gmap Z Z; console : Screen.screen
}.

Definition set_sched (k : Scheduler.kstate M) (st : sys) : sys :=
  Sys k (table st) (plock st) (mem st) (bytes st) (ints st) (handlers st) (console st).
Definition set_memory (h : Memory.memory (F := F)) (m : mem8) (st : sys) : sys :=
  Sys (sched st) (table st) (plock st) h m (ints st) (handlers st) (console st).
Definition set_ints (i : Interrupts.state) (st : sys) : sys :=
  Sys (sched st) (table st) (plock st) (mem st) (bytes st) i (handlers st) (console st).
Definition set_handlers (h : gmap Z Z) (st : sys) : sys :=
  Sys (sched st) (table st) (plock st) (mem st) (bytes st) (ints st) h (console st).
Definition set_console (s : Screen.screen) (st : sys) : sys :=
  Sys (sched st) (table st) (plock st) (mem st) (bytes st) (ints st) (handlers st) s.

Definition set_world (w : world) (st : sys) : sys :=
  let k := sched st in
  set_sched (Scheduler.KState (Scheduler.scheds k) (Scheduler.queues k) (Scheduler.threads k)
    (Scheduler.cpus k) w) st.

Definition world_of (st : sys) : world := Scheduler.wld (sched st).
Definition streams_of (st : sys) : gmap Z Stream.stream := streams (world_of st).
Definition procs_of (st : sys) : gmap Z process := procs (world_of st).
Definition threads_of (st : sys) : gmap Z thread := Scheduler.threads (sched st).

Definition set_stream (p : Z) (s : Stream.stream) (st : sys) : sys :=
  let w := world_of st in
  set_world (World (ticks w) (<[p := s]> (streams w)) (procs w)) st.
Definition set_process (p : Z) (pr : process) (st : sys) : sys :=
  let w := world_of st in
  set_world (World (ticks w) (streams w) (<[p := pr]> (procs w))) st.
Definition set_thread (t : Z) (th : thread) (st : sys) : sys :=
  set_sched (Scheduler.set_threads (<[t := th]> (threads_of st)) (sched st)) st.

Definition get_process (p : Z) (st : sys) : res process := get_proc p (world_of st).
Definition get_stream (p : Z) (st : sys) : res Stream.stream :=
  Stream.get_stream (streams_of st) p.

(** ** The processor's page directory *)

(** The page tables as processor [c] uses them. *)
Definition vm_on (c : Z) (st : sys) : Paging.mm F :=
  Paging.page_dir_switch (Scheduler.c_pdir (Scheduler.cpu_of c (sched st)))
    (Memory.vm (Memory.area (mem st))).

(** [h] with the page tables [v]. *)
Definition with_vm (v : Paging.mm F) (h : Memory.memory (F := F)) : Memory.memory (F := F) :=
  Memory.Mem (Memory.Brk (Memory.heap (Memory.area h)) v) (Memory.lock h) (Memory.stats h)
    (Memory.allocator h).

(** The directory that processor [c] has loaded. *)
Definition load_dir (c dir : Z) (st : sys) : res sys :=
  let k := sched st in
  let p := Scheduler.cpu_of c k in
  cs ← aset MAX_CPU (Scheduler.cpus k) c
         (Scheduler.Cpu (Scheduler.c_esp p) (Scheduler.c_eip p) dir (Scheduler.c_esp0 p));
  Ok (set_sched (Scheduler.set_cpus cs k) st).

(** Processor [c] runs paging code. *)
Definition on_vm (c : Z) (f : Paging.mm F → res (Paging.mm F)) (st : sys) : res sys :=
  v ← f (vm_on c st);
  st ← load_dir c (Paging.cr3 v) st;
  Ok (set_memory (with_vm v (mem st)) (bytes st) st).

(** Processor [c] runs code of process.c or thread.c. *)
Definition process_view (c : Z) (st : sys) : Process.pstate (F := F) :=
  Process.PState (table st) (plock st) (with_vm (vm_on c st) (mem st)) (bytes st)
    (procs_of st) (threads_of st).

Definition process_back (c : Z) (ps : Process.pstate (F := F)) (st : sys) : res sys :=
  st ← load_dir c (Paging.cr3 (Process.vm_of ps)) st;
  let w := world_of st in
  let k := Scheduler.KState (Scheduler.scheds (sched st)) (Scheduler.queues (sched st))
    (Process.threads ps) (Scheduler.cpus (sched st))
    (World (ticks w) (streams w) (Process.procs ps)) in
  Ok (Sys k (Process.table ps) (Process.plock ps) (Process.mem ps) (Process.bytes ps) (ints st)
        (handlers st) (console st)).

Definition on_process {A} (c : Z) (f : Process.pstate (F := F) → res (A * Process.pstate (F := F)))
    (st : sys) : res (A * sys) :=
  '(a, ps) ← f (process_view c st);
  st ← process_back c ps st; Ok (a, st).

(** ** List elements on the heap *)

(** [sizeof(struct list_elem)] *)
Definition ELEM_SIZE : Z := 8.

(** The element with which [list_push] on the queue [k] goes on: a spare one of
    the queue, or a new object on the kernel's heap.  After it the push itself
    asks for no object ([KList.list_push_given]). *)
Definition new_element (c : Z) (k : Z * Z) (st : sys) : res sys :=
  if qspare k (Scheduler.queues (sched st)) then Ok st else
  '(elem, st) ← on_process c (Process.NEW ELEM_SIZE) st;
  m ← qgive k elem (Scheduler.queues (sched st));
  Ok (set_sched (Scheduler.set_queues m (sched st)) st).

(** [sched_thread_ready] with its buffer at [buf] and the format of its message at
    [fmt]; [target] is the index [id] of the scheduler found. *)
Definition sched_thread_ready (fuel : nat) (fmt buf c thread : Z) (st : sys) : res sys :=
  let target := Scheduler.scheduler_find (sched st) in
  '(s, m) ← Strings.kprintf fuel (bytes st) buf fmt [thread; target];
  sc ← Screen.screen_putstr fuel m s (console st);
  let st := set_console sc (set_memory (mem st) m st) in
  th ← Scheduler.get_thread thread (sched st);
  st ← new_element c (target, priority th) st;
  k ← Scheduler.thread_push target thread (sched st);
  Ok (set_sched k st).

(** ** Streams on the heap *)

(** [sizeof(struct stream)] *)
Definition STREAM_SIZE : Z := 4 + Stream.STREAM_BUF_LEN.

Definition stream_new (c : Z) (st : sys) : res (Z * sys) :=
  '(p, st) ← on_process c (Process.NEW STREAM_SIZE) st;
  Ok (p, set_stream p Stream.stream_new st).

(** [iostream_attach(&proc->iodescr, input, output)] *)
Definition attach (proc inp out : Z) (st : sys) : res (Z * sys) :=
  pr ← get_process proc st;
  '(r, d) ← Stream.iostream_attach (iodescr pr) inp out;
  Ok (r, set_process proc (Proc (pid pr) (text pr) (data pr) (bss pr) (rodata pr) (pdir pr)
                             (name pr) d) st).

(** ** Reading and writing streams from a thread *)

(** A thread that has to wait inside a system call: where it goes on. *)
Inductive wait :=
| ToSleep
| ToSelect
| ToRead (this buf : Z) (len : nat)
| ToWrite (this buf : Z) (len : nat).

(** [stream_write] until the stream is full: the stream, where in the buffer
    it stopped, and the bytes left. *)
Fixpoint write_upto (len : nat) (buf : Z) (m : mem8) (s : Stream.stream)
    : res (Stream.stream * Z * nat) :=
  match len with
  | O => Ok (s, buf, O)
  | S n =>
      if Stream.stream_write_length s =? 0 then Ok (s, buf, len) else
      b ← Strings.load8 buf m;
      write_upto n (buf + 1) m (Stream.advance_write (Stream.store_byte b s))
  end.

Fixpoint read_upto (len : nat) (buf : Z) (m : mem8) (s : Stream.stream)
    : res (Stream.stream * mem8 * Z * nat) :=
  match len with
  | O => Ok (s, m, buf, O)
  | S n =>
      if Stream.stream_read_length s =? 0 then Ok (s, m, buf, len) else
      let s := Stream.advance_read s in
      m ← Strings.store8 buf (Stream.load_byte s) m;
      read_upto n (buf + 1) m s
  end.

Section Waiting.
Context (resume : Z) (fuel : nat).

(** The element with which [sched_tick] puts the current thread back: the idle
    thread is in no queue. *)
Definition put_back_element (c : Z) (st : sys) : res sys :=
  this ← Scheduler.get_sched c (sched st);
  let cur := Scheduler.current_thread this in
  if bool_decide (cur = Scheduler.idle_thread this) then Ok st else
  th ← Scheduler.get_thread cur (sched st);
  new_element c (c, priority th) st.

Definition sched_yield (c : Z) (st : sys) : res sys :=
  st ← put_back_element c st;
  '(k, i) ← Scheduler.sched_yield resume fuel c (sched st) (ints st);
  Ok (set_ints i (set_sched k st)).

(** The loop of [sched_thread_wait], as in Scheduler.v. *)
Definition wait_loop (c th : Z) (st : sys) : res (bool * sys) :=
  t ← Scheduler.get_thread th (sched st);
  ok ← ready (world_of st) t;
  if (ok : bool) then Ok (true, set_thread th (set_event NoEvent t) st)
  else st ← sched_yield c st; Ok (false, st).

Definition sched_thread_wait (c th : Z) (ev : thread_event) (st : sys) : res (bool * sys) :=
  t ← Scheduler.get_thread th (sched st);
  wait_loop c th (set_thread th (set_event ev t) st).

Definition sched_thread_sleep (c n : Z) (st : sys) : res (bool * sys) :=
  cur ← Scheduler.sched_cur_thread c (sched st);
  t ← Scheduler.get_thread cur (sched st);
  let t := set_wait_timer (Timer.sleep_deadline (ticks (world_of st)) n) t in
  sched_thread_wait c cur TimerEvent (set_thread cur t st).

(** [cur->descr = this; sched_thread_wait(cur, event);] *)
Definition wait_on (c this : Z) (ev : thread_event) (st : sys) : res (bool * sys) :=
  cur ← Scheduler.sched_cur_thread c (sched st);
  th ← Scheduler.get_thread cur (sched st);
  let st := set_thread cur (set_descr this th) st in
  sched_thread_wait c cur ev st.

Definition stream_write (c this buf : Z) (len : nat) (st : sys) : res (option wait * sys) :=
  match len with
  | O => Ok (None, st)
  | _ =>
      s ← get_stream this st;
      '(s, buf, todo) ← write_upto len buf (bytes st) s;
      let st := set_stream this s st in
      match todo with
      | O => Ok (None, st)
      | _ => '(_, st) ← wait_on c this WriteEvent st; Ok (Some (ToWrite this buf todo), st)
      end
  end.

Definition stream_read (c this buf : Z) (len : nat) (st : sys) : res (option wait * sys) :=
  match len with
  | O => Ok (None, st)
  | _ =>
      s ← get_stream this st;
      '(s, m, buf, todo) ← read_upto len buf (bytes st) s;
      let st := set_memory (mem st) m (set_stream this s st) in
      match todo with
      | O => Ok (None, st)
      | _ => '(_, st) ← wait_on c this ReadEvent st; Ok (Some (ToRead this buf todo), st)
      end
  end.

(** The thread that waits is switched to: [sched_thread_wait] tests its event
    again. *)
Definition wait_again (c : Z) (st : sys) : res (bool * sys) :=
  cur ← Scheduler.sched_cur_thread c (sched st);
  wait_loop c cur st.

End Waiting.
End Sys.

(** ** Buffers *)

(** [write_upto] writes what [Stream.stream_write] does. *)
Lemma write_upto_eq data : ∀ buf m s,
  Strings.bytes_at m buf data →
  let r := Stream.stream_write data s in
  write_upto (length data) buf m s =
    Ok (fst r, buf + Z.of_nat (length data - length (snd r)), length (snd r)).
Proof.
  induction data as [|b data IH]; intros buf m s Hb; cbn [write_upto Stream.stream_write length].
  - cbn [fst snd length]. do 3 f_equal. lia.
  - destruct Hb as [Hb Hr]. destruct (Stream.stream_write_length s =? 0).
    + cbn [fst snd length]. rewrite Nat.sub_diag. do 3 f_equal. lia.
    + rewrite (Strings.load8_Some _ _ _ Hb). cbn [mbind res_bind]. rewrite IH by done.
      set (r := Stream.stream_write data _).
      assert (Hle : (length (snd r) ≤ length data)%nat).
      { unfold r. clear. generalize (Stream.advance_write (Stream.store_byte b s)).
        induction data as [|d data IH]; intros t; cbn [Stream.stream_write]; [done|].
        case_match; [done|]. cbn [length]. etransitivity; [apply IH|]. lia. }
      cbv zeta. do 3 f_equal. lia.
Qed.

Lemma stream_read_todo n : ∀ s,
  let '(bs, _, todo) := Stream.stream_read n s in (length bs + todo = n)%nat.
Proof.
  induction n as [|n IH]; intros s; cbn [Stream.stream_read]; [done|].
  destruct (Stream.stream_read_length s =? 0); [done|].
  specialize (IH (Stream.advance_read s)).
  destruct (Stream.stream_read n (Stream.advance_read s)) as [[bs s'] todo]. simpl. lia.
Qed.

(** [read_upto] puts the bytes that [Stream.stream_read] returns in the buffer. *)
Lemma read_upto_eq n : ∀ buf m s,
  Strings.writable m buf (Z.of_nat n) →
  let '(bs, s', todo) := Stream.stream_read n s in
  ∃ m', read_upto n buf m s = Ok (s', m', buf + Z.of_nat (length bs), todo) ∧
    Strings.bytes_at m' buf (u8 <$> bs) ∧
    Strings.changed buf (Z.of_nat (length bs)) m m'.
Proof.
  induction n as [|n IH]; intros buf m s Hw; cbn [read_upto Stream.stream_read].
  { exists m. split; [cbn [length]; do 3 f_equal; lia|]. split; [done|apply Strings.changed_refl]. }
  destruct (Stream.stream_read_length s =? 0).
  { exists m. split; [cbn [length]; do 3 f_equal; lia|]. split; [done|apply Strings.changed_refl]. }
  set (s1 := Stream.advance_read s). set (b := Stream.load_byte s1).
  assert (Hb : is_Some (m !! buf)) by (apply Hw; lia).
  specialize (IH (buf + 1) (<[buf := u8 b]> m) s1).
  destruct (Stream.stream_read n s1) as [[bs s'] todo].
  destruct IH as (m' & Heq & Hbs & Hc).
  { eapply Strings.writable_changed; [by apply Strings.changed_insert|].
    eapply Strings.writable_sub; [exact Hw|lia|lia]. }
  exists m'. rewrite Strings.store8_Some by done. cbn [mbind res_bind length].
  split; [rewrite Heq; do 3 f_equal; lia|]. split.
  - change (u8 <$> b :: bs) with (u8 b :: (u8 <$> bs)). cbn [Strings.bytes_at]. split; [|done].
    rewrite (proj1 Hc) by lia. by rewrite lookup_insert_eq.
  - eapply Strings.changed_trans;
      (eapply Strings.changed_widen; [first [exact Hc|by apply Strings.changed_insert]|lia|lia]).
Qed.

(** ** The views *)

Section Views.
Context {F : Type} `{FrameAlloc F} {M : Type}.
Notation sys := (sys (F := F) (M := M)).

(** The heap as processor [c] uses it. *)
Definition heap_on (c : Z) (live : Z → Prop) (n : nat) (st : sys) : Prop :=
  Memory.heap_ok live n (with_vm (vm_on c st) (mem st)) (bytes st).

Lemma load_dir_ok c dir (st : sys) :
  0 ≤ c < MAX_CPU → ∃ k, load_dir c dir st = Ok (set_sched k st) ∧
    Scheduler.cpu_of c k =
      (let p := Scheduler.cpu_of c (sched st) in
       Scheduler.Cpu (Scheduler.c_esp p) (Scheduler.c_eip p) dir (Scheduler.c_esp0 p)) ∧
    Scheduler.scheds k = Scheduler.scheds (sched st) ∧
    Scheduler.queues k = Scheduler.queues (sched st) ∧
    Scheduler.threads k = Scheduler.threads (sched st) ∧
    Scheduler.wld k = Scheduler.wld (sched st).
Proof.
  intros Hc. unfold load_dir. rewrite aset_in by done. cbn [mbind res_bind].
  eexists. split; [reflexivity|]. split; [|done].
  unfold Scheduler.cpu_of, Scheduler.set_cpus. cbn [Scheduler.cpus]. by rewrite arr_insert_eq.
Qed.

Lemma switch_same (v : Paging.mm F) : Paging.page_dir_switch (Paging.cr3 v) v = v.
Proof. by destruct v. Qed.

(** What a run of process.c leaves of the rest of the kernel. *)
Record same_kernel (st st' : sys) : Prop := {
  sk_scheds : Scheduler.scheds (sched st') = Scheduler.scheds (sched st);
  sk_queues : Scheduler.queues (sched st') = Scheduler.queues (sched st);
  sk_ticks : ticks (world_of st') = ticks (world_of st);
  sk_ints : ints st' = ints st;
  sk_handlers : handlers st' = handlers st;
  sk_console : console st' = console st
}.

Lemma same_kernel_trans st1 st2 st3 :
  same_kernel st1 st2 → same_kernel st2 st3 → same_kernel st1 st3.
Proof. intros [] []. split; congruence. Qed.

Lemma process_back_ok c ps (st : sys) :
  0 ≤ c < MAX_CPU →
  ∃ st', process_back c ps st = Ok st' ∧ process_view c st' = ps ∧ same_kernel st st' ∧
    streams_of st' = streams_of st.
Proof.
  intros Hc. unfold process_back.
  destruct (load_dir_ok c (Paging.cr3 (Process.vm_of ps)) st Hc)
    as (k & Hk & Hcpu & Hs & Hq & Ht & Hw).
  rewrite (bind_ok _ _ _ Hk). cbv zeta. eexists. split; [reflexivity|].
  split; [|split; [split|]]; try done;
    cbn [sched set_sched world_of Scheduler.scheds Scheduler.queues Scheduler.wld ticks streams];
    try done; try (unfold world_of; cbn; by rewrite Hw).
  - destruct ps as [t l h m p th]. unfold process_view, vm_on, with_vm.
    cbn [sched set_sched mem bytes table plock Scheduler.cpu_of Scheduler.cpus].
    unfold Scheduler.cpu_of in *. cbn [Scheduler.cpus]. rewrite Hcpu. cbn [Scheduler.c_pdir].
    unfold Process.vm_of. cbn [Process.mem]. destruct h as [[hp v] lk stt al].
    cbn [Memory.area Memory.vm Memory.heap Memory.lock Memory.stats Memory.allocator
      Process.table Process.plock Process.bytes].
    by rewrite switch_same.
Qed.

Lemma on_process_ok {A} c (f : Process.pstate (F := F) → res (A * Process.pstate (F := F))) a ps
    (st : sys) :
  0 ≤ c < MAX_CPU → f (process_view c st) = Ok (a, ps) →
  ∃ st', on_process c f st = Ok (a, st') ∧ process_view c st' = ps ∧ same_kernel st st' ∧
    streams_of st' = streams_of st.
Proof.
  intros Hc Hf. destruct (process_back_ok c ps st Hc) as (st' & Hb & Hrest).
  exists st'. split; [|done]. unfold on_process. rewrite (bind_ok _ _ _ Hf).
  by rewrite (bind_ok _ _ _ Hb).
Qed.

(** The directory each processor has loaded afterwards. *)
Lemma on_process_dirs {A} c (f : Process.pstate (F := F) → res (A * Process.pstate (F := F))) a ps
    (st st' : sys) :
  0 ≤ c < MAX_CPU → f (process_view c st) = Ok (a, ps) → on_process c f st = Ok (a, st') →
  ∀ c', Scheduler.c_pdir (Scheduler.cpu_of c' (sched st')) =
    if decide (c' = c) then Paging.cr3 (Process.vm_of ps)
    else Scheduler.c_pdir (Scheduler.cpu_of c' (sched st)).
Proof.
  intros Hc Hf Ho c'. unfold on_process in Ho. rewrite (bind_ok _ _ _ Hf) in Ho.
  unfold process_back, load_dir in Ho. rewrite aset_in in Ho by done.
  cbn [mbind res_bind] in Ho. injection Ho as <-. unfold Scheduler.cpu_of.
  cbn [sched set_sched Scheduler.set_cpus Scheduler.cpus]. rewrite arr_insert.
  destruct (decide (c = c')) as [->|Hne]; [by rewrite decide_True|by rewrite decide_False].
Qed.

Lemma stream_new_ok c live n (st : sys) :
  0 ≤ c < MAX_CPU → heap_on c live (S n) st →
  ∃ p st', stream_new c st = Ok (p, st') ∧ p ≠ 0 ∧
    (∀ a, p ≤ a < p + STREAM_SIZE → ¬ live a) ∧
    heap_on c (λ a, live a ∨ p ≤ a < p + STREAM_SIZE) n st' ∧ same_kernel st st' ∧
    streams_of st' = <[p := Stream.stream_new]> (streams_of st) ∧
    procs_of st' = procs_of st ∧ threads_of st' = threads_of st ∧ table st' = table st ∧
    (∀ a, ¬ (p ≤ a < p + STREAM_SIZE) → bytes st' !! a = bytes st !! a).
Proof.
  intros Hc Hh.
  destruct (Process.NEW_state live n STREAM_SIZE (process_view c st)) as (p & h & m & Hn & Hb & Hh');
    [split; [discriminate|by rewrite PAGE_SIZE_eq]|exact Hh|].
  destruct (on_process_ok c _ _ _ st Hc Hn) as (st' & Ho & Hv & Hk & Hs).
  exists p, (set_stream p Stream.stream_new st').
  assert (Hfields : procs_of st' = procs_of st ∧ threads_of st' = threads_of st ∧
    table st' = table st ∧ bytes st' = m).
  { pose proof (f_equal Process.procs Hv). pose proof (f_equal Process.threads Hv).
    pose proof (f_equal Process.table Hv). by pose proof (f_equal Process.bytes Hv). }
  destruct Hfields as (Hp & Ht & Htab & Hm). destruct Hb as [Hp0 _ _ _ Hsame Hfresh].
  split; [|split; [lia|split; [exact Hfresh|split; [|split; [|split; [|split; [|split; [|split]]]]]]]].
  - unfold stream_new. by rewrite (bind_ok _ _ _ Ho).
  - pose proof (f_equal Process.mem Hv) as Hmem. cbn [Process.mem Process.set_mem process_view] in Hmem.
    unfold heap_on. change (vm_on c (set_stream p Stream.stream_new st')) with (vm_on c st').
    change (mem (set_stream p Stream.stream_new st')) with (mem st').
    change (bytes (set_stream p Stream.stream_new st')) with (bytes st').
    rewrite Hmem, Hm. exact Hh'.
  - destruct Hk. by split.
  - rewrite <- Hs. reflexivity.
  - exact Hp.
  - exact Ht.
  - exact Htab.
  - intros a Ha. change (bytes st' !! a = bytes st !! a). rewrite Hm. by apply Hsame.
Qed.

(** ** Descriptors *)

Definition with_iodescr (d : gmap Z Stream.iostream) (pr : process) : process :=
  Proc (pid pr) (text pr) (data pr) (bss pr) (rodata pr) (pdir pr) (name pr) d.

(** Every descriptor is in use. *)
Definition descr_full (d : gmap Z Stream.iostream) : Prop :=
  ∀ j, 0 ≤ j < Stream.MAX_DESCRIPTORS → Stream.input (arr Stream.null_ios d j) ≠ 0.

Lemma attach_ok proc pr inp out (st : sys) :
  procs_of st !! proc = Some pr →
  (∃ i, Stream.first_free (iodescr pr) i ∧
     attach proc inp out st =
       Ok (i, set_process proc (with_iodescr (<[i := Stream.IOS inp out]> (iodescr pr)) pr) st)) ∨
  (descr_full (iodescr pr) ∧
     attach proc inp out st = Ok (-1, set_process proc (with_iodescr (iodescr pr) pr) st)).
Proof.
  intros Hp. unfold attach, get_process, get_proc. unfold procs_of in Hp. rewrite Hp.
  cbn [mbind res_bind].
  destruct (Stream.attach_from_ok (iodescr pr) inp out (Z.to_nat Stream.MAX_DESCRIPTORS) 0)
    as [(i & Hi & Ha)|[Hf Ha]]; [done|done|lia| |]; [left; exists i|right]; (split; [done|]);
    unfold Stream.iostream_attach; by rewrite (bind_ok _ _ _ Ha).
Qed.

(** The descriptor table [d'] is [d] with [IOS inp out] at its first free place,
    which is [r]; a full table stays as it is, and [r] is -1. *)
Definition attaches (d : gmap Z Stream.iostream) (inp out r : Z) (d' : gmap Z Stream.iostream)
    : Prop :=
  (Stream.first_free d r ∧ d' = <[r := Stream.IOS inp out]> d) ∨
  (descr_full d ∧ r = -1 ∧ d' = d).

Lemma attach_run proc pr inp out (st : sys) :
  procs_of st !! proc = Some pr →
  ∃ r d, attach proc inp out st = Ok (r, set_process proc (with_iodescr d pr) st) ∧
    attaches (iodescr pr) inp out r d.
Proof.
  intros Hp. destruct (attach_ok proc pr inp out st Hp) as [(i & Hi & Ha)|[Hf Ha]].
  - exists i, (<[i := Stream.IOS inp out]> (iodescr pr)). split; [done|]. by left.
  - exists (-1), (iodescr pr). split; [done|]. by right.
Qed.

Lemma procs_set_process p pr (st : sys) : procs_of (set_process p pr st) = <[p := pr]> (procs_of st).
Proof. done. Qed.

Lemma with_iodescr_same pr : with_iodescr (iodescr pr) pr = pr.
Proof. by destruct pr. Qed.

End Views.
(** With an element at hand for the current thread, waiting is what the
    scheduler does. *)
Lemma sched_thread_wait_spare `{FrameAlloc F} `{QueueStore (Z * Z) M} resume fuel c ev th
    (st : sys (F := F) (M := M)) :
  let cur := Scheduler.current_thread (Scheduler.this c (sched st)) in
  0 ≤ c < MAX_CPU → threads_of st !! cur = Some th →
  qspare (c, priority th) (Scheduler.queues (sched st)) = true →
  sched_thread_wait resume fuel c cur ev st =
    ('(ok, k, i) ← Scheduler.sched_thread_wait resume fuel c cur ev (sched st) (ints st);
     Ok (ok, set_ints i (set_sched k st))).
Proof.
  intros cur Hc Hth Hsp. unfold sched_thread_wait, Scheduler.sched_thread_wait.
  rewrite (Scheduler.get_thread_Some cur th) by done. cbn [mbind res_bind].
  unfold wait_loop, Scheduler.wait_loop.
  rewrite !(Scheduler.get_thread_Some cur (set_event ev th)) by (simpl; by rewrite lookup_insert_eq).
  cbn [mbind res_bind]. change (world_of (set_thread cur _ st)) with (Scheduler.wld (sched st)).
  cbn [Scheduler.wld Scheduler.set_threads].
  destruct (ready (Scheduler.wld (sched st)) _) as [[|]| |]; cbn [mbind res_bind]; [by destruct st| |done|done].
  assert (Hp : put_back_element c (set_thread cur (set_event ev th) st) = Ok (set_thread cur (set_event ev th) st)).
  { unfold put_back_element. rewrite Scheduler.get_sched_in by done. cbn [mbind res_bind].
    change (Scheduler.this c _) with (Scheduler.this c (sched st)). fold cur. case_bool_decide; [done|].
    rewrite (Scheduler.get_thread_Some cur (set_event ev th)) by (simpl; by rewrite lookup_insert_eq).
    cbn [mbind res_bind]. unfold new_element. by cbn; rewrite Hsp. }
  unfold sched_yield. rewrite Hp. cbn [mbind res_bind]. unfold Scheduler.sched_yield.
  change (sched (set_thread cur (set_event ev th) st)) with
    (Scheduler.set_threads (<[cur:=set_event ev th]> (Scheduler.threads (sched st))) (sched st)).
  by destruct (Scheduler.sched_tick _ _ _ _).
Qed.

(** ** A concrete kernel *)

(** A thread of the first of two processes runs on processor 0; there is a
    string at [0x500] and a buffer of 64 bytes at [0x600]. *)
Definition demo_bytes (str : list Z) : mem8 :=
  Strings.with_str 0x500 str (Strings.with_str 0x600 (replicate 64 1) Process.heap_bytes).

Definition demo_sched : Scheduler.kstate Scheduler.lists :=
  Scheduler.KState {[0 := Scheduler.Sched 100 50 0 0 1]} Scheduler.no_lists
    {[50 := Thr 0x1000 0 0 0 0 0 0 0 NoEvent]} {[0 := Scheduler.Cpu 0 0 0x10000 0]}
    (World 10 ∅ {[0x1000 := Process.blank_proc 1; 0x2000 := Process.blank_proc 2]}).

Definition demo (a : Kmalloc.mem_allocator) (str : list Z)
    : sys (F := Palloc.palloc) (M := Scheduler.lists) :=
  Sys demo_sched {[1 := 0x2000; 2 := 0x1000]} 0 (Process.heap_of a) (demo_bytes str)
    Interrupts.state0 ∅ Screen.screen0.

(** The bytes below the heap that are in use. *)
Definition low (a : Z) : Prop := 0x500 ≤ a < 0x700.

Lemma demo_heap_bytes str :
  (length str < 200)%nat → Strings.writable (demo_bytes str) 0xC3000000 32768.
Proof.
  intros Hl x Hx. unfold demo_bytes. rewrite (Strings.with_str_changed 0x500 str) by lia.
  rewrite (Strings.with_str_changed 0x600 (replicate 64 1)) by (rewrite length_replicate; lia).
  exact (Strings.blank_writable 0xC3000000 (Z.to_nat 32768) x Hx).
Qed.

Lemma demo_heap a str n :
  (n ≤ 3)%nat → Kmalloc.good a Kmalloc.no_blocks (seqZ 1 (Kmalloc.NODES - 1)) →
  (length str < 200)%nat → heap_on 0 low n (demo a str).
Proof.
  intros Hn Hg Hl. unfold heap_on.
  change (with_vm (vm_on 0 (demo a str)) (mem (demo a str))) with (Process.heap_of a).
  apply Process.heap_of_ok; [lia|exact Hg| |].
  - exact (demo_heap_bytes str Hl).
  - unfold low. intros x Hx. lia.
Qed.

Lemma demo_buffer a str :
  (length str < 200)%nat → Strings.writable (bytes (demo a str)) 0x600 64.
Proof.
  intros Hl x Hx. change (is_Some (demo_bytes str !! x)). unfold demo_bytes.
  rewrite (Strings.with_str_changed 0x500 str) by lia. exists 1.
  assert (Hc : Strings.cstr (Strings.with_str 0x600 (replicate 64 1) Process.heap_bytes) 0x600
    (replicate 64 1)) by (apply Strings.with_str_cstr, Forall_replicate; done).
  apply Strings.cstr_bytes in Hc as (Hb & _ & _).
  pose proof (Process.bytes_at_lookup _ _ _ (Z.to_nat (x - 0x600)) 1 Hb) as Hlk.
  replace x with (0x600 + Z.of_nat (Z.to_nat (x - 0x600))) by lia. apply Hlk.
  apply lookup_replicate. lia.
Qed.

End System.
