(* ===== verification/Drivers.v ===== *)
(** Interrupts delivered to processes (kernel/drivers.c).

    [handlers] is the array of stream pointers; a process that registers for
    an interrupt number reads one byte from its stream for each interrupt. *)

From Stdlib Require Import ZArith Lia.
From stdpp Require Import base option list gmap.
From S2P Require Import Prelude Interfaces Locks Palloc Strings Paging Stream Timer Thread Scheduler.
From S2P Require Import Kmalloc Memory Screen Interrupts Process System.

Module Drivers.
Import Thread Interrupts System.

Section Drivers.
Context {F : Type} `{FrameAlloc F} {M : Type} `{QueueStore (Z * Z) M} (resume : Z) (fuel : nat).
Notation sys := (sys (F := F) (M := M)).

Definition drivers_init (st : sys) : res sys :=
  h ← for_upto 256 (λ i h, aset 256 h i 0) (handlers st);
  Ok (set_handlers h st).

(** What an interrupt handler or a system call leaves: its result, or a thread
    that waits inside it. *)
Inductive outcome (A : Type) := Returns (a : A) | Waits (w : wait).
Arguments Returns {A} a.
Arguments Waits {A} w.

(** [buf] is a string on the stack, of which one byte, the i, is written. *)
Definition driver_irq_notify (c buf : Z) (regs : Interrupts.thread_state) (st : sys)
    : res (outcome Z * sys) :=
  let irq := s32 (Interrupts.int_id regs) in
  h ← aget 0 256 (handlers st) irq;
  if bool_decide (h = 0) then Ok (Returns Interrupts.INT_ERROR, st) else
  m ← Memory.store_words buf [0x00746E69] (bytes st);
  let st := set_memory (mem st) m st in
  '(w, st) ← stream_write resume fuel c h buf 1 st;
  Ok (match w with Some w => Waits w | None => Returns Interrupts.INT_OK end, st).

Definition driver_register (c proc irq : Z) (st : sys) : res (Z * sys) :=
  '(p, st) ← stream_new c st;
  h ← aset 256 (handlers st) irq p;
  let st := set_handlers h st in
  '(result, st) ← attach proc p p st;
  i ← Interrupts.interrupts_register_handler irq Interrupts.driver_irq_notify (ints st);
  Ok (result, set_ints i st).

End Drivers.
Arguments Returns {A} a.
Arguments Waits {A} w.

(** ** Lemmas *)

Section Lemmas.
Context {F : Type} `{FrameAlloc F} {M : Type} `{QueueStore (Z * Z) M} (resume : Z) (fuel : nat).
Notation sys := (sys (F := F) (M := M)).

(** The process has the stream [p] at descriptor [i], to read and to write. *)
Definition attached (proc i p : Z) (st : sys) : Prop :=
  ∃ pr, procs_of st !! proc = Some pr ∧
    arr Stream.null_ios (iodescr pr) i = Stream.IOS p p.

Lemma driver_register_ok c live proc pr irq (st : sys) :
  0 ≤ c < MAX_CPU → heap_on c live 1 st → procs_of st !! proc = Some pr → 0 ≤ irq < 256 →
  ∃ p r st', driver_register c proc irq st = Ok (r, st') ∧ p ≠ 0 ∧
    (∀ a, p ≤ a < p + STREAM_SIZE → ¬ live a) ∧
    handlers st' = <[irq := p]> (handlers st) ∧
    Interrupts.int_handlers (ints st')
      = <[irq := Interrupts.driver_irq_notify]> (Interrupts.int_handlers (ints st)) ∧
    streams_of st' = <[p := Stream.stream_new]> (streams_of st) ∧
    (∀ a, ¬ (p ≤ a < p + STREAM_SIZE) → bytes st' !! a = bytes st !! a) ∧
    ((Stream.first_free (iodescr pr) r ∧ attached proc r p st') ∨
     (descr_full (iodescr pr) ∧ r = -1 ∧ procs_of st' !! proc = Some pr)).
Proof.
  intros Hc Hh Hp Hirq.
  destruct (stream_new_ok c live 0 st Hc Hh)
    as (p & st1 & Hn & Hp0 & Hfr & _ & Hk & Hs1 & Hp1 & _ & _ & Hb1).
  rewrite <- Hp1 in Hp.
  set (st2 := set_handlers (<[irq := p]> (handlers st1)) st1).
  assert (Hreg : ∀ st3 : sys, interrupts_register_handler irq Interrupts.driver_irq_notify (ints st3)
    = Ok (Interrupts.State (<[irq := Interrupts.driver_irq_notify]> (int_handlers (ints st3)))
            (lapic (ints st3)) (io_regsel (ints st3)) (ioapic (ints st3)) (eois (ints st3)))).
  { intros st3. unfold interrupts_register_handler. rewrite u8_small by done. by rewrite aset_in by done. }
  exists p. destruct (attach_ok proc pr p p st2 Hp) as [(i & Hi & Ha)|[Hf Ha]].
  - exists i. eexists. split.
    { unfold driver_register. rewrite (bind_ok _ _ _ Hn). cbv iota beta.
      rewrite aset_in by done. cbn [mbind res_bind]. fold st2. rewrite (bind_ok _ _ _ Ha).
      cbv iota beta. rewrite Hreg. reflexivity. }
    destruct Hk as [_ _ _ Hki Hkh _]. split; [done|]. split; [done|].
    split; [by rewrite <- Hkh|]. split; [by rewrite <- Hki|]. split; [exact Hs1|].
    split; [exact Hb1|]. left. split; [done|]. eexists. split; [apply lookup_insert_eq|].
    cbn [iodescr with_iodescr]. by rewrite arr_insert_eq.
  - exists (-1). eexists. split.
    { unfold driver_register. rewrite (bind_ok _ _ _ Hn). cbv iota beta.
      rewrite aset_in by done. cbn [mbind res_bind]. fold st2. rewrite (bind_ok _ _ _ Ha).
      cbv iota beta. rewrite Hreg. reflexivity. }
    destruct Hk as [_ _ _ Hki Hkh _]. split; [done|]. split; [done|].
    split; [by rewrite <- Hkh|]. split; [by rewrite <- Hki|]. split; [exact Hs1|].
    split; [exact Hb1|]. right. split; [done|]. split; [done|].
    change (<[proc := with_iodescr (iodescr pr) pr]> (procs_of st1) !! proc = Some pr).
    by rewrite lookup_insert_eq, with_iodescr_same.
Qed.

(** The string on the stack begins with an i. *)
Lemma store_buf_ok buf m :
  Strings.writable m buf 4 →
  ∃ m', Memory.store_words buf [0x00746E69] m = Ok m' ∧ m' !! buf = Some 105 ∧
    Strings.changed buf 4 m m'.
Proof.
  intros Hw.
  destruct (Memory.store_words_ok [0x00746E69] buf m Hw) as (m' & Hm & Hc & _);
    [by repeat constructor|].
  exists m'. split; [done|]. split; [|exact Hc].
  cbn [Memory.store_words] in Hm. unfold Memory.store32 in Hm. res_inv.
  repeat match goal with
  | Hs : Strings.store8 _ _ ?m = Ok ?m' |- _ =>
      unfold Strings.store8 in Hs; destruct (m !! _) in Hs; [injection Hs as <-|discriminate Hs]
  end.
  by rewrite !lookup_insert_ne, lookup_insert_eq by lia.
Qed.

(** An interrupt whose stream has room. *)
Lemma notify_ok c buf regs p s q (st : sys) :
  0 ≤ Interrupts.int_id regs < 256 → arr 0 (handlers st) (Interrupts.int_id regs) = p → p ≠ 0 →
  streams_of st !! p = Some s → Stream.ring_rep s q → (length q < 1022)%nat →
  Strings.writable (bytes st) buf 4 →
  ∃ st' s', driver_irq_notify resume fuel c buf regs st = Ok (Returns Interrupts.INT_OK, st') ∧
    streams_of st' = <[p := s']> (streams_of st) ∧ Stream.ring_rep s' (q ++ [105]) ∧
    handlers st' = handlers st ∧ procs_of st' = procs_of st ∧ sched st' = sched (set_stream p s' st) ∧
    Strings.changed buf 4 (bytes st) (bytes st').
Proof.
  intros Hid Hh Hp0 Hs Hr Hl Hw. destruct (store_buf_ok buf (bytes st) Hw) as (m & Hm & Hb & Hc).
  destruct (Stream.ring_rep_length s q Hr) as (_ & Hwl & _).
  set (s' := Stream.advance_write (Stream.store_byte 105 s)).
  exists (set_stream p s' (set_memory (mem st) m st)), s'.
  split; [|split; [done|split; [by apply Stream.ring_push|done]]].
  unfold driver_irq_notify. rewrite s32_small by lia. rewrite aget_in by done. rewrite Hh.
  cbn [mbind res_bind]. rewrite bool_decide_false by done. rewrite (bind_ok _ _ _ Hm). cbv zeta.
  unfold stream_write, get_stream, Stream.get_stream.
  change (streams_of (set_memory (mem st) m st)) with (streams_of st). rewrite Hs.
  cbn [mbind res_bind]. change (bytes (set_memory (mem st) m st)) with m. cbn [write_upto].
  rewrite Hwl. rewrite (proj2 (Z.eqb_neq _ 0)) by lia.
  rewrite (Strings.load8_Some _ _ _ Hb). reflexivity.
Qed.

End Lemmas.

(** [n] interrupts. *)
Fixpoint notified {F} `{FrameAlloc F} {M} `{QueueStore (Z * Z) M} (resume : Z) (fuel : nat)
    (c buf : Z) (regs : thread_state) (n : nat) (st : sys (F := F) (M := M)) : res sys :=
  match n with
  | O => Ok st
  | S n =>
      '(o, st) ← driver_irq_notify resume fuel c buf regs st;
      match o with
      | Returns r => if bool_decide (r = INT_OK) then notified resume fuel c buf regs n st else Fault
      | Waits _ => Fault
      end
  end.

Lemma notified_ok `{FrameAlloc F} `{QueueStore (Z * Z) M} resume fuel c buf regs p n :
  0 ≤ int_id regs < 256 → p ≠ 0 →
  ∀ q s (st : sys (F := F) (M := M)), arr 0 (handlers st) (int_id regs) = p →
  streams_of st !! p = Some s → Stream.ring_rep s q → (length q + n ≤ 1022)%nat →
  Strings.writable (bytes st) buf 4 →
  ∃ st' s', notified resume fuel c buf regs n st = Ok st' ∧ streams_of st' !! p = Some s' ∧
    Stream.ring_rep s' (q ++ replicate n 105) ∧ procs_of st' = procs_of st.
Proof.
  intros Hid Hp0. induction n as [|n IH]; intros q s st Hh Hs Hr Hl Hw; cbn [notified].
  { exists st, s. simpl. by rewrite app_nil_r. }
  destruct (notify_ok resume fuel c buf regs p s q st Hid Hh Hp0 Hs Hr ltac:(lia) Hw)
    as (st1 & s1 & Hn & Hs1 & Hr1 & Hh1 & Hp1 & _ & Hc1).
  rewrite (bind_ok _ _ _ Hn). rewrite bool_decide_true by done.
  destruct (IH (q ++ [105]) s1 st1) as (st' & s' & Hn' & Hs' & Hr' & Hp').
  - by rewrite Hh1.
  - by rewrite Hs1, lookup_insert_eq.
  - done.
  - rewrite length_app. simpl. lia.
  - eapply Strings.writable_changed; [exact Hc1|exact Hw].
  - exists st', s'. rewrite <- app_assoc in Hr'. by rewrite Hp', Hp1.
Qed.

(** ** Properties *)

(** C22. A process that registers for an interrupt number gets a fresh stream,
    at its first free descriptor (-1 and no descriptor when all are in use),
    and becomes the handler of that number: each of the next 1022 interrupts
    puts one byte in the stream. *)
Theorem driver_delivers `{FrameAlloc F} `{QueueStore (Z * Z) M} resume fuel c c' live proc pr
    (regs : thread_state) buf n (st : sys (F := F) (M := M)) :
  let irq := int_id regs in
  0 ≤ c < MAX_CPU → heap_on c live 1 st → procs_of st !! proc = Some pr → 0 ≤ irq < 256 →
  Strings.writable (bytes st) buf 4 → (∀ a, buf ≤ a < buf + 4 → live a) → (n ≤ 1022)%nat →
  ∃ p r st1, driver_register c proc irq st = Ok (r, st1) ∧
    arr NullHandler (int_handlers (ints st1)) irq = Interrupts.driver_irq_notify ∧
    ((Stream.first_free (iodescr pr) r ∧ attached proc r p st1) ∨
     (descr_full (iodescr pr) ∧ r = -1 ∧ procs_of st1 !! proc = Some pr)) ∧
    ∃ st2 s, notified resume fuel c' buf regs n st1 = Ok st2 ∧ streams_of st2 !! p = Some s ∧
      Stream.ring_rep s (replicate n 105) ∧ procs_of st2 = procs_of st1.
Proof.
  intros irq Hc Hh Hp Hirq Hw Hlive Hn.
  destruct (driver_register_ok c live proc pr irq st Hc Hh Hp Hirq)
    as (p & r & st1 & Hr & Hp0 & Hfr & Hha & Hi & Hs & Hb & Hcase).
  exists p, r, st1. split; [done|]. split; [by rewrite Hi, arr_insert_eq|]. split; [done|].
  destruct (notified_ok resume fuel c' buf regs p n Hirq Hp0 [] Stream.stream_new st1)
    as (st2 & s & Hn2 & Hs2 & Hr2 & Hp2).
  - rewrite Hha. apply arr_insert_eq.
  - by rewrite Hs, lookup_insert_eq.
  - exact Stream.ring_rep_new.
  - simpl. lia.
  - intros a Ha. rewrite Hb; [by apply Hw|]. intros Hin. by apply (Hfr a Hin), Hlive.
  - by exists st2, s.
Qed.

Definition key_interrupt : thread_state := TS 0 0 0 0 0 0 0 0 0 0 218 0 0 0 0 0 0.

Lemma driver_delivers_witness :
  ∃ a p r st1, Kmalloc.mem_allocator_init Kmalloc.allocator0 = Ok a ∧
    driver_register 0 0x1000 218 (demo a []) = Ok (r, st1) ∧
    ∃ st2 s, notified 0xC000 9 0 0x600 key_interrupt 3 st1 = Ok st2 ∧
      streams_of st2 !! p = Some s ∧ Stream.stream_read_length s = 3.
Proof.
  destruct (Kmalloc.mem_allocator_init_good Kmalloc.allocator0) as (a & Ha & Hg).
  destruct (driver_delivers 0xC000 9 0 0 low 0x1000 (Process.blank_proc 1) key_interrupt 0x600 3
    (demo a [])) as (p & r & st1 & Hr & _ & _ & st2 & s & Hn & Hs & Hq & _).
  - split; [discriminate|reflexivity].
  - apply demo_heap; [lia|exact Hg|simpl; lia].
  - reflexivity.
  - split; [discriminate|reflexivity].
  - eapply Strings.writable_sub; [apply (demo_buffer a []); simpl; lia|lia|lia].
  - unfold low. intros x Hx. lia.
  - lia.
  - exists a, p, r, st1. split; [exact Ha|]. split; [exact Hr|]. exists st2, s.
    split; [exact Hn|]. split; [exact Hs|]. exact (proj1 (Stream.ring_rep_length _ _ Hq)).
Defined.

End Drivers.
