(* ===== verification/Syscall.v ===== *)
(** System calls (kernel/syscall.c, kernel/system_calls.h).

    [syscall] is the handler of interrupt 80 on processor [c], run until it
    returns with the caller's registers or its thread waits; [resume_wait]
    is what it does when that thread runs again.  User pointers are followed
    in [bytes], as the handler does, without a check.  [exit_buf] and
    [exit_fmt] are where the buffer and the format string of SYSCALL_EXIT
    are. *)

From Stdlib Require Import ZArith Lia.
From stdpp Require Import base option list gmap.
From S2P Require Import Prelude Interfaces Locks Palloc Strings Paging Stream Timer Thread Scheduler.
From S2P Require Import Kmalloc Memory Screen Interrupts Process System Drivers.

Module Syscall.
Import Thread System Drivers.

Definition SYSCALL_EXIT : Z := 0.
Definition SYSCALL_WAIT : Z := 1.
Definition SYSCALL_CONNECT : Z := 2.
Definition SYSCALL_SELECT : Z := 3.
Definition SYSCALL_REGISTER : Z := 4.
Definition SYSCALL_READ : Z := 5.
Definition SYSCALL_WRITE : Z := 6.
Definition SYSCALL_MMAP : Z := 7.
Definition SYSCALL_HANDLE : Z := 8.
Definition SYSCALL_PEEK : Z := 9.
Definition SYSCALL_TIME : Z := 10.

(** [state->eax = result;] *)
Definition set_eax (v : Z) (r : Interrupts.thread_state) : Interrupts.thread_state :=
  Interrupts.TS (Interrupts.tpr r) (Interrupts.ds r) (Interrupts.edi r) (Interrupts.esi r)
    (Interrupts.ebp r) (Interrupts.esp r) (Interrupts.ebx r) (Interrupts.edx r)
    (Interrupts.ecx r) (u32 v) (Interrupts.int_id r) (Interrupts.err r) (Interrupts.eip r)
    (Interrupts.cs r) (Interrupts.eflags r) (Interrupts.useresp r) (Interrupts.ss r).

Section Calls.
Context {F : Type} `{FrameAlloc F} {M : Type} `{QueueStore (Z * Z) M} (resume : Z) (fuel : nat).
Context (exit_buf exit_fmt : Z).
Notation sys := (sys (F := F) (M := M)).

(** The result of a call with what it left behind. *)
Definition finish (w : option wait) (result : Z) : outcome Z :=
  match w with Some w => Waits w | None => Returns result end.

(** SYSCALL_EXIT prints. *)
Definition exit_call (c proc th ebx : Z) (st : sys) : res (outcome Z * sys) :=
  '(s, m) ← Strings.kprintf fuel (bytes st) exit_buf exit_fmt [proc; th; c; ebx];
  sc ← Screen.screen_putstr fuel m s (console st);
  Ok (Returns (-1), set_console sc (set_memory (mem st) m st)).

Definition wait_call (c ebx : Z) (st : sys) : res (outcome Z * sys) :=
  if 0 <? ebx then
    '(ok, st) ← sched_thread_sleep resume fuel c ebx st;
    Ok (if (ok : bool) then Returns (-1) else Waits ToSleep, st)
  else Ok (Returns (-1), st).

Definition connect_call (c proc ebx : Z) (st : sys) : res (outcome Z * sys) :=
  target ← Process.proc_get_by_name fuel ebx (process_view c st);
  if bool_decide (target ≠ 0) then
    '(input, st) ← stream_new c st;
    '(output, st) ← stream_new c st;
    '(_, st) ← attach target output input st;
    '(result, st) ← attach proc input output st;
    Ok (Returns result, st)
  else Ok (Returns (-1), st).

(** The loop of SYSCALL_SELECT up to a yield. *)
Definition select_call (c proc th : Z) (st : sys) : res (outcome Z * sys) :=
  pr ← get_process proc st;
  result ← Stream.iostream_select (streams_of st) (iodescr pr);
  if bool_decide (result ≠ -1) then Ok (Returns result, st) else
  t ← Scheduler.get_thread th (sched st);
  let st := set_thread th (set_event SelectEvent (set_descr 0 t)) st in
  st ← sched_yield resume fuel c st;
  Ok (Waits ToSelect, st).

(** [cur_proc->iodescr.iostreams[i]] *)
Definition descriptor (proc i : Z) (st : sys) : res Stream.iostream :=
  pr ← get_process proc st; Stream.get_ios (iodescr pr) i.

Definition read_call (c proc ebx ecx edx : Z) (st : sys) : res (outcome Z * sys) :=
  io ← descriptor proc ebx st;
  '(w, st) ← stream_read resume fuel c (Stream.input io) ecx (Z.to_nat edx) st;
  Ok (finish w 0, st).

Definition write_call (c proc ebx ecx edx : Z) (st : sys) : res (outcome Z * sys) :=
  io ← descriptor proc ebx st;
  '(w, st) ← stream_write resume fuel c (Stream.output io) ecx (Z.to_nat edx) st;
  Ok (finish w 0, st).

Definition mmap_call (c ebx ecx : Z) (st : sys) : res (outcome Z * sys) :=
  st ← on_vm c (Paging.paging_map ebx ecx
         (Z.lor (Z.lor Paging.PAGE_USERMODE Paging.PAGE_WRITABLE) Paging.PAGE_PRESENT)) st;
  Ok (Returns (-1), st).

Definition peek_call (proc ebx : Z) (st : sys) : res (outcome Z * sys) :=
  io ← descriptor proc ebx st;
  s ← get_stream (Stream.input io) st;
  Ok (Returns (Stream.stream_read_length s), st).

(** The [switch]. *)
Definition dispatch (c proc th : Z) (r : Interrupts.thread_state) (st : sys)
    : res (outcome Z * sys) :=
  let id := Interrupts.eax r in
  let ebx := Interrupts.ebx r in let ecx := Interrupts.ecx r in let edx := Interrupts.edx r in
  if id =? SYSCALL_EXIT then exit_call c proc th ebx st else
  if id =? SYSCALL_WAIT then wait_call c ebx st else
  if id =? SYSCALL_REGISTER then
    '(result, st) ← on_process c (Process.proc_register proc ebx) st; Ok (Returns result, st) else
  if id =? SYSCALL_CONNECT then connect_call c proc ebx st else
  if id =? SYSCALL_SELECT then select_call c proc th st else
  if id =? SYSCALL_READ then read_call c proc ebx ecx edx st else
  if id =? SYSCALL_WRITE then write_call c proc ebx ecx edx st else
  if id =? SYSCALL_MMAP then mmap_call c ebx ecx st else
  if id =? SYSCALL_HANDLE then
    '(result, st) ← driver_register c proc (s32 ebx) st; Ok (Returns result, st) else
  if id =? SYSCALL_PEEK then peek_call proc ebx st else
  if id =? SYSCALL_TIME then Ok (Returns (Timer.timer_get_ticks (ticks (world_of st))), st) else
  Ok (Returns (-1), st).

(** [state->eax = result; return INT_OK;] *)
Definition return_to (r : Interrupts.thread_state) (o : outcome Z) : outcome Interrupts.thread_state :=
  match o with Returns result => Returns (set_eax result r) | Waits w => Waits w end.

Definition syscall (c : Z) (r : Interrupts.thread_state) (st : sys)
    : res (outcome Interrupts.thread_state * sys) :=
  proc ← Scheduler.sched_cur_proc c (sched st);
  th ← Scheduler.sched_cur_thread c (sched st);
  '(o, st) ← dispatch c proc th r st;
  Ok (return_to r o, st).

(** The thread runs again. *)
Definition resume_wait (c : Z) (w : wait) (r : Interrupts.thread_state) (st : sys)
    : res (outcome Interrupts.thread_state * sys) :=
  proc ← Scheduler.sched_cur_proc c (sched st);
  th ← Scheduler.sched_cur_thread c (sched st);
  '(o, st) ← match w with
    | ToSelect => select_call c proc th st
    | ToSleep =>
        '(ok, st) ← wait_again resume fuel c st;
        Ok (if (ok : bool) then Returns (-1) else Waits ToSleep, st)
    | ToRead this buf len =>
        '(ok, st) ← wait_again resume fuel c st;
        if (ok : bool) then
          '(w, st) ← stream_read resume fuel c this buf len st; Ok (finish w 0, st)
        else Ok (Waits w, st)
    | ToWrite this buf len =>
        '(ok, st) ← wait_again resume fuel c st;
        if (ok : bool) then
          '(w, st) ← stream_write resume fuel c this buf len st; Ok (finish w 0, st)
        else Ok (Waits w, st)
    end;
  Ok (return_to r o, st).

(** ** Lemmas *)

(** Processor [c] runs thread [th] of process [proc]. *)
Definition current (c proc th : Z) (st : sys) : Prop :=
  Scheduler.sched_cur_proc c (sched st) = Ok proc ∧
  Scheduler.sched_cur_thread c (sched st) = Ok th.

Lemma syscall_run c proc th r st o st' :
  current c proc th st → dispatch c proc th r st = Ok (o, st') →
  syscall c r st = Ok (return_to r o, st').
Proof.
  intros [Hp Ht] Hd. unfold syscall. rewrite (bind_ok _ _ _ Hp), (bind_ok _ _ _ Ht).
  by rewrite (bind_ok _ _ _ Hd).
Qed.

Lemma connect_none c proc ebx str st :
  Strings.cstr (bytes st) ebx str → Process.names_ok (process_view c st) ebx str →
  (length str < fuel)%nat →
  (∀ j, 1 ≤ j < MAX_PROCESSES → ¬ Process.called (process_view c st) j str) →
  connect_call c proc ebx st = Ok (Returns (-1), st).
Proof.
  intros Hs Hok Hf Hno. assert (Hm : 1 < MAX_PROCESSES) by done.
  destruct (Process.by_name_from_ok (process_view c st) fuel ebx str Hs Hok Hf
    (Z.to_nat (MAX_PROCESSES - 1)) 1) as (t & Ht & Hcase); [lia|lia|].
  rewrite Z2Nat.id in Hcase by lia. unfold connect_call, Process.proc_get_by_name.
  rewrite (bind_ok _ _ _ Ht). destruct Hcase as [[-> _]|(j & Hj & _ & Hc & _)].
  - by rewrite bool_decide_false by (intros Hn; by apply Hn).
  - exfalso. apply (Hno j); [lia|done].
Qed.

(** The two ends of a connection. *)
Record connected (proc target inp out i : Z) (pr pt : process) (st st' : sys) : Prop := {
  cn_distinct : inp ≠ out ∧ inp ≠ 0 ∧ out ≠ 0;
  cn_streams : streams_of st' = <[out := Stream.stream_new]> (<[inp := Stream.stream_new]> (streams_of st));
  cn_caller : ∃ d, procs_of st' !! proc = Some (with_iodescr d pr) ∧
    attaches (iodescr pr) inp out i d;
  cn_target : ∃ j d, procs_of st' !! target = Some (with_iodescr d pt) ∧
    attaches (iodescr pt) out inp j d;
  cn_others : ∀ p, p ≠ proc → p ≠ target → procs_of st' !! p = procs_of st !! p
}.

Lemma connect_some c live proc pr ebx str st j :
  0 ≤ c < MAX_CPU → heap_on c live 2 st →
  Strings.cstr (bytes st) ebx str → Process.names_ok (process_view c st) ebx str →
  (length str < fuel)%nat → 1 ≤ j < MAX_PROCESSES → Process.called (process_view c st) j str →
  (∀ k, 1 ≤ k < j → ¬ Process.called (process_view c st) k str) →
  procs_of st !! proc = Some pr → arr 0 (table st) j ≠ proc →
  ∃ pt inp out i st', connect_call c proc ebx st = Ok (Returns i, st') ∧
    procs_of st !! arr 0 (table st) j = Some pt ∧
    (∀ a, inp ≤ a < inp + STREAM_SIZE ∨ out ≤ a < out + STREAM_SIZE → ¬ live a) ∧
    connected proc (arr 0 (table st) j) inp out i pr pt st st'.
Proof.
  intros Hc Hh Hs Hok Hf Hj Hcall Hfst Hp Hne. set (target := arr 0 (table st) j) in *.
  destruct (Process.by_name_from_ok (process_view c st) fuel ebx str Hs Hok Hf
    (Z.to_nat (MAX_PROCESSES - 1)) 1) as (t & Ht & Hcase); [lia|lia|].
  rewrite Z2Nat.id in Hcase by lia.
  assert (Htj : t = target).
  { destruct Hcase as [[_ Hno]|(j' & Hj' & -> & Hc' & Hfst')].
    - exfalso. apply (Hno j); [lia|done].
    - destruct (Z.lt_trichotomy j j') as [Hlt|[->|Hlt]]; [|done|].
      + exfalso. apply (Hfst' j); [lia|done].
      + exfalso. apply (Hfst j'); [lia|done]. }
  subst t. pose proof Hcall as (Ht0 & pt & Hpt & _). fold target in Ht0, Hpt.
  change (procs_of st !! target = Some pt) in Hpt.
  destruct (stream_new_ok c live 1 st Hc Hh)
    as (inp & st1 & H1 & Hi0 & Hfr1 & Hh1 & _ & Hs1 & Hp1 & _).
  destruct (stream_new_ok c _ 0 st1 Hc Hh1)
    as (out & st2 & H2 & Ho0 & Hfr2 & _ & _ & Hs2 & Hp2 & _).
  assert (Hp2' : procs_of st2 = procs_of st) by congruence.
  destruct (attach_run target pt out inp st2) as (r3 & d3 & H3 & Ha3); [by rewrite Hp2'|].
  set (st3 := set_process target (with_iodescr d3 pt) st2) in *.
  destruct (attach_run proc pr inp out st3) as (i & d4 & H4 & Ha4).
  { unfold st3. by rewrite procs_set_process, lookup_insert_ne, Hp2'. }
  exists pt, inp, out, i. eexists. split; [|split; [done|split]].
  - unfold connect_call, Process.proc_get_by_name. rewrite (bind_ok _ _ _ Ht).
    rewrite bool_decide_true by done. rewrite (bind_ok _ _ _ H1). cbv iota beta.
    rewrite (bind_ok _ _ _ H2). cbv iota beta. rewrite (bind_ok _ _ _ H3). cbv iota beta.
    by rewrite (bind_ok _ _ _ H4).
  - intros a [Ha|Ha]; [by apply Hfr1|]. intros Hl. apply (Hfr2 a Ha). by left.
  - assert (Hd : inp ≠ out).
    { intros Heq. apply (Hfr2 out); [split; [lia|unfold STREAM_SIZE, Stream.STREAM_BUF_LEN; lia]|].
      right. unfold STREAM_SIZE, Stream.STREAM_BUF_LEN. lia. }
    split; [done| | | |].
    + change (streams_of (set_process proc (with_iodescr d4 pr) st3)) with (streams_of st2).
      by rewrite Hs2, Hs1.
    + exists d4. rewrite procs_set_process, lookup_insert_eq. done.
    + exists r3, d3. rewrite procs_set_process, lookup_insert_ne by done. unfold st3.
      by rewrite procs_set_process, lookup_insert_eq.
    + intros p Hpp Hpt'. rewrite procs_set_process, lookup_insert_ne by done. unfold st3.
      by rewrite procs_set_process, lookup_insert_ne, Hp2'.
Qed.

Lemma descriptor_ok proc pr i st :
  procs_of st !! proc = Some pr → 0 ≤ i < Stream.MAX_DESCRIPTORS →
  descriptor proc i st = Ok (arr Stream.null_ios (iodescr pr) i).
Proof.
  intros Hp Hi. unfold descriptor, get_process, get_proc. unfold procs_of in Hp. rewrite Hp.
  cbn [mbind res_bind]. unfold Stream.get_ios. by rewrite aget_in.
Qed.

Lemma write_fits c proc pr i buf data s q st :
  procs_of st !! proc = Some pr → 0 ≤ i < Stream.MAX_DESCRIPTORS →
  let p := Stream.output (arr Stream.null_ios (iodescr pr) i) in
  streams_of st !! p = Some s → Stream.ring_rep s q → Strings.bytes_at (bytes st) buf data →
  (0 < length data)%nat → (length q + length data ≤ 1022)%nat →
  ∃ s', write_call c proc i buf (Z.of_nat (length data)) st
      = Ok (Returns 0, set_stream p s' st) ∧ Stream.ring_rep s' (q ++ data).
Proof.
  intros Hp Hi p Hs Hr Hb Hpos Hl.
  destruct (Stream.stream_write_ring data s q Hr) as (s' & Hw & Hr').
  rewrite drop_ge in Hw by lia. rewrite take_ge in Hr' by lia.
  exists s'. split; [|done]. unfold write_call. rewrite (bind_ok _ _ _ (descriptor_ok _ _ _ _ Hp Hi)).
  fold p. rewrite Nat2Z.id. unfold stream_write.
  pose proof (write_upto_eq data buf (bytes st) s Hb) as Hu. rewrite Hw in Hu. cbn [fst snd length] in Hu.
  unfold get_stream, Stream.get_stream. rewrite Hs.
  destruct data as [|d data]; [simpl in Hpos; lia|]. cbn [length] in *. cbn [mbind res_bind].
  by rewrite (bind_ok _ _ _ Hu).
Qed.

(** Reading [n] bytes of a stream that holds [q]: the call returns when there
    are as many, and waits for the others otherwise. *)
Lemma read_gets c proc pr i buf n s q st :
  procs_of st !! proc = Some pr → 0 ≤ i < Stream.MAX_DESCRIPTORS →
  let p := Stream.input (arr Stream.null_ios (iodescr pr) i) in
  streams_of st !! p = Some s → Stream.ring_rep s q → Strings.writable (bytes st) buf (Z.of_nat n) →
  (0 < n)%nat →
  ∃ s' m', Stream.ring_rep s' (drop n q) ∧ Strings.bytes_at m' buf (u8 <$> take n q) ∧
    Strings.changed buf (Z.of_nat (length (take n q))) (bytes st) m' ∧
    let st' := set_memory (mem st) m' (set_stream p s' st) in
    ((n ≤ length q)%nat →
       read_call c proc i buf (Z.of_nat n) st = Ok (Returns 0, st')) ∧
    ((length q < n)%nat → ∀ b st2, wait_on resume fuel c p ReadEvent st' = Ok (b, st2) →
       read_call c proc i buf (Z.of_nat n) st
         = Ok (Waits (ToRead p (buf + Z.of_nat (length q)) (n - length q)), st2)).
Proof.
  intros Hp Hi p Hs Hr Hw Hpos.
  destruct (Stream.stream_read_ring n s q Hr) as (s' & Hrd & Hr').
  pose proof (read_upto_eq n buf (bytes st) s Hw) as Hu. rewrite Hrd in Hu.
  destruct Hu as (m' & Hu & Hb & Hc). exists s', m'. do 3 (split; [done|]).
  assert (Hcall : ∀ R, stream_read resume fuel c p buf n st = R →
    read_call c proc i buf (Z.of_nat n) st
      = ('(w, st) ← R; Ok (finish w 0, st))).
  { intros R <-. unfold read_call. rewrite (bind_ok _ _ _ (descriptor_ok _ _ _ _ Hp Hi)).
    fold p. by rewrite Nat2Z.id. }
  destruct n as [|n]; [lia|]. unfold stream_read, get_stream, Stream.get_stream in Hcall.
  rewrite Hs in Hcall. cbn [mbind res_bind] in Hcall. rewrite Hu in Hcall. cbn [mbind res_bind] in Hcall.
  split.
  - intros Hn. rewrite (proj2 (Nat.sub_0_le _ _)) in Hcall by done. by rewrite (Hcall _ eq_refl).
  - intros Hn b st2 Hwait. rewrite (Hcall _ eq_refl).
    destruct (S n - length q)%nat as [|k] eqn:Hk; [lia|].
    change (bytes (set_stream p s' st)) with (bytes st).
    change (mem (set_stream p s' st)) with (mem st).
    rewrite (bind_ok _ _ _ Hwait). cbn [mbind res_bind finish]. do 5 f_equal.
    rewrite length_take. lia.
Qed.

End Calls.

(** ** Properties *)

(** C7. SYSCALL_WRITE appends the caller's bytes to the stream it writes to
    when they fit, and SYSCALL_READ takes the oldest bytes of the stream it
    reads from into the caller's buffer; both return 0 and change nothing
    else.  A read of more bytes than there are stores those there are and
    waits for the others. *)
Theorem syscall_io `{FrameAlloc F} `{QueueStore (Z * Z) M} resume fuel exit_buf exit_fmt
    c proc th pr (r : Interrupts.thread_state) (st : sys (F := F) (M := M)) s q :
  let io := arr Stream.null_ios (iodescr pr) (Interrupts.ebx r) in
  let run := syscall resume fuel exit_buf exit_fmt c r st in
  let buf := Interrupts.ecx r in
  current c proc th st → procs_of st !! proc = Some pr →
  0 ≤ Interrupts.ebx r < Stream.MAX_DESCRIPTORS → 0 < Interrupts.edx r →
  (Interrupts.eax r = SYSCALL_WRITE → streams_of st !! Stream.output io = Some s →
   Stream.ring_rep s q → ∀ data, Strings.bytes_at (bytes st) buf data →
   Interrupts.edx r = Z.of_nat (length data) → (length q + length data ≤ 1022)%nat →
   ∃ s', run = Ok (Returns (set_eax 0 r), set_stream (Stream.output io) s' st) ∧
     Stream.ring_rep s' (q ++ data)) ∧
  (Interrupts.eax r = SYSCALL_READ → streams_of st !! Stream.input io = Some s →
   Stream.ring_rep s q → ∀ n, Interrupts.edx r = Z.of_nat n →
   Strings.writable (bytes st) buf (Z.of_nat n) →
   ∃ s' m', let st' := set_memory (mem st) m' (set_stream (Stream.input io) s' st) in
     Stream.ring_rep s' (drop n q) ∧ Strings.bytes_at m' buf (u8 <$> take n q) ∧
     Strings.changed buf (Z.of_nat (length (take n q))) (bytes st) m' ∧
     ((n ≤ length q)%nat → run = Ok (Returns (set_eax 0 r), st')) ∧
     ((length q < n)%nat →
      ∀ b st2, wait_on resume fuel c (Stream.input io) ReadEvent st' = Ok (b, st2) →
      run = Ok (Waits (ToRead (Stream.input io) (buf + Z.of_nat (length q)) (n - length q)), st2))).
Proof.
  intros io run buf Hcur Hp Hi Hpos.
  assert (Hrun : ∀ o st', dispatch resume fuel exit_buf exit_fmt c proc th r st = Ok (o, st') →
    run = Ok (return_to r o, st')).
  { intros o st'. exact (syscall_run _ _ _ _ c proc th r st o st' Hcur). }
  clearbody run. split.
  - intros Hid Hs Hr data Hb Hed Hl.
    destruct (write_fits resume fuel c proc pr _ buf data s q st Hp Hi Hs Hr Hb) as (s' & Hw & Hr');
      [lia|done|]. exists s'. split; [|done].
    apply (Hrun (Returns 0)). unfold dispatch. rewrite Hid, Hed. exact Hw.
  - intros Hid Hs Hr n Hed Hw.
    destruct (read_gets resume fuel c proc pr _ buf n s q st Hp Hi Hs Hr Hw)
      as (s' & m' & Hr' & Hb & Hc & Hret & Hwait); [lia|].
    assert (Hd : ∀ o st', read_call resume fuel c proc (Interrupts.ebx r) buf (Z.of_nat n) st = Ok (o, st') →
      run = Ok (return_to r o, st')).
    { intros o st' Hrc. apply (Hrun o). unfold dispatch.
      rewrite Hid, Hed. exact Hrc. }
    exists s', m'. do 3 (split; [done|]). split.
    + intros Hn. exact (Hd _ _ (Hret Hn)).
    + intros Hn b st2 Hb2. exact (Hd _ _ (Hwait Hn b st2 Hb2)).
Qed.

(** C6. SYSCALL_CONNECT with the name of another process makes two fresh
    streams and links the processes crosswise: what one writes at its new
    descriptor the other reads at its.  A process whose descriptors are all in
    use gets none, and the call returns the caller's descriptor (-1 when it
    has none) in either case.  Without a process of that name it returns -1
    and changes nothing. *)
Theorem syscall_connect `{FrameAlloc F} `{QueueStore (Z * Z) M} resume fuel exit_buf exit_fmt
    c live proc th pr (r : Interrupts.thread_state) str (st : sys (F := F) (M := M)) :
  let view := process_view c st in
  0 ≤ c < MAX_CPU → heap_on c live 2 st → current c proc th st →
  procs_of st !! proc = Some pr → Interrupts.eax r = SYSCALL_CONNECT →
  Strings.cstr (bytes st) (Interrupts.ebx r) str → Process.names_ok view (Interrupts.ebx r) str →
  (length str < fuel)%nat →
  ((∀ j, 1 ≤ j < MAX_PROCESSES → ¬ Process.called view j str) →
   syscall resume fuel exit_buf exit_fmt c r st = Ok (Returns (set_eax (-1) r), st)) ∧
  (∀ j, 1 ≤ j < MAX_PROCESSES → Process.called view j str →
   (∀ k, 1 ≤ k < j → ¬ Process.called view k str) → arr 0 (table st) j ≠ proc →
   ∃ pt inp out i st', syscall resume fuel exit_buf exit_fmt c r st
       = Ok (Returns (set_eax i r), st') ∧
     procs_of st !! arr 0 (table st) j = Some pt ∧
     (∀ a, inp ≤ a < inp + STREAM_SIZE ∨ out ≤ a < out + STREAM_SIZE → ¬ live a) ∧
     connected proc (arr 0 (table st) j) inp out i pr pt st st').
Proof.
  intros view Hc Hh Hcur Hp Hid Hs Hok Hf.
  assert (Hd : ∀ o st', connect_call fuel c proc (Interrupts.ebx r) st = Ok (o, st') →
    syscall resume fuel exit_buf exit_fmt c r st = Ok (return_to r o, st')).
  { intros o st' Hcc. apply (syscall_run _ _ _ _ c proc th r st o st' Hcur). unfold dispatch.
    rewrite Hid. exact Hcc. }
  split.
  - intros Hno. apply (Hd (Returns (-1))). by apply (connect_none _ c proc _ str).
  - intros j Hj Hcall Hfst Hne.
    destruct (connect_some fuel c live proc pr _ str st j Hc Hh Hs Hok Hf Hj Hcall Hfst Hp Hne)
      as (pt & inp & out & i & st' & Heq & Hrest).
    exists pt, inp, out, i, st'. split; [|done].
    exact (Hd (Returns i) st' Heq).
Qed.

(** ** Concrete runs *)

(** The registers of a call. *)
Definition call_regs (id ebx ecx edx : Z) : Interrupts.thread_state :=
  Interrupts.TS 0 0 0 0 0 0 ebx edx ecx id 80 0 0 0 0 0 0.

Lemma demo_current a str : current 0 0x1000 50 (demo a str).
Proof. by split. Qed.

Lemma demo_slot a str i :
  arr 0 (table (demo a str)) i ≠ 0 →
  (i = 1 ∧ arr 0 (table (demo a str)) i = 0x2000) ∨
  (i = 2 ∧ arr 0 (table (demo a str)) i = 0x1000).
Proof.
  unfold demo. cbn [table]. rewrite arr_insert. case_decide; [by left|].
  unfold arr. rewrite lookup_singleton. case_decide; [by right|done].
Qed.

Lemma demo_names a str :
  (length str < 200)%nat → Process.names_ok (process_view 0 (demo a str)) 0x500 str.
Proof.
  intros Hl i Hi Hne. change (Process.table (process_view 0 (demo a str))) with (table (demo a str)) in *.
  destruct (demo_slot a str i Hne) as [[-> Heq]|[-> Heq]]; rewrite Heq;
    (split; [|left; unfold Process.NAME; lia]); exists []; (split; [done|]);
    eexists; (split; [reflexivity|apply Process.blank_named]).
Qed.

Lemma syscall_connect_witness :
  ∃ a i st', Kmalloc.mem_allocator_init Kmalloc.allocator0 = Ok a ∧
    syscall 0xC000 9 0 0 0 (call_regs SYSCALL_CONNECT 0x500 0 0) (demo a [])
      = Ok (Returns (set_eax i (call_regs SYSCALL_CONNECT 0x500 0 0)), st').
Proof.
  destruct (Kmalloc.mem_allocator_init_good Kmalloc.allocator0) as (a & Ha & Hg).
  destruct (syscall_connect 0xC000 9 0 0 0 low 0x1000 50 (Process.blank_proc 1)
    (call_regs SYSCALL_CONNECT 0x500 0 0) [] (demo a [])) as [_ Hsome].
  - split; [discriminate|reflexivity].
  - apply demo_heap; [lia|exact Hg|simpl; lia].
  - exact (demo_current a []).
  - reflexivity.
  - reflexivity.
  - apply Strings.with_str_cstr. by constructor.
  - apply demo_names. simpl. lia.
  - simpl. lia.
  - destruct (Hsome 1) as (pt & inp & out & i & st' & Heq & _).
    + split; [discriminate|reflexivity].
    + split; [discriminate|]. exists (Process.blank_proc 2). split; [reflexivity|].
      apply Process.blank_named.
    + intros k Hk. lia.
    + discriminate.
    + exists a, i, st'. split; [exact Ha|exact Heq].
Defined.

(** The first process has a stream of its own. *)
Definition demo_stream (a : Kmalloc.mem_allocator) (str : list Z) : sys :=
  set_stream 96 Stream.stream_new
    (set_process 0x1000 (with_iodescr {[0 := Stream.IOS 96 96]} (Process.blank_proc 1)) (demo a str)).

Lemma syscall_io_witness :
  ∃ s', syscall 0xC000 9 0 0 0 (call_regs SYSCALL_WRITE 0 0x500 2) (demo_stream Kmalloc.allocator0 [79; 75])
      = Ok (Returns (set_eax 0 (call_regs SYSCALL_WRITE 0 0x500 2)),
            set_stream 96 s' (demo_stream Kmalloc.allocator0 [79; 75])) ∧
    Stream.stream_read_length s' = 2.
Proof.
  destruct (syscall_io 0xC000 9 0 0 0 0x1000 50
    (with_iodescr {[0 := Stream.IOS 96 96]} (Process.blank_proc 1))
    (call_regs SYSCALL_WRITE 0 0x500 2) (demo_stream Kmalloc.allocator0 [79; 75])
    Stream.stream_new []) as [Hw _].
  - by split.
  - reflexivity.
  - split; [discriminate|reflexivity].
  - reflexivity.
  - destruct (Hw eq_refl eq_refl Stream.ring_rep_new [79; 75]) as (s' & Heq & Hr).
    + by vm_compute.
    + reflexivity.
    + simpl. lia.
    + exists s'. split; [exact Heq|]. exact (proj1 (Stream.ring_rep_length _ _ Hr)).
Defined.

End Syscall.
