(* ===== verification/Elf.v ===== *)
(** Loading a process from an ELF image (kernel/elf.c, kernel/elf.h).

    The image lies in memory at [buf]; header and section table are read
    field by field at the offsets of [struct elf_header] and [struct
    elf_section].  [lit] gives the addresses of the four section names in the
    kernel's image and what [sched_thread_ready] prints with.  [elf_section_step] is one turn of the loop.  The C code
    checks nothing of the image, and neither does the model. *)

From Stdlib Require Import ZArith Lia.
From stdpp Require Import base option list gmap.
From S2P Require Import Prelude Interfaces Locks Palloc Strings Paging Stream Timer Thread Scheduler.
From S2P Require Import Kmalloc Memory Screen Interrupts Process System.

Module Elf.
Import Thread System.

(** Offsets in [struct elf_header] and [struct elf_section]. *)
Definition E_ENTRY : Z := 24.
Definition E_SHOFF : Z := 32.
Definition E_SHNUM : Z := 48.
Definition E_SHTRNDX : Z := 50.
Definition SH_NAME : Z := 0.
Definition SH_ADDR : Z := 12.
Definition SH_OFFSET : Z := 16.
Definition SH_SIZE : Z := 20.
(** [sizeof(struct elf_section)] *)
Definition SECTION_SIZE : Z := 40.

Definition load16 (a : Z) (m : mem8) : res Z :=
  b0 ← Strings.load8 a m; b1 ← Strings.load8 (a + 1) m; Ok (b0 + 256 * b1).

(** The section names in the kernel's image; the format and the buffer of the
    message of [sched_thread_ready]. *)
Record literals := Lits {
  l_text : Z; l_data : Z; l_bss : Z; l_rodata : Z; l_ready : Z; l_buf : Z
}.

(** The four local variables. *)
Record sections := Secs {
  s_text : proc_section; s_data : proc_section; s_bss : proc_section; s_rodata : proc_section
}.

Definition no_sections : sections := Secs section0 section0 section0 section0.

(** What each branch assigns. *)
Definition load_section (buf sec : Z) (m : mem8) : res proc_section :=
  addr ← Memory.load32 (sec + SH_ADDR) m;
  size ← Memory.load32 (sec + SH_SIZE) m;
  off ← Memory.load32 (sec + SH_OFFSET) m;
  Ok (Sect addr (Memory.page_align (u32 (buf + off))) (Memory.page_count size)).

(** [if (!kstrcmp(str_tab + sections[i].sh_name, lit)) ...] *)
Definition when_named (fuel : nat) (m : mem8) (nm lit buf sec : Z)
    (set : proc_section → sections → sections) (s : sections) : res sections :=
  r ← Strings.kstrcmp fuel m nm lit;
  if bool_decide (r = 0) then x ← load_section buf sec m; Ok (set x s) else Ok s.

Definition set_text (x : proc_section) (s : sections) : sections :=
  Secs x (s_data s) (s_bss s) (s_rodata s).
Definition set_data (x : proc_section) (s : sections) : sections :=
  Secs (s_text s) x (s_bss s) (s_rodata s).
Definition set_rodata (x : proc_section) (s : sections) : sections :=
  Secs (s_text s) (s_data s) (s_bss s) x.

(** The loop body; the branch of the third name assigns [data] too. *)
Definition elf_section_step (fuel : nat) (m : mem8) (lit : literals) (buf table str_tab i : Z)
    (s : sections) : res sections :=
  let sec := table + SECTION_SIZE * i in
  sh_name ← Memory.load32 (sec + SH_NAME) m;
  let nm := u32 (str_tab + sh_name) in
  s ← when_named fuel m nm (l_text lit) buf sec set_text s;
  s ← when_named fuel m nm (l_data lit) buf sec set_data s;
  s ← when_named fuel m nm (l_bss lit) buf sec set_data s;
  when_named fuel m nm (l_rodata lit) buf sec set_rodata s.

(** The sections and the entry point of the image. *)
Definition elf_parse (fuel : nat) (m : mem8) (lit : literals) (buf : Z) : res (sections * Z) :=
  e_shoff ← Memory.load32 (buf + E_SHOFF) m;
  let table := u32 (buf + e_shoff) in
  e_shtrndx ← load16 (buf + E_SHTRNDX) m;
  off ← Memory.load32 (table + SECTION_SIZE * e_shtrndx + SH_OFFSET) m;
  let str_tab := u32 (buf + off) in
  e_shnum ← load16 (buf + E_SHNUM) m;
  s ← for_upto e_shnum (elf_section_step fuel m lit buf table str_tab) no_sections;
  e_entry ← Memory.load32 (buf + E_ENTRY) m;
  Ok (s, e_entry).

Section Load.
Context {F : Type} `{FrameAlloc F} {M : Type} `{QueueStore (Z * Z) M}.
Context (kdir leave_kernel_at : Z) (lit : literals).
Notation sys := (sys (F := F) (M := M)).

Definition elf_load (fuel : nat) (c buf : Z) (st : sys) : res (Z * sys) :=
  '(s, e_entry) ← elf_parse fuel (bytes st) lit buf;
  '(proc, st) ← on_process c
    (Process.proc_create kdir (s_text s) (s_data s) (s_bss s) (s_rodata s)) st;
  '(thread, st) ← on_process c
    (Process.thread_create kdir leave_kernel_at proc e_entry Interrupts.THREAD_USERSPACE) st;
  st ← sched_thread_ready fuel (l_ready lit) (l_buf lit) c thread st;
  Ok (0, st).

End Load.

(** ** The section table as a list *)

(** A section: its name and the fields the loader reads. *)
Record section := Sec { sec_name : list Z; sec_addr : Z; sec_off : Z; sec_size : Z }.

(** What the loader keeps of a section of an image at [buf]. *)
Definition loaded (buf : Z) (x : section) : proc_section :=
  Sect (sec_addr x) (Memory.page_align (u32 (buf + sec_off x))) (Memory.page_count (sec_size x)).

(** The last section with one of the names. *)
Definition last_of (buf : Z) (names : list (list Z)) (l : list section) : proc_section :=
  foldl (λ s x, if decide (sec_name x ∈ names) then loaded buf x else s) section0 l.

Definition dot_text : list Z := [46; 116; 101; 120; 116].
Definition dot_data : list Z := [46; 100; 97; 116; 97].
Definition dot_bss : list Z := [46; 98; 115; 115].
Definition dot_rodata : list Z := [46; 114; 111; 100; 97; 116; 97].

Record literals_at (m : mem8) (lit : literals) : Prop := {
  la_text : Strings.cstr m (l_text lit) dot_text;
  la_data : Strings.cstr m (l_data lit) dot_data;
  la_bss : Strings.cstr m (l_bss lit) dot_bss;
  la_rodata : Strings.cstr m (l_rodata lit) dot_rodata
}.

(** The entry [sec] of a section table with names in [str_tab]. *)
Definition section_at (fuel : nat) (m : mem8) (str_tab sec : Z) (x : section) : Prop :=
  ∃ n, Memory.load32 (sec + SH_NAME) m = Ok n ∧
    Strings.cstr m (u32 (str_tab + n)) (sec_name x) ∧ (length (sec_name x) < fuel)%nat ∧
    Memory.load32 (sec + SH_ADDR) m = Ok (sec_addr x) ∧
    Memory.load32 (sec + SH_OFFSET) m = Ok (sec_off x) ∧
    Memory.load32 (sec + SH_SIZE) m = Ok (sec_size x).

(** An image with the sections [l] and the entry point [entry] at [buf]. *)
Definition image_at (fuel : nat) (m : mem8) (buf entry : Z) (l : list section) : Prop :=
  ∃ shoff ndx off,
    Memory.load32 (buf + E_SHOFF) m = Ok shoff ∧ load16 (buf + E_SHTRNDX) m = Ok ndx ∧
    Memory.load32 (u32 (buf + shoff) + SECTION_SIZE * ndx + SH_OFFSET) m = Ok off ∧
    load16 (buf + E_SHNUM) m = Ok (Z.of_nat (length l)) ∧
    Memory.load32 (buf + E_ENTRY) m = Ok entry ∧
    ∀ i x, l !! i = Some x →
      section_at fuel m (u32 (buf + off)) (u32 (buf + shoff) + SECTION_SIZE * Z.of_nat i) x.

(** What the loop keeps of the sections [l]. *)
Definition picked (buf : Z) (l : list section) : sections :=
  Secs (last_of buf [dot_text] l) (last_of buf [dot_data; dot_bss] l) section0
    (last_of buf [dot_rodata] l).

Lemma last_of_snoc buf names l x :
  last_of buf names (l ++ [x]) =
  if decide (sec_name x ∈ names) then loaded buf x else last_of buf names l.
Proof. unfold last_of. by rewrite foldl_snoc. Qed.

Lemma load_section_ok fuel m str_tab buf sec x :
  section_at fuel m str_tab sec x → load_section buf sec m = Ok (loaded buf x).
Proof.
  intros (n & _ & _ & _ & Ha & Ho & Hs). unfold load_section.
  by rewrite (bind_ok _ _ _ Ha), (bind_ok _ _ _ Hs), (bind_ok _ _ _ Ho).
Qed.

Lemma when_named_ok fuel m buf sec x nm lit str set s :
  load_section buf sec m = Ok (loaded buf x) → Strings.cstr m nm (sec_name x) →
  (length (sec_name x) < fuel)%nat → Strings.cstr m lit str →
  when_named fuel m nm lit buf sec set s =
  Ok (if decide (sec_name x = str) then set (loaded buf x) s else s).
Proof.
  intros Hx Hn Hf Hl. destruct (Strings.kstrcmp_ok fuel m nm lit _ _ Hn Hl Hf) as (r & Hr & H0 & _).
  unfold when_named. rewrite (bind_ok _ _ _ Hr). case_decide as Hd.
  - rewrite (proj2 H0 Hd), bool_decide_true by done. by rewrite (bind_ok _ _ _ Hx).
  - rewrite bool_decide_false; [done|]. intros Hr0. by apply Hd, H0.
Qed.

Lemma elf_section_step_ok fuel m lit buf table str_tab i x l :
  literals_at m lit → section_at fuel m str_tab (table + SECTION_SIZE * i) x →
  elf_section_step fuel m lit buf table str_tab i (picked buf l) = Ok (picked buf (l ++ [x])).
Proof.
  intros [Ht Hd Hb Hr] Hx. pose proof (load_section_ok _ _ _ buf _ _ Hx) as Hload.
  destruct Hx as (n & Hn & Hnm & Hf & _). unfold elf_section_step.
  rewrite (bind_ok _ _ _ Hn). cbv zeta.
  rewrite (bind_ok _ _ _ (when_named_ok _ _ _ _ _ _ _ _ set_text _ Hload Hnm Hf Ht)).
  rewrite (bind_ok _ _ _ (when_named_ok _ _ _ _ _ _ _ _ set_data _ Hload Hnm Hf Hd)).
  rewrite (bind_ok _ _ _ (when_named_ok _ _ _ _ _ _ _ _ set_data _ Hload Hnm Hf Hb)).
  rewrite (when_named_ok _ _ _ _ _ _ _ _ set_rodata _ Hload Hnm Hf Hr).
  unfold picked. rewrite !last_of_snoc. f_equal.
  assert (Hin : ∀ a : list Z, sec_name x ∈ [a] ↔ sec_name x = a) by (intros a; apply list_elem_of_singleton).
  assert (Hin2 : sec_name x ∈ [dot_data; dot_bss] ↔ sec_name x = dot_data ∨ sec_name x = dot_bss)
    by (by rewrite elem_of_cons, list_elem_of_singleton).
  repeat case_decide; rewrite ?Hin, ?Hin2 in *; try done; try congruence; try tauto;
    destruct_or?; congruence.
Qed.

Lemma elf_parse_ok fuel m lit buf entry l :
  literals_at m lit → image_at fuel m buf entry l →
  elf_parse fuel m lit buf = Ok (picked buf l, entry).
Proof.
  intros Hlit (shoff & ndx & off & H1 & H2 & H3 & H4 & H5 & Hsec). unfold elf_parse.
  rewrite (bind_ok _ _ _ H1). cbv zeta. rewrite (bind_ok _ _ _ H2), (bind_ok _ _ _ H3).
  rewrite (bind_ok _ _ _ H4).
  destruct (for_upto_inv (λ i s, s = picked buf (take (Z.to_nat i) l)) (Z.of_nat (length l))
    (elf_section_step fuel m lit buf (u32 (buf + shoff)) (u32 (buf + off))) no_sections)
    as (s & Hs & ->); [lia|done| |].
  - intros j s Hj ->. destruct (lookup_lt_is_Some_2 l (Z.to_nat j)) as [x Hx]; [lia|].
    eexists. split; [|reflexivity].
    replace (Z.to_nat (j + 1)) with (S (Z.to_nat j)) by lia. rewrite (take_S_r _ _ _ Hx).
    apply elf_section_step_ok; [done|]. specialize (Hsec _ _ Hx). by rewrite Z2Nat.id in Hsec by lia.
  - rewrite (bind_ok _ _ _ Hs), (bind_ok _ _ _ H5). by rewrite Nat2Z.id, firstn_all.
Qed.

(** ** An image in a larger memory *)

Lemma cstr_sub m m' p str : m ⊆ m' → Strings.cstr m p str → Strings.cstr m' p str.
Proof.
  intros Hs. revert p. induction str as [|ch str IH]; intros p; cbn [Strings.cstr].
  - intros Hp. by apply (lookup_weaken m).
  - intros (Hc & Hok & Hr). split; [by apply (lookup_weaken m)|]. split; [done|by apply IH].
Qed.

Lemma load8_sub m m' a v : m ⊆ m' → Strings.load8 a m = Ok v → Strings.load8 a m' = Ok v.
Proof.
  intros Hs. unfold Strings.load8. destruct (m !! a) as [b|] eqn:Hb; [|done].
  by rewrite (lookup_weaken _ _ _ _ Hb Hs).
Qed.

Lemma load16_sub m m' a v : m ⊆ m' → load16 a m = Ok v → load16 a m' = Ok v.
Proof.
  intros Hs Hl. unfold load16 in *. apply res_bind_Ok in Hl as (b0 & H0 & Hl).
  apply res_bind_Ok in Hl as (b1 & H1 & Hl).
  by rewrite (bind_ok _ _ _ (load8_sub _ _ _ _ Hs H0)), (bind_ok _ _ _ (load8_sub _ _ _ _ Hs H1)).
Qed.

Lemma load32_sub m m' a v : m ⊆ m' → Memory.load32 a m = Ok v → Memory.load32 a m' = Ok v.
Proof.
  intros Hs Hl. unfold Memory.load32 in *.
  apply res_bind_Ok in Hl as (b0 & H0 & Hl). apply res_bind_Ok in Hl as (b1 & H1 & Hl).
  apply res_bind_Ok in Hl as (b2 & H2 & Hl). apply res_bind_Ok in Hl as (b3 & H3 & Hl).
  rewrite (bind_ok _ _ _ (load8_sub _ _ _ _ Hs H0)), (bind_ok _ _ _ (load8_sub _ _ _ _ Hs H1)).
  by rewrite (bind_ok _ _ _ (load8_sub _ _ _ _ Hs H2)), (bind_ok _ _ _ (load8_sub _ _ _ _ Hs H3)).
Qed.

Lemma literals_at_sub m m' lit : m ⊆ m' → literals_at m lit → literals_at m' lit.
Proof. intros Hs []. split; by apply (cstr_sub m). Qed.

Lemma section_at_sub fuel m m' str_tab sec x :
  m ⊆ m' → section_at fuel m str_tab sec x → section_at fuel m' str_tab sec x.
Proof.
  intros Hs (n & H1 & H2 & H3 & H4 & H5 & H6). exists n.
  split; [by apply (load32_sub m)|]. split; [by apply (cstr_sub m)|]. split; [done|].
  split; [by apply (load32_sub m)|]. split; by apply (load32_sub m).
Qed.

Lemma image_at_sub fuel m m' buf entry l :
  m ⊆ m' → image_at fuel m buf entry l → image_at fuel m' buf entry l.
Proof.
  intros Hs (shoff & ndx & off & H1 & H2 & H3 & H4 & H5 & H6). exists shoff, ndx, off.
  split; [by apply (load32_sub m)|]. split; [by apply (load16_sub m)|].
  split; [by apply (load32_sub m)|]. split; [by apply (load16_sub m)|].
  split; [by apply (load32_sub m)|]. intros i x Hx. by apply (section_at_sub fuel m), H6.
Qed.

(** ** Properties *)

(** C29. [elf_load] takes the last section of each name: .text and .rodata go
    where they belong; .bss is taken for another .data, so that the data of
    the process is the later of the two and its .bss is empty.  Each starts at
    the page of its bytes in the image.  The entry point is that of the
    header. *)
Theorem elf_parse_picks fuel m lit buf entry l :
  literals_at m lit → image_at fuel m buf entry l →
  elf_parse fuel m lit buf = Ok (Secs (last_of buf [dot_text] l) (last_of buf [dot_data; dot_bss] l)
    section0 (last_of buf [dot_rodata] l), entry).
Proof. exact (elf_parse_ok fuel m lit buf entry l). Qed.

(** ** A concrete image *)

Definition section_bytes (nm : Z) (x : section) : list Z :=
  Memory.le32 nm ++ replicate 8 0 ++ Memory.le32 (sec_addr x) ++ Memory.le32 (sec_off x) ++
  Memory.le32 (sec_size x) ++ replicate 16 0.

(** Three sections, the last the string table; no .data. *)
Definition demo_sections : list section :=
  [Sec dot_text 0x400000 0x1000 0x1234; Sec dot_bss 0x402000 0x3000 0x30; Sec [] 0 172 12].

Definition demo_image : list Z :=
  replicate 24 0 ++ Memory.le32 0x400010 ++ replicate 4 0 ++ Memory.le32 52 ++ replicate 12 0 ++
  [3; 0; 2; 0] ++ concat (zip_with section_bytes [1; 7; 0] demo_sections) ++
  0 :: dot_text ++ 0 :: dot_bss ++ [0].

Definition demo_lits : literals := Lits 0x500 0x510 0x520 0x530 0x540 0x600.

Definition demo_memory : mem8 :=
  Strings.with_str 0x500 dot_text (Strings.with_str 0x510 dot_data
    (Strings.with_str 0x520 dot_bss (Strings.with_str 0x530 dot_rodata
      (Memory.fill 0x100000 demo_image)))).

Lemma demo_literals : literals_at demo_memory demo_lits.
Proof. split; by vm_compute. Qed.

Lemma demo_image_at : image_at 8 demo_memory 0x100000 0x400010 demo_sections.
Proof.
  exists 52, 2, 172. do 5 (split; [by vm_compute|]).
  intros [|[|[|i]]] x Hx; [injection Hx as <-..|discriminate Hx].
  - exists 1. split; [by vm_compute|]. split; [by vm_compute|]. split; [simpl; lia|]. by vm_compute.
  - exists 7. split; [by vm_compute|]. split; [by vm_compute|]. split; [simpl; lia|]. by vm_compute.
  - exists 0. split; [by vm_compute|]. split; [by vm_compute|]. split; [simpl; lia|]. by vm_compute.
Qed.

Lemma elf_parse_picks_witness :
  elf_parse 8 demo_memory demo_lits 0x100000 =
  Ok (Secs (Sect 0x400000 0x101000 2) (Sect 0x402000 0x103000 1) section0 section0, 0x400010).
Proof.
  exact (elf_parse_picks 8 demo_memory demo_lits 0x100000 0x400010 demo_sections
    demo_literals demo_image_at).
Defined.

End Elf.
