(* ===== verification/Mboot.v ===== *)
(** Boot information (kernel/mboot.c, kernel/mboot.h).

    The structures of the boot loader lie in memory, which is mapped to itself
    then; [mboot_parse] works on the state of Memory.v over the page frame
    allocator of palloc.c.  The command line is read through a page mapped at
    [0x70000]: [show_page] puts the bytes of its frame there. *)

From Stdlib Require Import ZArith Lia.
From stdpp Require Import base option list gmap.
From S2P Require Import Prelude Interfaces Locks Palloc Strings Paging Stream Timer Thread Scheduler.
From S2P Require Import Kmalloc Memory Screen Interrupts Process System Elf.

Module Mboot.
Import System.

(** Offsets in [struct mboot] and [struct module_info]. *)
Definition FLAGS : Z := 0.
Definition CMDLINE : Z := 16.
Definition MODS_COUNT : Z := 20.
Definition MODS_ADDR : Z := 24.
Definition MMAP_LENGTH : Z := 44.
Definition MMAP_ADDR : Z := 48.
Definition MOD_START : Z := 0.
Definition MOD_END : Z := 4.
(** [sizeof(struct module_info)] *)
Definition MODULE_SIZE : Z := 16.

Notation memory := (Memory.memory (F := Palloc.palloc)).

Definition frames_of (s : memory) : Palloc.palloc := Paging.frames (Memory.vm (Memory.area s)).

Definition with_frames (fr : Palloc.palloc) (s : memory) : memory :=
  let v := Memory.vm (Memory.area s) in
  Memory.Mem (Memory.Brk (Memory.heap (Memory.area s)) (Paging.MM (Paging.ram v) (Paging.cr3 v) fr))
    (Memory.lock s) (Memory.stats s) (Memory.allocator s).

(** One turn of the loop of [mboot_parse]. *)
Definition module_step (m : mem8) (s : Z * Palloc.palloc) : res (Z * Palloc.palloc) :=
  let '(mod_info, fr) := s in
  mod_end ← Memory.load32 (mod_info + MOD_END) m;
  mod_start ← Memory.load32 (mod_info + MOD_START) m;
  let pages := Memory.page_count (u32 (mod_end - Memory.page_align mod_start)) in
  fr ← Palloc.mem_phys_reserve_range (Memory.page_align mod_start) pages fr;
  fr ← Palloc.mem_phys_reserve (Memory.page_align mod_info) fr;
  Ok (u32 (mod_info + MODULE_SIZE), fr).

Definition mboot_parse (fuel : nat) (m : mem8) (mboot : Z) (s : memory) : res memory :=
  fr ← Palloc.mem_phys_init (frames_of s);
  let s := with_frames fr s in
  mmap_addr ← Memory.load32 (mboot + MMAP_ADDR) m;
  mmap_length ← Memory.load32 (mboot + MMAP_LENGTH) m;
  s ← Memory.mem_init fuel m mmap_addr mmap_length s;
  fr ← Palloc.mem_phys_reserve (Memory.page_align mboot) (frames_of s);
  mods_addr ← Memory.load32 (mboot + MODS_ADDR) m;
  mods_count ← Memory.load32 (mboot + MODS_COUNT) m;
  '(_, fr) ← for_upto mods_count (λ _, module_step m) (mods_addr, fr);
  Ok (with_frames fr s).

(** ** Loading the modules *)

Section Modules.
Context {F : Type} `{FrameAlloc F} {M : Type} `{QueueStore (Z * Z) M}.
Context (kdir leave_kernel_at : Z) (lit : Elf.literals).

Definition mboot_load_modules (fuel : nat) (c mboot : Z) (st : sys (F := F) (M := M)) : res sys :=
  mods_addr ← Memory.load32 (mboot + MODS_ADDR) (bytes st);
  mods_count ← Memory.load32 (mboot + MODS_COUNT) (bytes st);
  '(_, st) ← for_upto mods_count (λ _ '(mod_info, st),
    mod_start ← Memory.load32 (mod_info + MOD_START) (bytes st);
    '(_, st) ← Elf.elf_load kdir leave_kernel_at lit fuel c mod_start st;
    Ok (u32 (mod_info + MODULE_SIZE), st)) (mods_addr, st);
  Ok st.

End Modules.

(** ** The command line *)

(** What the parser uses: the page tables, memory, the console and
    [maximum_cpu]. *)
Record boot := Boot {
  vm : Paging.mm Palloc.palloc; bytes : mem8; console : Screen.screen; maximum_cpu : Z
}.

(** [virt] shows the page of the address [phys]. *)
Definition show_page (virt phys : Z) (m : mem8) : mem8 :=
  foldr (λ i, partial_alter (λ _, m !! (Paging.frame_of phys + i)) (virt + i)) m
    (seqZ 0 PAGE_SIZE).

(** Addresses of the string literals and of [buf]. *)
Record texts := Texts { t_newline : Z; t_max_cpu : Z; t_found : Z; t_buf : Z }.

Definition mboot_parse_cmdline (fuel : nat) (t : texts) (mboot : Z) (s : boot) : res boot :=
  let cmdline := 0x70000 in
  flags ← Memory.load32 (mboot + FLAGS) (bytes s);
  if negb (bool_decide (flags = 0)) && negb (bool_decide (0x04 = 0)) then
    phys ← Memory.load32 (mboot + CMDLINE) (bytes s);
    v ← Paging.paging_map cmdline phys Paging.PAGE_PRESENT (vm s);
    let m := show_page cmdline phys (bytes s) in
    sc ← Screen.screen_putstr fuel m cmdline (console s);
    sc ← Screen.screen_putstr fuel m (t_newline t) sc;
    max_cpu_param ← Strings.cmdline_find fuel m cmdline (t_max_cpu t);
    if bool_decide (max_cpu_param = 0) then Ok (Boot v m sc (maximum_cpu s)) else
    x ← Strings.load8 (max_cpu_param + 8) m;
    let n := u8 (s8 x - 48) in
    '(str, m) ← Strings.kprintf fuel m (t_buf t) (t_found t) [n];
    sc ← Screen.screen_putstr fuel m str sc;
    Ok (Boot v m sc n)
  else Ok s.

(** ** The modules in memory *)

Record module_info := Module_ { mod_start : Z; mod_end : Z }.

Fixpoint modules_at (m : mem8) (p : Z) (l : list module_info) : Prop :=
  match l with
  | [] => True
  | x :: l =>
      Memory.load32 (p + MOD_START) m = Ok (mod_start x) ∧
      Memory.load32 (p + MOD_END) m = Ok (mod_end x) ∧
      modules_at m (p + MODULE_SIZE) l
  end.

(** A module that ends at least a page below 4 GiB. *)
Definition module_ok (x : module_info) : Prop :=
  0 ≤ mod_start x ≤ mod_end x ∧ mod_end x + PAGE_SIZE ≤ 2 ^ 32.

(** Frame [p] has bytes of the module. *)
Definition module_page (x : module_info) (p : Z) : Prop :=
  mod_start x / PAGE_SIZE ≤ p ∧ PAGE_SIZE * p < mod_end x.

(** Frame [p] has the beginning of an entry of the table of [n] modules. *)
Definition table_page (addr : Z) (n : nat) (p : Z) : Prop :=
  ∃ i, 0 ≤ i < Z.of_nat n ∧ p = (addr + MODULE_SIZE * i) / PAGE_SIZE.

(** ** Lemmas *)

Lemma module_pages x p :
  module_ok x →
  Palloc.in_range (Memory.page_align (mod_start x))
    (Memory.page_count (u32 (mod_end x - Memory.page_align (mod_start x)))) p ↔ module_page x p.
Proof.
  intros [Hx Hend]. rewrite PAGE_SIZE_eq in Hend.
  assert (Ha : Memory.page_align (mod_start x) = 4096 * (mod_start x / 4096)).
  { rewrite Memory.page_align_eq, PAGE_SIZE_eq by lia. done. }
  assert (Hc : Memory.page_count (u32 (mod_end x - Memory.page_align (mod_start x)))
    = (mod_end x - 4096 * (mod_start x / 4096) + 4095) / 4096).
  { unfold Memory.page_count. rewrite Ha, PAGE_SIZE_eq.
    rewrite (u32_small (mod_end x - 4096 * (mod_start x / 4096))) by dlia.
    rewrite u32_small by dlia. f_equal. lia. }
  unfold Palloc.in_range, module_page. rewrite Hc, Ha, PAGE_SIZE_eq. split.
  - intros (i & Hi & ->). rewrite (u32_small (4096 * i)) by dlia. rewrite u32_small by dlia. dlia.
  - intros Hp. exists (p - mod_start x / 4096). split; [dlia|].
    rewrite (u32_small (4096 * (p - mod_start x / 4096))) by dlia. rewrite u32_small by dlia. dlia.
Qed.

(** One module. *)
Lemma module_step_ok m p x fr :
  Memory.load32 (p + MOD_START) m = Ok (mod_start x) →
  Memory.load32 (p + MOD_END) m = Ok (mod_end x) → module_ok x →
  0 ≤ p → p + MODULE_SIZE < 2 ^ 32 → Palloc.pwf fr →
  ∃ fr', module_step m (p, fr) = Ok (p + MODULE_SIZE, fr') ∧ Palloc.pwf fr' ∧
    Palloc.lock fr' = Palloc.lock fr ∧
    ∀ q, Palloc.page_free fr' q ↔ Palloc.page_free fr q ∧ ¬ module_page x q ∧ q ≠ p / PAGE_SIZE.
Proof.
  intros Hs He Hx Hp Hfin Hwf. change MODULE_SIZE with 16 in *. unfold module_step.
  rewrite (bind_ok _ _ _ He), (bind_ok _ _ _ Hs). cbv zeta.
  destruct (Palloc.mem_phys_reserve_range_ok (Memory.page_align (mod_start x))
    (Memory.page_count (u32 (mod_end x - Memory.page_align (mod_start x)))) fr)
    as (f1 & H1 & Hw1 & Hl1 & Hf1); [apply Z.div_pos; [apply u32_range|done]|done|].
  rewrite (bind_ok _ _ _ H1).
  assert (Ha : Memory.page_align p = PAGE_SIZE * (p / PAGE_SIZE))
    by (apply Memory.page_align_eq; lia).
  destruct (Palloc.mem_phys_reserve_ok (Memory.page_align p) f1) as (f2 & H2 & Hw2 & Hl2 & Hf2);
    [rewrite Ha, PAGE_SIZE_eq; dlia|done|].
  rewrite (bind_ok _ _ _ H2). change MODULE_SIZE with 16. rewrite u32_small by lia.
  exists f2. split; [done|]. split; [done|]. split; [congruence|].
  intros q. rewrite Hf2, Hf1, module_pages by done.
  replace (Memory.page_align p / PAGE_SIZE) with (p / PAGE_SIZE); [tauto|].
  rewrite Ha, PAGE_SIZE_eq. dlia.
Qed.

Lemma table_page_cons addr n p :
  table_page addr (S n) p ↔ p = addr / PAGE_SIZE ∨ table_page (addr + MODULE_SIZE) n p.
Proof.
  unfold table_page. change MODULE_SIZE with 16. split.
  - intros (i & Hi & ->). destruct (decide (i = 0)) as [->|].
    + left. f_equal. lia.
    + right. exists (i - 1). split; [lia|]. f_equal. lia.
  - intros [->|(i & Hi & ->)]; [exists 0|exists (i + 1)]; (split; [lia|]); f_equal; lia.
Qed.

Lemma modules_loop m l : ∀ j p fr,
  modules_at m p l → Forall module_ok l → 0 ≤ p →
  p + MODULE_SIZE * Z.of_nat (length l) < 2 ^ 32 → Palloc.pwf fr →
  ∃ p' fr', for_from (λ _, module_step m) (length l) j (p, fr) = Ok (p', fr') ∧ Palloc.pwf fr' ∧
    Palloc.lock fr' = Palloc.lock fr ∧
    ∀ q, Palloc.page_free fr' q ↔ Palloc.page_free fr q ∧
      (∀ x, x ∈ l → ¬ module_page x q) ∧ ¬ table_page p (length l) q.
Proof.
  induction l as [|x l IH]; intros j p fr Hm Hok Hp Hfin Hwf; cbn [length for_from].
  { exists p, fr. split; [done|]. split; [done|]. split; [done|]. intros q. split; [|tauto].
    intros Hq. split; [done|]. split; [by intros x ?%not_elem_of_nil|].
    intros (i & Hi & _). simpl in Hi. lia. }
  destruct Hm as (Hs & He & Hm). apply Forall_cons in Hok as [Hx Hok].
  change MODULE_SIZE with 16 in *. cbn [length] in Hfin.
  destruct (module_step_ok m p x fr Hs He Hx Hp) as (f1 & H1 & Hw1 & Hl1 & Hf1);
    [change MODULE_SIZE with 16; lia|done|].
  rewrite (bind_ok _ _ _ H1). change MODULE_SIZE with 16.
  destruct (IH (j + 1) (p + 16) f1) as (p' & f2 & H2 & Hw2 & Hl2 & Hf2); [done|done|lia|lia|done|].
  exists p', f2. split; [exact H2|]. split; [done|]. split; [congruence|]. intros q.
  rewrite Hf2, Hf1, table_page_cons. change MODULE_SIZE with 16. split.
  - intros ((Hq & Hxq & Hpq) & Hl & Ht). split; [done|]. split; [|tauto].
    intros y [->|Hy]%elem_of_cons; [done|by apply Hl].
  - intros (Hq & Hl & Ht). split; [|split; [|tauto]].
    + split; [done|]. split; [|tauto]. apply Hl, elem_of_cons. by left.
    + intros y Hy. apply Hl, elem_of_cons. by right.
Qed.

(** ** The command line *)

Lemma fold_alter_lookup (base src : Z) (m : mem8) l : ∀ x, NoDup l →
  foldr (λ i, partial_alter (λ _, m !! (src + i)) (base + i)) m l !! x =
  if decide (x - base ∈ l) then m !! (src + (x - base)) else m !! x.
Proof.
  induction l as [|i l IH]; intros x Hnd; cbn [foldr].
  { rewrite decide_False; [done|]. apply not_elem_of_nil. }
  apply NoDup_cons in Hnd as [Hi Hnd]. destruct (decide (base + i = x)) as [<-|Hne].
  - rewrite lookup_partial_alter_eq. replace (base + i - base) with i by lia.
    rewrite decide_True; [done|]. apply elem_of_cons. by left.
  - rewrite lookup_partial_alter_ne, IH by done. destruct (decide (x - base ∈ l)) as [H2|H2].
    + rewrite decide_True; [done|]. apply elem_of_cons. by right.
    + rewrite decide_False; [done|]. rewrite elem_of_cons. intros [?|?]; [lia|done].
Qed.

Lemma show_page_in virt phys m i :
  0 ≤ i < PAGE_SIZE → show_page virt phys m !! (virt + i) = m !! (Paging.frame_of phys + i).
Proof.
  intros Hi. unfold show_page. rewrite fold_alter_lookup by apply NoDup_seqZ.
  replace (virt + i - virt) with i by lia. rewrite decide_True; [done|]. apply elem_of_seqZ. lia.
Qed.

Lemma show_page_out virt phys m x :
  ¬ (virt ≤ x < virt + PAGE_SIZE) → show_page virt phys m !! x = m !! x.
Proof.
  intros Hx. unfold show_page. rewrite fold_alter_lookup by apply NoDup_seqZ.
  rewrite decide_False; [done|]. rewrite elem_of_seqZ. lia.
Qed.

(** A string at the beginning of the page. *)
Lemma show_page_str virt phys m str :
  Strings.cstr m (Paging.frame_of phys) str → Z.of_nat (length str) < PAGE_SIZE →
  Strings.cstr (show_page virt phys m) virt str.
Proof.
  intros (Hb & Hc & H0)%Strings.cstr_bytes Hl. apply Strings.cstr_bytes. split; [|split; [done|]].
  - apply Process.bytes_at_intro. intros i c Hi. pose proof (lookup_lt_Some _ _ _ Hi).
    rewrite show_page_in by lia. by apply (Process.bytes_at_lookup _ _ str).
  - by rewrite show_page_in by lia.
Qed.

Lemma show_page_other virt phys m p str :
  Strings.cstr m p str → (p + Z.of_nat (length str) < virt ∨ virt + PAGE_SIZE ≤ p) →
  Strings.cstr (show_page virt phys m) p str.
Proof.
  intros (Hb & Hc & H0)%Strings.cstr_bytes Hp. apply Strings.cstr_bytes. split; [|split; [done|]].
  - apply Process.bytes_at_intro. intros i c Hi. pose proof (lookup_lt_Some _ _ _ Hi).
    rewrite show_page_out by lia. by apply (Process.bytes_at_lookup _ _ str).
  - by rewrite show_page_out by lia.
Qed.

(** The texts of the parser: a new line, "max_cpu=", and "found ", a
    hexadecimal number and dots and a new line. *)
Definition max_cpu_text : list Z := [109; 97; 120; 95; 99; 112; 117; 61].

Definition found_pieces (n : Z) : list Strings.piece :=
  (Strings.Lit <$> [102; 111; 117; 110; 100; 32]) ++ [Strings.Hex n] ++
  (Strings.Lit <$> [46; 46; 46; 10]).

Definition found_format : list Z := concat (Strings.format_of <$> found_pieces 0).

(** [n + 1] bytes at [p] lie outside the page at [0x70000]. *)
Definition aside (p n : Z) : Prop := p + n < 0x70000 ∨ 0x70000 + PAGE_SIZE ≤ p.

(** The texts and the buffer lie outside that page, the format outside the
    buffer. *)
Record texts_at (m : mem8) (t : texts) : Prop := {
  tx_newline : Strings.cstr m (t_newline t) [10];
  tx_max_cpu : Strings.cstr m (t_max_cpu t) max_cpu_text;
  tx_found : Strings.cstr m (t_found t) found_format;
  tx_buf : Strings.writable m (t_buf t) 64;
  tx_aside : aside (t_newline t) 1 ∧ aside (t_max_cpu t) 8 ∧ aside (t_found t) 12 ∧
    aside (t_buf t) 64;
  tx_apart : t_found t + 12 < t_buf t ∨ t_buf t + 64 ≤ t_found t
}.

(** The number of processors asked for is printed. *)
Lemma print_found fuel m t n :
  Strings.cstr m (t_found t) found_format → Strings.writable m (t_buf t) 64 →
  t_found t + 12 < t_buf t ∨ t_buf t + 64 ≤ t_found t → 0 ≤ n < 256 → (40 < fuel)%nat →
  ∃ m' out, Strings.kprintf fuel m (t_buf t) (t_found t) [n] = Ok (t_buf t, m') ∧
    Strings.cstr m' (t_buf t) out ∧ (length out < fuel)%nat ∧ Strings.changed (t_buf t) 64 m m'.
Proof.
  intros Hf Hw Hlt Hn Hfuel.
  destruct (Strings.kprintf_cstr fuel 1 m (t_buf t) (t_found t) (found_pieces n))
    as (m' & out & Hk & Hc & Hl & Hch).
  - unfold found_pieces. repeat (constructor; [simpl; unfold Strings.char_ok; lia|]). constructor.
  - exact Hf.
  - eapply Strings.writable_sub; [exact Hw|lia|]. change (Strings.room (found_pieces n)) with 20. lia.
  - unfold Strings.outside. change (length _) with 12%nat.
    change (Strings.room (found_pieces n)) with 20. lia.
  - unfold found_pieces. repeat (constructor; [exact I|]). constructor.
  - change (length (found_pieces n)) with 11%nat. lia.
  - change (Strings.room (found_pieces n)) with 20 in *. exists m', out. split; [exact Hk|]. split; [done|].
    split; [lia|]. apply (Strings.changed_widen (t_buf t) 21); [exact Hch|lia|lia].
Qed.

Lemma texts_shown m t phys : texts_at m t → texts_at (show_page 0x70000 phys m) t.
Proof.
  intros [Hn Hx Hf Hw (An & Ax & Af & Ab) Hap]. unfold aside in *. split.
  - apply show_page_other; [exact Hn|simpl; lia].
  - apply show_page_other; [exact Hx|]. change (length max_cpu_text) with 8%nat. lia.
  - apply show_page_other; [exact Hf|]. change (length found_format) with 12%nat. lia.
  - intros a Ha. rewrite show_page_out by lia. by apply Hw.
  - done.
  - done.
Qed.

(** The part behind the search. *)
Lemma parse_tail fuel m t v sc param x :
  texts_at m t → (40 < fuel)%nat → Strings.load8 (param + 8) m = Ok x →
  ∃ m' sc', Strings.changed (t_buf t) 64 m m' ∧ (x ← Strings.load8 (param + 8) m;
     let n := u8 (s8 x - 48) in
     '(str, m) ← Strings.kprintf fuel m (t_buf t) (t_found t) [n];
     sc ← Screen.screen_putstr fuel m str sc;
     Ok (Boot v m sc n)) = Ok (Boot v m' sc' (u8 (s8 x - 48))).
Proof.
  intros [_ _ Hf Hw _ Hap] Hfuel Hx. rewrite (bind_ok _ _ _ Hx). cbv zeta.
  destruct (print_found fuel m t (u8 (s8 x - 48)) Hf Hw Hap) as (m' & out & Hk & Hc & Hl & Hch);
    [apply u8_range|done|]. rewrite (bind_ok _ _ _ Hk). cbv iota beta.
  exists m'. eexists. split; [exact Hch|]. unfold Screen.screen_putstr.
  by rewrite (bind_ok _ _ _ (Screen.putstr_fold _ fuel m' _ out sc Hc Hl)).
Qed.

(** ** The boot information *)

(** The frames that are given out. *)
Definition given (es : list Memory.mmap) (mboot addr : Z) (l : list module_info) (p : Z) : Prop :=
  (∃ e, e ∈ es ∧ Memory.type e = 1 ∧ Memory.whole e p) ∧ p ≠ mboot / PAGE_SIZE ∧
  (∀ x, x ∈ l → ¬ module_page x p) ∧ ¬ table_page addr (List.length l) p.

(** What the boot loader leaves in memory at [mboot]: the memory map [es] and
    the modules [l], whose table is at [addr]. *)
Record boot_info (fuel : nat) (m : mem8) (mboot mmap length addr : Z) (es : list Memory.mmap)
    (l : list module_info) : Prop := {
  bi_mboot : 0 ≤ mboot < 2 ^ 32;
  bi_mmap : Memory.load32 (mboot + MMAP_ADDR) m = Ok mmap;
  bi_length : Memory.load32 (mboot + MMAP_LENGTH) m = Ok length;
  bi_addr : Memory.load32 (mboot + MODS_ADDR) m = Ok addr;
  bi_count : Memory.load32 (mboot + MODS_COUNT) m = Ok (Z.of_nat (List.length l));
  bi_map : Memory.mmap_at m mmap es (mmap + length);
  bi_map_range : 0 ≤ mmap ∧ mmap + length < 2 ^ 32;
  bi_fuel : (List.length es < fuel)%nat;
  bi_regions e : e ∈ es → Memory.type e = 1 → Memory.region_ok e;
  bi_modules : modules_at m addr l;
  bi_modules_ok : Forall module_ok l;
  bi_table : 0 ≤ addr ∧ addr + MODULE_SIZE * Z.of_nat (List.length l) < 2 ^ 32
}.

Lemma mboot_parse_ok fuel m mboot s mmap length es addr l :
  boot_info fuel m mboot mmap length addr es l →
  let s0 := with_frames Palloc.booted s in
  frames_of s = Palloc.palloc0 →
  Paging.paging_inv (Memory.vm (Memory.area s0)) → Memory.tables_reserved (Memory.vm (Memory.area s0)) →
  (∃ p, (∃ e, e ∈ es ∧ Memory.type e = 1 ∧ Memory.whole e p) ∧ ¬ Memory.reserved p) →
  ∃ s', mboot_parse fuel m mboot s = Ok s' ∧ Memory.initialised (given es mboot addr l) s0 s'.
Proof.
  intros [Hmb H1 H2 H3 H4 Hmm [Hmm0 Hmm1] Hfuel Hreg Hmods Hmok [Ha Hfin]] s0 Hfr Hinv Htab Husable.
  destruct (Memory.mem_init_whole fuel m mmap length s0 es Hmm Hmm0 Hmm1 Hfuel Hreg Hinv Htab)
    as (s1 & Hs1 & Hinit); [exact Palloc.booted_none|exact Husable|].
  destruct Hinit as [I1 I2 I3 I4 I5 I6 I7 I8 I9 (qs & Hqs & Hfree)].
  pose proof (Paging.inv_frames _ I3) as [Hwf Hlk].
  assert (Hal : Memory.page_align mboot = PAGE_SIZE * (mboot / PAGE_SIZE))
    by (apply Memory.page_align_eq; lia).
  destruct (Palloc.mem_phys_reserve_ok (Memory.page_align mboot) (frames_of s1))
    as (f2 & Hf2 & Hw2 & Hl2 & Hfree2); [rewrite Hal, PAGE_SIZE_eq; dlia|exact Hwf|].
  destruct (modules_loop m l 0 addr f2 Hmods Hmok Ha Hfin Hw2) as (p' & f3 & Hf3 & Hw3 & Hl3 & Hfree3).
  assert (Hless : ∀ p, Palloc.page_free f3 p ↔
    given es mboot addr l p ∧ ¬ Memory.reserved p ∧ p ∉ qs).
  { intros p. rewrite Hfree3, Hfree2. change (frames_of s1) with (Paging.frames (Memory.vm (Memory.area s1))).
    rewrite Hfree. unfold given. replace (Memory.page_align mboot / PAGE_SIZE) with (mboot / PAGE_SIZE)
      by (rewrite Hal, PAGE_SIZE_eq; dlia). clear. tauto. }
  assert (Hsub : ∀ p, Palloc.page_free f3 p → Palloc.page_free (Paging.frames (Memory.vm (Memory.area s1))) p).
  { intros p Hp. apply Hless in Hp. apply Hfree. unfold given in Hp. clear -Hp. tauto. }
  exists (with_frames f3 s1). split.
  { unfold mboot_parse. rewrite Hfr, (bind_ok _ _ _ Palloc.booted_init). cbv zeta. fold s0.
    rewrite (bind_ok _ _ _ H1), (bind_ok _ _ _ H2), (bind_ok _ _ _ Hs1), (bind_ok _ _ _ Hf2).
    rewrite (bind_ok _ _ _ H3), (bind_ok _ _ _ H4). unfold for_upto. rewrite Nat2Z.id.
    rewrite (bind_ok _ _ _ Hf3). reflexivity. }
  clear Hs1 Hf2 Hf3. split; try assumption; try done.
  - apply Memory.inv_with_frames; [exact I3|split; [exact Hw3|by rewrite Hl3, Hl2]| |].
    + intros Hf. exact (Paging.inv_dir _ I3 (Hsub _ Hf)).
    + intros i Hi Hp Hf. exact (proj2 (Paging.inv_tables _ I3 i Hi Hp) (Hsub _ Hf)).
  - intros canon Hc. destruct (I9 canon Hc) as [Hu1 Hu2]. split; [exact Hu1|exact Hu2].
  - exists qs. split; [exact Hqs|exact Hless].
Qed.

(** ** Properties *)

(** C19. After [mboot_parse] the free frames are those of the usable regions
    without the kernel's reserved ones, the frame of the boot information,
    those of the modules and those of their table, and at most one that
    [mem_init] took for a page table. *)
Theorem mboot_parse_reserves fuel m mboot s mmap length es addr l :
  let usable p := ∃ e, e ∈ es ∧ Memory.type e = 1 ∧ Memory.whole e p in
  let s0 := with_frames Palloc.booted s in
  frames_of s = Palloc.palloc0 → 0 ≤ mboot < 2 ^ 32 →
  Memory.load32 (mboot + MMAP_ADDR) m = Ok mmap →
  Memory.load32 (mboot + MMAP_LENGTH) m = Ok length →
  Memory.load32 (mboot + MODS_ADDR) m = Ok addr →
  Memory.load32 (mboot + MODS_COUNT) m = Ok (Z.of_nat (List.length l)) →
  Memory.mmap_at m mmap es (mmap + length) → 0 ≤ mmap → mmap + length < 2 ^ 32 →
  (List.length es < fuel)%nat → (∀ e, e ∈ es → Memory.type e = 1 → Memory.region_ok e) →
  Paging.paging_inv (Memory.vm (Memory.area s0)) → Memory.tables_reserved (Memory.vm (Memory.area s0)) →
  (∃ p, usable p ∧ ¬ Memory.reserved p) →
  modules_at m addr l → Forall module_ok l → 0 ≤ addr →
  addr + MODULE_SIZE * Z.of_nat (List.length l) < 2 ^ 32 →
  ∃ s' qs, mboot_parse fuel m mboot s = Ok s' ∧ (List.length qs ≤ 1)%nat ∧
    ∀ p, Palloc.page_free (frames_of s') p ↔
      usable p ∧ ¬ Memory.reserved p ∧ p ∉ qs ∧ p ≠ mboot / PAGE_SIZE ∧
      (∀ x, x ∈ l → ¬ module_page x p) ∧ ¬ table_page addr (List.length l) p.
Proof.
  intros usable s0 Hfr Hmb H1 H2 H3 H4 Hmm Hmm0 Hmm1 Hfuel Hreg Hinv Htab Husable Hmods Hmok Ha Hfin.
  destruct (mboot_parse_ok fuel m mboot s mmap length es addr l) as (s' & Hs & Hi); [by split|done..|].
  destruct (Memory.in_frames _ _ _ Hi) as (qs & Hqs & Hfree). exists s', qs. split; [done|]. split; [done|].
  intros p. change (frames_of s') with (Paging.frames (Memory.vm (Memory.area s'))). rewrite Hfree.
  unfold given, usable. clear. tauto.
Qed.

(** Whatever bits of [flags] are set, [mboot_parse_cmdline] takes for the
    command line the string at the beginning of the page the command line is
    in, wherever in the page that is, and takes the number of processors from
    the byte behind the first place where "max_cpu=" stands or the rest of
    the string is a beginning of it; without such a place the number stays. *)
Theorem cmdline_parsed fuel t mboot s flags phys str :
  Memory.load32 (mboot + FLAGS) (bytes s) = Ok flags → flags ≠ 0 →
  Memory.load32 (mboot + CMDLINE) (bytes s) = Ok phys → 0 ≤ phys < 2 ^ 32 →
  Paging.paging_inv (vm s) →
  (Paging.present (Paging.pde (vm s) 0) = true ∨ ∃ p, frame_free (Paging.frames (vm s)) p) →
  texts_at (bytes s) t → Strings.cstr (bytes s) (Paging.frame_of phys) str →
  Strings.writable (bytes s) (Paging.frame_of phys) PAGE_SIZE →
  Z.of_nat (length str) + 8 < PAGE_SIZE → (length str + 40 < fuel)%nat →
  ∃ s', mboot_parse_cmdline fuel t mboot s = Ok s' ∧
    Paging.walk (Paging.ram (vm s')) (Paging.cr3 (vm s')) 0x70000 = Some (Paging.frame_of phys) ∧
    Memory.spent 1 (vm s) (vm s') ∧ (∀ a, is_Some (bytes s !! a) → is_Some (bytes s' !! a)) ∧
    (∀ a, ¬ (0x70000 ≤ a < 0x70000 + PAGE_SIZE) → ¬ (t_buf t ≤ a < t_buf t + 64) →
       bytes s' !! a = bytes s !! a) ∧
    ((∀ k, (k < length str)%nat → ¬ Strings.found_at str max_cpu_text k) →
     maximum_cpu s' = maximum_cpu s) ∧
    ∀ k x, (k < length str)%nat → Strings.found_at str max_cpu_text k →
      (∀ j, (j < k)%nat → ¬ Strings.found_at str max_cpu_text j) →
      bytes s !! (Paging.frame_of phys + (Z.of_nat k + 8)) = Some x →
      maximum_cpu s' = u8 (s8 x - 48).
Proof.
  intros Hfl Hnz Hph Hphb Hinv Hfree Ht Hs Hw Hlen Hfuel.
  destruct (Paging.paging_map_walk (vm s) 0x70000 phys Paging.PAGE_PRESENT Hinv)
    as (v & Hv & Hinv' & Hcr & _ & Hwalk); [done|done|done|exact Hfree|].
  assert (Hsp : Memory.spent 1 (vm s) v).
  { split; [done|done|]. by apply (Paging.kept_map _ _ 0x70000 phys Paging.PAGE_PRESENT). }
  assert (Hwv : Paging.walk (Paging.ram v) (Paging.cr3 v) 0x70000 = Some (Paging.frame_of phys)).
  { rewrite Hwalk, decide_True by done. change (Z.odd Paging.PAGE_PRESENT) with true.
    f_equal. change (0x70000 mod 4096) with 0. lia. }
  set (m := show_page 0x70000 phys (bytes s)).
  pose proof (texts_shown (bytes s) t phys Ht) as Htm. fold m in Htm.
  assert (Hsm : Strings.cstr m 0x70000 str) by (apply show_page_str; [done|lia]).
  assert (Hmd : ∀ a, is_Some (bytes s !! a) → is_Some (m !! a)).
  { intros a Ha. destruct (decide (0x70000 ≤ a < 0x70000 + PAGE_SIZE)) as [Hin|Hout].
    - replace a with (0x70000 + (a - 0x70000)) by lia. unfold m. rewrite show_page_in by lia.
      apply Hw. lia.
    - unfold m. by rewrite show_page_out. }
  set (sc1 := foldl (λ sc c, Screen.screen_putchar (s8 c) (Screen.cur_style sc) sc) (console s) str).
  set (sc2 := foldl (λ sc c, Screen.screen_putchar (s8 c) (Screen.cur_style sc) sc) sc1 [10]).
  assert (Hp1 : Screen.screen_putstr fuel m 0x70000 (console s) = Ok sc1)
    by (apply Screen.putstr_fold; [done|lia]).
  assert (Hp2 : Screen.screen_putstr fuel m (t_newline t) sc1 = Ok sc2).
  { apply Screen.putstr_fold; [apply (tx_newline _ _ Htm)|]. simpl. lia. }
  unfold mboot_parse_cmdline. rewrite (bind_ok _ _ _ Hfl), bool_decide_false by done.
  rewrite (bool_decide_false (0x04 = 0)) by done. cbn [negb andb].
  rewrite (bind_ok _ _ _ Hph), (bind_ok _ _ _ Hv). cbv zeta. fold m.
  rewrite (bind_ok _ _ _ Hp1), (bind_ok _ _ _ Hp2).
  destruct (Strings.cmdline_find_first fuel m 0x70000 (t_max_cpu t) str max_cpu_text Hsm)
    as [[Hfind Hno]|(k & Hfind & Hk & Hat & Hfst)]; [apply (tx_max_cpu _ _ Htm)|lia| |];
    rewrite (bind_ok _ _ _ Hfind).
  - eexists. split; [reflexivity|]. split; [exact Hwv|]. split; [exact Hsp|]. split; [exact Hmd|].
    split; [intros a Ha _; by apply show_page_out|]. split; [done|].
    intros k x Hk Hat. by destruct (Hno k Hk).
  - rewrite bool_decide_false by lia.
    destruct (Hw (Paging.frame_of phys + (Z.of_nat k + 8))) as [x Hx]; [lia|].
    destruct (parse_tail fuel m t v sc2 (0x70000 + Z.of_nat k) x Htm) as (m' & sc' & [Hch Hcd] & Heq); [lia| |].
    { apply Strings.load8_Some. rewrite <- Hx, <- (show_page_in 0x70000) by lia. fold m. f_equal. lia. }
    eexists. split; [exact Heq|]. split; [exact Hwv|]. split; [exact Hsp|].
    split; [intros a Ha; by apply Hcd, Hmd|].
    split; [intros a Ha Hb; cbn [bytes]; rewrite Hch by done; by apply show_page_out|].
    split; [intros Hno; by destruct (Hno k Hk)|].
    intros k' x' Hk' Hat' Hfst' Hx'. cbn [maximum_cpu].
    assert (k' = k) as ->.
    { destruct (Nat.lt_trichotomy k' k) as [Hlt|[->|Hlt]]; [|done|].
      - by destruct (Hfst k' Hlt).
      - by destruct (Hfst' k Hlt). }
    congruence.
Qed.

(** ** Concrete runs *)

(** Boot information at [0x8000], one module, a memory map at [0x9000]. *)
Definition info_bytes (cmdline : Z) : list Z :=
  Memory.le32 1 ++ replicate 12 0 ++ Memory.le32 cmdline ++ Memory.le32 1 ++ Memory.le32 0x8100 ++
  replicate 16 0 ++ Memory.le32 72 ++ Memory.le32 0x9000.

Definition demo_module : module_info := Module_ 0x300000 0x301234.

Definition boot_bytes (cmdline : Z) : mem8 :=
  Memory.fill 0x8000 (info_bytes cmdline) ∪
  (Memory.fill 0x8100 (Memory.le32 0x300000 ++ Memory.le32 0x301234 ++ replicate 8 0) ∪
   Memory.map_bytes Memory.pc_map).

Definition cold_memory : memory := with_frames Palloc.palloc0 Memory.boot_memory.

Lemma mboot_parse_reserves_witness :
  ∃ s' qs, mboot_parse 4 (boot_bytes 0) 0x8000 cold_memory = Ok s' ∧ (List.length (A := Z) qs ≤ 1)%nat ∧
    ¬ Palloc.page_free (frames_of s') 0x301.
Proof.
  destruct (mboot_parse_reserves 4 (boot_bytes 0) 0x8000 cold_memory 0x9000 72 Memory.pc_map 0x8100
    [demo_module]) as (s' & qs & Hs & Hq & Hf).
  - reflexivity.
  - split; [discriminate|reflexivity].
  - by vm_compute.
  - by vm_compute.
  - by vm_compute.
  - by vm_compute.
  - repeat split; by vm_compute.
  - lia.
  - lia.
  - simpl. lia.
  - exact Memory.pc_map_ok.
  - exact Memory.boot_mm_inv.
  - exact Memory.boot_tables.
  - exists 1. split; [|unfold Memory.reserved; lia]. eexists. split; [apply elem_of_cons; by left|].
    split; [reflexivity|]. unfold Memory.whole. rewrite PAGE_SIZE_eq. simpl. lia.
  - repeat split; by vm_compute.
  - constructor; [|constructor]. split; [split; discriminate|by vm_compute].
  - discriminate.
  - reflexivity.
  - exists s', qs. split; [exact Hs|]. split; [exact Hq|]. intros (_ & _ & _ & _ & Hm & _)%Hf.
    apply (Hm demo_module); [apply elem_of_cons; by left|]. split; [discriminate|reflexivity].
Defined.

(** The command line is in the middle of the page at [0x5000]; another string,
    which asks for four processors, is at its beginning. *)
Definition four_cpus : list Z := max_cpu_text ++ [52].

Definition cmdline_bytes : mem8 :=
  boot_bytes 0x5123 ∪ Strings.with_str 0x600 [10] (Strings.with_str 0x610 max_cpu_text
    (Strings.with_str 0x620 found_format (Strings.blank 0x700 64 ∪
      Strings.with_str 0x5000 four_cpus (Strings.blank 0x5000 4096)))).

Definition demo_texts : texts := Texts 0x600 0x610 0x620 0x700.

Definition demo_boot : boot :=
  Boot Paging.bare_mm cmdline_bytes Screen.screen0 8.

Lemma writable_check (m : mem8) p n :
  forallb (λ a, match m !! a with Some _ => true | None => false end) (seqZ p n) = true →
  Strings.writable m p n.
Proof.
  rewrite forallb_forall. intros Hf a Ha. specialize (Hf a). destruct (m !! a); [by eexists|].
  discriminate Hf. apply list_elem_of_In, elem_of_seqZ. lia.
Qed.

Lemma demo_texts_at : texts_at cmdline_bytes demo_texts.
Proof.
  split; [by vm_compute..| |repeat split; by left|by left].
  apply writable_check. by vm_compute.
Qed.

Lemma cmdline_parsed_witness :
  ∃ s', mboot_parse_cmdline 60 demo_texts 0x8000 demo_boot = Ok s' ∧ maximum_cpu s' = 4.
Proof.
  destruct (cmdline_parsed 60 demo_texts 0x8000 demo_boot 1 0x5123 four_cpus)
    as (s' & Hs & _ & _ & _ & _ & _ & Hm).
  - by vm_compute.
  - discriminate.
  - by vm_compute.
  - split; [discriminate|reflexivity].
  - exact Paging.bare_mm_inv.
  - right. exact Paging.bare_mm_free.
  - exact demo_texts_at.
  - by vm_compute.
  - apply writable_check. by vm_compute.
  - reflexivity.
  - simpl. lia.
  - exists s'. split; [exact Hs|]. apply (Hm 0%nat 52).
    + simpl. lia.
    + right. exists [52]. reflexivity.
    + intros j Hj. lia.
    + by vm_compute.
Defined.

End Mboot.
