(* ===== verification/Cpu.v ===== *)
(** Finding the processors and the start barrier (kernel/cpu.c, kernel/cpu.h).

    [cpu_find] reads the tables of the firmware in memory and gives each
    processor a stack.  [cpu_sync] is the barrier all processors pass before
    they schedule: [sync_step] is one memory access of a processor in it, and
    [barrier_step] interleaves them.  [awoken_cpu] is incremented by a load and
    a store inside a section of Locks.v. *)

From Stdlib Require Import ZArith Lia.
From stdpp Require Import base option list gmap relations.
From S2P Require Import Prelude Interfaces Locks Palloc Strings Paging Kmalloc Memory Process.

Module Cpu.

Notation mem8 := Strings.mem8.

(** ** Finding the tables *)

(** [ptr->signature] is the text _MP_, compared byte by byte. *)
Definition signature_at (ptr : Z) (m : mem8) : res bool :=
  a ← Strings.load8 ptr m; if negb (bool_decide (a = 95)) then Ok false else
  b ← Strings.load8 (ptr + 1) m; if negb (bool_decide (b = 77)) then Ok false else
  c ← Strings.load8 (ptr + 2) m; if negb (bool_decide (c = 80)) then Ok false else
  d ← Strings.load8 (ptr + 3) m; Ok (bool_decide (d = 95)).

(** [while(from < to)] with [k] bytes left. *)
Fixpoint mp_slide_from (k : nat) (from : Z) (m : mem8) : res Z :=
  match k with
  | O => Ok 0
  | S k =>
      b ← signature_at from m;
      if (b : bool) then Ok from else mp_slide_from k (from + 1) m
  end.

Definition mp_slide (from to : Z) (m : mem8) : res Z :=
  mp_slide_from (Z.to_nat (to - from)) from m.

Definition mp_find (m : mem8) : res Z :=
  mp_tab ← mp_slide (639 * 1024) (640 * 1024) m;
  if bool_decide (mp_tab ≠ 0) then Ok mp_tab else
  mp_tab ← mp_slide 0xF0000 0xFFFFF m;
  if bool_decide (mp_tab ≠ 0) then Ok mp_tab else Ok 0.

(** ** The processors *)

(** Offsets in [struct MP_float_ptr], [struct MP_config] and
    [struct MP_proc_entry]. *)
Definition CONFIG : Z := 4.
Definition ENTRY_COUNT : Z := 34.
Definition CONFIG_SIZE : Z := 44.
Definition ENTRY_LAPIC_ID : Z := 1.

Section Find.
Context {F : Type} `{FrameAlloc F}.

Record cpus := Cpus {
  num_of_cpu : Z; cpu_stack : gmap Z Z; cpu_mapping : gmap Z Z; maximum_cpu : Z;
  mem : Memory.memory (F := F); bytes : mem8
}.

(** The loop with [k] iterations left. *)
Fixpoint cpu_entries (k : nat) (i ptr : Z) (s : cpus) : res cpus :=
  match k with
  | O => Ok s
  | S k =>
      type ← Strings.load8 ptr (bytes s);
      if bool_decide (type = 0) then
        lapic_id ← Strings.load8 (ptr + ENTRY_LAPIC_ID) (bytes s);
        '(p, h, m) ← Memory.kmalloc Memory.KFUEL PAGE_SIZE (mem s) (bytes s);
        st ← aset MAX_CPU (cpu_stack s) lapic_id (u32 (p + PAGE_SIZE - 0x10));
        mp ← aset MAX_CPU (cpu_mapping s) i lapic_id;
        cpu_entries k (i + 1) (ptr + 20) (Cpus (s32 (num_of_cpu s + 1)) st mp (maximum_cpu s) h m)
      else Ok s
  end.

Definition cpu_find (s : cpus) : res cpus :=
  mp ← mp_find (bytes s);
  mpc ← Memory.load32 (mp + CONFIG) (bytes s);
  mapping ← aset MAX_CPU (cpu_mapping s) 0 0;
  b0 ← Strings.load8 (mpc + ENTRY_COUNT) (bytes s);
  b1 ← Strings.load8 (mpc + ENTRY_COUNT + 1) (bytes s);
  s ← cpu_entries (Z.to_nat (b0 + 256 * b1)) 0 (mpc + CONFIG_SIZE)
        (Cpus 0 (cpu_stack s) mapping (maximum_cpu s) (mem s) (bytes s));
  if num_of_cpu s <? maximum_cpu s
  then Ok (Cpus (num_of_cpu s) (cpu_stack s) (cpu_mapping s) (u8 (num_of_cpu s)) (mem s) (bytes s))
  else Ok s.

Definition cpu_count (s : cpus) : Z := num_of_cpu s.

End Find.

(** ** The barrier *)

(** Where a processor is in [cpu_sync]. *)
Inductive spc := Enter (p : Locks.pc) | Load | Store (v : Z) | Leave | Spinning | Passed.

(** One memory access, on the lock and [awoken_cpu]. *)
Definition sync_step (count l a : Z) (p : spc) : Z * Z * spc :=
  match p with
  | Enter q =>
      let '(l, q) := Locks.section_step l q in
      (l, a, match q with Locks.Inside => Load | _ => Enter q end)
  | Load => (l, a, Store a)
  | Store v => (l, s32 (v + 1), Leave)
  | Leave => (Locks.section_leave l, a, Spinning)
  | Spinning => (l, a, if bool_decide (a ≠ count) then Spinning else Passed)
  | Passed => (l, a, Passed)
  end.

Record barrier := Barrier { lock : Z; awoken_cpu : Z; at_cpu : list spc }.

Definition sync_cpu (count : Z) (i : nat) (b : barrier) : option barrier :=
  p ← at_cpu b !! i;
  let '(l, a, p') := sync_step count (lock b) (awoken_cpu b) p in
  Some (Barrier l a (<[i := p']> (at_cpu b))).

Definition barrier_step (count : Z) (b b' : barrier) : Prop := ∃ i, sync_cpu count i b = Some b'.

Definition barrier_init (n : nat) : barrier := Barrier 0 0 (replicate n (Enter Locks.Outside)).

(** A processor that has been counted. *)
Definition counted (p : spc) : bool :=
  match p with Leave | Spinning | Passed => true | _ => false end.

(** A processor in the section. *)
Definition inside (p : spc) : bool := match p with Load | Store _ | Leave => true | _ => false end.

(** ** The barrier: lemmas *)

(** How many processors have been counted. *)
Definition arrived (ps : list spc) : nat := length (List.filter counted ps).

Definition b2n (b : bool) : nat := if b then 1 else 0.

Lemma arrived_insert ps i p p' :
  ps !! i = Some p → (arrived (<[i := p']> ps) + b2n (counted p) = arrived ps + b2n (counted p'))%nat.
Proof.
  revert i. induction ps as [|q ps IH]; intros [|i] Hi; simpl in Hi; [done..| |].
  - injection Hi as ->. unfold arrived. simpl. destruct (counted p), (counted p'); simpl; lia.
  - specialize (IH i Hi). unfold arrived in *. simpl. destruct (counted q); simpl; lia.
Qed.

Lemma arrived_le ps : (arrived ps ≤ length ps)%nat.
Proof. unfold arrived. apply List.filter_length_le. Qed.

Lemma arrived_all ps : arrived ps = length ps ↔ ∀ i p, ps !! i = Some p → counted p = true.
Proof.
  unfold arrived. induction ps as [|q ps IH]; [done|]. simpl.
  pose proof (List.filter_length_le counted ps). split.
  - intros Hl [|i] p Hi; simpl in Hi; destruct (counted q) eqn:Hq; simpl in Hl; try lia.
    + by injection Hi as <-.
    + apply (proj1 IH ltac:(lia) i p Hi).
  - intros Ha. rewrite (Ha 0%nat q eq_refl). simpl. f_equal. apply IH. intros i. apply (Ha (S i)).
Qed.

(** The lock says whether a processor is in the section; the one that is about
    to store has the current value; the counter counts. *)
Record barrier_inv (n : nat) (b : barrier) : Prop := {
  bi_length : length (at_cpu b) = n;
  bi_count : awoken_cpu b = Z.of_nat (arrived (at_cpu b));
  bi_lock : (lock b = 0 ∧ ∀ i p, at_cpu b !! i = Some p → inside p = false) ∨
    (lock b = 1 ∧ ∃ i, ∀ j p, at_cpu b !! j = Some p → inside p = true → j = i);
  bi_store : ∀ i v, at_cpu b !! i = Some (Store v) → v = awoken_cpu b;
  bi_enter : ∀ i, at_cpu b !! i ≠ Some (Enter Locks.Inside);
  bi_passed : ∀ i, at_cpu b !! i = Some Passed → arrived (at_cpu b) = n
}.

Lemma barrier_inv_init n : barrier_inv n (barrier_init n).
Proof.
  assert (Hat : ∀ i p, at_cpu (barrier_init n) !! i = Some p → p = Enter Locks.Outside).
  { intros i p Hi. unfold barrier_init in Hi. cbn [at_cpu] in Hi.
    by apply lookup_replicate in Hi as [-> _]. }
  split.
  - apply length_replicate.
  - unfold barrier_init, arrived. cbn [awoken_cpu at_cpu]. clear Hat.
    assert (Hnil : List.filter counted (replicate n (Enter Locks.Outside)) = [])
      by (induction n as [|k IH]; [done|exact IH]).
    by rewrite Hnil.
  - left. split; [done|]. intros i p Hi. by rewrite (Hat i p Hi).
  - intros i v Hi. by apply Hat in Hi.
  - intros i Hi. by apply Hat in Hi.
  - intros i Hi. by apply Hat in Hi.
Qed.

(** A step of processor [i] outside the section that stays outside and is
    counted before and after or neither. *)
Lemma barrier_inv_stay n b i p p' :
  barrier_inv n b → at_cpu b !! i = Some p → inside p = false → inside p' = false →
  counted p = counted p' → p' ≠ Enter Locks.Inside →
  (p' = Passed → arrived (at_cpu b) = n) →
  barrier_inv n (Barrier (lock b) (awoken_cpu b) (<[i := p']> (at_cpu b))).
Proof.
  intros [Hl Hc Hlk Hs He Hp] Hi Hin Hin' Hcc Hne Hpass.
  pose proof (arrived_insert _ _ _ p' Hi) as Ha. rewrite Hcc in Ha.
  assert (Ha' : arrived (<[i := p']> (at_cpu b)) = arrived (at_cpu b)) by lia.
  split; cbn [lock awoken_cpu at_cpu].
  - by rewrite length_insert.
  - by rewrite Ha'.
  - destruct Hlk as [[Hlk Hno]|[Hlk (k & Hk)]]; [left|right]; (split; [done|]).
    + intros j q [(<- & -> & _)|[_ Hq]]%list_lookup_insert_Some; [done|by apply (Hno j)].
    + exists k. intros j q [(<- & -> & _)|[_ Hq]]%list_lookup_insert_Some Hqi; [congruence|by apply (Hk j q)].
  - intros j v [(<- & -> & _)|[_ Hq]]%list_lookup_insert_Some; [done|by apply (Hs j)].
  - intros j [(_ & Heq & _)|[_ Hq]]%list_lookup_insert_Some; [by apply Hne|by apply (He j)].
  - rewrite Ha'. intros j [(_ & Heq & _)|[_ Hq]]%list_lookup_insert_Some; [by apply Hpass|by apply (Hp j)].
Qed.

(** The processor in the section is the only one. *)
Lemma inside_only n b i p :
  barrier_inv n b → at_cpu b !! i = Some p → inside p = true →
  lock b = 1 ∧ ∀ j q, at_cpu b !! j = Some q → inside q = true → j = i.
Proof.
  intros [_ _ Hlk _ _ _] Hi Hin. destruct Hlk as [[_ Hno]|[Hlk (k & Hk)]].
  { by rewrite (Hno _ _ Hi) in Hin. }
  split; [done|]. intros j q Hj Hq. by rewrite (Hk j q Hj Hq), (Hk i p Hi Hin).
Qed.

(** The steps of the processor in the section, and into it: the lock is taken
    afterwards unless it leaves. *)
Lemma barrier_inv_section n b i p p' l a :
  barrier_inv n b → at_cpu b !! i = Some p → p' ≠ Passed → (∀ q, p' ≠ Enter q) →
  (∀ v, p' = Store v → v = a) → (∀ j q, at_cpu b !! j = Some q → inside q = true → j = i) →
  l = (if inside p' then 1 else 0) →
  (counted p = counted p' ∧ a = awoken_cpu b ∨
   counted p = false ∧ counted p' = true ∧ a = awoken_cpu b + 1) →
  barrier_inv n (Barrier l a (<[i := p']> (at_cpu b))).
Proof.
  intros [Hl Hc Hlk Hs He Hp] Hi Hpa Hen Hst Honly Hll Hcase.
  pose proof (arrived_insert _ _ _ p' Hi) as Ha.
  split; cbn [lock awoken_cpu at_cpu].
  - by rewrite length_insert.
  - destruct Hcase as [[Hcc ->]|(H1 & H2 & ->)]; [rewrite Hcc in Ha|rewrite H1, H2 in Ha];
      unfold b2n in Ha; lia.
  - rewrite Hll. destruct (inside p') eqn:Hin; [right|left]; (split; [done|]).
    + exists i. intros j q [(<- & _)|[_ Hq]]%list_lookup_insert_Some Hqi; [done|by apply (Honly j q)].
    + intros j q [(<- & -> & _)|[Hne Hq]]%list_lookup_insert_Some; [done|].
      destruct (inside q) eqn:Hqi; [|done]. by destruct Hne; rewrite (Honly j q).
  - intros j v [(<- & Heq & _)|[Hne Hq]]%list_lookup_insert_Some; [by apply Hst|].
    destruct Hne. symmetry. by apply (Honly j (Store v)).
  - intros j [(_ & Heq & _)|[_ Hq]]%list_lookup_insert_Some; [by apply (Hen Locks.Inside)|by apply (He j)].
  - intros j [(_ & Heq & _)|[_ Hq]]%list_lookup_insert_Some; [by symmetry in Heq|].
    pose proof (Hp j Hq) as Hall. rewrite <- Hl in Hall.
    pose proof (proj1 (arrived_all _) Hall i p Hi) as Hcp.
    destruct Hcase as [[Hcc _]|(H1 & _)]; [rewrite Hcc in Ha; lia|congruence].
Qed.

Lemma barrier_inv_step n b b' :
  Z.of_nat n < 2 ^ 31 → barrier_inv n b → barrier_step (Z.of_nat n) b b' → barrier_inv n b'.
Proof.
  intros Hn Hb [i Hstep]. unfold sync_cpu in Hstep.
  destruct (at_cpu b !! i) as [p|] eqn:Hi; [|done]. cbn [mbind option_bind] in Hstep.
  destruct (sync_step (Z.of_nat n) (lock b) (awoken_cpu b) p) as [[l a] p'] eqn:Hs.
  injection Hstep as <-.
  destruct p as [q| |v| | |]; cbn [sync_step] in Hs.
  - destruct q; cbn [Locks.section_step] in Hs.
    + injection Hs as <- <- <-. by apply (barrier_inv_stay n b i (Enter Locks.Outside)).
    + unfold Locks.cas in Hs. destruct (Z.eqb_spec (lock b) 0) as [H0|H0]; injection Hs as <- <- <-.
      * apply (barrier_inv_section n b i (Enter Locks.Trying)); try done; [|by left].
        intros j q Hj Hq. destruct (bi_lock _ _ Hb) as [[_ Hno]|[H1 _]]; [|lia].
        by rewrite (Hno j q Hj) in Hq.
      * by apply (barrier_inv_stay n b i (Enter Locks.Trying)).
    + destruct (lock b =? 0); injection Hs as <- <- <-;
        by apply (barrier_inv_stay n b i (Enter Locks.Waiting)).
    + by destruct (bi_enter _ _ Hb i).
  - injection Hs as <- <- <-. destruct (inside_only n b i Load Hb Hi eq_refl) as [Hl Honly].
    apply (barrier_inv_section n b i Load); try done; [by intros v [= <-]|by left].
  - injection Hs as <- <- <-. destruct (inside_only n b i (Store v) Hb Hi eq_refl) as [Hl Honly].
    rewrite (bi_store _ _ Hb i v Hi).
    pose proof (arrived_le (at_cpu b)). pose proof (bi_length _ _ Hb). pose proof (bi_count _ _ Hb).
    assert (Hlt : (arrived (at_cpu b) ≠ n)%nat).
    { intros Heq. rewrite <- (bi_length _ _ Hb) in Heq.
      by pose proof (proj1 (arrived_all _) Heq i _ Hi). }
    rewrite s32_small by lia. apply (barrier_inv_section n b i (Store v)); try done. by right.
  - injection Hs as <- <- <-. destruct (inside_only n b i Leave Hb Hi eq_refl) as [Hl Honly].
    apply (barrier_inv_section n b i Leave); try done. by left.
  - case_bool_decide as Hd; injection Hs as <- <- <-.
    + by apply (barrier_inv_stay n b i Spinning).
    + apply (barrier_inv_stay n b i Spinning); try done. intros _.
      pose proof (bi_count _ _ Hb). lia.
  - injection Hs as <- <- <-. apply (barrier_inv_stay n b i Passed); try done. intros _.
    by apply (bi_passed _ _ Hb i).
Qed.

(** ** The tables: lemmas *)

(** The four bytes of the signature. *)
Definition signed (m : mem8) (p : Z) : Prop := Strings.bytes_at m p [95; 77; 80; 95].

Lemma signature_at_ok m p :
  Strings.writable m p 4 → ∃ b, signature_at p m = Ok b ∧ (b = true ↔ signed m p).
Proof.
  intros Hw. unfold signature_at, signed. cbn [Strings.bytes_at].
  destruct (Hw p) as [a Ha]; [lia|]. destruct (Hw (p + 1)) as [b Hb]; [lia|].
  destruct (Hw (p + 2)) as [c Hc]; [lia|]. destruct (Hw (p + 3)) as [d Hd]; [lia|].
  replace (p + 1 + 1) with (p + 2) by lia. replace (p + 2 + 1) with (p + 3) by lia.
  rewrite (Strings.load8_Some _ _ _ Ha), (Strings.load8_Some _ _ _ Hb),
    (Strings.load8_Some _ _ _ Hc), (Strings.load8_Some _ _ _ Hd), Ha, Hb, Hc, Hd.
  cbn [mbind res_bind]. destruct (decide (a = 95)) as [->|Hna].
  2: { rewrite (bool_decide_false (a = 95)) by done. exists false. split; [done|]. naive_solver. }
  destruct (decide (b = 77)) as [->|Hnb].
  2: { rewrite (bool_decide_false (b = 77)) by done. exists false. split; [done|]. naive_solver. }
  destruct (decide (c = 80)) as [->|Hnc].
  2: { rewrite (bool_decide_false (c = 80)) by done. exists false. split; [done|]. naive_solver. }
  exists (bool_decide (d = 95)). split; [done|]. rewrite bool_decide_eq_true. naive_solver.
Qed.

(** [mp_slide] finds the first signature of the range. *)
Lemma mp_slide_ok m k : ∀ from,
  Strings.writable m from (Z.of_nat k + 3) →
  ∃ r, mp_slide_from k from m = Ok r ∧
    ((r = 0 ∧ ∀ p, from ≤ p < from + Z.of_nat k → ¬ signed m p) ∨
     (from ≤ r < from + Z.of_nat k ∧ signed m r ∧ ∀ p, from ≤ p < r → ¬ signed m p)).
Proof.
  induction k as [|k IH]; intros from Hw; cbn [mp_slide_from].
  { exists 0. split; [done|]. left. split; [done|]. lia. }
  destruct (signature_at_ok m from) as (b & Hb & Hs).
  { eapply Strings.writable_sub; [exact Hw|lia|lia]. }
  rewrite (bind_ok _ _ _ Hb). destruct b.
  { exists from. split; [done|]. right. split; [lia|]. split; [by apply Hs|]. lia. }
  assert (Hn : ¬ signed m from) by (intros Hsig; by apply Hs in Hsig).
  destruct (IH (from + 1)) as (r & Hr & Hcase).
  { eapply Strings.writable_sub; [exact Hw|lia|lia]. }
  exists r. split; [done|].
  destruct Hcase as [[H0 Hno]|(Hin & Hsig & Hno)]; [left|right].
  - split; [done|]. intros p Hp. destruct (decide (p = from)) as [->|]; [done|]. apply Hno. lia.
  - split; [lia|]. split; [done|]. intros p Hp. destruct (decide (p = from)) as [->|]; [done|].
    apply Hno. lia.
Qed.

(** Processor entries with these identifiers. *)
Fixpoint procs_at (m : mem8) (ptr : Z) (ids : list Z) : Prop :=
  match ids with
  | [] => True
  | id :: ids => m !! ptr = Some 0 ∧ m !! (ptr + ENTRY_LAPIC_ID) = Some id ∧ procs_at m (ptr + 20) ids
  end.

(** Pages that are nobody's, one after the other. *)
Fixpoint fresh_pages (live : Z → Prop) (ps : list Z) : Prop :=
  match ps with
  | [] => True
  | p :: ps =>
      (∀ a, p ≤ a < p + PAGE_SIZE → ¬ live a) ∧
      fresh_pages (λ a, live a ∨ p ≤ a < p + PAGE_SIZE) ps
  end.

Lemma procs_at_same m m' ptr ids :
  (∀ a, ptr ≤ a < ptr + 20 * Z.of_nat (length ids) → m' !! a = m !! a) →
  procs_at m ptr ids → procs_at m' ptr ids.
Proof.
  revert ptr. induction ids as [|id ids IH]; intros ptr Hs; cbn [procs_at length] in *; [done|].
  unfold ENTRY_LAPIC_ID. intros (H1 & H2 & H3). rewrite !Hs by lia. split; [done|]. split; [done|].
  apply IH; [|done]. intros a Ha. apply Hs. lia.
Qed.

(** What the loop leaves, from entry [i] on: the processors [ids], with stacks on
    the pages [ps], and a heap with room for [r] pages more. *)
Record listed `{FrameAlloc F} (live live' : Z → Prop) (r : nat) (i : Z) (ids ps : list Z)
    (s s' : cpus (F := F)) : Prop := {
  ls_length : length ps = length ids;
  ls_fresh : fresh_pages live ps;
  ls_num : num_of_cpu s' = num_of_cpu s + Z.of_nat (length ids);
  ls_max : maximum_cpu s' = maximum_cpu s;
  ls_map j id : ids !! j = Some id → arr 0 (cpu_mapping s') (i + Z.of_nat j) = id;
  ls_below x : x < i → arr 0 (cpu_mapping s') x = arr 0 (cpu_mapping s) x;
  ls_range : (∀ x, 0 ≤ arr 0 (cpu_mapping s) x < 256) → ∀ x, 0 ≤ arr 0 (cpu_mapping s') x < 256;
  ls_stack j id p : ids !! j = Some id → ps !! j = Some p →
    arr 0 (cpu_stack s') id = p + PAGE_SIZE - 16;
  ls_other id : id ∉ ids → arr 0 (cpu_stack s') id = arr 0 (cpu_stack s) id;
  ls_bytes a : live a → bytes s' !! a = bytes s !! a;
  ls_heap : Memory.heap_ok live' r (mem s') (bytes s');
  ls_live a : live a → live' a;
  ls_spent : Memory.spent (2 * length ids) (Memory.vm (Memory.area (mem s)))
    (Memory.vm (Memory.area (mem s')))
}.

Lemma listed_none `{FrameAlloc F} live r i (s : cpus (F := F)) :
  Memory.heap_ok live r (mem s) (bytes s) → listed live live r i [] [] s s.
Proof.
  intros Hh. split; try done; [simpl; lia|]. destruct Hh as (ls & pool & Hr).
  exact (Memory.spent_refl _ (Memory.room_inv _ _ (Memory.hr_room _ _ _ _ _ _ Hr))).
Qed.

(** One entry more in front. *)
Lemma listed_cons `{FrameAlloc F} live live' r i id ids p ps h m (s s' : cpus (F := F)) :
  0 ≤ id < MAX_CPU → id ∉ ids → (∀ a, live a → m !! a = bytes s !! a) →
  (∀ a, p ≤ a < p + PAGE_SIZE → ¬ live a) →
  Memory.spent 2 (Memory.vm (Memory.area (mem s))) (Memory.vm (Memory.area h)) →
  listed (λ a, live a ∨ p ≤ a < p + PAGE_SIZE) live' r (i + 1) ids ps
    (Cpus (num_of_cpu s + 1) (<[id := p + PAGE_SIZE - 16]> (cpu_stack s)) (<[i := id]> (cpu_mapping s))
       (maximum_cpu s) h m) s' →
  listed live live' r i (id :: ids) (p :: ps) s s'.
Proof.
  intros Hid Hnin Hkeep Hfr Hsp [Hl Hf Hn Hmx Hmap Hbelow Hrange Hst Hout Hb Hh Hlv Hsp'].
  cbn [num_of_cpu cpu_stack cpu_mapping maximum_cpu mem bytes] in *. split; try done.
  - cbn [length]. by rewrite Hl.
  - rewrite Hn. cbn [length]. lia.
  - intros [|j] id' Hj; simpl in Hj.
    + injection Hj as <-. rewrite Hbelow by lia. replace (i + Z.of_nat 0) with i by lia. apply arr_insert_eq.
    + rewrite <- (Hmap j id' Hj). f_equal. lia.
  - intros x Hx. rewrite Hbelow by lia. by rewrite arr_insert_ne by lia.
  - intros Hall. apply Hrange. intros x. rewrite arr_insert. case_decide; [|apply Hall].
    change MAX_CPU with 8 in Hid. lia.
  - intros [|j] id' p' Hj Hpj; simpl in Hj, Hpj.
    + injection Hj as <-. injection Hpj as <-. rewrite Hout by done. by rewrite arr_insert_eq.
    + by apply (Hst j).
  - intros id' Hn'. apply not_elem_of_cons in Hn' as [Hne Hn']. rewrite Hout by done.
    by rewrite arr_insert_ne.
  - intros a Ha. rewrite Hb by (by left). by apply Hkeep.
  - intros a Ha. apply Hlv. by left.
  - cbn [length]. replace (2 * S (length ids))%nat with (2 + 2 * length ids)%nat by lia.
    exact (Memory.spent_trans _ _ _ _ _ Hsp Hsp').
Qed.

(** The loop over processor entries, which ends behind them. *)
Lemma cpu_entries_ok `{FrameAlloc F} ids r : ∀ live k i ptr (s : cpus (F := F)),
  procs_at (bytes s) ptr ids → Forall (λ id, 0 ≤ id < MAX_CPU) ids → NoDup ids →
  0 ≤ i → i + Z.of_nat (length ids) ≤ MAX_CPU → 0 ≤ num_of_cpu s ≤ i →
  Memory.heap_ok live (length ids + r) (mem s) (bytes s) →
  (∀ a, ptr ≤ a < ptr + 20 * Z.of_nat (length ids) + 1 → live a) →
  (k = length ids ∨ (length ids < k)%nat ∧
     ∃ ty, bytes s !! (ptr + 20 * Z.of_nat (length ids)) = Some ty ∧ ty ≠ 0) →
  ∃ s' ps live', cpu_entries k i ptr s = Ok s' ∧ listed live live' r i ids ps s s'.
Proof.
  induction ids as [|id ids IH]; intros live k i ptr s Hp Hid Hnd Hi Hlen Hnum Hh Hlive Hk.
  { exists s, [], live. split; [|by apply listed_none].
    destruct Hk as [->|(Hlt & ty & Hty & Hne)]; [done|]. destruct k as [|k]; [simpl in Hlt; lia|].
    cbn [cpu_entries length] in *. replace (ptr + 20 * Z.of_nat 0) with ptr in Hty by lia.
    rewrite (Strings.load8_Some _ _ _ Hty). cbn [mbind res_bind]. by rewrite bool_decide_false. }
  destruct Hp as (H0 & H1 & Hp). apply Forall_cons in Hid as [Hid Hids].
  apply NoDup_cons in Hnd as [Hnin Hnd]. cbn [length Nat.add] in *.
  destruct k as [|k]; [lia|]. cbn [cpu_entries].
  rewrite (Strings.load8_Some _ _ _ H0). cbn [mbind res_bind]. rewrite bool_decide_true by done.
  rewrite (Strings.load8_Some _ _ _ H1). cbn [mbind res_bind].
  destruct (Memory.kmalloc_page live (length ids + r) PAGE_SIZE (mem s) (bytes s) ltac:(done) Hh)
    as (p & h & m & Hm & [Hp0 Hend _ _ Hsame Hfr] & Hh').
  pose proof (Memory.kmalloc_spent _ _ _ _ _ _ _ _ Hh Hm) as Hsp.
  rewrite (bind_ok _ _ _ Hm). cbv iota beta.
  rewrite !aset_in by lia. cbn [mbind res_bind]. rewrite PAGE_SIZE_eq in *.
  assert (Hi8 : i < 8) by (unfold MAX_CPU in Hlen; lia).
  rewrite u32_small by lia. rewrite s32_small by lia.
  assert (Hkeep : ∀ a, live a → m !! a = bytes s !! a).
  { intros a Ha. apply Hsame. intros Hin. by apply (Hfr a Hin). }
  destruct (IH (λ a, live a ∨ p ≤ a < p + 4096) k (i + 1) (ptr + 20) (Cpus (num_of_cpu s + 1)
    (<[id := p + 4096 - 16]> (cpu_stack s)) (<[i := id]> (cpu_mapping s)) (maximum_cpu s) h m))
    as (s' & ps & live' & Hs' & Hl); try done; cbn [num_of_cpu bytes]; try lia.
  - apply (procs_at_same (bytes s)); [|done]. intros a Ha. apply Hkeep, Hlive. lia.
  - intros a Ha. left. apply Hlive. lia.
  - destruct Hk as [[= ->]|(Hlt & ty & Hty & Hne)]; [by left|right]. split; [lia|]. exists ty.
    split; [|done]. rewrite Hkeep by (apply Hlive; lia). rewrite <- Hty. f_equal. lia.
  - exists s', (p :: ps), live'. split; [exact Hs'|].
    apply (listed_cons live live' r i id ids p ps h m s s'); rewrite ?PAGE_SIZE_eq; done.
Qed.

(** What [cpu_find] finds in the memory [m]. *)
Record firmware (m : mem8) (mp mpc count : Z) (ids : list Z) : Prop := {
  fw_find : mp_find m = Ok mp;
  fw_config : Memory.load32 (mp + CONFIG) m = Ok mpc;
  fw_count : ∃ b0 b1, Strings.load8 (mpc + ENTRY_COUNT) m = Ok b0 ∧
    Strings.load8 (mpc + ENTRY_COUNT + 1) m = Ok b1 ∧ b0 + 256 * b1 = count;
  fw_procs : procs_at m (mpc + CONFIG_SIZE) ids;
  fw_ids : Forall (λ id, 0 ≤ id < MAX_CPU) ids;
  fw_distinct : NoDup ids;
  fw_few : Z.of_nat (length ids) ≤ MAX_CPU;
  fw_end : count = Z.of_nat (length ids) ∨ Z.of_nat (length ids) < count ∧
    ∃ ty, m !! (mpc + CONFIG_SIZE + 20 * Z.of_nat (length ids)) = Some ty ∧ ty ≠ 0
}.

Lemma cpu_find_ok `{FrameAlloc F} live r (s : cpus (F := F)) mp mpc count ids :
  firmware (bytes s) mp mpc count ids → Memory.heap_ok live (length ids + r) (mem s) (bytes s) →
  (∀ a, mpc + CONFIG_SIZE ≤ a < mpc + CONFIG_SIZE + 20 * Z.of_nat (length ids) + 1 → live a) →
  ∃ s' ps live', cpu_find s = Ok s' ∧ cpu_count s' = Z.of_nat (length ids) ∧
    maximum_cpu s' = Z.min (maximum_cpu s) (Z.of_nat (length ids)) ∧
    listed live live' r 0 ids ps
      (Cpus 0 (cpu_stack s) (<[0 := 0]> (cpu_mapping s)) (maximum_cpu s) (mem s) (bytes s))
      (Cpus (num_of_cpu s') (cpu_stack s') (cpu_mapping s') (maximum_cpu s) (mem s') (bytes s')).
Proof.
  intros [Hmp Hmpc (b0 & b1 & Hb0 & Hb1 & Hcnt) Hp Hid Hnd Hlen Hk] Hh Hlive.
  destruct (cpu_entries_ok ids r live (Z.to_nat count) 0 (mpc + CONFIG_SIZE)
    (Cpus 0 (cpu_stack s) (<[0 := 0]> (cpu_mapping s)) (maximum_cpu s) (mem s) (bytes s)))
    as (s' & ps & live' & Hs' & Hl); try done; cbn [num_of_cpu]; try lia.
  { destruct Hk as [->|(Hlt & Hty)]; [left; lia|right; split; [lia|done]]. }
  assert (Hrun : ∀ r, (if num_of_cpu s' <? maximum_cpu s'
     then Ok (Cpus (num_of_cpu s') (cpu_stack s') (cpu_mapping s') (u8 (num_of_cpu s')) (mem s') (bytes s'))
     else Ok s') = r → cpu_find s = r).
  { intros x <-. unfold cpu_find. rewrite (bind_ok _ _ _ Hmp), (bind_ok _ _ _ Hmpc).
    rewrite aset_in by done. cbn [mbind res_bind]. rewrite (bind_ok _ _ _ Hb0), (bind_ok _ _ _ Hb1).
    by rewrite Hcnt, (bind_ok _ _ _ Hs'). }
  pose proof (ls_num _ _ _ _ _ _ _ _ Hl) as Hn. pose proof (ls_max _ _ _ _ _ _ _ _ Hl) as Hmx.
  cbn [num_of_cpu maximum_cpu] in Hn, Hmx. change MAX_CPU with 8 in Hlen.
  destruct (Z.ltb_spec (num_of_cpu s') (maximum_cpu s')) as [Hlt|Hge].
  - eexists _, ps, live'. split; [exact (Hrun _ eq_refl)|]. cbn [cpu_count num_of_cpu maximum_cpu].
    split; [unfold cpu_count; cbn; lia|]. split; [rewrite u8_small; lia|]. by destruct Hl; split.
  - exists s', ps, live'. split; [exact (Hrun _ eq_refl)|]. split; [unfold cpu_count; lia|].
    split; [lia|]. by destruct Hl; split.
Qed.

(** ** Properties *)

(** C26. [cpu_sync] is a barrier for the processors that call it: under every
    interleaving of their memory accesses none passes before all have been
    counted, the counter is the number of those that have, and once all have
    left the section each processor that still waits passes with its next
    step. *)
Theorem cpu_sync_barrier n b :
  Z.of_nat n < 2 ^ 31 → rtc (barrier_step (Z.of_nat n)) (barrier_init n) b →
  awoken_cpu b = Z.of_nat (arrived (at_cpu b)) ∧
  (∀ i, at_cpu b !! i = Some Passed → ∀ j p, at_cpu b !! j = Some p → counted p = true) ∧
  ((∀ j p, at_cpu b !! j = Some p → counted p = true) →
   ∀ i, at_cpu b !! i = Some Spinning →
     sync_cpu (Z.of_nat n) i b = Some (Barrier (lock b) (awoken_cpu b) (<[i := Passed]> (at_cpu b)))).
Proof.
  intros Hn Hr.
  assert (Hb : barrier_inv n b).
  { apply (rtc_invariant _ (barrier_inv n) _ _ (λ x y Hs Hx, barrier_inv_step n x y Hn Hx Hs) Hr).
    apply barrier_inv_init. }
  split; [apply (bi_count _ _ Hb)|]. split.
  - intros i Hi. apply arrived_all. rewrite (bi_passed _ _ Hb i Hi). symmetry. apply (bi_length _ _ Hb).
  - intros Hall i Hi. apply arrived_all in Hall. rewrite (bi_length _ _ Hb) in Hall.
    unfold sync_cpu. rewrite Hi. cbn [mbind option_bind sync_step].
    rewrite bool_decide_false; [done|]. rewrite (bi_count _ _ Hb), Hall. tauto.
Qed.

(** [cpu_find] records the processors of the firmware's table, up to the
    first entry of another kind: how many there are, which one each number
    stands for, and a stack on a fresh page for each; the number of processors
    in use is lowered to theirs.  This is for at most eight processors with
    identifiers below eight: the arrays end there and nothing is checked. *)
Theorem cpu_find_lists `{FrameAlloc F} live (s : cpus (F := F)) mp mpc count ids :
  let m := bytes s in
  let entries := mpc + CONFIG_SIZE in
  mp_find m = Ok mp → Memory.load32 (mp + CONFIG) m = Ok mpc →
  (b0 ← Strings.load8 (mpc + ENTRY_COUNT) m; b1 ← Strings.load8 (mpc + ENTRY_COUNT + 1) m;
   Ok (b0 + 256 * b1)) = Ok count →
  procs_at m entries ids → Forall (λ id, 0 ≤ id < MAX_CPU) ids → NoDup ids →
  Z.of_nat (length ids) ≤ MAX_CPU → Memory.heap_ok live (length ids) (mem s) m →
  (∀ a, entries ≤ a < entries + 20 * Z.of_nat (length ids) + 1 → live a) →
  (count = Z.of_nat (length ids) ∨ Z.of_nat (length ids) < count ∧
     ∃ ty, m !! (entries + 20 * Z.of_nat (length ids)) = Some ty ∧ ty ≠ 0) →
  ∃ s' ps, cpu_find s = Ok s' ∧ cpu_count s' = Z.of_nat (length ids) ∧
    maximum_cpu s' = Z.min (maximum_cpu s) (Z.of_nat (length ids)) ∧
    (∀ j id, ids !! j = Some id → arr 0 (cpu_mapping s') (Z.of_nat j) = id) ∧
    length ps = length ids ∧ fresh_pages live ps ∧
    (∀ j id p, ids !! j = Some id → ps !! j = Some p →
       arr 0 (cpu_stack s') id = p + PAGE_SIZE - 16) ∧
    (∀ a, live a → bytes s' !! a = m !! a).
Proof.
  intros m entries Hmp Hmpc Hcnt Hp Hid Hnd Hlen Hh Hlive Hk.
  apply res_bind_Ok in Hcnt as (b0 & Hb0 & Hcnt). apply res_bind_Ok in Hcnt as (b1 & Hb1 & Hcnt).
  injection Hcnt as Hcnt.
  destruct (cpu_find_ok live 0 s mp mpc count ids) as (s' & ps & live' & Hs & Hn & Hmx & Hl).
  - split; try done. by exists b0, b1.
  - by rewrite Nat.add_0_r.
  - done.
  - destruct Hl. exists s', ps. by repeat (split; [done|]).
Qed.

(** ** Concrete runs *)

(** One processor alone goes through. *)
Lemma cpu_sync_barrier_witness :
  ∃ b, rtc (barrier_step 1) (barrier_init 1) b ∧ at_cpu b = [Passed] ∧ awoken_cpu b = 1.
Proof.
  assert (Hr : rtc (barrier_step (Z.of_nat 1)) (barrier_init 1) (Barrier 0 1 [Passed])).
  { do 6 (eapply rtc_l; [exists 0%nat; reflexivity|]). apply rtc_refl. }
  destruct (cpu_sync_barrier 1 _ ltac:(lia) Hr) as [Hc _].
  exists (Barrier 0 1 [Passed]). split; [exact Hr|]. split; [reflexivity|exact Hc].
Defined.

(** A table of two processors and a bus, found in the last kilobyte below
    640 KiB. *)
Definition table_bytes : mem8 :=
  Memory.fill 0x9FC00 ([95; 77; 80; 95] ++ Memory.le32 0x9FD00) ∪
  (Memory.fill 0x9FD00 (replicate 34 0 ++ [3; 0] ++ replicate 8 0 ++
     (0 :: 0 :: replicate 18 0) ++ (0 :: 1 :: replicate 18 0) ++ [1]) ∪ Process.heap_bytes).

Definition demo_cpus (a : Kmalloc.mem_allocator) : cpus :=
  Cpus 0 ∅ ∅ 8 (Process.heap_of a) table_bytes.

Lemma cpu_find_lists_witness :
  ∃ a s', Kmalloc.mem_allocator_init Kmalloc.allocator0 = Ok a ∧ cpu_find (demo_cpus a) = Ok s' ∧
    cpu_count s' = 2 ∧ maximum_cpu s' = 2 ∧ arr 0 (cpu_mapping s') 1 = 1.
Proof.
  destruct (Kmalloc.mem_allocator_init_good Kmalloc.allocator0) as (a & Ha & Hg).
  destruct (cpu_find_lists (λ x, x < 0xA0000) (demo_cpus a) 0x9FC00 0x9FD00 3 [0; 1])
    as (s' & ps & Hs & Hn & Hm & Hmap & _).
  - by vm_compute.
  - by vm_compute.
  - by vm_compute.
  - do 4 (split; [by vm_compute|]). exact I.
  - repeat constructor; discriminate.
  - apply (bool_decide_unpack _). by vm_compute.
  - discriminate.
  - apply Process.heap_of_ok; [simpl; lia|exact Hg| |intros x Hx; lia].
    intros x Hx. unfold demo_cpus, table_bytes. cbn [bytes].
    assert (Hb : is_Some (Process.heap_bytes !! x))
      by exact (Strings.blank_writable 0xC3000000 (Z.to_nat 32768) x Hx).
    apply lookup_union_is_Some. right. apply lookup_union_is_Some. right. exact Hb.
  - intros x Hx. simpl in Hx. unfold CONFIG_SIZE in Hx. lia.
  - right. split; [simpl; lia|]. exists 1. split; [by vm_compute|done].
  - exists a, s'. split; [exact Ha|]. split; [exact Hs|]. split; [exact Hn|].
    split; [exact Hm|]. exact (Hmap 1%nat 1 eq_refl).
Defined.

End Cpu.
