(* ===== verification/Devices.v ===== *)
(** Code that talks to devices through ports (kernel/timer.c,
    kernel/interrupts.c).

    What the devices do is a parameter: [Ports] gives the two instructions,
    [Rtc] states what the documentation of the real-time clock says of its
    index and data ports 0x70 and 0x71, and [chip] is a device that behaves
    so.  The handlers that print are here too; the addresses of their format
    strings and buffers are arguments. *)

From Stdlib Require Import ZArith Lia.
From stdpp Require Import base option list gmap.
From S2P Require Import Prelude Interfaces Locks Strings Timer Screen Interrupts.

Module Devices.

Notation mem8 := Strings.mem8.

(** ** The timer *)

Section Clock.
Context {D : Type} `{Ports D}.

(** The tick counter, the table of handlers, the devices. *)
Record clock := Clock { ticks : Z; ints : Interrupts.state; dev : D }.

Definition _tick (s : clock) : clock :=
  let t := Timer.tick (ticks s) in
  let d := port_write 0x70 0x0C (dev s) in
  let '(_, d) := port_read_8 0x71 d in
  Clock t (ints s) d.

(** [prev] is a [char]. *)
Definition timer_init (s : clock) : res clock :=
  let rate := 6 in
  i ← Interrupts.interrupts_register_handler Interrupts.INT_RTC Interrupts._tick (ints s);
  let d := port_write 0x70 0x8A (dev s) in
  let '(prev, d) := port_read_8 0x71 d in
  let d := port_write 0x70 0x8A d in
  let d := port_write 0x71 (u8 (Z.lor (Z.land (s8 prev) 0xF0) rate)) d in
  let d := port_write 0x70 0x8B d in
  let '(prev, d) := port_read_8 0x71 d in
  let d := port_write 0x70 0x8B d in
  let d := port_write 0x71 (u8 (Z.lor (s8 prev) 0x40)) d in
  let d := port_write 0x70 0x0C d in
  let '(_, d) := port_read_8 0x71 d in
  Ok (Clock 0 i d).

(** [apic_enable]: the old controllers are masked; [lo] is the low half of the
    register 0x1B. *)
Definition apic_enable (lo : Z) (d : D) : Z * D :=
  let d := port_write 0xA1 0xFF d in
  let d := port_write 0x21 0xFF d in
  (Z.lor (Z.land lo 0xFFFFF000) 0x800, d).

End Clock.
Arguments clock : clear implicits.

(** ** Handlers that print *)

Section Printing.
Context {D : Type} `{Ports D} (fuel : nat).

Section Buffer.
Context (buf : Z).

(** [screen_putstr(kprintf(buf, fmt, args))] *)
Definition print (fmt : Z) (args : list Z) (m : mem8) (sc : Screen.screen)
    : res (mem8 * Screen.screen) :=
  '(s, m) ← Strings.kprintf fuel m buf fmt args;
  sc ← Screen.screen_putstr fuel m s sc;
  Ok (m, sc).

(** The fields in the order of the text; [field] is where the format of each
    is, the last one that of the line's end. *)
Definition regs_print (field : nat → Z) (regs : Interrupts.thread_state) (m : mem8)
    (sc : Screen.screen) : res (mem8 * Screen.screen) :=
  '(m, sc) ← print (field 0%nat) [Interrupts.ds regs] m sc;
  '(m, sc) ← print (field 1%nat) [Interrupts.edi regs] m sc;
  '(m, sc) ← print (field 2%nat) [Interrupts.esi regs] m sc;
  '(m, sc) ← print (field 3%nat) [Interrupts.ebp regs] m sc;
  '(m, sc) ← print (field 4%nat) [Interrupts.esp regs] m sc;
  '(m, sc) ← print (field 5%nat) [Interrupts.ebx regs] m sc;
  '(m, sc) ← print (field 6%nat) [Interrupts.edx regs] m sc;
  '(m, sc) ← print (field 7%nat) [Interrupts.ecx regs] m sc;
  '(m, sc) ← print (field 8%nat) [Interrupts.eax regs] m sc;
  '(m, sc) ← print (field 9%nat) [Interrupts.int_id regs] m sc;
  '(m, sc) ← print (field 10%nat) [Interrupts.err regs] m sc;
  '(m, sc) ← print (field 11%nat) [Interrupts.eip regs] m sc;
  '(m, sc) ← print (field 12%nat) [Interrupts.cs regs] m sc;
  '(m, sc) ← print (field 13%nat) [Interrupts.eflags regs] m sc;
  '(m, sc) ← print (field 14%nat) [Interrupts.useresp regs] m sc;
  '(m, sc) ← print (field 15%nat) [Interrupts.ss regs] m sc;
  print (field 16%nat) [] m sc.

End Buffer.

Definition keyboard_handler (buf fmt ticks : Z) (state : Interrupts.thread_state) (m : mem8)
    (sc : Screen.screen) (d : D) : res (mem8 * Screen.screen * D) :=
  let uptime := Timer.timer_uptime ticks in
  '(m, sc) ← print buf fmt [Interrupts.eip state; Interrupts.tpr state; Timer.days uptime;
               Timer.hours uptime; Timer.minutes uptime; Timer.sec uptime;
               Timer.milisec uptime] m sc;
  let '(_, d) := port_read_8 0x60 d in
  Ok (m, sc, d).

(** Up to the loop of [hlt] at its end. *)
Definition unhandled_interrupt_handler (buf regs_buf fmt : Z) (field : nat → Z)
    (cr2 proc th cpu lock : Z) (state : Interrupts.thread_state) (m : mem8) (sc : Screen.screen)
    : res (mem8 * Screen.screen) :=
  '(lock, sc) ← Screen.screen_clear lock sc;
  '(m, sc) ← print buf fmt [Interrupts.int_id state; cr2; proc; th; cpu] m sc;
  regs_print regs_buf field state m sc.

End Printing.

(** ** The real-time clock *)

(** Port 0x70 takes the number of a register and, in its highest bit, whether
    the NMI is off; port 0x71 is that register.  A register A as it is read
    has a status flag above its seven bits; reading register C clears it, and
    with it the pending interrupt. *)
Class Rtc (D : Type) `{Ports D} := {
  rtc_index : D → Z;
  rtc_reg : Z → D → Z;
  nmi_off : D → bool;
  rtc_reg_range r d : 0 ≤ rtc_reg r d < 256;
  rtc_a_range d : rtc_reg 0x0A d < 128;
  rtc_select v d : 0 ≤ v < 256 →
    rtc_index (port_write 0x70 v d) = v mod 128 ∧ nmi_off (port_write 0x70 v d) = Z.testbit v 7 ∧
    ∀ r, rtc_reg r (port_write 0x70 v d) = rtc_reg r d;
  rtc_store v d : 0 ≤ v < 256 → rtc_index d = 0x0A ∨ rtc_index d = 0x0B →
    nmi_off (port_write 0x71 v d) = nmi_off d ∧
    ∀ r, rtc_reg r (port_write 0x71 v d) =
      if decide (r = rtc_index d) then (if decide (r = 0x0A) then v mod 128 else v)
      else rtc_reg r d;
  rtc_load d :
    0 ≤ fst (port_read_8 0x71 d) < 256 ∧
    fst (port_read_8 0x71 d) mod 128 = rtc_reg (rtc_index d) d mod 128 ∧
    (rtc_index d ≠ 0x0A → fst (port_read_8 0x71 d) = rtc_reg (rtc_index d) d) ∧
    nmi_off (snd (port_read_8 0x71 d)) = nmi_off d ∧
    ∀ r, rtc_reg r (snd (port_read_8 0x71 d)) =
      if decide (r = 0x0C ∧ rtc_index d = 0x0C) then 0 else rtc_reg r d
}.

(** The rate of the periodic interrupt that register A selects, with the time
    base of 32768 Hz. *)
Definition periodic_hz (a : Z) : Z := 32768 / 2 ^ (a mod 16 - 1).

(** A check of all bytes. *)
Lemma all_bytes (P : Z → Prop) `{∀ x, Decision (P x)} :
  bool_decide (Forall P (seqZ 0 256)) = true → ∀ x, 0 ≤ x < 256 → P x.
Proof.
  intros Hb%bool_decide_eq_true x Hx. eapply Forall_forall; [exact Hb|]. apply elem_of_seqZ. lia.
Qed.

Lemma rate_byte p :
  0 ≤ p < 256 → u8 (Z.lor (Z.land (s8 p) 0xF0) 6) mod 128 = 16 * (p mod 128 / 16) + 6.
Proof.
  revert p.
  apply (all_bytes (λ p, u8 (Z.lor (Z.land (s8 p) 0xF0) 6) mod 128 = 16 * (p mod 128 / 16) + 6)).
  by vm_compute.
Qed.

Lemma enable_byte p :
  0 ≤ p < 256 → u8 (Z.lor (s8 p) 0x40) = Z.lor p 0x40.
Proof.
  revert p. apply (all_bytes (λ p, u8 (Z.lor (s8 p) 0x40) = Z.lor p 0x40)). by vm_compute.
Qed.

Section RtcLemmas.
Context {D : Type} `{Rtc D}.

(** One register is selected and read. *)
Lemma rtc_get v d :
  0 ≤ v < 256 →
  let d' := snd (port_read_8 0x71 (port_write 0x70 v d)) in
  let x := fst (port_read_8 0x71 (port_write 0x70 v d)) in
  0 ≤ x < 256 ∧ x mod 128 = rtc_reg (v mod 128) d mod 128 ∧
  (v mod 128 ≠ 0x0A → x = rtc_reg (v mod 128) d) ∧ nmi_off d' = Z.testbit v 7 ∧
  ∀ r, rtc_reg r d' = if decide (r = 0x0C ∧ v mod 128 = 0x0C) then 0 else rtc_reg r d.
Proof.
  intros Hv. destruct (rtc_select v d Hv) as (Hi & Hn & Hr).
  destruct (rtc_load (port_write 0x70 v d)) as (Hx & Hm & Ha & Hn' & Hr').
  rewrite Hi, ?Hr in *. split; [done|]. split; [done|]. split; [done|].
  split; [congruence|]. intros r. by rewrite Hr', Hr.
Qed.

(** One register, A or B, is selected and written. *)
Lemma rtc_set v x d :
  0 ≤ v < 256 → 0 ≤ x < 256 → v mod 128 = 0x0A ∨ v mod 128 = 0x0B →
  let d' := port_write 0x71 x (port_write 0x70 v d) in
  nmi_off d' = Z.testbit v 7 ∧
  ∀ r, rtc_reg r d' = if decide (r = v mod 128) then (if decide (r = 0x0A) then x mod 128 else x)
    else rtc_reg r d.
Proof.
  intros Hv Hx Hab. destruct (rtc_select v d Hv) as (Hi & Hn & Hr).
  destruct (rtc_store x (port_write 0x70 v d) Hx) as [Hn' Hs]; [by rewrite Hi|].
  split; [congruence|]. intros r. by rewrite Hs, Hi, Hr.
Qed.

(** An interrupt of the clock is acknowledged. *)
Lemma tick_ok (s : clock D) :
  let s' := _tick s in
  ticks s' = Timer.tick (ticks s) ∧ ints s' = ints s ∧ nmi_off (dev s') = false ∧
  ∀ r, rtc_reg r (dev s') = if decide (r = 0x0C) then 0 else rtc_reg r (dev s).
Proof.
  unfold _tick. pose proof (rtc_get 0x0C (dev s) ltac:(lia)) as Hg.
  destruct (port_read_8 0x71 (port_write 0x70 0x0C (dev s))) as [x d].
  destruct Hg as (_ & _ & _ & Hn & Hr). split; [done|]. split; [done|]. split; [done|].
  intros r. change (rtc_reg r d = if decide (r = 0x0C) then 0 else rtc_reg r (dev s)).
  rewrite Hr. repeat case_decide; tauto.
Qed.

(** The registers after [timer_init]. *)
Lemma timer_init_regs (s : clock D) :
  ∃ i d, timer_init s = Ok (Clock 0 i d) ∧
    Interrupts.int_handlers i
      = <[Interrupts.INT_RTC := Interrupts._tick]> (Interrupts.int_handlers (ints s)) ∧
    rtc_reg 0x0A d = 16 * (rtc_reg 0x0A (dev s) / 16) + 6 ∧
    rtc_reg 0x0B d = Z.lor (rtc_reg 0x0B (dev s)) 0x40 ∧ rtc_reg 0x0C d = 0 ∧ nmi_off d = false.
Proof.
  unfold timer_init. destruct (Interrupts.register_ok Interrupts.INT_RTC Interrupts._tick (ints s))
    as (i & Hi & Hh & _); [split; [discriminate|reflexivity]|].
  rewrite (bind_ok _ _ _ Hi). cbv zeta.
  destruct (rtc_get 0x8A (dev s)) as (Hx & Hxm & _ & _ & Hr1); [lia|].
  destruct (port_read_8 0x71 (port_write 0x70 0x8A (dev s))) as [x d1]. cbn [fst snd] in *.
  destruct (rtc_set 0x8A (u8 (Z.lor (Z.land (s8 x) 0xF0) 6)) d1) as [_ Hr2];
    [lia|apply u8_range|by left|].
  set (d2 := port_write 0x71 _ _) in *.
  destruct (rtc_get 0x8B d2) as (Hy & _ & Hyb & _ & Hr3); [lia|].
  destruct (port_read_8 0x71 (port_write 0x70 0x8B d2)) as [y d3]. cbn [fst snd] in *.
  destruct (rtc_set 0x8B (u8 (Z.lor (s8 y) 0x40)) d3) as [_ Hr4]; [lia|apply u8_range|by right|].
  set (d4 := port_write 0x71 _ (port_write 0x70 0x8B d3)) in *.
  destruct (rtc_get 0x0C d4) as (_ & _ & _ & Hn5 & Hr5); [lia|].
  destruct (port_read_8 0x71 (port_write 0x70 0x0C d4)) as [z d5]. cbn [fst snd] in *.
  exists i, d5. split; [reflexivity|]. split; [exact Hh|].
  pose proof (rtc_a_range (dev s)) as Ha. pose proof (rtc_reg_range 0x0A (dev s)) as Ha0.
  split; [|split; [|split; [by rewrite Hr5|exact Hn5]]].
  - rewrite Hr5, Hr4, Hr3, Hr2. cbn. rewrite rate_byte by done. change (138 mod 128) with 10 in Hxm.
    rewrite Hxm, (Z.mod_small (rtc_reg 10 (dev s))) by lia. done.
  - rewrite Hr5, Hr4. cbn. rewrite enable_byte by done. rewrite Hyb by done.
    change (139 mod 128) with 11. by rewrite Hr2, Hr1.
Qed.

Lemma ticks_ok (s : clock D) n :
  0 ≤ ticks s < 2 ^ 32 → rtc_reg 0x0C (dev s) = 0 →
  let sn := Nat.iter n _tick s in
  ticks sn = Timer.after_ticks n (ticks s) ∧ ints sn = ints s ∧
  ∀ r, rtc_reg r (dev sn) = rtc_reg r (dev s).
Proof.
  intros Ht Hc. induction n as [|n IH]; [done|]. cbv zeta in *. rewrite !Nat.iter_succ.
  destruct IH as (IHt & IHi & IHr).
  destruct (tick_ok (Nat.iter n _tick s)) as (H1 & H2 & _ & H4).
  split; [|split; [congruence|]].
  - rewrite H1, IHt. unfold Timer.after_ticks. by rewrite Nat.iter_succ.
  - intros r. rewrite H4. case_decide as Hr; [by rewrite Hr|apply IHr].
Qed.

End RtcLemmas.

(** ** Properties *)

(** C35. [timer_init] programs the clock for [TIMER_HZ] interrupts a second:
    the rate in register A, with the divider as it was, the periodic interrupt
    of register B on with its other bits as they were, nothing pending and the
    NMI on, the counter at 0 and the handler in place.  Each interrupt then
    adds one tick, is acknowledged so that the next one can come, and leaves
    the registers alone. *)
Theorem timer_init_rate `{Rtc D} (s : clock D) :
  ∃ s', timer_init s = Ok s' ∧ ticks s' = 0 ∧
    arr Interrupts.NullHandler (Interrupts.int_handlers (ints s')) Interrupts.INT_RTC
      = Interrupts._tick ∧
    let a := rtc_reg 0x0A (dev s') in let b := rtc_reg 0x0B (dev s') in
    periodic_hz a = Timer.TIMER_HZ ∧ a / 16 = rtc_reg 0x0A (dev s) / 16 ∧
    (∀ i, 0 ≤ i → Z.testbit b i = Z.testbit (rtc_reg 0x0B (dev s)) i || bool_decide (i = 6)) ∧
    rtc_reg 0x0C (dev s') = 0 ∧ nmi_off (dev s') = false ∧
    ∀ n, let sn := Nat.iter n _tick s' in
      ticks sn = Z.of_nat n mod 2 ^ 32 ∧ rtc_reg 0x0C (dev sn) = 0 ∧
      rtc_reg 0x0A (dev sn) = a ∧ rtc_reg 0x0B (dev sn) = b ∧ ints sn = ints s'.
Proof.
  destruct (timer_init_regs s) as (i & d & Hi & Hh & Ha & Hb & Hc & Hn).
  exists (Clock 0 i d). split; [exact Hi|]. split; [reflexivity|]. cbn [ticks ints dev].
  rewrite Hh, Ha, Hb. split; [by rewrite arr_insert_eq|].
  split; [|split; [dlia|split; [|split; [exact Hc|split; [exact Hn|]]]]].
  - unfold periodic_hz. by replace ((16 * (rtc_reg 0x0A (dev s) / 16) + 6) mod 16) with 6 by dlia.
  - intros k Hk. rewrite Z.lor_spec. f_equal. change 0x40 with (2 ^ 6).
    rewrite Z.pow2_bits_eqb by lia. case_bool_decide; subst; [done|]. apply Z.eqb_neq. lia.
  - intros n. destruct (ticks_ok (Clock 0 i d) n) as (H1 & H2 & H3); [done|exact Hc|].
    cbn [ticks ints dev] in *. rewrite H1, !H3, Timer.after_ticks_eq by lia. done.
Qed.

(** ** A clock *)

Record chip := Chip { index : Z; registers : gmap Z Z; off : bool }.

Definition chip_reg (r : Z) (d : chip) : Z :=
  arr 0 (registers d) r mod (if decide (r = 0x0A) then 128 else 256).

(** A read of register A finds the status flag set. *)
Definition chip_read (port : Z) (d : chip) : Z * chip :=
  if port =? 0x71 then
    (if decide (index d = 0x0A) then chip_reg 0x0A d + 128 else chip_reg (index d) d,
     if index d =? 0x0C then Chip (index d) (<[0x0C := 0]> (registers d)) (off d) else d)
  else (0, d).

Definition chip_write (port v : Z) (d : chip) : chip :=
  if port =? 0x70 then Chip (v mod 128) (registers d) (Z.testbit v 7) else
  if port =? 0x71 then
    Chip (index d) (<[index d := if index d =? 0x0A then v mod 128 else v]> (registers d)) (off d)
  else d.

#[export] Instance chip_ports : Ports chip := {| port_read_8 := chip_read; port_write := chip_write |}.

#[export] Program Instance chip_rtc : Rtc chip :=
  {| rtc_index := index; rtc_reg := chip_reg; nmi_off := off |}.
Next Obligation. intros r d. unfold chip_reg. case_decide; dlia. Qed.
Next Obligation. intros d. unfold chip_reg. rewrite decide_True by done. dlia. Qed.
Next Obligation. intros v d Hv. done. Qed.
Next Obligation.
  intros v d Hv Hi. cbn. split; [done|]. intros r. unfold chip_write, chip_reg. cbn [Z.eqb registers].
  rewrite arr_insert. destruct (Z.eqb_spec (index d) 0x0A) as [Ha|Ha];
    repeat case_decide; subst; try done; dlia.
Qed.
Next Obligation.
  intros d. cbn. unfold chip_read. cbn [Z.eqb fst snd].
  assert (Hr : ∀ r, 0 ≤ chip_reg r d < 256) by (intros r; unfold chip_reg; case_decide; dlia).
  pose proof (Hr (index d)). split; [|split; [|split; [|split]]].
  - case_decide as Hi; [|done]. unfold chip_reg. rewrite decide_True by done. dlia.
  - case_decide as Hi; [rewrite Hi; dlia|done].
  - intros Hi. by rewrite decide_False.
  - by case_match.
  - intros r. destruct (Z.eqb_spec (index d) 0x0C) as [Hi|Hi].
    + unfold chip_reg. cbn [registers]. rewrite arr_insert.
      repeat case_decide; subst; destruct_and?; subst; try done; tauto.
    + rewrite decide_False; [done|]. by intros [_ ?].
Qed.

Lemma timer_init_rate_witness :
  ∃ s', timer_init (Clock 5 Interrupts.state0 (Chip 0 {[0x0A := 0x2F; 0x0B := 0x82]} true)) = Ok s' ∧
    rtc_reg 0x0A (dev s') = 0x26 ∧ rtc_reg 0x0B (dev s') = 0xC2 ∧ ticks (Nat.iter 3 _tick s') = 3.
Proof.
  destruct (timer_init_rate (Clock 5 Interrupts.state0 (Chip 0 {[0x0A := 0x2F; 0x0B := 0x82]} true)))
    as (s' & Hs & _ & _ & _ & _ & _ & _ & _ & Ht).
  exists s'. split; [exact Hs|]. split; [|split; [|exact (proj1 (Ht 3%nat))]];
    revert Hs; vm_compute; intros Hs; injection Hs as <-; reflexivity.
Defined.

End Devices.
