(* ===== verification/Libc.v ===== *)
(** User programs as trees of system calls (libc/syscalls.c, libc/entry.c).

    A program is an interaction tree over [progE]: it raises interrupt 80,
    computes on its own data and memory, or reads a port.  The stubs of the
    C library are one event each; the loops that the programs of userspace/
    share are here as well.  Programs that never return end in [Empty_set].
    The addresses of literals and of local buffers are arguments. *)

From Stdlib Require Import ZArith Lia.
From stdpp Require Import base option list gmap.
From ITree Require Import Core.ITreeDefinition.
From S2P Require Import Prelude Interfaces Strings Utils Timer Syscall.

Module Libc.

Notation mem8 := Strings.mem8.

#[export] Instance itree_ret {E} : MRet (itree E) := λ A a, Ret a.
#[export] Instance itree_bind {E} : MBind (itree E) := λ A B f t, ITree.bind t f.

(** The events of a program with data [S]: registers that a call leaves alone
    are [None]. *)
Variant progE (S : Type) : Type → Type :=
| Int80 (number : Z) (ebx ecx edx : option Z) : progE S Z
| Run {A : Type} (f : S → mem8 → res (A * S * mem8)) : progE S A
| In8 (port : Z) : progE S Z.
Arguments Int80 {S} number ebx ecx edx.
Arguments Run {S A} f.
Arguments In8 {S} port.

(** ** libc/syscalls.c *)

Section Stubs.
Context {S : Type}.
Notation prog := (itree (progE S)).

(** The answer is the [int] that eax holds after the interrupt. *)
Definition syscall (number : Z) (ebx ecx edx : option Z) : prog Z :=
  ITree.trigger (Int80 number ebx ecx edx).

Definition exit (error_code : Z) : prog Z :=
  syscall Syscall.SYSCALL_EXIT (Some (u32 error_code)) None None.
Definition wait (ticks : Z) : prog Z :=
  syscall Syscall.SYSCALL_WAIT (Some (u32 ticks)) None None.
Definition register_process (name : Z) : prog Z :=
  syscall Syscall.SYSCALL_REGISTER (Some name) None None.
Definition read (descr buf size : Z) : prog Z :=
  syscall Syscall.SYSCALL_READ (Some (u32 descr)) (Some buf) (Some size).
Definition write (descr buf size : Z) : prog Z :=
  syscall Syscall.SYSCALL_WRITE (Some (u32 descr)) (Some buf) (Some size).
Definition select : prog Z := syscall Syscall.SYSCALL_SELECT None None None.
Definition connect (name : Z) : prog Z :=
  syscall Syscall.SYSCALL_CONNECT (Some name) None None.
Definition mmap (virt_addr phys_addr : Z) : prog unit :=
  _ ← syscall Syscall.SYSCALL_MMAP (Some virt_addr) (Some phys_addr) None; mret tt.
Definition handle (irq : Z) : prog unit :=
  _ ← syscall Syscall.SYSCALL_HANDLE (Some (u32 irq)) None None; mret tt.
Definition peek (descr : Z) : prog Z :=
  syscall Syscall.SYSCALL_PEEK (Some (u32 descr)) None None.
(** The [int] becomes a [uint64]. *)
Definition time : prog Z :=
  t ← syscall Syscall.SYSCALL_TIME None None None; mret (Timer.uint64 t).

Definition port_read8 (port : Z) : prog Z := ITree.trigger (In8 port).

End Stubs.

(** ** Loops *)

Section Loops.
Context {S : Type}.
Notation prog := (itree (progE S)).

(** [while(1)] with a loop variable. *)
Definition forever {A} (body : A → prog A) (a : A) : prog Empty_set :=
  ITree.iter (λ a, a ← body a; mret (inl a)) a.

(** [for (; cond(i); ++i)] *)
Definition for_loop (n : Z) (body : Z → prog unit) (i : Z) : prog unit :=
  ITree.iter (λ i, if i <? n then _ ← body i; mret (inl (i + 1)) else mret (inr tt)) i.

(** [while((descr = connect(name)) == -1) wait(100);] *)
Definition until_connected (name : Z) : prog Z :=
  ITree.iter (λ _, descr ← connect name;
    if bool_decide (descr = -1) then _ ← wait 100; mret (inl tt) else mret (inr descr)) tt.

(** [main(); while(1);] *)
Definition _start {A} (main : prog A) : prog Empty_set := _ ← main; ITree.spin.

(** [kprintf(buf, fmt, args)] *)
Definition kprintf (fuel : nat) (buf fmt : Z) (args : list Z) : prog Z :=
  ITree.trigger (Run (λ s m, '(r, m) ← Utils.kprintf fuel m buf fmt args; Ok (r, s, m))).

End Loops.

(** The bytes of an array of a program's data that a system call is given the
    address of: they are in memory at [at_] during the call. *)
Fixpoint put_bytes (n : nat) (i : Z) (a : gmap Z Z) (at_ : Z) (m : mem8) : res mem8 :=
  match n with
  | O => Ok m
  | S n => m ← Strings.store8 (at_ + i) (arr 0 a i) m; put_bytes n (i + 1) a at_ m
  end.

Fixpoint get_bytes (n : nat) (i : Z) (at_ : Z) (m : mem8) (a : gmap Z Z) : res (gmap Z Z) :=
  match n with
  | O => Ok a
  | S n => b ← Strings.load8 (at_ + i) m; get_bytes n (i + 1) at_ m (<[i := b]> a)
  end.

(** ** The shape of programs *)

Lemma observe_bind {E A B} (t : itree E A) (k : A → itree E B) :
  observe (ITree.bind t k) =
    match observe t with
    | RetF a => observe (k a)
    | TauF t => TauF (ITree.bind t k)
    | VisF e h => VisF e (λ x, ITree.bind (h x) k)
    end.
Proof.
  transitivity (observe (match observe t with
    | RetF a => k a
    | TauF t => Tau (ITree.bind t k)
    | VisF e h => Vis e (λ x, ITree.bind (h x) k)
    end)); [reflexivity|by destruct (observe t)].
Qed.

Lemma observe_iter {E A B} (body : A → itree E (A + B)) a :
  observe (ITree.iter body a) =
    observe (ITree.bind (body a)
      (λ ab, match ab with inl a => Tau (ITree.iter body a) | inr b => Ret b end)).
Proof. reflexivity. Qed.

(** [shape] computes the next event of a program. *)
Ltac shape :=
  unfold mbind, itree_bind, mret, itree_ret, syscall, ITree.trigger;
  repeat first [rewrite observe_iter | rewrite observe_bind | progress cbn [observe]].

End Libc.
