(* ===== verification/Token.v ===== *)
(** The ring of token programs (userspace/token_common.h, token_0.c and
    token_1.c to token_9.c, which differ in two names). *)

From Stdlib Require Import ZArith Lia.
From stdpp Require Import base option list gmap.
From ITree Require Import Core.ITreeDefinition.
From S2P Require Import Prelude Timer Utils Syscall Libc.

Module Token.
Import Libc.

Section Token.
Context {S : Type}.
Notation prog := (itree (progE S)).

(** [while(1) { read(from, buf, 32); write(next, buf, 32); }] *)
Definition pass (from next buf : Z) : prog Empty_set :=
  forever (λ _ : unit,
    _ ← Libc.read from buf 32; _ ← Libc.write next buf 32; mret tt) tt.

Definition main (NAME TARGET buf : Z) : prog Empty_set :=
  _ ← Libc.register_process NAME;
  next ← until_connected TARGET;
  from ← Libc.select;
  pass from next buf.

(** The loop of token_0.c after [iter] messages: [step] is 4096. *)
Definition pass0 (fuel : nat) (screen start from next buf fmt msg : Z) (iter : Z) : prog Empty_set :=
  let count := 1 in
  let step := 4096 * count in
  forever (λ iter,
    _ ← Libc.read from buf 32;
    _ ← Libc.write next buf 32;
    let iter := s32 (iter + 1) in
    if bool_decide (Z.rem iter step = 0) then
      stop ← Libc.time;
      _ ← kprintf fuel msg fmt [u32 iter; Timer.uint64 (stop - start); buf];
      _ ← Libc.write screen msg 64;
      mret iter
    else mret iter) iter.

(** token_0.c; [screen_name], [name1] and the formats are literals. *)
Definition main0 (fuel : nat) (name0 screen_name started name1 token fmt msg buf : Z)
    : prog Empty_set :=
  let count := 1 in
  _ ← Libc.register_process name0;
  screen ← until_connected screen_name;
  _ ← kprintf fuel buf started [];
  _ ← Libc.write screen buf 64;
  next ← until_connected name1;
  start ← Libc.time;
  _ ← kprintf fuel buf token [];
  _ ← ITree.iter (λ count, if 0 <? count then _ ← Libc.write next buf 32; mret (inl (count - 1))
        else mret (inr (count - 1))) count;
  from ← Libc.select;
  pass0 fuel screen start from next buf fmt msg 0.

End Token.

Lemma pass_shape {S} from next buf :
  ∃ k k2, observe (pass (S := S) from next buf)
      = VisF (Int80 Syscall.SYSCALL_READ (Some (u32 from)) (Some buf) (Some 32)) k ∧
    (∀ x, observe (k x)
      = VisF (Int80 Syscall.SYSCALL_WRITE (Some (u32 next)) (Some buf) (Some 32)) (k2 x)) ∧
    ∀ x y, observe (k2 x y) = TauF (pass from next buf).
Proof.
  do 2 eexists. split; [|split].
  - unfold pass, forever, Libc.read. shape. reflexivity.
  - intros x. shape. unfold Libc.write. shape. reflexivity.
  - intros x y. shape. reflexivity.
Qed.

(** A turn of token_0's loop is one of [pass], but for every 4096th message it
    asks for the time, prints the report and writes it to the screen. *)
Lemma pass0_shape {S} fuel screen start from next buf fmt msg iter :
  let again := pass0 (S := S) fuel screen start from next buf fmt msg in
  let iter' := s32 (iter + 1) in
  ∃ k k2, observe (again iter)
      = VisF (Int80 Syscall.SYSCALL_READ (Some (u32 from)) (Some buf) (Some 32)) k ∧
    (∀ x, observe (k x)
      = VisF (Int80 Syscall.SYSCALL_WRITE (Some (u32 next)) (Some buf) (Some 32)) (k2 x)) ∧
    (Z.rem iter' 4096 ≠ 0 → ∀ x y, observe (k2 x y) = TauF (again iter')) ∧
    (Z.rem iter' 4096 = 0 → ∀ x y, ∃ k3 k4 k5,
      observe (k2 x y) = VisF (Int80 Syscall.SYSCALL_TIME None None None) k3 ∧
      (∀ t, observe (k3 t) = VisF (Run (λ s m, '(r, m) ← Utils.kprintf fuel m msg fmt
          [u32 iter'; Timer.uint64 (Timer.uint64 t - start); buf]; Ok (r, s, m))) (k4 t)) ∧
      (∀ t z, observe (k4 t z)
        = VisF (Int80 Syscall.SYSCALL_WRITE (Some (u32 screen)) (Some msg) (Some 64)) (k5 t z)) ∧
      ∀ t z w, observe (k5 t z w) = TauF (again iter')).
Proof.
  intros again iter'. do 2 eexists. split; [|split; [|split]].
  - unfold again, pass0, forever, Libc.read. shape. reflexivity.
  - intros x. shape. unfold Libc.write. shape. reflexivity.
  - intros Hr x y. shape. fold iter'. rewrite bool_decide_false by done. shape. reflexivity.
  - intros Hr x y. do 3 eexists. split; [|split; [|split]].
    + shape. fold iter'. rewrite bool_decide_true by done. unfold Libc.time. shape. reflexivity.
    + intros t. shape. unfold Libc.kprintf. shape. reflexivity.
    + intros t z. shape. unfold Libc.write. shape. reflexivity.
    + intros t z w. shape. reflexivity.
Qed.

End Token.
