(* ===== verification/Demos.v ===== *)
(** The other demonstration programs (userspace/ping.c, srv_loop.c,
    streamer_in.c, streamer_out.c). *)

From Stdlib Require Import ZArith Lia.
From stdpp Require Import base option list gmap.
From ITree Require Import Core.ITreeDefinition.
From S2P Require Import Prelude Libc.

Module Demos.
Import Libc.

Section Demos.
Context {S : Type} (fuel : nat).
Notation prog := (itree (progE S)).

Definition ping (screen_name fmt buf : Z) : prog Empty_set :=
  screen ← until_connected screen_name;
  _ ← kprintf fuel buf fmt [];
  forever (λ _ : unit, _ ← Libc.write screen buf 32; mret tt) tt.

Definition srv_loop : prog Empty_set := forever (λ x, mret (s32 (x + 1))) 0.

Definition PACKET_SIZE : Z := 128.
Definition PAYLOAD : Z := 4096000.
Definition PACKETS : Z := PAYLOAD / PACKET_SIZE.
Definition TESTS : Z := 5.

Definition streamer_in (screen_name out_name fmt buf : Z) : prog Z :=
  screen ← until_connected screen_name;
  out ← until_connected out_name;
  _ ← for_loop TESTS (λ _,
    now ← Libc.time;
    _ ← kprintf fuel buf fmt [now];
    _ ← Libc.write screen buf 32;
    _ ← for_loop PACKETS (λ _, _ ← Libc.write out buf PACKET_SIZE; mret tt) 0;
    _ ← Libc.read out buf PACKET_SIZE;
    mret tt) 0;
  mret 0.

Definition streamer_out (name screen_name fmt buf : Z) : prog Z :=
  _ ← Libc.register_process name;
  screen ← until_connected screen_name;
  inp ← Libc.select;
  _ ← for_loop TESTS (λ _,
    _ ← for_loop PACKETS (λ _, _ ← Libc.read inp buf PACKET_SIZE; mret tt) 0;
    now ← Libc.time;
    _ ← kprintf fuel buf fmt [now];
    _ ← Libc.write screen buf 32;
    _ ← Libc.write inp buf PACKET_SIZE;
    mret tt) 0;
  mret 0.

End Demos.

End Demos.
