(* ===== verification/SrvScreen.v ===== *)
(** The screen server (userspace/srv_screen.c): its functions on the state of
    the screen, and its main function as a program whose data is that state. *)

From Stdlib Require Import ZArith Lia.
From stdpp Require Import base option list gmap.
From ITree Require Import Core.ITreeDefinition.
From S2P Require Import Prelude Strings Screen Libc.

Module SrvScreen.
Import Screen.

Definition screen_getstyle := Screen.screen_getstyle.
Definition clear_line := Screen.clear_line.
Definition move_screen := Screen.move_screen.
Definition screen_set_bg := Screen.screen_set_bg.
Definition screen_set_fg := Screen.screen_set_fg.

Definition mv_cur (c : Z) (s : screen) : screen :=
  let s := advance c s in
  let s := if SCREEN_WIDTH <=? cur_x s then wrap s else s in
  if SCREEN_HEIGHT <=? cur_y s then scroll s else s.

Definition screen_putchar (c style : Z) (s : screen) : screen :=
  mv_cur c (put_cell c style s).

Definition screen_clear (s : screen) : screen := set_video (clear_cells s) s.

Definition screen_putstr (fuel : nat) (m : Strings.mem8) (c : Z) (s : screen) : res screen :=
  putstr screen_putchar fuel m c s.

(** ** The program *)

Section Main.
Import Libc.
Context (fuel : nat).
Notation prog := (itree (progE Screen.screen)).

(** [screen_putstr(buf)] *)
Definition put_text (buf : Z) : prog unit :=
  ITree.trigger (Run (λ s m, s ← screen_putstr fuel m buf s; Ok (tt, s, m))).

(** [cur_x = 0; cur_y = 0;] *)
Definition home : prog unit := ITree.trigger (Run (λ s m, Ok (tt, Screen.set_cur 0 0 s, m))).

(** The loop, with the number of messages. *)
Definition serve (fmt msg buf : Z) : Z → prog Empty_set :=
  forever (λ iter,
    descr ← Libc.select;
    _ ← Libc.read descr msg 64;
    let iter := s32 (iter + 1) in
    _ ← kprintf fuel buf fmt [u32 iter; msg];
    _ ← put_text buf;
    mret iter).

Definition main (name fmt msg buf : Z) : prog Empty_set :=
  _ ← Libc.mmap 0xA0000000 0xB8000;
  _ ← home;
  _ ← Libc.register_process name;
  serve fmt msg buf 0.

End Main.
(** ** Lemmas *)

(** Where a character goes next on a screen that starts a new line behind the
    last column. *)
Definition next_pos (c x y : Z) : Z * Z :=
  if c =? 13 then (0, y) else if c =? 10 then (0, y + 1) else
  if x + 1 <? SCREEN_WIDTH then (x + 1, y) else (0, y + 1).

(** The cursor of the server before it scrolls. *)
Definition moved (c : Z) (s : screen) : screen :=
  let s := advance c s in if SCREEN_WIDTH <=? cur_x s then wrap s else s.

Lemma moved_pos c s :
  on_screen (cur_x s) (cur_y s) →
  moved c s = set_cur (next_pos c (cur_x s) (cur_y s)).1 (next_pos c (cur_x s) (cur_y s)).2 s ∧
  0 ≤ (next_pos c (cur_x s) (cur_y s)).1 < SCREEN_WIDTH ∧
  0 ≤ (next_pos c (cur_x s) (cur_y s)).2 ≤ SCREEN_HEIGHT.
Proof.
  destruct s as [st x y v]. unfold on_screen, moved, next_pos, advance, wrap, set_cur.
  cbn [cur_x cur_y cur_style videomem]. intros [Hx Hy]. dims.
  destruct (c =? 13); cbn [cur_x cur_y cur_style videomem fst snd]; [split; [done|lia]|].
  destruct (c =? 10); cbn [cur_x cur_y cur_style videomem fst snd].
  { rewrite (u8_small (y + 1)) by lia. split; [done|lia]. }
  rewrite (u8_small (x + 1)) by lia. destruct (Z.ltb_spec (x + 1) 80), (Z.leb_spec 80 (x + 1));
    try lia; cbn [cur_x cur_y cur_style videomem fst snd]; [split; [done|lia]|].
  replace (x + 1) with 80 by lia. change (80 mod 80) with 0. change (80 `div` 80) with 1.
  rewrite u8_small by lia. split; [done|lia].
Qed.

(** What [screen_putchar] of the server achieves. *)
Record put (c style : Z) (s s' : screen) : Prop := {
  put_style : cur_style s' = cur_style s;
  put_x : cur_x s' = (next_pos c (cur_x s) (cur_y s)).1;
  put_y : cur_y s' = (next_pos c (cur_x s) (cur_y s)).2 `min` (SCREEN_HEIGHT - 1);
  put_cells : ∀ x y, on_screen x y →
    cell s' x y =
    if decide ((next_pos c (cur_x s) (cur_y s)).2 < SCREEN_HEIGHT) then shows c style s x y
    else if decide (y = SCREEN_HEIGHT - 1) then blank (cur_style s)
    else shows c style s x (y + 1);
  put_within : within (SCREEN_HEIGHT * SCREEN_WIDTH) s s'
}.

Lemma server_putchar_ok c style s :
  on_screen (cur_x s) (cur_y s) → put c style s (screen_putchar c style s).
Proof.
  intros Hcur. pose proof Hcur as [Hcx Hcy]. destruct (put_cell_cur c style s) as (Hx & Hy & Hst).
  assert (Hw : within (25 * 80) s (put_cell c style s)).
  { apply put_cell_within; dims; lia. }
  unfold screen_putchar, mv_cur.
  destruct (moved_pos c (put_cell c style s)) as (Hm & Hm1 & Hm2); [by rewrite Hx, Hy|].
  rewrite Hx, Hy in *. unfold moved in Hm. rewrite Hm. clear Hm.
  destruct (next_pos c (cur_x s) (cur_y s)) as [nx ny] eqn:Hn. cbn [fst snd] in *.
  set (t := set_cur nx ny (put_cell c style s)). change (cur_y t) with ny.
  assert (Ht : ∀ x y, on_screen x y → cell t x y = shows c style s x y).
  { intros x y Hxy. change (cell t x y) with (cell (put_cell c style s) x y).
    by apply put_cell_shows. }
  dims. destruct (Z.leb_spec 25 ny).
  - destruct (scroll_ok t) as [Hsc Hws]. split; rewrite ?Hn; cbn [fst snd]; dims.
    + exact Hst.
    + done.
    + change (cur_y (scroll t)) with (25 - 1). lia.
    + intros x y Hxy. rewrite decide_False by lia. rewrite (Hsc x y Hxy).
      dims. change (cur_style t) with (cur_style (put_cell c style s)). rewrite Hst.
      case_decide; [done|]. apply Ht. unfold on_screen in *. dims. lia.
    + intros i Hi. rewrite Hws by done. by apply Hw.
  - split; rewrite ?Hn; cbn [fst snd]; dims; [exact Hst|done| | |exact Hw].
    + change (cur_y t) with ny. lia.
    + intros x y Hxy. rewrite decide_True by lia. by apply Ht.
Qed.

Lemma put_on_screen c style s s' :
  on_screen (cur_x s) (cur_y s) → put c style s s' → on_screen (cur_x s') (cur_y s').
Proof.
  intros Hs [_ Hx Hy _ _]. destruct (moved_pos c s Hs) as (_ & H1 & H2).
  unfold on_screen. rewrite Hx, Hy. dims. lia.
Qed.

(** The screen after a text: each character is put in its turn. *)
Inductive shown : list Z → screen → screen → Prop :=
| shown_nil s : shown [] s s
| shown_cons b str s s1 s2 :
    put (s8 b) (cur_style s) s s1 → shown str s1 s2 → shown (b :: str) s s2.

Lemma shown_putstr fuel m p str s :
  on_screen (cur_x s) (cur_y s) → Strings.cstr m p str → (length str < fuel)%nat →
  ∃ s', screen_putstr fuel m p s = Ok s' ∧ shown str s s' ∧ on_screen (cur_x s') (cur_y s') ∧
    within (SCREEN_HEIGHT * SCREEN_WIDTH) s s'.
Proof.
  intros Hs Hc Hf.
  destruct (putstr_ok (λ s, on_screen (cur_x s) (cur_y s)) (SCREEN_HEIGHT * SCREEN_WIDTH)
    screen_putchar fuel m p str s) as (s' & Hput & -> & Hon & Hw); [|done|done|done|].
  { intros c t Ht. pose proof (server_putchar_ok c (cur_style t) t Ht) as Hp.
    split; [by eapply put_on_screen|exact (put_within _ _ _ _ Hp)]. }
  eexists. split; [exact Hput|]. split; [|by split]. clear - Hs. revert s Hs.
  induction str as [|b str IH]; intros s Hs; [constructor|]. cbn [foldl].
  pose proof (server_putchar_ok (s8 b) (cur_style s) s Hs) as Hp.
  eapply shown_cons; [exact Hp|]. apply IH. by eapply put_on_screen.
Qed.

(** ** Properties *)

(** The screen server shows each character at its cursor and moves on to
    the next column, or to the start of the next line behind the last column;
    on the last line everything moves up by one line, over a blank line.  It
    never writes outside the screen, whatever the text, and printing a string
    is putting its characters one after the other. *)
Theorem server_putstr_shows fuel m p str s :
  on_screen (cur_x s) (cur_y s) → Strings.cstr m p str → (length str < fuel)%nat →
  (∀ c t, on_screen (cur_x t) (cur_y t) → put c (cur_style t) t
     (screen_putchar c (cur_style t) t)) ∧
  ∃ s', screen_putstr fuel m p s = Ok s' ∧
    s' = foldl (λ s c, screen_putchar (s8 c) (cur_style s) s) s str ∧
    on_screen (cur_x s') (cur_y s') ∧ within (SCREEN_HEIGHT * SCREEN_WIDTH) s s'.
Proof.
  intros Hs Hc Hf. split; [intros c t; apply server_putchar_ok|].
  apply (putstr_ok (λ s, on_screen (cur_x s) (cur_y s))); [|done|done|done].
  intros c t Ht. pose proof (server_putchar_ok c (cur_style t) t Ht) as Hp.
  split; [by eapply put_on_screen|exact (put_within _ _ _ _ Hp)].
Qed.

(** ** Concrete runs *)

Lemma server_putstr_shows_witness :
  ∃ s', screen_putstr 4 text 0x5000 screen0 = Ok s' ∧ on_screen (cur_x s') (cur_y s').
Proof.
  destruct (server_putstr_shows 4 text 0x5000 [79; 75; 10] screen0) as (_ & s' & Hs & _ & Hon & _).
  - by vm_compute.
  - exact text_cstr.
  - simpl. lia.
  - exists s'. exact (conj Hs Hon).
Defined.

End SrvScreen.
