(* ===== verification/SrvFullscreen.v ===== *)
(** The full screen server (userspace/srv_fullscreen.c): its functions on the
    state of the screen, and its main function as a program whose data is that
    state. *)

From Stdlib Require Import ZArith Lia.
From stdpp Require Import base option list gmap.
From ITree Require Import Core.ITreeDefinition.
From S2P Require Import Prelude Strings Screen Libc SrvScreen.

Module SrvFullscreen.
Import Libc.

Definition screen_getstyle := Screen.screen_getstyle.
Definition screen_set_bg := Screen.screen_set_bg.
Definition screen_set_fg := Screen.screen_set_fg.
Definition screen_clear := SrvScreen.screen_clear.

(** [buf] is an array of signed characters. *)
Definition screen_display (m : Strings.mem8) (buf : Z) (s : Screen.screen) : res Screen.screen :=
  for_upto (Screen.SCREEN_WIDTH * Screen.SCREEN_HEIGHT) (λ i s,
    c ← Strings.load8 (buf + i) m;
    Ok (Screen.set_video (<[i := Screen.styled (Screen.cur_style s) (s8 c)]> (Screen.videomem s)) s)) s.

(** ** The program *)

Section Main.
Notation prog := (itree (progE Screen.screen)).

Definition on_screen (f : Screen.screen → mem8 → res Screen.screen) : prog unit :=
  ITree.trigger (Run (λ s m, s ← f s m; Ok (tt, s, m))).

Definition main (name msg : Z) : prog Empty_set :=
  _ ← Libc.mmap 0xA0000000 0xB8000;
  _ ← SrvScreen.home;
  _ ← Libc.register_process name;
  _ ← on_screen (λ s _, Ok (screen_set_bg Screen.BLACK s));
  _ ← on_screen (λ s _, Ok (screen_set_fg Screen.WHITE s));
  _ ← on_screen (λ s _, Ok (screen_clear s));
  forever (λ _ : unit,
    descr ← Libc.select;
    _ ← Libc.read descr msg (Screen.SCREEN_HEIGHT * Screen.SCREEN_WIDTH);
    _ ← on_screen (λ s m, screen_display m msg s);
    mret tt) tt.

End Main.
End SrvFullscreen.
