(* ===== verification/SrvKeyboard.v ===== *)
(** The keyboard server (userspace/srv_keyboard.c).  The data of the program is
    the array [status], which is at [status_at]. *)

From Stdlib Require Import ZArith Lia.
From stdpp Require Import base option list gmap.
From ITree Require Import Core.ITreeDefinition.
From S2P Require Import Prelude Libc.

Module SrvKeyboard.
Import Libc.

(** [uint8 status[256]]; [opcode] is what port 0x60 gives. *)
Definition store_key (opcode : Z) (status : gmap Z Z) : res (gmap Z Z) :=
  aset 256 status (Z.land opcode 0x7F)
    (if bool_decide (Z.shiftr opcode 7 = 0) then 1 else 0).

(** ** The program *)

Section Main.
Context (status_at : Z).
Notation prog := (itree (progE (gmap Z Z))).

(** [sizeof(status)] *)
Definition STATUS_LEN : Z := 256.

Definition clear_status : prog unit :=
  ITree.trigger (Run (λ s m, s ← for_upto STATUS_LEN (λ i s, aset STATUS_LEN s i 0) s; Ok (tt, s, m))).

Definition read_key : prog unit :=
  opcode ← Libc.port_read8 0x60;
  ITree.trigger (Run (λ s m, s ← store_key opcode s; Ok (tt, s, m))).

(** [write(snake, status, sizeof(status))] *)
Definition send (snake : Z) : prog Z :=
  _ ← ITree.trigger (Run (λ s m, m ← put_bytes (Z.to_nat STATUS_LEN) 0 s status_at m; Ok (tt, s, m)));
  Libc.write snake status_at STATUS_LEN.

(** The loop. *)
Definition serve (os snake buf : Z) : prog Empty_set :=
  forever (λ _ : unit, _ ← Libc.read os buf 1; _ ← read_key; _ ← send snake; mret tt) tt.

Definition main (name snake_name buf : Z) : prog Empty_set :=
  _ ← clear_status;
  _ ← Libc.register_process name;
  _ ← Libc.handle 218;
  snake ← until_connected snake_name;
  _ ← send snake;
  os ← Libc.select;
  serve os snake buf.

End Main.
End SrvKeyboard.
