(* ===== verification/Game.v ===== *)
(** The main function of the game (userspace/snake.c) as a program: its data is
    the state of Snake.v, whose arrays [status] and [buf] are at [status_at] and
    [buf_at]. *)

From Stdlib Require Import ZArith Lia.
From stdpp Require Import base option list gmap.
From ITree Require Import Core.ITreeDefinition.
From S2P Require Import Prelude Snake Libc.

Module Game.
Import Libc.

Section Main.
Context (status_at buf_at : Z).
Notation prog := (itree (progE Snake.game)).

Definition on_game (f : Snake.game → res Snake.game) : prog unit :=
  ITree.trigger (Run (λ g m, g ← f g; Ok (tt, g, m))).

Definition set_status (st : gmap Z Z) (g : Snake.game) : Snake.game :=
  Snake.Game st (Snake.snake g) (Snake.snake_len g) (Snake.direction g) (Snake.iterations g)
    (Snake.buf g).

(** [read(keyboard, status, sizeof(status))] *)
Definition read_status (keyboard : Z) : prog unit :=
  _ ← Libc.read keyboard status_at Snake.STATUS;
  ITree.trigger (Run (λ g m,
    st ← get_bytes (Z.to_nat Snake.STATUS) 0 status_at m (Snake.status g);
    Ok (tt, set_status st g, m))).

(** [write(screen, buf, sizeof(buf))] *)
Definition show (screen : Z) : prog Z :=
  _ ← ITree.trigger (Run (λ g m,
        m ← put_bytes (Z.to_nat Snake.BUF) 0 (Snake.buf g) buf_at m; Ok (tt, g, m)));
  Libc.write screen buf_at Snake.BUF.

Definition play (screen keyboard : Z) : prog Empty_set :=
  forever (λ _ : unit,
    start ← Libc.time;
    _ ← on_game Snake.turn;
    _ ← show screen;
    len ← Libc.peek keyboard;
    _ ← (if 0 <? len then read_status keyboard else mret tt);
    stop ← Libc.time;
    _ ← Libc.wait (s32 (u32 (50 - stop + start)));
    mret tt) tt.

(** [Snake.start] includes the loop behind the registration, which does not
    depend on it. *)
Definition main (name screen_name : Z) : prog Empty_set :=
  _ ← on_game Snake.start;
  _ ← Libc.register_process name;
  screen ← until_connected screen_name;
  keyboard ← Libc.select;
  _ ← read_status keyboard;
  play screen keyboard.

End Main.
End Game.
