(* ===== verification/Programs.v ===== *)
(** User programs on the kernel.

    [step] runs a thread of a program of Libc.v on the kernel of Syscall.v for
    one event; a thread whose call waits keeps its place, and its next [step] is
    the one after the scheduler switched to it again.  Ring.v and Servers.v run
    programs on it. *)

From Stdlib Require Import ZArith Lia.
From stdpp Require Import base option list gmap.
From ITree Require Import Core.ITreeDefinition.
From S2P Require Import Prelude Interfaces Palloc Kmalloc Strings Stream Timer Thread Scheduler Screen.
From S2P Require Import Interrupts Process System Drivers Syscall Libc.

Module Programs.
Import Libc Thread System Drivers.

(** ** Running a thread *)

Record user (S : Type) := User {
  code : itree (progE S) Empty_set; data : S; regs : Interrupts.thread_state;
  waiting : option System.wait
}.
Arguments User {S}. Arguments code {S}. Arguments data {S}. Arguments regs {S}. Arguments waiting {S}.

(** The registers a call enters the kernel with; the interrupt's number is
    pushed by its entry point, after a zero. *)
Definition set_args (number : Z) (ebx ecx edx : option Z) (r : Interrupts.thread_state)
    : Interrupts.thread_state :=
  Interrupts.TS (Interrupts.tpr r) (Interrupts.ds r) (Interrupts.edi r) (Interrupts.esi r)
    (Interrupts.ebp r) (Interrupts.esp r) (default (Interrupts.ebx r) ebx)
    (default (Interrupts.edx r) edx) (default (Interrupts.ecx r) ecx) number
    Interrupts.INT_SYSCALL 0 (Interrupts.eip r) (Interrupts.cs r)
    (Interrupts.eflags r) (Interrupts.useresp r) (Interrupts.ss r).

Section Running.
Context {S : Type} {F : Type} `{FrameAlloc F} {M : Type} `{QueueStore (Z * Z) M}.
Context {D : Type} `{Ports D} (resume : Z) (fuel : nat) (exit_buf exit_fmt : Z) (c : Z).
Notation sys := (sys (F := F) (M := M)).
Notation user := (user S).

(** The program goes on with what eax holds. *)
Definition answer (r : Interrupts.thread_state) (u : user) : res user :=
  match observe (code u) with
  | VisF e k =>
      match e in progE _ X return (X → itree (progE S) Empty_set) → res user with
      | Int80 _ _ _ _ => λ k, Ok (User (k (s32 (Interrupts.eax r))) (data u) r None)
      | _ => λ _, Fault
      end k
  | _ => Fault
  end.

(** The end of a call, or the place where it waits. *)
Definition settle (o : outcome Interrupts.thread_state) (r : Interrupts.thread_state) (u : user)
    : res user :=
  match o with
  | Returns r => answer r u
  | Waits w => Ok (User (code u) (data u) r (Some w))
  end.

Definition step (u : user) (st : sys) (d : D) : res (user * sys * D) :=
  match waiting u with
  | Some w =>
      '(o, st) ← Syscall.resume_wait resume fuel c w (regs u) st;
      u ← settle o (regs u) u; Ok (u, st, d)
  | None =>
      match observe (code u) with
      | RetF v => match v with end
      | TauF t => Ok (User t (data u) (regs u) None, st, d)
      | VisF e k =>
          match e in progE _ X return (X → itree (progE S) Empty_set) → res (user * sys * D) with
          | Int80 number ebx ecx edx => λ _,
              let r := set_args number ebx ecx edx (regs u) in
              '(o, st) ← Syscall.syscall resume fuel exit_buf exit_fmt c r st;
              u ← settle o r u; Ok (u, st, d)
          | Run f => λ k,
              '(x, s, m) ← f (data u) (bytes st);
              Ok (User (k x) s (regs u) None, set_memory (mem st) m st, d)
          | In8 port => λ k,
              let '(x, d) := port_read_8 port d in
              Ok (User (k x) (data u) (regs u) None, st, d)
          end k
      end
  end.

(** [n] events, or up to a call that waits. *)
Fixpoint steps (n : nat) (u : user) (st : sys) (d : D) : res (user * sys * D) :=
  match n with
  | O => Ok (u, st, d)
  | Datatypes.S n =>
      '(u, st, d) ← step u st d;
      match waiting u with Some _ => Ok (u, st, d) | None => steps n u st d end
  end.

(** ** Lemmas *)

(** A call that returns. *)
Lemma step_call u st d number ebx ecx edx k r st' :
  waiting u = None → observe (code u) = VisF (Int80 number ebx ecx edx) k →
  Syscall.syscall resume fuel exit_buf exit_fmt c (set_args number ebx ecx edx (regs u)) st
    = Ok (Returns r, st') →
  step u st d = Ok (User (k (s32 (Interrupts.eax r))) (data u) r None, st', d).
Proof.
  intros Hw Ho Hs. unfold step. rewrite Hw, Ho. rewrite (bind_ok _ _ _ Hs). unfold settle, answer.
  by rewrite Ho.
Qed.

(** A call that waits. *)
Lemma step_call_waits u st d number ebx ecx edx k w st' :
  waiting u = None → observe (code u) = VisF (Int80 number ebx ecx edx) k →
  Syscall.syscall resume fuel exit_buf exit_fmt c (set_args number ebx ecx edx (regs u)) st
    = Ok (Waits w, st') →
  step u st d = Ok (User (code u) (data u) (set_args number ebx ecx edx (regs u)) (Some w), st', d).
Proof.
  intros Hw Ho Hs. unfold step. rewrite Hw, Ho. by rewrite (bind_ok _ _ _ Hs).
Qed.

Lemma step_run {A} u st d (f : S → mem8 → res (A * S * mem8)) k x s m :
  waiting u = None → observe (code u) = VisF (Run f) k → f (data u) (bytes st) = Ok (x, s, m) →
  step u st d = Ok (User (k x) s (regs u) None, set_memory (mem st) m st, d).
Proof. intros Hw Ho Hf. unfold step. rewrite Hw, Ho. by rewrite (bind_ok _ _ _ Hf). Qed.

Lemma step_tau u st d t :
  waiting u = None → observe (code u) = TauF t →
  step u st d = Ok (User t (data u) (regs u) None, st, d).
Proof. intros Hw Ho. unfold step. by rewrite Hw, Ho. Qed.

Lemma steps_S n u st d u1 st1 d1 :
  step u st d = Ok (u1, st1, d1) → waiting u1 = None →
  steps (Datatypes.S n) u st d = steps n u1 st1 d1.
Proof. intros Hs Hw. cbn [steps]. rewrite (bind_ok _ _ _ Hs). cbv iota beta. by rewrite Hw. Qed.

Lemma steps_waits n u st d u1 st1 d1 w :
  step u st d = Ok (u1, st1, d1) → waiting u1 = Some w →
  steps (Datatypes.S n) u st d = Ok (u1, st1, d1).
Proof. intros Hs Hw. cbn [steps]. rewrite (bind_ok _ _ _ Hs). cbv iota beta. by rewrite Hw. Qed.

End Running.

(** ** Passing messages on *)

Section Passing.
Context {S : Type} {F : Type} `{FrameAlloc F} {M : Type} `{QueueStore (Z * Z) M}.
Context {D : Type} `{Ports D} (resume : Z) (fuel : nat) (exit_buf exit_fmt : Z) (c : Z).
Notation sys := (sys (F := F) (M := M)).
Notation user := (user S).
Notation syscall := (Syscall.syscall resume fuel exit_buf exit_fmt c).
Notation step := (step resume fuel exit_buf exit_fmt c).
Notation steps := (steps resume fuel exit_buf exit_fmt c).

(** The stream [p] is what process [proc] reads, or writes, at descriptor [i]. *)
Definition reads (st : sys) (proc i p : Z) : Prop :=
  ∃ pr, procs_of st !! proc = Some pr ∧ 0 ≤ i < Stream.MAX_DESCRIPTORS ∧
    Stream.input (arr Stream.null_ios (iodescr pr) i) = p.
Definition writes (st : sys) (proc i p : Z) : Prop :=
  ∃ pr, procs_of st !! proc = Some pr ∧ 0 ≤ i < Stream.MAX_DESCRIPTORS ∧
    Stream.output (arr Stream.null_ios (iodescr pr) i) = p.

(** The stream at [p] holds the bytes [q]. *)
Definition holds (st : sys) (p : Z) (q : list Z) : Prop :=
  ∃ s, streams_of st !! p = Some s ∧ Stream.ring_rep s q.

Lemma holds_stream p q p' s (st : sys) :
  p ≠ p' → holds (set_stream p' s st) p q ↔ holds st p q.
Proof.
  intros Hne. unfold holds.
  change (streams_of (set_stream p' s st)) with (<[p' := s]> (streams_of st)).
  by rewrite lookup_insert_ne.
Qed.

Lemma stream_holds p q s (st : sys) : Stream.ring_rep s q → holds (set_stream p s st) p q.
Proof.
  intros Hr. exists s. split; [|done].
  change (streams_of (set_stream p s st)) with (<[p := s]> (streams_of st)). apply lookup_insert_eq.
Qed.

Lemma call_read descr buf n r proc th o (st st' : sys) :
  Syscall.current c proc th st →
  Syscall.read_call resume fuel c proc descr buf n st = Ok (o, st') →
  let r' := set_args Syscall.SYSCALL_READ (Some descr) (Some buf) (Some n) r in
  syscall r' st = Ok (Syscall.return_to r' o, st').
Proof. intros Hcur Hr. eapply Syscall.syscall_run; [exact Hcur|exact Hr]. Qed.

Lemma call_write descr buf n r proc th o (st st' : sys) :
  Syscall.current c proc th st →
  Syscall.write_call resume fuel c proc descr buf n st = Ok (o, st') →
  let r' := set_args Syscall.SYSCALL_WRITE (Some descr) (Some buf) (Some n) r in
  syscall r' st = Ok (Syscall.return_to r' o, st').
Proof. intros Hcur Hr. eapply Syscall.syscall_run; [exact Hcur|exact Hr]. Qed.

(** A read of no more bytes than there are. *)
Lemma step_read (u : user) (st : sys) (d : D) descr buf (n : nat) k proc th p q :
  waiting u = None →
  observe (code u) = VisF (Int80 Syscall.SYSCALL_READ (Some (u32 descr)) (Some buf)
                             (Some (Z.of_nat n))) k →
  Syscall.current c proc th st → reads st proc descr p → holds st p q →
  Strings.writable (bytes st) buf (Z.of_nat n) → (0 < n ≤ length q)%nat →
  ∃ s r m, step u st d = Ok (User (k 0) (data u) r None, set_memory (mem st) m (set_stream p s st), d) ∧
    Stream.ring_rep s (drop n q) ∧ Strings.bytes_at m buf (u8 <$> take n q) ∧
    Strings.changed buf (Z.of_nat n) (bytes st) m.
Proof.
  intros Hw Ho Hcur (pr & Hp & Hi & <-) (s & Hs & Hr) Hwr Hn.
  assert (Hu : u32 descr = descr) by (apply u32_small; unfold Stream.MAX_DESCRIPTORS in Hi; lia).
  rewrite Hu in Ho.
  destruct (Syscall.read_gets resume fuel c proc pr descr buf n s q st Hp Hi Hs Hr Hwr)
    as (s' & m & Hr' & Hb & Hc & Hret & _); [lia|].
  pose proof (call_read descr buf _ (regs u) _ _ _ _ _ Hcur (Hret ltac:(lia))) as Hrun.
  eexists s', _, m. split; [exact (step_call _ _ _ _ _ _ _ _ _ _ _ _ _ _ _ Hw Ho Hrun)|].
  split; [exact Hr'|]. split; [exact Hb|]. rewrite length_take_le in Hc by lia. exact Hc.
Qed.

(** A read of an empty stream waits. *)
Lemma step_read_waits (u : user) (st : sys) (d : D) descr buf (n : nat) k proc th p :
  waiting u = None →
  observe (code u) = VisF (Int80 Syscall.SYSCALL_READ (Some (u32 descr)) (Some buf)
                             (Some (Z.of_nat n))) k →
  Syscall.current c proc th st → reads st proc descr p → holds st p [] →
  Strings.writable (bytes st) buf (Z.of_nat n) → (0 < n)%nat →
  ∃ s m, Stream.ring_rep s [] ∧ Strings.changed buf 0 (bytes st) m ∧
    ∀ b st2, wait_on resume fuel c p ReadEvent (set_memory (mem st) m (set_stream p s st))
        = Ok (b, st2) →
      ∃ r, step u st d = Ok (User (code u) (data u) r (Some (ToRead p buf n)), st2, d).
Proof.
  intros Hw Ho Hcur (pr & Hp & Hi & <-) (s & Hs & Hr) Hwr Hn.
  assert (Hu : u32 descr = descr) by (apply u32_small; unfold Stream.MAX_DESCRIPTORS in Hi; lia).
  rewrite Hu in Ho.
  destruct (Syscall.read_gets resume fuel c proc pr descr buf n s [] st Hp Hi Hs Hr Hwr Hn)
    as (s' & m & Hr' & _ & Hc & _ & Hwait). rewrite drop_nil in Hr'. rewrite take_nil in Hc.
  exists s', m. split; [exact Hr'|]. split; [exact Hc|]. intros b st2 Hb.
  specialize (Hwait Hn b st2 Hb). rewrite Z.add_0_r, Nat.sub_0_r in Hwait.
  eexists. eapply step_call_waits; [exact Hw|exact Ho|].
  exact (call_read descr buf _ (regs u) _ _ _ _ _ Hcur Hwait).
Qed.

(** A write of bytes that fit. *)
Lemma step_write (u : user) (st : sys) (d : D) descr buf l k proc th p q :
  waiting u = None →
  observe (code u) = VisF (Int80 Syscall.SYSCALL_WRITE (Some (u32 descr)) (Some buf)
                             (Some (Z.of_nat (length l)))) k →
  Syscall.current c proc th st → writes st proc descr p → holds st p q →
  Strings.bytes_at (bytes st) buf l → (0 < length l)%nat → (length q + length l ≤ 1022)%nat →
  ∃ s r, step u st d = Ok (User (k 0) (data u) r None, set_stream p s st, d) ∧
    Stream.ring_rep s (q ++ l).
Proof.
  intros Hw Ho Hcur (pr & Hp & Hi & <-) (s & Hs & Hr) Hb Hl Hfit.
  assert (Hu : u32 descr = descr) by (apply u32_small; unfold Stream.MAX_DESCRIPTORS in Hi; lia).
  rewrite Hu in Ho.
  destruct (Syscall.write_fits resume fuel c proc pr descr buf l s q st Hp Hi Hs Hr Hb Hl Hfit)
    as (s' & Hret & Hr').
  eexists s', _. split; [|exact Hr'].
  exact (step_call _ _ _ _ _ _ _ _ _ _ _ _ _ _ _ Hw Ho
    (call_write descr buf _ (regs u) _ _ _ _ _ Hcur Hret)).
Qed.

Lemma reads_procs (st st1 : sys) a i p : procs_of st1 = procs_of st → reads st a i p → reads st1 a i p.
Proof. intros Hp (pr & Hpr & Hrest). exists pr. by rewrite Hp. Qed.
Lemma writes_procs (st st1 : sys) a i p : procs_of st1 = procs_of st → writes st a i p → writes st1 a i p.
Proof. intros Hp (pr & Hpr & Hrest). exists pr. by rewrite Hp. Qed.

Lemma next_index k n : (k < n)%nat → (1 < n)%nat → (Datatypes.S k mod n < n)%nat ∧ (Datatypes.S k mod n)%nat ≠ k.
Proof.
  intros Hk Hn. pose proof (Nat.mod_upper_bound (Datatypes.S k) n). split; [lia|].
  destruct (decide (Datatypes.S k = n)) as [Hkn|]; [rewrite Hkn, Nat.Div0.mod_same; lia|].
  rewrite Nat.mod_small; lia.
Qed.

End Passing.

(** ** Concrete runs *)

(** A keyboard that has nothing to say. *)
#[export] Instance no_ports : Ports unit :=
  {| port_read_8 := λ _ d, (0, d); port_write := λ _ _ d, d |}.

End Programs.
