(* ===== verification/Ring.v ===== *)
(** The ring of token programs at work (userspace/token_0.c, token_common.h on
    the kernel).

    The stations of a ring share a processor and each has its stream.  A turn
    of the ring is what the current station does from the moment the processor
    was switched to it until it waits; [enters] is what happened in between: the
    station sees its own memory, and the screen's stream was read.  The
    scheduler's tick at the end of a turn is the one of Scheduler.v. *)

From Stdlib Require Import ZArith Lia.
From stdpp Require Import base option list gmap.
From ITree Require Import Core.ITreeDefinition.
From S2P Require Import Prelude Interfaces Palloc Kmalloc Strings Utils Stream Timer Thread Scheduler Screen.
From S2P Require Import Interrupts Process System Drivers Syscall Libc Token Programs.

Module Ring.
Import Libc Thread System Drivers Programs.

(** ** Changes of a scheduler's state *)

Section Changes.
Context {M : Type} `{QueueStore (Z * Z) M}.
Notation kstate := (Scheduler.kstate M).
Notation this := Scheduler.this.
Notation queue := Scheduler.queue.

(** The state with other streams. *)
Definition with_streams (x : gmap Z Stream.stream) (k : kstate) : kstate :=
  Scheduler.KState (Scheduler.scheds k) (Scheduler.queues k) (Scheduler.threads k)
    (Scheduler.cpus k) (World (ticks (Scheduler.wld k)) x (procs (Scheduler.wld k))).

(** A thread that does not select can be asked for its event when there are at
    least the same streams. *)
Lemma thread_ok_streams (k : kstate) x t p :
  (∀ a, is_Some (streams (Scheduler.wld k) !! a) → is_Some (x !! a)) →
  (∀ th, Scheduler.threads k !! t = Some th → event th ≠ SelectEvent) →
  Scheduler.thread_ok k t p → Scheduler.thread_ok (with_streams x k) t p.
Proof.
  intros Hx Hev (th & Hth & Hpr & Hpar & b & Hb). specialize (Hev th Hth).
  exists th. do 3 (split; [done|]). unfold ready in *. case_bool_decide; [by exists true|].
  assert (Hget : ∀ s, Stream.get_stream (streams (Scheduler.wld k)) (descr th) = Ok s →
    ∃ s', Stream.get_stream x (descr th) = Ok s').
  { intros s Hs. unfold Stream.get_stream in *.
    destruct (streams (Scheduler.wld k) !! descr th) eqn:Hd; [|done].
    destruct (Hx (descr th)) as [s' ->]; [by rewrite Hd|]. by exists s'. }
  unfold run_event, stream_read_event, stream_write_event in *.
  destruct (event th); try done.
  - eexists. reflexivity.
  - case_bool_decide; [by eexists|]. apply res_bind_Ok in Hb as (s & Hs & _).
    destruct (Hget s Hs) as [s' Hs']. eexists. exact (bind_ok _ _ _ Hs').
  - case_bool_decide; [by eexists|]. apply res_bind_Ok in Hb as (s & Hs & _).
    destruct (Hget s Hs) as [s' Hs']. eexists. exact (bind_ok _ _ _ Hs').
Qed.

Lemma wf_streams c (k : kstate) x :
  (∀ a, is_Some (streams (Scheduler.wld k) !! a) → is_Some (x !! a)) →
  (∀ t th, t = Scheduler.current_thread (this c k) ∨
     (∃ p, 0 ≤ p < MAX_PRIORITY ∧ t ∈ queue k c p) →
     Scheduler.threads k !! t = Some th → event th ≠ SelectEvent) →
  Scheduler.sched_wf c k → Scheduler.sched_wf c (with_streams x k).
Proof.
  intros Hx Hev Hwf. split; try apply Hwf.
  - destruct (Scheduler.wf_idle _ _ Hwf) as (Hi & p & Hok). split; [done|]. exists p.
    apply thread_ok_streams; [done| |done]. intros th Hth.
    by rewrite (Scheduler.wf_idle_event _ _ Hwf th Hth).
  - destruct (Scheduler.wf_cur _ _ Hwf) as (Hc & [Hi|(p & Hp & Hok)]); (split; [done|]); [by left|].
    right. exists p. split; [done|]. apply thread_ok_streams; [done| |done]. intros th. apply Hev. by left.
  - intros p t Hp Ht. destruct (Scheduler.wf_queued _ _ Hwf p t Hp Ht) as [Hi Hok]. split; [done|].
    apply thread_ok_streams; [done| |done]. intros th. apply Hev. right. by exists p.
Qed.

(** The current thread gets another event to wait for, one that can be asked. *)
Lemma wf_waits c (k : kstate) th th' b :
  let cur := Scheduler.current_thread (this c k) in
  Scheduler.sched_wf c k → cur ≠ Scheduler.idle_thread (this c k) →
  Scheduler.threads k !! cur = Some th → parent th' = parent th → priority th' = priority th →
  ready (Scheduler.wld k) th' = Ok b →
  Scheduler.sched_wf c (Scheduler.set_threads (<[cur := th']> (Scheduler.threads k)) k).
Proof.
  intros cur Hwf Hidle Hth Hpar Hprio Hr. set (k' := Scheduler.set_threads _ k).
  assert (Hok : ∀ t p, Scheduler.thread_ok k t p → Scheduler.thread_ok k' t p).
  { intros t p (x & Hx & Hp & Hpx & Hb). destruct (decide (cur = t)) as [<-|].
    - exists th'. rewrite Hth in Hx. injection Hx as <-. cbn [k' Scheduler.threads Scheduler.set_threads].
      rewrite lookup_insert_eq, Hpar, Hprio. do 3 (split; [done|]). by exists b.
    - exists x. cbn [k' Scheduler.threads Scheduler.set_threads]. rewrite lookup_insert_ne by done.
      do 3 (split; [done|]). exact Hb. }
  split; try apply Hwf.
  - destruct (Scheduler.wf_idle _ _ Hwf) as (Hi & p & Hx). split; [done|]. exists p. by apply Hok.
  - intros x Hx. cbn [k' Scheduler.threads Scheduler.set_threads] in Hx.
    rewrite lookup_insert_ne in Hx by done. by apply (Scheduler.wf_idle_event _ _ Hwf).
  - destruct (Scheduler.wf_cur _ _ Hwf) as (Hc & [Hi|(p & Hp & Hx)]); (split; [done|]); [by left|].
    right. exists p. split; [done|]. by apply Hok.
  - intros p t Hp Ht. destruct (Scheduler.wf_queued _ _ Hwf p t Hp Ht) as [Hi Hx]. split; [done|].
    by apply Hok.
  - change (this c k') with (this c k). fold cur. transitivity (Scheduler.dir_of k cur); [apply Hwf|].
    unfold Scheduler.dir_of. cbn [k' Scheduler.threads Scheduler.set_threads Scheduler.wld].
    by rewrite lookup_insert_eq, Hth, Hpar.
Qed.

End Changes.

(** ** Steps *)

Section Steps.
Context {S : Type} {F : Type} `{FrameAlloc F} {M : Type} `{QueueStore (Z * Z) M}.
Context {D : Type} `{Ports D} (resume : Z) (fuel : nat) (exit_buf exit_fmt : Z) (c : Z).
Notation sys := (sys (F := F) (M := M)).
Notation user := (user S).
Notation step := (Programs.step resume fuel exit_buf exit_fmt c).
Notation current := Syscall.current.

(** The scheduler's state when the current thread has begun to wait for bytes of
    the stream [p]. *)
Definition awaiting (p : Z) (st : sys) : Scheduler.kstate M :=
  let cur := Scheduler.current_thread (Scheduler.this c (sched st)) in
  Scheduler.set_threads (alter (λ th, set_event ReadEvent (set_descr p th)) cur (threads_of st))
    (sched st).

Lemma awaiting_insert p (st : sys) th :
  let cur := Scheduler.current_thread (Scheduler.this c (sched st)) in
  threads_of st !! cur = Some th →
  awaiting p st = Scheduler.set_threads
    (<[cur := set_event ReadEvent (set_descr p th)]> (threads_of st)) (sched st).
Proof.
  intros cur Hth. unfold awaiting. fold cur. f_equal. apply map_eq. intros j.
  destruct (decide (cur = j)) as [<-|].
  - by rewrite lookup_alter_eq, lookup_insert_eq, Hth.
  - by rewrite lookup_alter_ne, lookup_insert_ne.
Qed.

(** A thread that waits for bytes of an empty stream leaves the processor to the
    first thread that can run. *)
Lemma wait_hands_over p (st : sys) th pr bs t rest :
  let k := sched st in
  let cur := Scheduler.current_thread (Scheduler.this c k) in
  Scheduler.sched_wf c k → cur ≠ Scheduler.idle_thread (Scheduler.this c k) →
  threads_of st !! cur = Some th →
  qspare (c, priority th) (Scheduler.queues k) = true → p ≠ 0 → holds st p [] →
  let w := awaiting p st in
  Scheduler.sched_wf c w → Scheduler.top_requeued c w pr →
  Scheduler.requeued c w pr = bs ++ t :: rest → Forall (Scheduler.blocked w) bs →
  Scheduler.runnable w t → (length bs < fuel)%nat →
  ∃ k' i, wait_on resume fuel c p ReadEvent st = Ok (false, set_ints i (System.set_sched k' st)) ∧
    Scheduler.dispatched resume c t (Scheduler.served c w pr bs rest) w k' ∧
    qspare (c, pr) (Scheduler.queues k') = true.
Proof.
  intros k cur Hwf Hidle Hth Hsp Hp (s & Hs & Hring) w Hw Htop Hq Hbs Ht Hf.
  pose proof (Scheduler.wf_cpu _ _ Hwf) as Hc.
  destruct (Scheduler.tick_serves_spare resume fuel c w pr bs t rest Hw Htop Hq Hbs Ht Hf)
    as (k' & Htick & Hd & _ & Hsp').
  exists k', (Interrupts.lapic_set Interrupts.LAPIC_TPR Interrupts.INT_SCHED_TICK (ints st)).
  split; [|done]. unfold wait_on, Scheduler.sched_cur_thread. rewrite Scheduler.get_sched_in by done.
  cbn [mbind res_bind]. fold k. fold cur. rewrite (Scheduler.get_thread_Some cur th k Hth).
  cbn [mbind res_bind]. set (st1 := set_thread cur (set_descr p th) st).
  assert (Hth1 : threads_of st1 !! cur = Some (set_descr p th)) by apply lookup_insert_eq.
  pose proof (sched_thread_wait_spare resume fuel c ReadEvent (set_descr p th) st1 Hc Hth1 Hsp) as Hwait.
  change (Scheduler.current_thread (Scheduler.this c (sched st1))) with cur in Hwait. rewrite Hwait.
  clear Hwait.
  unfold Scheduler.sched_thread_wait. rewrite (Scheduler.get_thread_Some cur _ (sched st1) Hth1).
  cbn [mbind res_bind].
  assert (Hst : Scheduler.set_threads (<[cur:=set_event ReadEvent (set_descr p th)]>
      (Scheduler.threads (sched st1))) (sched st1) = w).
  { unfold w. rewrite (awaiting_insert p st th Hth). fold k. fold cur.
    unfold st1, set_thread, Scheduler.set_threads. cbn [sched System.set_sched Scheduler.threads].
    by rewrite insert_insert_eq. }
  rewrite Hst. unfold Scheduler.wait_loop.
  assert (Hthw : Scheduler.threads w !! cur = Some (set_event ReadEvent (set_descr p th))).
  { rewrite <- Hst. apply lookup_insert_eq. }
  rewrite (Scheduler.get_thread_Some cur _ w Hthw). cbn [mbind res_bind].
  assert (Hr : ready (Scheduler.wld w) (set_event ReadEvent (set_descr p th)) = Ok false).
  { unfold ready, run_event, stream_read_event, Stream.get_stream.
    change (streams (Scheduler.wld w)) with (streams_of st).
    cbn [event set_event descr set_descr]. rewrite !bool_decide_false by done.
    rewrite Hs. cbn [mbind res_bind].
    destruct (Stream.ring_rep_length s [] Hring) as [Hl _]. by rewrite Hl. }
  rewrite Hr. cbn [mbind res_bind]. unfold Scheduler.sched_yield. rewrite Htick. reflexivity.
Qed.

(** A thread that waited for bytes and was switched to reads them. *)
Lemma step_resume (u : user) (st : sys) (d : D) number a b e buf (n : nat) k proc th t p q :
  waiting u = Some (ToRead p buf n) → observe (code u) = VisF (Int80 number a b e) k →
  current c proc th st → threads_of st !! th = Some t → event t = NoEvent →
  holds st p q → Strings.writable (bytes st) buf (Z.of_nat n) → (0 < n ≤ length q)%nat →
  ∃ s r m, step u st d = Ok (User (k 0) (data u) r None, set_memory (mem st) m (set_stream p s st), d) ∧
    Stream.ring_rep s (drop n q) ∧ Strings.bytes_at m buf (u8 <$> take n q) ∧
    Strings.changed buf (Z.of_nat n) (bytes st) m.
Proof.
  intros Hw Ho [Hproc Hcur] Hth Hev (s & Hs & Hr) Hwr Hn.
  destruct (Stream.stream_read_ring n s q Hr) as (s' & Hrd & Hr').
  pose proof (read_upto_eq n buf (bytes st) s Hwr) as Hu. rewrite Hrd in Hu.
  destruct Hu as (m & Hu & Hb & Hc).
  rewrite (proj2 (Nat.sub_0_le n (length q))) in Hu by lia.
  assert (Hagain : wait_again resume fuel c st = Ok (true, st)).
  { unfold wait_again. rewrite (bind_ok _ _ _ Hcur). unfold wait_loop.
    rewrite (bind_ok _ _ _ (Scheduler.get_thread_Some th t (sched st) Hth)).
    unfold ready. rewrite bool_decide_true by done. cbn [mbind res_bind].
    assert (Hsame : set_event NoEvent t = t) by (rewrite <- Hev; apply Scheduler.set_event_same).
    rewrite Hsame. unfold set_thread. rewrite insert_id by done. do 2 f_equal. by destruct st as [[]]. }
  exists s', (Syscall.set_eax 0 (regs u)), m.
  split; [|split; [done|split; [done|]]]; [|rewrite length_take_le in Hc by lia; exact Hc].
  unfold Programs.step. rewrite Hw.
  assert (Hres : Syscall.resume_wait resume fuel c (ToRead p buf n) (regs u) st
    = Ok (Returns (Syscall.set_eax 0 (regs u)), set_memory (mem st) m (set_stream p s' st))).
  { unfold Syscall.resume_wait. rewrite (bind_ok _ _ _ Hproc), (bind_ok _ _ _ Hcur), (bind_ok _ _ _ Hagain).
    cbv iota beta. destruct n as [|n]; [lia|]. unfold stream_read, get_stream, Stream.get_stream.
    rewrite Hs. cbn [mbind res_bind]. rewrite Hu. reflexivity. }
  rewrite (bind_ok _ _ _ Hres). unfold settle, answer. by rewrite Ho.
Qed.

(** SYSCALL_TIME. *)
Lemma step_time (u : user) (st : sys) (d : D) k proc th :
  waiting u = None → observe (code u) = VisF (Int80 Syscall.SYSCALL_TIME None None None) k →
  current c proc th st →
  ∃ t r, step u st d = Ok (User (k t) (data u) r None, st, d).
Proof.
  intros Hw Ho Hcur. set (r := set_args Syscall.SYSCALL_TIME None None None (regs u)).
  assert (Hrun : Syscall.syscall resume fuel exit_buf exit_fmt c r st
    = Ok (Returns (Syscall.set_eax (Timer.timer_get_ticks (ticks (world_of st))) r), st)).
  { exact (Syscall.syscall_run _ _ _ _ _ _ _ r st (Returns _) st Hcur eq_refl). }
  eexists _, _. exact (step_call _ _ _ _ _ _ _ _ _ _ _ _ _ _ _ Hw Ho Hrun).
Qed.

End Steps.

(** ** The report of token_0 *)

Definition lits (l : list Z) : list Strings.piece := Strings.Lit <$> l.

(** "messages: %i time:%i [%s]" *)
Definition report_pieces (iter time buf : Z) (text : list Z) : list Strings.piece :=
  lits [109; 101; 115; 115; 97; 103; 101; 115; 58; 32] ++ [Strings.Dec iter] ++
  lits [32; 116; 105; 109; 101; 58] ++ [Strings.Dec time] ++ lits [32; 91] ++
  [Strings.Str buf text] ++ lits [93].
Definition report_format : list Z := concat (Strings.format_of <$> report_pieces 0 0 0 []).

(** The report of a message of at most 24 characters fits into its buffer of 64. *)
Lemma print_report fuel m msg fmt buf iter time text :
  Strings.cstr m fmt report_format → Strings.writable m msg 64 →
  Strings.outside fmt report_format msg 64 → Strings.cstr m buf text →
  Strings.outside buf text msg 64 → (length text ≤ 24)%nat → (128 < fuel)%nat →
  0 ≤ iter < 2 ^ 32 → 0 ≤ time < 2 ^ 32 →
  ∃ m', Utils.kprintf fuel m msg fmt [iter; time; buf] = Ok (msg, m') ∧ Strings.changed msg 64 m m'.
Proof.
  intros Hf Hw Ho Ht Hto Hl Hfuel Hi Htime. set (ps := report_pieces iter time buf text).
  assert (Hroom : Strings.room ps = Z.of_nat (length text) + 39).
  { unfold ps, report_pieces, lits, Strings.room. cbn [fmap list_fmap app foldr Strings.room_of]. lia. }
  assert (Hok : Forall Strings.piece_ok ps).
  { apply Strings.cstr_bytes in Ht as (_ & Hc & _). unfold ps, report_pieces, lits.
    cbn [fmap list_fmap app]. repeat constructor; try exact Hc; unfold Strings.char_ok; lia. }
  destruct (Strings.kprintf_ok fuel 25 m msg fmt ps) as (m' & outs & Hk & _ & _ & _ & Hch);
    [exact Hok|exact Hf| | | |unfold ps, report_pieces, lits; cbn [fmap list_fmap app length]; lia|].
  - rewrite Hroom. eapply Strings.writable_sub; [exact Hw|lia|lia].
  - rewrite Hroom. change (concat (Strings.format_of <$> ps)) with report_format.
    unfold Strings.outside in *. lia.
  - rewrite Hroom. unfold ps, report_pieces, lits. cbn [fmap list_fmap app].
    assert (Harg : Strings.arg_in m msg (Z.of_nat (length text) + 39 + 1) 25 (Strings.Str buf text)).
    { split; [exact Ht|]. split; [unfold Strings.outside in *; lia|lia]. }
    repeat (apply Forall_cons; split; [first [exact I|exact Harg]|]). by apply Forall_nil.
  - exists m'. split; [exact Hk|]. eapply Strings.changed_widen; [exact Hch|lia|lia].
Qed.

(** ** Stations *)

(** What a station runs: the loop of token_common.h, or that of token_0.c with
    the descriptor of the screen, the addresses of [msg] and of the format, and
    the time it started. *)
Inductive role := Passer | Starter (screen msg fmt start : Z).

Record station := Station { proc : Z; th : Z; from : Z; next : Z; buf : Z; does : role }.

Section Stations.
Context {S : Type} {F : Type} `{FrameAlloc F} {M : Type} `{QueueStore (Z * Z) M}.
Context {D : Type} `{Ports D} (resume : Z) (fuel : nat) (exit_buf exit_fmt : Z) (c : Z).
Notation sys := (sys (F := F) (M := M)).
Notation user := (user S).
Notation step := (Programs.step resume fuel exit_buf exit_fmt c).
Notation steps := (Programs.steps resume fuel exit_buf exit_fmt c).

(** The fuel of [kprintf] in token_0, the address of the screen's stream, the
    priority of the threads, the stations and their streams, and the message. *)
Context (kfuel : nat) (screen_stream prio : Z) (ss : list station) (ps : list Z) (tok : list Z).

Definition loop_of (s : station) (iter : Z) : itree (progE S) Empty_set :=
  match does s with
  | Passer => Token.pass (from s) (next s) (buf s)
  | Starter screen msg fmt start =>
      Token.pass0 kfuel screen start (from s) (next s) (buf s) fmt msg iter
  end.

(** Memory as a station sees it. *)
Definition workspace (s : station) (m : mem8) : Prop :=
  Strings.writable m (buf s) 32 ∧
  match does s with
  | Passer => True
  | Starter screen msg fmt start =>
      Strings.cstr m fmt report_format ∧ Strings.writable m msg 64 ∧
      (buf s + 32 ≤ msg ∨ msg + 64 ≤ buf s) ∧
      Strings.outside fmt report_format (buf s) 32 ∧ Strings.outside fmt report_format msg 64
  end.

(** The processor was switched to [s]: it sees its own memory, and the screen
    has room for a message. *)
Definition enters (s : station) (st st1 : sys) : Prop :=
  ∃ m x y, st1 = set_memory (mem st) m (set_stream screen_stream x st) ∧
    workspace s m ∧ Stream.ring_rep x y ∧ (length y + 64 ≤ 1022)%nat.

(** Where station [j] with the stream [p] is in its loop while station [i] is
    the current one and [k] the place of the message: before a read, waiting
    in it, or back from waiting. *)
Inductive phase (k i j : nat) (p : Z) (s : station) (u : user) (t : thread) : Prop :=
| fresh : waiting u = None → event t = NoEvent → phase k i j p s u t
| waits : j ≠ i → waiting u = Some (ToRead p (buf s) 32) → event t = ReadEvent → descr t = p →
    phase k i j p s u t
| resumed : j = i → i = (k mod length ss)%nat → waiting u = Some (ToRead p (buf s) 32) →
    event t = NoEvent → phase k i j p s u t.

(** The ring while station [i] is the current one; the message has come to the
    stream of place [k], counted on through the rounds. *)
Record ring (k i : nat) (us : list user) (st : sys) : Prop := {
  ring_station j s p : ss !! j = Some s → ps !! j = Some p →
    ∃ u iter t, us !! j = Some u ∧ code u = loop_of s iter ∧ threads_of st !! th s = Some t ∧
      parent t = proc s ∧ priority t = prio ∧ phase k i j p s u t;
  ring_ends j s p o : ss !! j = Some s → ps !! j = Some p →
    ps !! (Datatypes.S j mod length ss)%nat = Some o →
    reads st (proc s) (from s) p ∧ writes st (proc s) (next s) o;
  ring_screen j s screen msg fmt start : ss !! j = Some s → does s = Starter screen msg fmt start →
    writes st (proc s) screen screen_stream;
  ring_bytes j p : ps !! j = Some p →
    holds st p (if decide (j = k mod length ss)%nat then tok else []);
  ring_wf : Scheduler.sched_wf c (sched st);
  ring_current s : ss !! i = Some s →
    Scheduler.current_thread (Scheduler.this c (sched st)) = th s;
  ring_busy : Scheduler.current_thread (Scheduler.this c (sched st)) ≠
    Scheduler.idle_thread (Scheduler.this c (sched st));
  ring_queue : Scheduler.current_thread (Scheduler.this c (sched st)) ::
    Scheduler.queue (sched st) c prio ≡ₚ th <$> ss;
  ring_alone p : 0 ≤ p < MAX_PRIORITY → p ≠ prio → Scheduler.queue (sched st) c p = [];
  ring_spare : qspare (c, prio) (Scheduler.queues (sched st)) = true
}.

(** The stations, their streams and the message. *)
Record layout : Prop := {
  lay_token : length tok = 32%nat ∧ Forall (λ x, 0 ≤ x < 256) tok;
  lay_text : ∃ text rest, tok = text ++ 0 :: rest ∧ Forall Strings.char_ok text ∧ (length text ≤ 24)%nat;
  lay_streams : NoDup ps ∧ length ps = length ss ∧ 0 ∉ ps ∧ screen_stream ∉ ps;
  lay_threads : NoDup (th <$> ss);
  lay_size : (1 < length ss)%nat;
  lay_prio : 0 ≤ prio < MAX_PRIORITY;
  lay_fuel : (length ss < fuel)%nat ∧ (128 < kfuel)%nat
}.

(** The stations that have not begun to wait yet. *)
Definition unwaited (us : list user) : nat := length (filter (λ u, waiting u = None) us).

(** [n] turns: the station whose thread is current runs until it waits. *)
Inductive turns (d : D) : nat → list user * sys → list user * sys → Prop :=
| turns_none x : turns d 0 x x
| turns_next n j s u u' us st st1 st' z :
    Scheduler.sched_cur_thread c (sched st) = Ok (th s) → ss !! j = Some s → us !! j = Some u →
    enters s st st1 → steps 7 u st1 d = Ok (u', st', d) → is_Some (waiting u') →
    turns d n (<[j := u']> us, st') z → turns d (Datatypes.S n) (us, st) z.

(** ** Turns of the ring *)

Lemma stream_of i s : layout → ss !! i = Some s → ∃ p, ps !! i = Some p ∧ p ≠ 0 ∧ p ≠ screen_stream.
Proof.
  intros Hl Hs. destruct (lay_streams Hl) as (_ & Hlen & Hnull & Hsc).
  destruct (lookup_lt_is_Some_2 ps i) as [p Hp]; [rewrite Hlen; by eapply lookup_lt_Some|].
  apply list_elem_of_lookup_2 in Hp as Hin. exists p. split; [done|]. split; by intros ->.
Qed.

Lemma ring_is_current k i us st s :
  layout → ring k i us st → ss !! i = Some s → Syscall.current c (proc s) (th s) st.
Proof.
  intros Hl Hr Hs. destruct (stream_of i s Hl Hs) as (p & Hp & _).
  destruct (ring_station _ _ _ _ Hr i s p Hs Hp) as (u & iter & t & _ & _ & Ht & Hpar & _).
  pose proof (Scheduler.wf_cpu _ _ (ring_wf _ _ _ _ Hr)) as Hc.
  assert (Hcur : Scheduler.sched_cur_thread c (sched st) = Ok (th s)).
  { unfold Scheduler.sched_cur_thread. rewrite Scheduler.get_sched_in by done. cbn [mbind res_bind].
    by rewrite (ring_current _ _ _ _ Hr s Hs). }
  split; [|done]. unfold Scheduler.sched_cur_proc. rewrite (bind_ok _ _ _ Hcur).
  rewrite (bind_ok _ _ _ (Scheduler.get_thread_Some (th s) t (sched st) Ht)). by rewrite Hpar.
Qed.

(** The threads of the ring do not select. *)
Lemma ring_no_select k i us st t x :
  layout → ring k i us st → t ∈ th <$> ss → threads_of st !! t = Some x → event x ≠ SelectEvent.
Proof.
  intros Hl Hr Ht Hx. apply list_elem_of_fmap in Ht as (s & -> & Hs).
  apply list_elem_of_lookup_1 in Hs as (j & Hs). destruct (stream_of j s Hl Hs) as (p & Hp & _).
  destruct (ring_station _ _ _ _ Hr j s p Hs Hp) as (u & iter & y & _ & _ & Hy & _ & _ & Hph).
  rewrite Hy in Hx. injection Hx as <-. destruct Hph; congruence.
Qed.

(** Other contents of the streams. *)
Lemma ring_streams k k' i us st st' x :
  layout → ring k i us st → sched st' = with_streams x (sched st) →
  (∀ a, is_Some (streams_of st !! a) → is_Some (x !! a)) →
  (k' = k ∨ ∃ u, us !! i = Some u ∧ waiting u = None) →
  (∀ j p, ps !! j = Some p → holds st' p (if decide (j = k' mod length ss)%nat then tok else [])) →
  ring k' i us st'.
Proof.
  intros Hl Hr Hst Hx Hk Hb.
  assert (Hprocs : procs_of st' = procs_of st) by (unfold procs_of, world_of; by rewrite Hst).
  assert (Hthr : threads_of st' = threads_of st) by (unfold threads_of; by rewrite Hst).
  split; try (rewrite Hst; apply Hr).
  - intros j s p Hs Hp. rewrite Hthr.
    destruct (ring_station _ _ _ _ Hr j s p Hs Hp) as (u & iter & t & Hu & Hc & Ht & Hpa & Hpr & Hph).
    exists u, iter, t. do 5 (split; [done|]). destruct Hph as [|Hne|Hj Hi Hw He].
    + by apply fresh.
    + by apply waits.
    + destruct Hk as [->|(u' & Hu' & Hw')]; [by apply resumed|]. subst j. congruence.
  - intros j s p o Hs Hp Ho. destruct (ring_ends _ _ _ _ Hr j s p o Hs Hp Ho) as [Hri Hwi].
    split; [by apply (reads_procs st)|by apply (writes_procs st)].
  - intros j s sc msg fmt start Hs Hd. apply (writes_procs st); [done|].
    by eapply (ring_screen _ _ _ _ Hr).
  - exact Hb.
  - rewrite Hst. apply wf_streams; [exact Hx| |apply Hr]. intros t y Ht Hy.
    eapply (ring_no_select k i us st t y Hl Hr); [|exact Hy]. rewrite <- (ring_queue _ _ _ _ Hr).
    destruct Ht as [->|(p & Hp & Ht)]; [by apply list_elem_of_here|].
    destruct (decide (p = prio)) as [->|Hne]; [by apply list_elem_of_further|].
    rewrite (ring_alone _ _ _ _ Hr p Hp Hne) in Ht. by apply not_elem_of_nil in Ht.
Qed.

(** The current station is at the start of its loop. *)
Lemma ring_user k i us st s u u' iter :
  layout → ring k i us st → ss !! i = Some s → us !! i = Some u → code u' = loop_of s iter →
  waiting u' = None → ring k i (<[i := u']> us) st.
Proof.
  intros Hl Hr Hs Hu Hc Hw. split; try apply Hr.
  intros j s' p Hs' Hp.
  destruct (ring_station _ _ _ _ Hr j s' p Hs' Hp) as (v & it & t & Hv & Hcv & Ht & Hpa & Hpr & Hph).
  destruct (decide (j = i)) as [->|Hne].
  - rewrite Hs in Hs'. injection Hs' as <-. exists u', iter, t.
    rewrite list_lookup_insert_eq by (by eapply lookup_lt_Some). do 5 (split; [done|]).
    apply fresh; [done|]. by destruct Hph.
  - exists v, it, t. rewrite list_lookup_insert_ne by done. do 5 (split; [done|]).
    destruct Hph; [by apply fresh|by apply waits|done].
Qed.

(** Entering a station changes nothing of the ring. *)
Lemma ring_enters k i us st s st1 :
  layout → ring k i us st → enters s st st1 →
  ring k i us st1 ∧ workspace s (bytes st1) ∧
  ∃ y, holds st1 screen_stream y ∧ (length y + 64 ≤ 1022)%nat.
Proof.
  intros Hl Hr (m & x & y & -> & Hm & Hx & Hy). split; [|split; [exact Hm|]].
  - apply (ring_streams k k i us st) with (x := <[screen_stream := x]> (streams_of st));
      [exact Hl|exact Hr|reflexivity| | |].
    + intros a Ha. destruct (decide (screen_stream = a)) as [<-|]; [by rewrite lookup_insert_eq|].
      by rewrite lookup_insert_ne.
    + by left.
    + intros j p Hp. apply (holds_stream p _ screen_stream x st); [|by apply (ring_bytes _ _ _ _ Hr)].
      intros ->. destruct (lay_streams Hl) as (_ & _ & _ & Hsc). by apply Hsc, list_elem_of_lookup_2 with j.
  - exists y. split; [|done]. exact (stream_holds screen_stream y x st Hx).
Qed.

(** *** The current station passes the message on *)

(** The end of a turn of the loop, with [iter] for token_0. *)
Inductive tail (s : station) (iter : Z) (t : itree (progE S) Empty_set) : Prop :=
| tail_none : observe t = TauF (loop_of s iter) → tail s iter t
| tail_report screen msg fmt start k3 k4 k5 :
    does s = Starter screen msg fmt start →
    observe t = VisF (Int80 Syscall.SYSCALL_TIME None None None) k3 →
    (∀ x, observe (k3 x) = VisF (Run (λ s0 m, '(r, m) ← Utils.kprintf kfuel m msg fmt
       [u32 iter; Timer.uint64 (Timer.uint64 x - start); buf s]; Ok (r, s0, m))) (k4 x)) →
    (∀ x y, observe (k4 x y)
       = VisF (Int80 Syscall.SYSCALL_WRITE (Some (u32 screen)) (Some msg) (Some 64)) (k5 x y)) →
    (∀ x y z, observe (k5 x y z) = TauF (loop_of s iter)) → tail s iter t.

Lemma loop_shape s iter : ∃ iter' k k2,
  observe (loop_of s iter)
    = VisF (Int80 Syscall.SYSCALL_READ (Some (u32 (from s))) (Some (buf s)) (Some 32)) k ∧
  (∀ x, observe (k x)
    = VisF (Int80 Syscall.SYSCALL_WRITE (Some (u32 (next s))) (Some (buf s)) (Some 32)) (k2 x)) ∧
  ∀ x y, tail s iter' (k2 x y).
Proof.
  unfold loop_of. destruct (does s) as [|screen msg fmt start] eqn:Hd.
  - destruct (Token.pass_shape (S := S) (from s) (next s) (buf s)) as (k & k2 & Hk & Hk2 & Hk3).
    exists iter, k, k2. do 2 (split; [done|]). intros x y. apply tail_none. unfold loop_of. by rewrite Hd.
  - destruct (Token.pass0_shape (S := S) kfuel screen start (from s) (next s) (buf s) fmt msg iter)
      as (k & k2 & Hk & Hk2 & Hno & Hrep).
    exists (s32 (iter + 1)), k, k2. do 2 (split; [done|]). intros x y.
    destruct (decide (Z.rem (s32 (iter + 1)) 4096 = 0)) as [Hz|Hz].
    + destruct (Hrep Hz x y) as (k3 & k4 & k5 & H3 & H4 & H5 & H6).
      eapply tail_report; [exact Hd|exact H3|exact H4|exact H5|]. intros. unfold loop_of. by rewrite Hd.
    + apply tail_none. unfold loop_of. rewrite Hd. by apply Hno.
Qed.

Lemma bytes_of m p n : Strings.writable m p (Z.of_nat n) → ∃ l, length l = n ∧ Strings.bytes_at m p l.
Proof.
  revert p. induction n as [|n IH]; intros p Hw; [by exists []|].
  destruct (Hw p) as [b Hb]; [lia|]. destruct (IH (p + 1)) as (l & Hl & Hbl).
  { intros x Hx. apply Hw. lia. }
  exists (b :: l). cbn [length Strings.bytes_at]. by rewrite Hl.
Qed.

(** The rest of a turn: the report may go to the screen. *)
Lemma tail_runs k i us st s iter (d : D) t x r y :
  layout → ring k i us st → ss !! i = Some s → tail s iter t →
  workspace s (bytes st) → Strings.bytes_at (bytes st) (buf s) tok →
  holds st screen_stream y → (length y + 64 ≤ 1022)%nat →
  ∃ n r' st' z, (n ≤ 4)%nat ∧
    (∀ m, steps (n + m) (User t x r None) st d = steps m (User (loop_of s iter) x r' None) st' d) ∧
    sched st' = with_streams (<[screen_stream := z]> (streams_of st)) (sched st) ∧
    Strings.writable (bytes st') (buf s) 32.
Proof.
  intros Hl Hr Hs Ht Hws Hby (z0 & Hz0 & Hring) Hroom.
  pose proof (ring_is_current k i us st s Hl Hr Hs) as Hcur.
  destruct Ht as [Ho|screen msg fmt start k3 k4 k5 Hd H3 H4 H5 H6].
  - exists 1%nat, r, st, z0. split; [lia|]. split; [|split; [|apply Hws]].
    + intros m. cbn [Nat.add]. by rewrite (steps_S _ _ _ _ _ m _ _ _ _ _ _
        (step_tau resume fuel exit_buf exit_fmt c (User t x r None) st d (loop_of s iter) eq_refl Ho) eq_refl).
    + rewrite insert_id by done. by destruct st as [[? ? ? ? []]].
  - destruct Hws as [Hbuf Hrest]. rewrite Hd in Hrest. destruct Hrest as (Hfmt & Hmsg & Hap & Hfb & Hfm).
    destruct (lay_text Hl) as (text & rest & Htok & Hchars & Hlen).
    destruct (step_time resume fuel exit_buf exit_fmt c (User t x r None) st d k3 (proc s) (th s)
      eq_refl H3 Hcur) as (v & r1 & Hs1).
    assert (Hc : Strings.cstr (bytes st) (buf s) text).
    { rewrite Htok in Hby. apply Strings.bytes_app in Hby as [Hby [Hz _]].
      apply Strings.cstr_bytes. by repeat split. }
    destruct (print_report kfuel (bytes st) msg fmt (buf s) (u32 iter)
      (Timer.uint64 (Timer.uint64 v - start)) text) as (m1 & Hpr & Hch);
      [done|done|done|done|unfold Strings.outside; lia|done|apply (lay_fuel Hl)|apply u32_range|
       unfold Timer.uint64; apply u32_range|].
    assert (Hmsg1 : Strings.writable m1 msg 64) by (by eapply Strings.writable_changed).
    destruct (bytes_of m1 msg 64 Hmsg1) as (l & Hll & Hbl).
    set (st1 := set_memory (mem st) m1 st).
    assert (Hwr : writes st1 (proc s) screen screen_stream) by (by eapply (ring_screen _ _ _ _ Hr)).
    destruct (step_write resume fuel exit_buf exit_fmt c (User (k4 v msg) x r1 None) st1 d screen msg l
      (k5 v msg) (proc s) (th s) screen_stream y) as (s2 & r2 & Hs2 & _);
      [reflexivity|rewrite Hll; apply H5|exact Hcur|exact Hwr|by exists z0|exact Hbl|lia|lia|].
    exists 4%nat, r2, (set_stream screen_stream s2 st1), s2. split; [lia|]. split; [|split].
    + intros m. cbn [Nat.add]. rewrite (steps_S _ _ _ _ _ _ _ _ _ _ _ _ Hs1 eq_refl).
      erewrite steps_S; [|eapply step_run; [reflexivity|apply H4|]|reflexivity].
      2: { cbv beta. rewrite (bind_ok _ _ _ Hpr). reflexivity. }
      fold st1. rewrite (steps_S _ _ _ _ _ _ _ _ _ _ _ _ Hs2 eq_refl).
      erewrite steps_S; [|eapply step_tau; [reflexivity|apply H6]|reflexivity]. reflexivity.
    + reflexivity.
    + change (Strings.writable m1 (buf s) 32). by eapply Strings.writable_changed.
Qed.

(** The current station takes the message out of its stream. *)
Lemma gets k i us st s u p number a b e kk (d : D) :
  layout → ring k i us st → i = (k mod length ss)%nat → ss !! i = Some s → us !! i = Some u →
  ps !! i = Some p → workspace s (bytes st) →
  observe (code u) = VisF (Int80 number a b e) kk →
  (number, a, b, e) = (Syscall.SYSCALL_READ, Some (u32 (from s)), Some (buf s), Some 32) →
  ∃ x r m, step u st d = Ok (User (kk 0) (data u) r None, set_memory (mem st) m (set_stream p x st), d) ∧
    Stream.ring_rep x [] ∧ Strings.bytes_at m (buf s) tok ∧ Strings.changed (buf s) 32 (bytes st) m.
Proof.
  intros Hl Hr Hi Hs Hu Hp [Hbuf _] Ho Hargs. destruct (lay_token Hl) as [Hlen Hbytes].
  pose proof (ring_is_current k i us st s Hl Hr Hs) as Hcur.
  destruct (ring_station _ _ _ _ Hr i s p Hs Hp) as (v & iter & t & Hv & Hc & Ht & _ & _ & Hph).
  rewrite Hu in Hv. injection Hv as <-.
  pose proof (ring_bytes _ _ _ _ Hr i p Hp) as Hq. rewrite decide_True in Hq by done.
  assert (Hdone : drop 32 tok = [] ∧ (u8 <$> take 32 tok) = tok).
  { split; [apply drop_ge; lia|]. rewrite take_ge by lia. clear -Hbytes.
    induction Hbytes as [|x l Hx _ IH]; [done|]. change (u8 x :: (u8 <$> l) = x :: l).
    by rewrite IH, u8_small. }
  destruct Hdone as [Hdrop Htake].
  assert (Hgets : ∃ x r m, step u st d
      = Ok (User (kk 0) (data u) r None, set_memory (mem st) m (set_stream p x st), d) ∧
    Stream.ring_rep x (drop 32 tok) ∧ Strings.bytes_at m (buf s) (u8 <$> take 32 tok) ∧
    Strings.changed (buf s) 32 (bytes st) m); [|by rewrite Hdrop, Htake in Hgets].
  destruct Hph as [Hw _|Hne|_ _ Hw Hev]; [| done |].
  - injection Hargs as -> -> -> ->. destruct (lookup_lt_is_Some_2 ps (Datatypes.S i mod length ss)) as [o Hop].
    { destruct (lay_streams Hl) as (_ & -> & _). apply Nat.mod_upper_bound. pose proof (lay_size Hl). lia. }
    destruct (ring_ends _ _ _ _ Hr i s p o Hs Hp Hop) as [Hreads _].
    exact (step_read resume fuel exit_buf exit_fmt c u st d (from s) (buf s) 32 kk (proc s) (th s) p tok
      Hw Ho Hcur Hreads Hq Hbuf ltac:(lia)).
  - exact (step_resume resume fuel exit_buf exit_fmt c u st d number a b e (buf s) 32 kk (proc s) (th s) t p
      tok Hw Ho Hcur Ht Hev Hq Hbuf ltac:(lia)).
Qed.

(** Its turn of the loop takes the message to the next place. *)
Lemma passes k i us st s u (d : D) y :
  layout → ring k i us st → i = (k mod length ss)%nat → ss !! i = Some s → us !! i = Some u →
  workspace s (bytes st) → holds st screen_stream y → (length y + 64 ≤ 1022)%nat →
  ∃ n r iter st', (n ≤ 6)%nat ∧
    (∀ m, steps (n + m) u st d = steps m (User (loop_of s iter) (data u) r None) st' d) ∧
    ring (Datatypes.S k) i (<[i := User (loop_of s iter) (data u) r None]> us) st' ∧
    Strings.writable (bytes st') (buf s) 32.
Proof.
  intros Hl Hr Hi Hs Hu Hws Hsc Hroom. destruct (stream_of i s Hl Hs) as (p & Hp & Hp0 & Hpsc).
  pose proof (lay_size Hl) as Hn. destruct (lay_streams Hl) as (Hnd & Hlen & _ & Hscp).
  destruct (ring_station _ _ _ _ Hr i s p Hs Hp) as (v & it & t & Hv & Hc & _ & _ & _ & _).
  rewrite Hu in Hv. injection Hv as <-.
  destruct (loop_shape s it) as (iter & kk & k2 & Hk & Hk2 & Htail). rewrite <- Hc in Hk.
  destruct (gets k i us st s u p _ _ _ _ kk d Hl Hr Hi Hs Hu Hp Hws Hk eq_refl)
    as (x & r1 & m1 & Hs1 & Hx & Hb1 & Hc1).
  set (st1 := set_memory (mem st) m1 (set_stream p x st)) in *.
  destruct (next_index i (length ss)) as [Hnext Hne]; [by eapply lookup_lt_Some|lia|].
  set (i' := (Datatypes.S i mod length ss)%nat) in *.
  destruct (lookup_lt_is_Some_2 ps i') as [o Ho]; [lia|].
  assert (Hpo : p ≠ o) by (intros ->; apply Hne; by apply (NoDup_lookup ps i' i o)).
  assert (Hosc : screen_stream ≠ o) by (intros <-; by apply Hscp, list_elem_of_lookup_2 with i').
  destruct (ring_ends _ _ _ _ Hr i s p o Hs Hp Ho) as [_ Hwrites].
  pose proof (ring_is_current k i us st s Hl Hr Hs) as Hcur.
  pose proof (ring_bytes _ _ _ _ Hr i' o Ho) as Hqo.
  rewrite decide_False in Hqo by (rewrite <- Hi; done). destruct (lay_token Hl) as [Htl _].
  destruct (step_write resume fuel exit_buf exit_fmt c (User (kk 0) (data u) r1 None) st1 d (next s) (buf s)
    tok (k2 0) (proc s) (th s) o []) as (s2 & r2 & Hs2 & Hr2);
    [reflexivity|rewrite Htl; apply Hk2|exact Hcur|exact Hwrites|by apply (holds_stream o [] p x st)|
     exact Hb1|lia|cbn [length]; lia|].
  set (st2 := set_stream o s2 st1) in *.
  assert (Hk' : (Datatypes.S k mod length ss)%nat = i').
  { unfold i'. rewrite Hi. symmetry. exact (Nat.Div0.add_mod_idemp_r 1 k (length ss)). }
  assert (Hholds : ∀ j q, ps !! j = Some q →
    holds st2 q (if decide (j = Datatypes.S k mod length ss)%nat then tok else [])).
  { intros j q Hq. rewrite Hk'. destruct (decide (j = i')) as [->|Hj'].
    { rewrite Ho in Hq. injection Hq as <-. exact (stream_holds o tok s2 st1 Hr2). }
    apply (holds_stream q _ o s2 st1); [intros ->; apply Hj'; by apply (NoDup_lookup ps j i' o)|].
    destruct (decide (j = i)) as [->|Hj].
    { rewrite Hp in Hq. injection Hq as <-. exact (stream_holds p [] x st Hx). }
    apply (holds_stream q _ p x st); [intros ->; apply Hj; by apply (NoDup_lookup ps j i p)|].
    pose proof (ring_bytes _ _ _ _ Hr j q Hq) as Hqj. by rewrite decide_False in Hqj by (rewrite <- Hi; done). }
  assert (Hr0 : ring k i (<[i := User (loop_of s it) (data u) r2 None]> us) st)
    by (eapply ring_user; [exact Hl|exact Hr|exact Hs|exact Hu|reflexivity|reflexivity]).
  set (us0 := <[i := User (loop_of s it) (data u) r2 None]> us) in *.
  assert (Hu0 : us0 !! i = Some (User (loop_of s it) (data u) r2 None))
    by (apply list_lookup_insert_eq; by eapply lookup_lt_Some).
  assert (Hr1 : ring (Datatypes.S k) i us0 st2).
  { apply (ring_streams k (Datatypes.S k) i us0 st) with (x := <[o := s2]> (<[p := x]> (streams_of st)));
      [exact Hl|exact Hr0|reflexivity| |by right; eexists|exact Hholds].
    intros a Ha. apply lookup_insert_is_Some'. right. apply lookup_insert_is_Some'. by right. }
  assert (Hws2 : workspace s (bytes st2)).
  { change (workspace s m1). destruct Hws as [Hbuf Hrest]. split; [by eapply Strings.writable_changed|].
    destruct (does s); [done|]. destruct Hrest as (Hfmt & Hmsg & Hap & Hfb & Hfm).
    split; [by eapply Strings.cstr_changed|]. split; [by eapply Strings.writable_changed|done]. }
  destruct (tail_runs (Datatypes.S k) i us0 st2 s iter d (k2 0 0) (data u) r2 y)
    as (n & r3 & st3 & z & Hn4 & Hrun & Hst3 & Hbuf3); [done|done|done|apply Htail|done|exact Hb1| |done|].
  { apply (holds_stream _ y o s2 st1 Hosc). by apply (holds_stream _ y p x st); [apply not_eq_sym|]. }
  exists (Datatypes.S (Datatypes.S n)), r3, iter, st3. split; [lia|]. split; [|split; [|exact Hbuf3]].
  - intros m. cbn [Nat.add]. rewrite (steps_S _ _ _ _ _ _ _ _ _ _ _ _ Hs1 eq_refl).
    rewrite (steps_S _ _ _ _ _ _ _ _ _ _ _ _ Hs2 eq_refl). apply Hrun.
  - assert (Hr3 : ring (Datatypes.S k) i us0 st3).
    { apply (ring_streams (Datatypes.S k) (Datatypes.S k) i us0 st2)
        with (x := <[screen_stream := z]> (streams_of st2));
        [exact Hl|exact Hr1|exact Hst3| |by left|].
      - intros a Ha. apply lookup_insert_is_Some'. by right.
      - intros j q Hq. pose proof (Hholds j q Hq) as (w & Hw & Hring). exists w. split; [|exact Hring].
        unfold streams_of, world_of. rewrite Hst3. cbn [with_streams Scheduler.wld streams].
        rewrite lookup_insert_ne; [exact Hw|]. intros <-. by apply Hscp, list_elem_of_lookup_2 with j. }
    replace (<[i := User (loop_of s iter) (data u) r3 None]> us)
      with (<[i := User (loop_of s iter) (data u) r3 None]> us0)
      by (unfold us0; by rewrite list_insert_insert_eq).
    eapply ring_user; [exact Hl|exact Hr3|exact Hs|exact Hu0|reflexivity|reflexivity].
Qed.

(** *** The current station waits *)

Lemma threads_differ i j s s' :
  layout → ss !! i = Some s → ss !! j = Some s' → i ≠ j → th s ≠ th s'.
Proof.
  intros Hl Hs Hs' Hne Heq. apply Hne. apply (NoDup_lookup (th <$> ss) i j (th s)); [apply (lay_threads Hl)| |].
  - by rewrite list_lookup_fmap, Hs.
  - by rewrite list_lookup_fmap, Hs', Heq.
Qed.

(** Another station can run when it has not waited yet, or when it waits and the
    message is in its stream. *)
Lemma station_runnable k i us st s j s' p' q t u (w := awaiting c q st) :
  layout → ring k i us st → ss !! i = Some s → ss !! j = Some s' → j ≠ i → ps !! j = Some p' →
  us !! j = Some u → threads_of st !! th s' = Some t → phase k i j p' s' u t →
  Scheduler.threads w !! th s' = Some t ∧
  (Scheduler.runnable w (th s') ↔ waiting u = None ∨ j = (k mod length ss)%nat).
Proof.
  intros Hl Hr Hs Hs' Hne Hp Hu Ht Hph. destruct (stream_of j s' Hl Hs') as (x & Hx & Hx0 & _).
  rewrite Hp in Hx. injection Hx as <-.
  assert (Htw : Scheduler.threads w !! th s' = Some t).
  { unfold w, awaiting. rewrite (ring_current _ _ _ _ Hr s Hs). cbn [Scheduler.threads Scheduler.set_threads].
    rewrite lookup_alter_ne; [done|]. by apply (threads_differ i j). }
  split; [exact Htw|]. unfold Scheduler.runnable. rewrite Htw.
  assert (Hiff : (∃ x, Some t = Some x ∧ ready (Scheduler.wld w) x = Ok true) ↔
    ready (Scheduler.wld w) t = Ok true).
  { split; [by intros (x & [= <-] & Hx)|intros Hx; by exists t]. }
  rewrite Hiff. unfold ready. destruct Hph as [Hw Hev|_ Hw Hev Hd|]; [| |done].
  - rewrite bool_decide_true by done. split; [by left|done].
  - rewrite bool_decide_false by congruence. unfold run_event, stream_read_event. rewrite Hev, Hd.
    rewrite bool_decide_false by done. unfold Stream.get_stream.
    change (streams (Scheduler.wld w)) with (streams_of st).
    destruct (ring_bytes _ _ _ _ Hr j p' Hp) as (y & -> & Hy). cbn [mbind res_bind].
    apply Stream.ring_rep_length in Hy as [Hlen _]. rewrite Hlen. destruct (lay_token Hl) as [Htl _].
    destruct (decide (j = k mod length ss)%nat) as [Hj|Hj].
    + rewrite Htl. split; [by right|done].
    + cbn [length]. split; [done|]. intros [Hn|Hn]; [congruence|done].
Qed.

(** What the scheduler finds when the current station waits. *)
Lemma ring_awaiting k i us st s p (w := awaiting c p st) :
  layout → ring k i us st → (i ≠ k mod length ss)%nat → ss !! i = Some s → ps !! i = Some p →
  Scheduler.sched_wf c w ∧ Scheduler.top_requeued c w prio ∧
  Scheduler.requeued c w prio ≡ₚ th <$> ss ∧
  (∀ p', 0 ≤ p' < MAX_PRIORITY → p' ≠ prio → Scheduler.requeued c w p' = []) ∧
  Scheduler.blocked w (th s) ∧
  ∃ t, threads_of st !! th s = Some t ∧ priority t = prio ∧ parent t = proc s ∧
    Scheduler.threads w !! th s = Some (set_event ReadEvent (set_descr p t)).
Proof.
  intros Hl Hr Hi Hs Hp. destruct (stream_of i s Hl Hs) as (x & Hx & Hp0 & _).
  rewrite Hp in Hx. injection Hx as <-.
  destruct (ring_station _ _ _ _ Hr i s p Hs Hp) as (u & it & t & Hu & _ & Ht & Hpar & Hprio & _).
  pose proof (ring_current _ _ _ _ Hr s Hs) as Hcur.
  assert (Hws : w = Scheduler.set_threads (<[th s := set_event ReadEvent (set_descr p t)]> (threads_of st))
    (sched st)).
  { unfold w. rewrite (awaiting_insert c p st t) by (by rewrite Hcur). by rewrite Hcur. }
  assert (Htw : Scheduler.threads w !! th s = Some (set_event ReadEvent (set_descr p t))).
  { rewrite Hws. apply lookup_insert_eq. }
  assert (Hready : ready (Scheduler.wld w) (set_event ReadEvent (set_descr p t)) = Ok false).
  { unfold ready, run_event, stream_read_event, Stream.get_stream.
    change (streams (Scheduler.wld w)) with (streams_of st).
    cbn [event set_event descr set_descr]. rewrite !bool_decide_false by done.
    destruct (ring_bytes _ _ _ _ Hr i p Hp) as (y & -> & Hy). cbn [mbind res_bind].
    rewrite decide_False in Hy by done. by destruct (Stream.ring_rep_length y [] Hy) as [-> _]. }
  assert (Hreq : ∀ p', Scheduler.requeued c w p' =
    Scheduler.queue (sched st) c p' ++ if decide (prio = p') then [th s] else []).
  { intros p'. unfold Scheduler.requeued. change (Scheduler.this c w) with (Scheduler.this c (sched st)).
    rewrite decide_False by apply (ring_busy _ _ _ _ Hr). rewrite Hcur, Htw. cbn [priority set_event set_descr].
    by rewrite Hprio. }
  split; [|split; [|split; [|split; [|split]]]].
  - rewrite Hws. rewrite <- Hcur.
    apply (wf_waits c (sched st) t _ false); [apply Hr|apply Hr|by rewrite Hcur|done|done|exact Hready].
  - split; [apply (lay_prio Hl)|]. intros p' Hp'. pose proof (lay_prio Hl).
    rewrite Hreq, decide_False by lia. rewrite app_nil_r. apply (ring_alone _ _ _ _ Hr); lia.
  - rewrite Hreq, decide_True by done. rewrite <- (ring_queue _ _ _ _ Hr), Hcur.
    by rewrite (Permutation_app_comm _ [th s]).
  - intros p' Hp' Hne. rewrite Hreq, decide_False by congruence. rewrite app_nil_r.
    by apply (ring_alone _ _ _ _ Hr).
  - eexists. split; [exact Htw|exact Hready].
  - exists t. done.
Qed.

(** The first station of the queue that can run is another one. *)
Lemma ring_finds k i us st s p (w := awaiting c p st) :
  layout → ring k i us st → (i ≠ k mod length ss)%nat → ss !! i = Some s → ps !! i = Some p →
  ∃ bs rest j s', Scheduler.requeued c w prio = bs ++ th s' :: rest ∧
    Forall (Scheduler.blocked w) bs ∧ Scheduler.runnable w (th s') ∧ ss !! j = Some s' ∧ j ≠ i.
Proof.
  intros Hl Hr Hi Hs Hp.
  destruct (ring_awaiting k i us st s p Hl Hr Hi Hs Hp) as (Hwf & Htop & Hperm & _ & Hblk & _).
  fold w in Hwf, Htop, Hperm, Hblk. pose proof (lay_size Hl) as Hn.
  assert (Hboth : ∀ t, Scheduler.blocked w t → Scheduler.runnable w t → False).
  { intros t (x & Hx & Hb) (y & Hy & Hrun). congruence. }
  destruct (Scheduler.first_runnable w (Scheduler.requeued c w prio)) as [Hall|(bs & t & rest & Hq & Hbs & Ht)].
  { apply Forall_forall. intros t Ht. eapply Scheduler.thread_ok_decided, Scheduler.requeued_ok;
      [exact Hwf|apply Htop|exact Ht]. }
  - exfalso. set (h := (k mod length ss)%nat) in *.
    destruct (lookup_lt_is_Some_2 ss h) as [sh Hsh]; [apply Nat.mod_upper_bound; lia|].
    destruct (stream_of h sh Hl Hsh) as (ph & Hph & _).
    destruct (ring_station _ _ _ _ Hr h sh ph Hsh Hph) as (u & it & t & Hu & _ & Ht & _ & _ & Hphase).
    destruct (station_runnable k i us st s h sh ph p t u Hl Hr Hs Hsh) as [_ Hrun]; try done.
    apply (Hboth (th sh)); [|apply Hrun; by right]. rewrite Forall_forall in Hall. apply Hall.
    rewrite Hperm. apply list_elem_of_fmap_2. by apply list_elem_of_lookup_2 with h.
  - assert (Hin : t ∈ th <$> ss) by (rewrite <- Hperm, Hq; set_solver).
    apply list_elem_of_fmap in Hin as (s' & -> & Hin). apply list_elem_of_lookup_1 in Hin as (j & Hj).
    exists bs, rest, j, s'. do 4 (split; [done|]). intros ->. rewrite Hs in Hj. injection Hj as <-.
    by apply (Hboth (th s)).
Qed.

(** The current station waits, and the processor goes on with another one. *)
Lemma hands_over k i us st s u p iter :
  layout → ring k i us st → (i ≠ k mod length ss)%nat → ss !! i = Some s → us !! i = Some u →
  ps !! i = Some p → code u = loop_of s iter →
  ∃ st2 i', wait_on resume fuel c p ReadEvent st = Ok (false, st2) ∧ (i' < length ss)%nat ∧
    ∀ r, ring k i' (<[i := User (loop_of s iter) (data u) r (Some (ToRead p (buf s) 32))]> us) st2.
Proof.
  intros Hl Hr Hi Hs Hu Hp Hcode. set (w := awaiting c p st).
  destruct (stream_of i s Hl Hs) as (x & Hx & Hp0 & _). rewrite Hp in Hx. injection Hx as <-.
  destruct (ring_awaiting k i us st s p Hl Hr Hi Hs Hp)
    as (Hwf & Htop & Hperm & Hempty & _ & t & Ht & Hprio & Hpar & Htw).
  destruct (ring_finds k i us st s p Hl Hr Hi Hs Hp) as (bs & rest & j & s' & Hq & Hbs & Hrun & Hj & Hne).
  fold w in Hwf, Htop, Hperm, Hempty, Htw, Hq, Hbs, Hrun.
  pose proof (ring_current _ _ _ _ Hr s Hs) as Hcur.
  assert (Hlen : (length bs < fuel)%nat).
  { apply (f_equal length) in Hq as Hlq. rewrite Hperm, length_fmap, length_app in Hlq.
    cbn [length] in Hlq. destruct (lay_fuel Hl). lia. }
  pose proof (ring_bytes _ _ _ _ Hr i p Hp) as Hhold. rewrite decide_False in Hhold by done.
  destruct (wait_hands_over resume fuel c p st t prio bs (th s') rest) as (k' & ii & Hwait & Hd & Hsp);
    [apply Hr|apply Hr|by rewrite Hcur|rewrite Hprio; apply Hr|done|done|exact Hwf|exact Htop|exact Hq|
     exact Hbs|exact Hrun|exact Hlen|].
  exists (set_ints ii (System.set_sched k' st)), j. split; [exact Hwait|].
  split; [by eapply lookup_lt_Some|]. intros r. set (st2 := set_ints ii (System.set_sched k' st)).
  assert (Hworld : world_of st2 = world_of st) by exact (Scheduler.d_world _ _ _ _ _ _ Hd).
  assert (Hprocs : procs_of st2 = procs_of st) by (unfold procs_of; by rewrite Hworld).
  assert (Hthreads : ∀ a y, Scheduler.threads w !! a = Some y → ∃ y', threads_of st2 !! a = Some y' ∧
    parent y' = parent y ∧ priority y' = priority y ∧ descr y' = descr y ∧
    (a = th s' → event y' = NoEvent) ∧ (a ≠ th s' → event y' = event y)).
  { intros a y Ha. destruct (Scheduler.d_threads _ _ _ _ _ _ Hd a y Ha) as (y' & Hy' & Hk & He).
    exists y'. destruct Hk as (H1' & H2 & _ & _ & _ & H5 & _). do 4 (split; [done|]). split.
    - intros ->. destruct (Scheduler.d_event _ _ _ _ _ _ Hd) as (z & Hz & Hze).
      unfold threads_of in Hy'. cbn in Hy'. rewrite Hz in Hy'. by injection Hy' as <-.
    - intros Hna. by destruct He as [|[]]. }
  split.
  - intros b sb pb Hb Hpb. destruct (decide (b = i)) as [->|Hbi].
    + rewrite Hs in Hb. injection Hb as <-. rewrite Hp in Hpb. injection Hpb as <-.
      destruct (Hthreads (th s) _ Htw) as (y & Hy & Hy1 & Hy2 & Hy3 & _ & Hy5).
      eexists _, iter, y. rewrite list_lookup_insert_eq by (by eapply lookup_lt_Some).
      split; [reflexivity|]. split; [reflexivity|]. split; [exact Hy|]. split; [by rewrite Hy1|].
      split; [by rewrite Hy2|].
      apply waits; [by apply not_eq_sym|done|rewrite Hy5; [done|]|by rewrite Hy3].
      by apply (threads_differ i j); [| | |apply not_eq_sym].
    + destruct (ring_station _ _ _ _ Hr b sb pb Hb Hpb) as (v & it & y & Hv & Hcv & Hy & Hya & Hyp & Hph).
      destruct (station_runnable k i us st s b sb pb p y v Hl Hr Hs Hb Hbi Hpb Hv Hy Hph) as [Hyw Hiff].
      fold w in Hyw, Hiff.
      destruct (Hthreads (th sb) y Hyw) as (y' & Hy' & Hy1 & Hy2 & Hy3 & Hy4 & Hy5).
      exists v, it, y'. rewrite list_lookup_insert_ne by done. split; [done|]. split; [done|].
      split; [exact Hy'|]. split; [by rewrite Hy1|]. split; [by rewrite Hy2|].
      destruct (decide (b = j)) as [->|Hbj].
      * rewrite Hj in Hb. injection Hb as <-. destruct Hph as [Hw|_ Hw Hev Hdp|]; [| |done].
        { apply fresh; [done|by apply Hy4]. }
        apply resumed; [done| |done|by apply Hy4].
        apply Hiff in Hrun as [Hrun|Hrun]; [congruence|done].
      * assert (Hdiff : th sb ≠ th s') by (by apply (threads_differ b j)).
        destruct Hph as [Hw Hev|_ Hw Hev Hdp|]; [| |done].
        { apply fresh; [done|]. by rewrite Hy5. }
        apply waits; [done|done|by rewrite Hy5|by rewrite Hy3].
  - intros b sb pb o Hb Hpb Ho. destruct (ring_ends _ _ _ _ Hr b sb pb o Hb Hpb Ho) as [Hri Hwi].
    split; [by apply (reads_procs st)|by apply (writes_procs st)].
  - intros b sb sc msg fmt start Hb Hdoes. apply (writes_procs st); [done|].
    by eapply (ring_screen _ _ _ _ Hr).
  - intros b pb Hpb. destruct (ring_bytes _ _ _ _ Hr b pb Hpb) as (y & Hy & Hring). exists y.
    split; [|done]. unfold streams_of in *. by rewrite Hworld.
  - exact (Scheduler.d_wf _ _ _ _ _ _ Hd).
  - intros sb Hb. rewrite Hj in Hb. injection Hb as <-. exact (Scheduler.d_current _ _ _ _ _ _ Hd).
  - change (sched st2) with k'. rewrite (Scheduler.d_current _ _ _ _ _ _ Hd), (Scheduler.d_idle _ _ _ _ _ _ Hd).
    apply (Scheduler.requeued_ok c w prio (th s') Hwf (lay_prio Hl)). rewrite Hq. set_solver.
  - change (sched st2) with k'. rewrite (Scheduler.d_current _ _ _ _ _ _ Hd).
    rewrite (Scheduler.d_queue _ _ _ _ _ _ Hd) by apply (lay_prio Hl). unfold Scheduler.served.
    rewrite decide_True by done. rewrite <- Hperm, Hq.
    rewrite (Permutation_app_comm rest bs). apply Permutation_middle.
  - intros p' Hp' Hne'. change (sched st2) with k'. rewrite (Scheduler.d_queue _ _ _ _ _ _ Hd) by done.
    unfold Scheduler.served. rewrite decide_False by done. by apply Hempty.
  - exact Hsp.
Qed.

(** *** A turn *)

(** The current station reads its empty stream. *)
Lemma turn_ends k i us st s u (d : D) n :
  layout → ring k i us st → (i ≠ k mod length ss)%nat → ss !! i = Some s → us !! i = Some u →
  waiting u = None → Strings.writable (bytes st) (buf s) 32 →
  ∃ u' st' i', steps (Datatypes.S n) u st d = Ok (u', st', d) ∧ is_Some (waiting u') ∧
    (i' < length ss)%nat ∧ ring k i' (<[i := u']> us) st'.
Proof.
  intros Hl Hr Hi Hs Hu Hw Hbuf. destruct (stream_of i s Hl Hs) as (p & Hp & _ & Hpsc).
  pose proof (ring_is_current k i us st s Hl Hr Hs) as Hcur.
  destruct (ring_station _ _ _ _ Hr i s p Hs Hp) as (v & it & t & Hv & Hc & _).
  rewrite Hu in Hv. injection Hv as <-.
  destruct (loop_shape s it) as (iter & kk & k2 & Hk & _). rewrite <- Hc in Hk.
  destruct (lookup_lt_is_Some_2 ps (Datatypes.S i mod length ss)) as [o Ho].
  { destruct (lay_streams Hl) as (_ & -> & _). apply Nat.mod_upper_bound. pose proof (lay_size Hl). lia. }
  destruct (ring_ends _ _ _ _ Hr i s p o Hs Hp Ho) as [Hreads _].
  pose proof (ring_bytes _ _ _ _ Hr i p Hp) as Hq. rewrite decide_False in Hq by done.
  destruct (step_read_waits resume fuel exit_buf exit_fmt c u st d (from s) (buf s) 32 kk (proc s) (th s) p
    Hw Hk Hcur Hreads Hq Hbuf) as (x & m & Hx & Hch & Hwait); [lia|].
  set (st1 := set_memory (mem st) m (set_stream p x st)) in *.
  assert (Hr1 : ring k i us st1).
  { apply (ring_streams k k i us st) with (x := <[p := x]> (streams_of st));
      [exact Hl|exact Hr|reflexivity| |by left|].
    - intros a Ha. apply lookup_insert_is_Some'. by right.
    - intros j q Hjq. destruct (decide (q = p)) as [->|Hqp].
      + assert (j = i) as -> by (destruct (lay_streams Hl) as (Hnd & _); by apply (NoDup_lookup ps j i p)).
        rewrite decide_False by done. exact (stream_holds p [] x st Hx).
      + apply (holds_stream q _ p x st Hqp). by apply (ring_bytes _ _ _ _ Hr). }
  destruct (hands_over k i us st1 s u p it Hl Hr1 Hi Hs Hu Hp Hc) as (st2 & i' & Hwt & Hi' & Hr2).
  destruct (Hwait false st2 Hwt) as [r Hstep].
  exists (User (code u) (data u) r (Some (ToRead p (buf s) 32))), st2, i'.
  split; [exact (steps_waits _ _ _ _ _ _ _ _ _ _ _ _ _ Hstep eq_refl)|]. split; [by eexists|].
  split; [exact Hi'|]. rewrite Hc. apply Hr2.
Qed.

(** A turn of the current station: it passes the message on or begins to wait
    for it. *)
Lemma ring_turn k i us st s st1 (d : D) :
  layout → ring k i us st → ss !! i = Some s → enters s st st1 →
  ∃ u u' st' k' i', us !! i = Some u ∧ steps 7 u st1 d = Ok (u', st', d) ∧ is_Some (waiting u') ∧
    (i' < length ss)%nat ∧ ring k' i' (<[i := u']> us) st' ∧
    (k' = Datatypes.S k ∨ k' = k ∧ waiting u = None).
Proof.
  intros Hl Hr Hs Hen. destruct (ring_enters k i us st s st1 Hl Hr Hen) as (Hr1 & Hws & y & Hy & Hroom).
  destruct (stream_of i s Hl Hs) as (p & Hp & _).
  destruct (ring_station _ _ _ _ Hr1 i s p Hs Hp) as (u & it & t & Hu & _ & _ & _ & _ & Hph).
  pose proof (lay_size Hl) as Hn. apply lookup_lt_Some in Hs as Hlt.
  destruct (decide (i = k mod length ss)%nat) as [Hi|Hi].
  - destruct (passes k i us st1 s u d y) as (n & r & iter & st2 & Hn6 & Hrun & Hr2 & Hbuf); try done.
    set (v := User (loop_of s iter) (data u) r None) in *.
    assert (Hv : <[i := v]> us !! i = Some v)
      by (apply list_lookup_insert_eq; by eapply lookup_lt_Some).
    destruct (turn_ends (Datatypes.S k) i (<[i := v]> us) st2 s v d (6 - n))
      as (u' & st' & i' & Hend & Hw' & Hi' & Hr'); try done.
    { destruct (next_index i (length ss) Hlt Hn) as [_ Hne]. intros He. apply Hne.
      transitivity (Datatypes.S k mod length ss)%nat; [|by symmetry].
      rewrite Hi. exact (Nat.Div0.add_mod_idemp_r 1 k (length ss)). }
    exists u, u', st', (Datatypes.S k), i'. split; [done|]. split.
    { replace 7%nat with (n + Datatypes.S (6 - n))%nat by lia. by rewrite Hrun. }
    rewrite list_insert_insert_eq in Hr'. do 3 (split; [done|]). by left.
  - destruct Hph as [Hw _|Hne|_ Hi' _ _]; [|done|done].
    destruct (turn_ends k i us st1 s u d 6 Hl Hr1 Hi Hs Hu Hw (proj1 Hws))
      as (u' & st' & i' & Hend & Hw' & Hi' & Hr').
    exists u, u', st', k, i'. do 5 (split; [done|]). by right.
Qed.

Lemma unwaited_turn us i u u' :
  us !! i = Some u → is_Some (waiting u') →
  unwaited us = (unwaited (<[i := u']> us) + if decide (waiting u = None) then 1 else 0)%nat.
Proof.
  intros Hu [w Hw]. unfold unwaited. revert i Hu.
  induction us as [|v us IH]; intros [|i] Hu; [done..| |].
  - injection Hu as ->. cbn [insert list_insert]. rewrite !filter_cons. rewrite (decide_False (P := waiting u' = None)) by congruence.
    repeat case_decide; cbn [length]; (congruence || lia).
  - change (<[Datatypes.S i := u']> (v :: us)) with (v :: <[i := u']> us).
    rewrite !filter_cons. specialize (IH i Hu). repeat case_decide; cbn [length]; (congruence || lia).
Qed.

Lemma ring_turns (d : D) n x z : turns d n x z → ∀ k i,
  layout → (i < length ss)%nat → ring k i x.1 x.2 →
  ∃ k' i', (i' < length ss)%nat ∧ ring k' i' z.1 z.2 ∧ (k ≤ k' ≤ k + n)%nat ∧
    (n + unwaited z.1 ≤ (k' - k) + unwaited x.1)%nat.
Proof.
  induction 1 as [x|n j s u u' us st st1 st' z Hcur Hs Hu Hen Hrun Hw _ IH]; intros k i Hl Hi Hr.
  { exists k, i. split; [done|]. split; [done|]. lia. }
  cbn [fst snd] in *.
  assert (j = i) as ->.
  { destruct (lookup_lt_is_Some_2 ss i Hi) as [s' Hs'].
    pose proof (ring_is_current k i us st s' Hl Hr Hs') as [_ Hc]. rewrite Hcur in Hc. injection Hc as Hc.
    destruct (decide (j = i)) as [|Hne]; [done|]. by destruct (threads_differ j i s s' Hl Hs Hs' Hne). }
  destruct (ring_turn k i us st s st1 d Hl Hr Hs Hen)
    as (v & v' & st2 & k1 & i1 & Hv & Hrun' & _ & Hi1 & Hr1 & Hk).
  rewrite Hu in Hv. injection Hv as <-. rewrite Hrun in Hrun'. injection Hrun' as <- <-.
  destruct (IH k1 i1 Hl Hi1 Hr1) as (k' & i' & Hi' & Hr' & Hb & Hm).
  exists k', i'. split; [done|]. split; [done|]. pose proof (unwaited_turn us i u u' Hu Hw) as Huw.
  destruct Hk as [->|[-> Hnone]]; [split; [lia|]|].
  - case_decide; lia.
  - rewrite decide_True in Huw by done. lia.
Qed.

Lemma turns_app (d : D) n x y z n' : turns d n x y → turns d n' y z → turns d (n + n') x z.
Proof. induction 1; intros Hz; [done|]. cbn [Nat.add]. eapply turns_next; try done. by apply IHturns. Qed.

(** ** Properties *)

(** C23. The token goes round.  The stations of a ring run on one processor:
    token_0 with its loop, the others with that of token_common.h.  One message is
    in the ring, in the stream of place [k].  A turn is what the current station
    does until it waits: with the message in its stream it passes it on (token_0
    also reports each 4096th message to the screen) and waits for the next one,
    otherwise it just waits; waiting gives the processor to another station, which
    goes on inside its read.  After any number [n] of turns the ring is as it was,
    with the one message [k' - k] places further, and all the turns passed it on
    but the first ones of stations that had not waited before; and the station
    that is current then has a next turn, whatever happened to its memory's other
    contents and to the screen's stream meanwhile. *)
Theorem token_ring (d : D) k i us (st : sys) :
  layout → (i < length ss)%nat → ring k i us st →
  ∀ n us' st', turns d n (us, st) (us', st') →
  ∃ k' i', (i' < length ss)%nat ∧ ring k' i' us' st' ∧ (k ≤ k' ≤ k + n)%nat ∧
    (n + unwaited us' ≤ (k' - k) + unwaited us)%nat ∧
    ∀ s st1, ss !! i' = Some s → enters s st' st1 →
      ∃ u u' st2, us' !! i' = Some u ∧ steps 7 u st1 d = Ok (u', st2, d) ∧
        turns d 1 (us', st') (<[i' := u']> us', st2).
Proof.
  intros Hl Hi Hr n us' st' Ht. destruct (ring_turns d n _ _ Ht k i Hl Hi Hr)
    as (k' & i' & Hi' & Hr' & Hb & Hm). cbn [fst snd] in *.
  exists k', i'. do 4 (split; [done|]). intros s st1 Hs Hen.
  destruct (ring_turn k' i' us' st' s st1 d Hl Hr' Hs Hen)
    as (u & u' & st2 & _ & _ & Hu & Hrun & Hw & _).
  exists u, u', st2. split; [done|]. split; [done|].
  destruct (ring_is_current k' i' us' st' s Hl Hr' Hs) as [_ Hcur].
  by eapply turns_next; [| | | | | |apply turns_none].
Qed.

End Stations.

(** ** A concrete ring *)

Definition token_text : list Z := [84; 79; 75; 69; 78; 33].
Definition token : list Z := token_text ++ 0 :: replicate 25 0.

(** token_0 in the process at 0x1000, token_1 in the one at 0x2000. *)
Definition two_stations : list station :=
  [Station 0x1000 50 0 0 0x600 (Starter 1 0x680 0x500 3); Station 0x2000 51 0 0 0x600 Passer].

Definition ring_memory : mem8 := Strings.with_str 0x500 report_format (Strings.blank 0x600 256).

(** token_0 has sent the message and is about to read, token_1 waits. *)
Definition ring_sched (m : Scheduler.lists) : Scheduler.kstate Scheduler.lists :=
  Scheduler.KState {[0 := Scheduler.Sched 100 50 0 0 1]} m
    {[50 := Thr 0x1000 2 0 0 0 0 0 0 NoEvent; 51 := Thr 0x2000 2 0 0 0 0 0 200 ReadEvent;
      100 := Thr 0x1000 4 0 0 0 0 0 0 NoEvent]}
    {[0 := Scheduler.Cpu 0 0 0 0]}
    (World 10 {[100 := Stream.stream_new; 300 := Stream.stream_new;
                200 := fst (Stream.stream_write token Stream.stream_new)]}
      {[0x1000 := with_iodescr {[0 := Stream.IOS 100 200; 1 := Stream.IOS 400 300]} (Process.blank_proc 1);
        0x2000 := with_iodescr {[0 := Stream.IOS 200 100]} (Process.blank_proc 2)]}).

Definition ring_state (m : Scheduler.lists) : sys (F := Palloc.palloc) (M := Scheduler.lists) :=
  Sys (ring_sched m) ∅ 0 (Process.heap_of Kmalloc.allocator0) ring_memory Interrupts.state0 ∅
    Screen.screen0.

Definition ring_users : list (user unit) :=
  [User (Token.pass0 200 1 3 0 0 0x600 0x500 0x680 0) tt (Syscall.call_regs 0 0 0 0) None;
   User (Token.pass 0 0 0x600) tt (Syscall.call_regs 0 0 0 0) (Some (ToRead 200 0x600 32))].

(** A queue with the thread of token_1 that was used before. *)
Lemma ring_lists : ∃ m : Scheduler.lists, qok m ∧ qspare (0, 2) m = true ∧
  ∀ j, qitems m j = if decide (j = (0, 2)) then [51] else [].
Proof.
  destruct (Scheduler.lists_with (0, 2) [50; 51]) as (m & Hok & Hi); [by repeat constructor|done|].
  destruct (qpop_spec (0, 2) m Hok) as (m' & Hp & Hok' & Hi').
  rewrite Hi, decide_True in Hp by done. exists m'. split; [done|].
  split; [exact (qpop_spare _ _ _ _ Hp ltac:(discriminate))|].
  intros j. rewrite Hi'. rewrite !Hi. repeat case_decide; try done.
Qed.

Lemma ring_memory_ok s : s ∈ two_stations → workspace s ring_memory.
Proof.
  assert (Hw : Strings.writable ring_memory 0x600 256).
  { intros x Hx. unfold ring_memory. rewrite Strings.with_str_changed.
    - apply (Strings.blank_writable 0x600 256). lia.
    - unfold report_format. cbn. lia. }
  assert (Hf : Strings.cstr ring_memory 0x500 report_format).
  { apply Strings.with_str_cstr. repeat constructor; done. }
  intros Hs. repeat (apply elem_of_cons in Hs as [->|Hs]); [| |by apply not_elem_of_nil in Hs].
  - split; [eapply Strings.writable_sub; [exact Hw|cbn; lia|cbn; lia]|]. cbn [does buf].
    split; [exact Hf|]. split; [eapply Strings.writable_sub; [exact Hw|lia|lia]|].
    split; [lia|]. split; (left; unfold report_format; cbn; lia).
  - split; [eapply Strings.writable_sub; [exact Hw|cbn; lia|cbn; lia]|done].
Qed.

Lemma two_layout : layout 9 200 300 2 two_stations [100; 200] token.
Proof.
  split.
  - split; [reflexivity|]. repeat constructor; done.
  - exists token_text, (replicate 25 0). split; [reflexivity|]. split; [repeat constructor; done|].
    cbn. lia.
  - split; [apply (bool_decide_unpack _); by vm_compute|]. split; [reflexivity|].
    split; apply (bool_decide_unpack _); by vm_compute.
  - apply (bool_decide_unpack _). by vm_compute.
  - cbn. lia.
  - done.
  - cbn. lia.
Qed.

Lemma ring_sched_wf m :
  qok m → (∀ j, qitems m j = if decide (j = (0, 2)) then [51] else []) →
  Scheduler.sched_wf 0 (ring_sched m).
Proof.
  intros Hok Hi.
  assert (Hq : ∀ p, Scheduler.queue (ring_sched m) 0 p = if decide (p = 2) then [51] else []).
  { intros p. unfold Scheduler.queue. cbn [ring_sched Scheduler.queues]. rewrite Hi.
    repeat case_decide; naive_solver. }
  split.
  - done.
  - exact Hok.
  - by rewrite Hq.
  - split; [done|]. exists 4. eexists. split; [reflexivity|]. split; [done|].
    split; [by eexists|]. by exists true.
  - intros x [= <-]. done.
  - split; [done|]. right. exists 2. split; [done|]. eexists. split; [reflexivity|]. split; [done|].
    split; [by eexists|]. by exists true.
  - intros p t Hp Ht. rewrite Hq in Ht. case_decide as Hp2; [|by apply not_elem_of_nil in Ht].
    apply list_elem_of_singleton in Ht as ->. split; [done|]. eexists. split; [reflexivity|].
    split; [done|]. split; [by eexists|]. exists true. by vm_compute.
  - assert (Hc : Scheduler.cpu_threads 0 (ring_sched m) = [51; 50]).
    { unfold Scheduler.cpu_threads, Scheduler.queued. change (seqZ 0 MAX_PRIORITY) with [0; 1; 2; 3; 4].
      cbn [flat_map]. rewrite !Hq. reflexivity. }
    rewrite Hc. done.
  - done.
Qed.

Lemma two_ring m :
  qok m → qspare (0, 2) m = true →
  (∀ j, qitems m j = if decide (j = (0, 2)) then [51] else []) →
  ring 0 200 300 2 two_stations [100; 200] token 1 0 ring_users (ring_state m).
Proof.
  intros Hok Hsp Hi. split.
  - intros [|[|j]] s p; [| |done]; intros [= <-] [= <-].
    + eexists _, 0, _. split; [reflexivity|]. split; [reflexivity|]. split; [reflexivity|].
      do 2 (split; [done|]). by apply fresh.
    + eexists _, 0, _. split; [reflexivity|]. split; [reflexivity|]. split; [reflexivity|].
      do 2 (split; [done|]). by apply waits.
  - intros [|[|j]] s p o; [| |done]; intros [= <-] [= <-] [= <-];
      (split; eexists; (split; [reflexivity|split; [split; [discriminate|reflexivity]|reflexivity]])).
  - intros [|[|j]] s sc msg fmt start; [| |done]; intros [= <-]; [|done]. intros [= <- _ _ _].
    eexists. split; [reflexivity|]. split; [split; [discriminate|reflexivity]|reflexivity].
  - intros [|[|j]] p; [| |done]; intros [= <-].
    + exists Stream.stream_new. split; [reflexivity|exact Stream.ring_rep_new].
    + destruct (Stream.stream_write_ring token Stream.stream_new [] Stream.ring_rep_new)
        as (s' & Hs & Hr).
      exists s'. split; [|exact Hr].
      change (Some (fst (Stream.stream_write token Stream.stream_new)) = Some s'). by rewrite Hs.
  - by apply ring_sched_wf.
  - by intros s [= <-].
  - done.
  - change (50 :: qitems m (0, 2) ≡ₚ [50; 51]). by rewrite Hi.
  - intros p Hp Hne. change (qitems m (0, p) = []). rewrite Hi, decide_False by naive_solver. done.
  - exact Hsp.
Qed.

(** Two turns: token_0 waits, and token_1 passes the message on. *)
Lemma token_ring_witness :
  ∃ m k i us st, turns 0xC000 9 0 0 0 300 two_stations tt 2 (ring_users, ring_state m) (us, st) ∧
    ring 0 200 300 2 two_stations [100; 200] token k i us st ∧ (k = 2 ∨ k = 3)%nat.
Proof.
  destruct ring_lists as (m & Hok & Hsp & Hi). pose proof (two_ring m Hok Hsp Hi) as Hr.
  assert (Hin : ∀ i s, two_stations !! i = Some s → workspace s ring_memory).
  { intros i s Hs. apply ring_memory_ok. by apply list_elem_of_lookup_2 with i. }
  assert (Hen : ∀ i s (st : sys (F := Palloc.palloc) (M := Scheduler.lists)), two_stations !! i = Some s →
    enters 300 s st (set_memory (mem st) ring_memory (set_stream 300 Stream.stream_new st))).
  { intros i s st Hs. exists ring_memory, Stream.stream_new, []. split; [reflexivity|].
    split; [by eapply Hin|]. split; [exact Stream.ring_rep_new|]. cbn. lia. }
  pose proof (λ n us st, token_ring 0xC000 9 0 0 0 200 300 2 two_stations [100; 200] token tt 1 0
    ring_users (ring_state m) two_layout (Nat.lt_0_succ 1) Hr n us st) as Hring.
  destruct (Hring 0%nat ring_users (ring_state m)) as (k0 & i0 & Hi0 & _ & _ & _ & Hnext0);
    [apply turns_none|].
  destruct (lookup_lt_is_Some_2 two_stations i0 Hi0) as [s0 Hs0].
  destruct (Hnext0 s0 _ Hs0 (Hen i0 s0 _ Hs0)) as (u0 & v0 & st1 & _ & _ & Ht1).
  destruct (Hring 1%nat _ st1 Ht1) as (k1 & i1 & Hi1 & _ & _ & _ & Hnext1).
  destruct (lookup_lt_is_Some_2 two_stations i1 Hi1) as [s1 Hs1].
  destruct (Hnext1 s1 _ Hs1 (Hen i1 s1 _ Hs1)) as (u1 & v1 & st2 & _ & _ & Ht2).
  pose proof (turns_app _ _ _ _ _ _ _ _ _ _ _ _ _ Ht1 Ht2) as Ht.
  destruct (Hring 2%nat _ st2 Ht) as (k2 & i2 & Hi2 & Hr2 & Hb & Hm & _).
  exists m, k2, i2. eexists _, st2. split; [exact Ht|]. split; [exact Hr2|].
  change (unwaited ring_users) with 1%nat in Hm. lia.
Defined.

End Ring.
