(* ===== verification/Servers.v ===== *)
(** The screen server at work (userspace/srv_screen.c on the kernel).

    One turn of the server's loop, from the bytes a client wrote to its stream
    to the cells of the screen: SYSCALL_SELECT, SYSCALL_READ, [kprintf] and
    [screen_putstr] run after each other by [step] of Programs.v. *)

From Stdlib Require Import ZArith Lia.
From stdpp Require Import base option list gmap.
From ITree Require Import Core.ITreeDefinition.
From S2P Require Import Prelude Interfaces Palloc Kmalloc Strings Stream Timer Thread Scheduler Screen Utils.
From S2P Require Import Interrupts Process System Drivers Syscall Libc SrvScreen Programs.

Module Servers.
Import Libc Thread System Drivers Programs.

Lemma serve_shape fuel fmt msg buf iter :
  ∃ k1 k2 k3 k4,
    observe (SrvScreen.serve fuel fmt msg buf iter)
      = VisF (Int80 Syscall.SYSCALL_SELECT None None None) k1 ∧
    (∀ i, observe (k1 i)
      = VisF (Int80 Syscall.SYSCALL_READ (Some (u32 i)) (Some msg) (Some 64)) (k2 i)) ∧
    (∀ i x, observe (k2 i x) = VisF (Run (λ s m,
      '(r, m) ← Utils.kprintf fuel m buf fmt [u32 (s32 (iter + 1)); msg]; Ok (r, s, m)))
      (k3 i x)) ∧
    (∀ i x y, observe (k3 i x y) = VisF (Run (λ s m,
      s ← SrvScreen.screen_putstr fuel m buf s; Ok (tt, s, m))) (k4 i x y)) ∧
    ∀ i x y z, observe (k4 i x y z) = TauF (SrvScreen.serve fuel fmt msg buf (s32 (iter + 1))).
Proof.
  do 4 eexists. split; [|split; [|split; [|split]]].
  - unfold SrvScreen.serve, forever, Libc.select. shape. reflexivity.
  - intros i. shape. unfold Libc.read. shape. reflexivity.
  - intros i x. shape. unfold kprintf. shape. reflexivity.
  - intros i x y. shape. unfold SrvScreen.put_text. shape. reflexivity.
  - intros i x y z. shape. reflexivity.
Qed.

Section Serving.
Context {S : Type} {F : Type} `{FrameAlloc F} {M : Type} `{QueueStore (Z * Z) M}.
Context {D : Type} `{Ports D} (resume : Z) (fuel : nat) (exit_buf exit_fmt : Z) (c : Z).
Notation sys := (sys (F := F) (M := M)).
Notation step := (step resume fuel exit_buf exit_fmt c).

(** A SYSCALL_SELECT finds the first descriptor with bytes to read. *)
Lemma step_select (u : user S) (st : sys) (d : D) k proc th i p q :
  waiting u = None → observe (code u) = VisF (Int80 Syscall.SYSCALL_SELECT None None None) k →
  Syscall.current c proc th st → reads st proc i p → p ≠ 0 →
  (∀ j, 0 ≤ j < i → ∃ x, x ≠ 0 ∧ reads st proc j x ∧ holds st x []) →
  holds st p q → (0 < length q)%nat →
  ∃ r, step u st d = Ok (User (k i) (data u) r None, st, d).
Proof.
  intros Hw Ho Hcur (pr & Hp & Hi & Hin) Hp0 Hbefore (s & Hs & Hring) Hq.
  assert (Hb : Stream.MAX_DESCRIPTORS < 2 ^ 31) by reflexivity.
  assert (Hsel : Stream.iostream_select (streams_of st) (iodescr pr) = Ok i).
  { apply (Stream.select_from_first _ _ i s); [reflexivity|lia|lia| |by rewrite Hin|by rewrite Hin|].
    - intros j Hj. destruct (Hbefore j Hj) as (x & Hx & (pr' & Hp' & _ & Hinj) & t & Ht & Hr).
      rewrite Hp in Hp'. injection Hp' as <-. rewrite Hinj. split; [done|]. exists t.
      split; [done|]. by destruct (Stream.ring_rep_length t [] Hr) as [-> _].
    - destruct (Stream.ring_rep_length s q Hring) as [-> _]. lia. }
  set (r := set_args Syscall.SYSCALL_SELECT None None None (regs u)).
  assert (Hcall : Syscall.select_call resume fuel c proc th st = Ok (Returns i, st)).
  { unfold Syscall.select_call, get_process, get_proc. unfold procs_of in Hp. rewrite Hp.
    cbn [mbind res_bind]. rewrite (bind_ok _ _ _ Hsel). by rewrite bool_decide_true by lia. }
  assert (Hrun : Syscall.syscall resume fuel exit_buf exit_fmt c r st
    = Ok (Returns (Syscall.set_eax i r), st)).
  { exact (Syscall.syscall_run _ _ _ _ _ _ _ r st (Returns i) st Hcur Hcall). }
  exists (Syscall.set_eax i r).
  rewrite (step_call _ _ _ _ _ _ _ _ _ _ _ _ _ _ _ Hw Ho Hrun).
  change (Interrupts.eax (Syscall.set_eax i r)) with (u32 i).
  by rewrite u32_small, s32_small by lia.
Qed.

End Serving.

(** What the server prints for message number [n] with the text [text]. *)
Definition line (n : Z) (text out : list Z) : Prop :=
  ∃ num, Strings.numeral 16 n num ∧ out = [48; 120] ++ num ++ [58] ++ text ++ [10].

(** The format of the server, "%x:%s\n", and what has to hold of the buffers of
    its main function. *)
Definition serve_format : list Z := [37; 120; 58; 37; 115; 10].

Record buffers (fmt msg buf : Z) (m : mem8) : Prop := {
  bf_fmt : Strings.cstr m fmt serve_format;
  bf_msg : Strings.writable m msg 64;
  bf_buf : Strings.writable m buf 128;
  bf_apart : msg + 64 ≤ buf ∨ buf + 128 ≤ msg;
  bf_fmt_msg : Strings.outside fmt serve_format msg 64;
  bf_fmt_buf : Strings.outside fmt serve_format buf 128
}.

(** A message in memory is printed as its line. *)
Lemma print_line fuel fmt msg buf n text m :
  buffers fmt msg buf m → Strings.cstr m msg text → (length text < 64)%nat → 0 ≤ n < 2 ^ 32 →
  (70 < fuel)%nat →
  ∃ m' out, Utils.kprintf fuel m buf fmt [n; msg] = Ok (buf, m') ∧ line n text out ∧
    Strings.cstr m' buf out ∧ (length out ≤ 75)%nat ∧ Strings.changed buf 128 m m'.
Proof.
  intros [Hf Hm Hb Ha Hfm Hfb] Ht Hl Hn Hfuel.
  set (ps := [Strings.Hex n; Strings.Lit 58; Strings.Str msg text; Strings.Lit 10]).
  assert (Hroom : Strings.room ps = Z.of_nat (length text) + 12).
  { unfold ps, Strings.room. cbn [foldr Strings.room_of]. lia. }
  assert (Hok : Forall Strings.piece_ok ps).
  { apply Strings.cstr_bytes in Ht as (_ & Hc & _).
    repeat constructor; try exact Hc; unfold Strings.char_ok; lia. }
  destruct (Strings.kprintf_ok fuel (Datatypes.S (length text)) m buf fmt ps)
    as (m' & outs & Hk & Hp & Hlen & Hby & Hsame); [exact Hok|exact Hf| | | |simpl; lia|].
  { rewrite Hroom. eapply Strings.writable_sub; [exact Hb|lia|lia]. }
  { rewrite Hroom. change (concat (Strings.format_of <$> ps)) with serve_format.
    unfold Strings.outside, serve_format in *. cbn [length] in *. lia. }
  { rewrite Hroom. unfold ps. rewrite !Forall_cons. split; [exact I|]. split; [exact I|].
    split; [|split; [exact I|by constructor]].
    split; [exact Ht|]. split; [unfold Strings.outside; lia|lia]. }
  exists m', (concat outs). split; [exact Hk|]. split; [|split; [|split]].
  - unfold ps in Hp. repeat match goal with
      | H : Forall2 _ (_ :: _) _ |- _ => apply Forall2_cons_inv_l in H as (? & ? & ? & H & ->)
      | H : Forall2 _ [] _ |- _ => apply Forall2_nil_inv_l in H as ->
      end.
    cbn [Strings.prints] in *. destruct_and?. subst.
    match goal with H : ∃ _, _ |- _ => destruct H as (num & -> & Hnum) end.
    exists num. split; [exact Hnum|]. by cbn.
  - apply Strings.cstr_bytes. apply Strings.bytes_app in Hby as [Hby [H0 _]].
    split; [exact Hby|]. split; [by apply (Strings.all_prints_chars ps)|exact H0].
  - rewrite Hroom in Hlen. lia.
  - eapply Strings.changed_widen; [exact Hsame|lia|lia].
Qed.

Lemma buffers_changed fmt msg buf m m' p k :
  buffers fmt msg buf m → Strings.outside fmt serve_format p k → Strings.changed p k m m' →
  buffers fmt msg buf m'.
Proof.
  intros [Hf Hm Hb Ha Hfm Hfb] Ho Hc. split; [|by eapply Strings.writable_changed..|done|done|done].
  by eapply Strings.cstr_changed.
Qed.

(** ** Properties *)

(** C33. The screen server shows what a client sent.  Let descriptor [i] be the
    first of the server's descriptors whose stream is not empty, and let that
    stream begin with 64 bytes that hold the zero-terminated [text].  One turn of
    the server's loop takes these 64 bytes and shows the number of the message in
    hexadecimal, a colon, the text and a line feed: every character is put into
    the cell of the cursor in the style of the screen, the cursor moves on, and
    the other cells keep what they show until the screen scrolls.  Nothing is
    written outside the screen, the streams of the others are as before, and the
    server is ready for the next message. *)
Theorem server_turn `{FrameAlloc F} `{QueueStore (Z * Z) M} `{Ports D}
    resume fuel exit_buf exit_fmt c lfuel fmt msg buf iter (u : user Screen.screen)
    (st : sys (F := F) (M := M)) (d : D) proc th i p q text rest :
  waiting u = None → code u = SrvScreen.serve lfuel fmt msg buf iter →
  0 ≤ iter < 2 ^ 31 - 1 → Screen.on_screen (Screen.cur_x (data u)) (Screen.cur_y (data u)) →
  Syscall.current c proc th st → reads st proc i p → p ≠ 0 →
  (∀ j, 0 ≤ j < i → ∃ x, x ≠ 0 ∧ reads st proc j x ∧ holds st x []) →
  holds st p q → (64 ≤ length q)%nat →
  u8 <$> take 64 q = text ++ 0 :: rest → Forall Strings.char_ok text →
  buffers fmt msg buf (bytes st) → (80 < lfuel)%nat →
  ∃ r s' st' out,
    steps resume fuel exit_buf exit_fmt c 5 u st d
      = Ok (User (SrvScreen.serve lfuel fmt msg buf (iter + 1)) s' r None, st', d) ∧
    line (iter + 1) text out ∧ SrvScreen.shown out (data u) s' ∧
    Screen.on_screen (Screen.cur_x s') (Screen.cur_y s') ∧
    Screen.within (Screen.SCREEN_HEIGHT * Screen.SCREEN_WIDTH) (data u) s' ∧
    holds st' p (drop 64 q) ∧ (∀ x y, x ≠ p → holds st x y → holds st' x y) ∧
    procs_of st' = procs_of st ∧ buffers fmt msg buf (bytes st').
Proof.
  intros Hw Hcode Hiter Hcur0 Hcur Hrd Hp0 Hbefore Hq Hlen Htext Hchars Hbuf Hfuel.
  destruct (serve_shape lfuel fmt msg buf iter) as (k1 & k2 & k3 & k4 & Hk1 & Hk2 & Hk3 & Hk4 & Hk5).
  rewrite <- Hcode in Hk1. rewrite (s32_small (iter + 1)) in Hk3, Hk5 by lia.
  rewrite u32_small in Hk3 by lia.
  destruct (step_select resume fuel exit_buf exit_fmt c u st d k1 proc th i p q)
    as [r1 Hs1]; try done; [lia|].
  rewrite (steps_S _ _ _ _ _ _ _ _ _ _ _ _ Hs1 eq_refl).
  destruct (step_read resume fuel exit_buf exit_fmt c (User (k1 i) (data u) r1 None) st d i msg 64
    (k2 i) proc th p q) as (s & r2 & m & Hs2 & Hring & Hby & Hch);
    [done|apply Hk2|done|done|done|exact (bf_msg _ _ _ _ Hbuf)|lia|].
  rewrite (steps_S _ _ _ _ _ _ _ _ _ _ _ _ Hs2 eq_refl).
  set (st1 := set_memory (mem st) m (set_stream p s st)) in *.
  assert (Hbuf1 : buffers fmt msg buf m).
  { eapply buffers_changed; [exact Hbuf|exact (bf_fmt_msg _ _ _ _ Hbuf)|exact Hch]. }
  rewrite Htext in Hby. apply Strings.bytes_app in Hby as [Hby [Hz _]].
  assert (Hl : (length text < 64)%nat).
  { apply (f_equal length) in Htext. rewrite length_fmap, length_take_le, length_app in Htext by lia.
    cbn [length] in Htext. lia. }
  assert (Hc : Strings.cstr m msg text) by (apply Strings.cstr_bytes; done).
  destruct (print_line lfuel fmt msg buf (iter + 1) text m) as (m' & out & Hpr & Hline & Hout & Ho & Hch2);
    [done|done|done|lia|lia|].
  erewrite steps_S; [|eapply step_run; [reflexivity|apply Hk3|]|reflexivity].
  2: { change (bytes st1) with m. cbv beta. rewrite (bind_ok _ _ _ Hpr). reflexivity. }
  destruct (SrvScreen.shown_putstr lfuel m' buf out (data u)) as (s' & Hput & Hs' & Hon & Hwi);
    [done|done|lia|].
  erewrite steps_S; [|eapply step_run; [reflexivity|apply Hk4|]|reflexivity].
  2: { cbn [data].
       change (bytes (set_memory (mem st1) m' st1)) with m'. cbv beta. rewrite (bind_ok _ _ _ Hput). reflexivity. }
  erewrite steps_S; [|eapply step_tau; [reflexivity|apply Hk5]|reflexivity].
  eexists _, s', _, out. split; [reflexivity|]. split; [exact Hline|]. split; [exact Hs'|].
  split; [exact Hon|]. split; [exact Hwi|]. split; [exact (stream_holds p _ s st Hring)|].
  split; [intros x y Hx Hxy; by apply (holds_stream x y p s st)|]. split; [reflexivity|].
  eapply buffers_changed; [exact Hbuf1|exact (bf_fmt_buf _ _ _ _ Hbuf)|exact Hch2].
Qed.

(** ** A concrete run *)

(** The message "OK" in 64 bytes. *)
Definition ok_message : list Z := [79; 75] ++ 0 :: replicate 61 0.

Definition ok_stream : Stream.stream := fst (Stream.stream_write ok_message Stream.stream_new).

(** The server is the first process of [demo] and has two clients; the second
    one has sent the message. *)
Definition serve_demo : sys (F := Palloc.palloc) (M := Scheduler.lists) :=
  set_stream 100 ok_stream (set_stream 300 Stream.stream_new
    (set_process 0x1000
      (with_iodescr {[0 := Stream.IOS 300 400; 1 := Stream.IOS 100 200]} (Process.blank_proc 1))
      (demo Kmalloc.allocator0 serve_format))).

Definition serve_user : user Screen.screen :=
  User (SrvScreen.serve 100 0x500 0xC3000000 0xC3000100 6) Screen.screen0
    (Syscall.call_regs 0 0 0 0) None.

Lemma serve_demo_stream : holds serve_demo 100 ok_message.
Proof.
  destruct (Stream.stream_write_ring ok_message Stream.stream_new [] Stream.ring_rep_new)
    as (s & Hs & Hr).
  exists ok_stream. split; [reflexivity|]. unfold ok_stream. rewrite Hs. exact Hr.
Qed.

Lemma serve_demo_empty : holds serve_demo 300 [].
Proof. exists Stream.stream_new. split; [reflexivity|exact Stream.ring_rep_new]. Qed.

Lemma serve_demo_buffers : buffers 0x500 0xC3000000 0xC3000100 (bytes serve_demo).
Proof.
  unfold serve_demo. generalize ok_stream. intros s.
  assert (Hf : Strings.cstr (demo_bytes serve_format) 0x500 serve_format).
  { apply Strings.with_str_cstr. repeat constructor; done. }
  assert (Hw : Strings.writable (demo_bytes serve_format) 0xC3000000 32768).
  { apply demo_heap_bytes. simpl. lia. }
  change (bytes (set_stream 100 s (set_stream 300 _ _))) with (demo_bytes serve_format).
  revert Hf Hw. generalize (demo_bytes serve_format). intros m Hf Hw.
  split; [exact Hf| | |lia| |]; try (unfold Strings.outside, serve_format; cbn; lia);
    (eapply Strings.writable_sub; [exact Hw|lia|lia]).
Qed.

Lemma server_turn_witness :
  ∃ r st' s' out, line 7 [79; 75] out ∧ SrvScreen.shown out Screen.screen0 s' ∧
    steps 0xC000 9 0 0 0 5 serve_user serve_demo tt
      = Ok (User (SrvScreen.serve 100 0x500 0xC3000000 0xC3000100 7) s' r None, st', tt).
Proof.
  destruct (server_turn 0xC000 9 0 0 0 100 0x500 0xC3000000 0xC3000100 6 serve_user serve_demo tt
    0x1000 50 1 100 ok_message [79; 75] (replicate 61 0)) as (r & s' & st' & out & Hs & Hl & Hshown & _).
  - reflexivity.
  - reflexivity.
  - lia.
  - split; split; first [discriminate|reflexivity].
  - split; reflexivity.
  - eexists. split; [reflexivity|]. split; [split; [discriminate|reflexivity]|reflexivity].
  - discriminate.
  - intros j Hj. assert (j = 0) as -> by lia. exists 300. split; [discriminate|]. split.
    + eexists. split; [reflexivity|]. split; [split; [discriminate|reflexivity]|reflexivity].
    + exact serve_demo_empty.
  - exact serve_demo_stream.
  - apply Nat.leb_le. reflexivity.
  - reflexivity.
  - repeat constructor; done.
  - exact serve_demo_buffers.
  - lia.
  - exists r, st', s', out. exact (conj Hl (conj Hshown Hs)).
Defined.

End Servers.
