(* ===== verification/Dirs.v ===== *)
(** Page directories side by side (kernel/paging.c).

    Which addresses a directory takes for one page ([same_page]: the kernel's
    first table is in two of its entries), [paging_map] page by page, and two
    directories of which one is loaded: what the code does with that one leaves
    the other usable and its translations in place ([two_dirs] of Paging.v,
    [carried]). *)

From Stdlib Require Import ZArith Lia.
From stdpp Require Import base option list gmap.
From S2P Require Import Prelude Interfaces Locks Palloc Strings Paging Kmalloc Memory.

Module Dirs.
Import Paging.

(** ** Pages *)

(** An address below the recursive window. *)
Definition ordinary (va : Z) : Prop := 0 ≤ va < 2 ^ 32 ∧ page_dir_index va < 1023.

(** The addresses of one page: the same entry of the same table. *)
Definition same_page (canon : Z → Z) (va vb : Z) : Prop :=
  canon (page_dir_index va) = canon (page_dir_index vb) ∧
  page_table_index va = page_table_index vb.

#[export] Instance same_page_dec canon va vb : Decision (same_page canon va vb).
Proof. unfold same_page. apply _. Defined.

(** Without sharing these are the addresses with the same page number. *)
Lemma same_page_id va vb :
  ordinary va → ordinary vb → same_page id va vb ↔ va / 4096 = vb / 4096.
Proof.
  intros [Hva _] [Hvb _]. unfold same_page, id. rewrite !page_dir_index_eq, !page_table_index_eq.
  split; [intros [H1 H2]|intros H1; split]; dlia.
Qed.

Section Pages.
Context {F : Type} `{FrameAlloc F} (canon : Z → Z).
Implicit Types s : mm F.

(** An entry translates one page. *)
Lemma slot_page s va vb :
  paging_inv s → shared_as canon s → ordinary va → ordinary vb → slot s vb ≠ None →
  slot s va = slot s vb ↔ same_page canon va vb.
Proof.
  intros Hs [Hu Hpr] [Hva Hda] [Hvb Hdb] Hsl. destruct (index_bounds va Hva) as [Ha _].
  destruct (index_bounds vb Hvb) as [Hb _].
  assert (Hpres : ∀ v, slot s v ≠ None → present (pde s (page_dir_index v)) = true).
  { intros v. unfold slot. by destruct (present _). }
  assert (Hpb := Hpres vb Hsl). split.
  - intros Heq. assert (Hpa : present (pde s (page_dir_index va)) = true) by (apply Hpres; by rewrite Heq).
    destruct (slot_inj s va vb) as [Hf Ht];
      [done|done|by apply pde_range|by apply pde_range|done|by rewrite Heq|].
    split; [|done]. by apply Hu; [lia|lia|..].
  - intros [Hc Ht].
    assert (Hpa : present (pde s (page_dir_index va)) = true).
    { destruct (decide (page_dir_index va = page_dir_index vb)) as [->|Hne]; [done|].
      by apply (Hpr _ (page_dir_index vb)); [lia|lia|..]. }
    unfold slot. rewrite Hpa, Hpb, Ht.
    by rewrite (proj2 (Hu (page_dir_index va) (page_dir_index vb) ltac:(lia) ltac:(lia) Hpa Hpb) Hc).
Qed.

End Pages.

(** ** Two directories *)

Section Two.
Context {F : Type} `{FrameAlloc F}.
Implicit Types s : mm F.

Notation other n s := (page_dir_switch (PAGE_SIZE * n) s).

(** Either may be the loaded one. *)
Lemma two_dirs_switch s n k :
  cr3 s = PAGE_SIZE * k → 0 ≤ k < PAGES → two_dirs s n → two_dirs (other n s) k.
Proof.
  intros Hc Hk [Hi Ho (Hn & Hnf & Hnd & Hnt) Ha].
  destruct (frame_addr k Hk) as (_ & Hkfr & Hkd), (frame_addr n Hn) as (_ & Hnfr & _).
  assert (Hback : other k (other n s) = s) by (destruct s as [r c f]; cbn in Hc |- *; by rewrite Hc).
  split; [done|by rewrite Hback| |].
  - split; [done|]. split; [|split].
    + pose proof (inv_dir s Hi) as Hd. rewrite Hc, Hkfr, Hkd in Hd. exact Hd.
    + cbn [cr3 page_dir_switch]. rewrite Hnfr. rewrite Hc, Hkfr in Hnd. congruence.
    + intros j Hj Hp. rewrite <- Hkfr, <- Hc. by apply Ha.
  - rewrite Hback. cbn [cr3 page_dir_switch]. rewrite Hnfr. exact Hnt.
Qed.

(** A change of the loaded directory that leaves the other one's frame alone. *)
Lemma two_dirs_step s s' n :
  two_dirs s n → paging_inv s' → foreign s' n → cr3 s' = cr3 s →
  (∀ r, frame_free (frames s') r → frame_free (frames s) r) →
  (∀ k, 0 ≤ k < 1024 → ld (ram s') (PAGE_SIZE * n + 4 * k) = ld (ram s) (PAGE_SIZE * n + 4 * k)) →
  two_dirs s' n.
Proof.
  intros [Hi Ho (Hn & Hnf & Hnd & Hnt) Ha] Hi' Hf' Hc Hfree Hld.
  destruct (frame_addr n Hn) as (Hnb & Hnfr & Hndiv).
  assert (Hp : ∀ k, 0 ≤ k < 1024 → pde (other n s') k = pde (other n s) k).
  { intros k Hk. unfold pde. cbn [ram cr3 page_dir_switch]. rewrite Hnfr. by apply Hld. }
  split; [done| |done|].
  - destruct Ho as [Hw Hcr Hself Ht Hd Hfr]. destruct Hi' as [Hw' _ _ _ _ Hfr'].
    split; cbn [ram cr3 frames page_dir_switch]; try done.
    + by rewrite Hp by lia.
    + intros k Hk. rewrite Hp by lia. intros Hpr. destruct (Ht k Hk Hpr) as [H1 H2].
      split; [done|]. intros Hff. by apply H2, Hfree.
    + intros Hff. by apply Hd, Hfree.
  - intros k Hk. rewrite Hp, Hc by lia. by apply Ha.
Qed.

Lemma alloc_two s s' q n :
  two_dirs s n → paging_inv s' → ram s' = ram s → cr3 s' = cr3 s →
  (∀ r, frame_free (frames s') r ↔ frame_free (frames s) r ∧ r ≠ q) → two_dirs s' n.
Proof.
  intros Htd Hi Hr Hc Hfree.
  apply (two_dirs_step s); [done|done| |done|by intros r [? _]%Hfree|by rewrite Hr].
  destruct (td_foreign _ _ Htd) as (Hn & Hnf & Hnd & Hnt).
  split; [done|]. split; [rewrite Hfree; tauto|]. split; [by rewrite Hc|].
  intros k Hk. unfold pde. rewrite Hr, Hc. by apply Hnt.
Qed.

Lemma two_dirs_alloc s n p :
  two_dirs s n → frame_free (frames s) p →
  ∃ q s', alloc_frame s = Ok (PAGE_SIZE * q, s') ∧ frame_free (frames s) q ∧ two_dirs s' n ∧
    foreign s' q ∧ ram s' = ram s ∧ cr3 s' = cr3 s ∧ kept 1 s s' ∧
    (∀ r, frame_free (frames s') r ↔ frame_free (frames s) r ∧ r ≠ q).
Proof.
  intros Htd Hp. destruct (inv_alloc_frame s p (td_inv _ _ Htd) Hp)
    as (q & s' & Ha & Hqf & Hi & Hq & Hr & Hc & Hfree).
  exists q, s'. split; [done|]. split; [done|]. split; [by apply (alloc_two s s' q)|].
  split; [done|]. split; [done|]. split; [done|]. split; [by eapply kept_alloc|done].
Qed.

Lemma two_dirs_map s s' n virt phys flags :
  two_dirs s n → ordinary virt → 0 ≤ phys < 2 ^ 32 → (∃ p, frame_free (frames s) p) →
  paging_map virt phys flags s = Ok s' → two_dirs s' n.
Proof.
  intros Htd [Hv Hi] Hp Hfree Heq. pose proof (td_inv _ _ Htd) as Hs.
  destruct (paging_map_walk s virt phys flags Hs Hv Hi Hp (or_intror Hfree))
    as (s2 & Heq2 & Hi' & Hc & _). assert (s2 = s') as -> by congruence.
  destruct (paging_map_foreign s s' virt phys flags n Hs Hv Hi Hp (or_intror Hfree) Heq
    (td_foreign _ _ Htd)) as (Hf' & Hld & _ & _).
  pose proof (kept_map s s' virt phys flags Hs Hv Hi Hp (or_intror Hfree) Heq) as Hk.
  by apply (two_dirs_step s); [..|exact (kept_free _ _ _ Hk)|].
Qed.

(** A page mapped where the loaded directory had nothing keeps what the other
    one translates. *)
Lemma map_other s s' n virt phys flags va pa :
  two_dirs s n → ordinary virt → 0 ≤ phys < 2 ^ 32 → (∃ p, frame_free (frames s) p) →
  paging_map virt phys flags s = Ok s' → walk (ram s) (cr3 s) virt = None → ordinary va →
  walk (ram s) (PAGE_SIZE * n) va = Some pa → walk (ram s') (PAGE_SIZE * n) va = Some pa.
Proof.
  intros Htd [Hv Hi] Hp Hfree Heq Hnone [Hva Hda] Hw. pose proof (td_inv _ _ Htd) as Hs.
  destruct (present (pde s (page_dir_index virt))) eqn:He.
  - destruct (paging_map_ok s virt phys flags Hs Hv Hi Hp (or_introl He))
      as (s1 & s2 & a & Heq2 & Hcase & Ha & Hs2 & _ & _). assert (s2 = s') as -> by congruence.
    destruct Hcase as [->|[He' _]]; [|congruence].
    destruct (paging_map_foreign s s' virt phys flags n Hs Hv Hi Hp (or_introl He) Heq
      (td_foreign _ _ Htd)) as (_ & Hld & _ & _).
    destruct (frame_addr n (proj1 (td_foreign _ _ Htd))) as (_ & Hnfr & _).
    change (PAGE_SIZE * n) with (cr3 (other n s)) in Hw. change (ram s) with (ram (other n s)) in Hw.
    change (PAGE_SIZE * n) with (cr3 (other n s')). change (ram s') with (ram (other n s')).
    rewrite walk_slot in Hw |- *. destruct (index_bounds va Hva) as [Hi0 _].
    assert (Hsl : slot (other n s') va = slot (other n s) va).
    { unfold slot, pde. cbn [ram cr3 page_dir_switch]. rewrite Hnfr, Hld by lia. done. }
    rewrite Hsl. destruct (slot (other n s) va) as [b|]; [|done].
    rewrite walk_slot, Ha in Hnone. rewrite Hs2. cbn [ram page_dir_switch] in *.
    assert (a ≠ b) as Hab.
    { intros ->. cbv zeta in Hw, Hnone. by destruct (present (ld (ram s) b)). }
    unfold ld in *. by rewrite arr_insert_ne.
  - destruct (private_table s n virt phys flags Htd Hv Hi Hp He Hfree) as (s2 & Heq2 & Hother).
    assert (s2 = s') as -> by congruence. by rewrite Hother.
Qed.

(** [page_dir_clone] makes one. *)
Lemma clone_two_dirs s n :
  paging_inv s → foreign s n →
  (∀ k, 0 ≤ k < 1023 → ld (ram s) (PAGE_SIZE * n + 4 * k) = pde s k) →
  ld (ram s) (PAGE_SIZE * n + 4 * 1023) = page_entry (PAGE_SIZE * n) PAGE_PRESENT →
  two_dirs s n ∧ (∀ k, 0 ≤ k < 1023 → pde (other n s) k = pde s k) ∧
  ∀ va, ordinary va → walk (ram s) (PAGE_SIZE * n) va = walk (ram s) (cr3 s) va.
Proof.
  intros Hi Hf Hcopy Hself. destruct (frame_addr n (proj1 Hf)) as (Hnb & Hnfr & Hnd).
  assert (Hpde : ∀ k, 0 ≤ k < 1023 → pde (other n s) k = pde s k).
  { intros k Hk. unfold pde at 1. cbn [ram cr3 page_dir_switch]. rewrite Hnfr. by apply Hcopy. }
  assert (Hself' : pde (other n s) 1023 = page_entry (PAGE_SIZE * n) PAGE_PRESENT).
  { unfold pde. cbn [ram cr3 page_dir_switch]. by rewrite Hnfr. }
  split; [|split; [done|]].
  - pose proof Hf as (Hn & Hfn & Hfd & Hft). pose proof Hi as [Hw' Hc' Hse Ht Hd Hfr].
    split; [done| |done|].
    + split; cbn [ram cr3 frames page_dir_switch]; try done.
      * rewrite Hself', frame_of_page_entry by done. split; [by rewrite present_page_entry by done|done].
      * intros k Hk. rewrite Hpde by done. intros Hp. rewrite Hnfr. split; [by apply Hft|by apply Ht].
      * by rewrite Hnfr, Hnd.
    + intros k Hk. rewrite Hpde by done. intros Hp. by apply Ht.
  - intros va [Hva Hda]. destruct (index_bounds va Hva) as [Hi0 _].
    rewrite !walk_eq, Hnfr, Hcopy by lia. done.
Qed.

End Two.

(** ** Mapping page by page *)

Section Mapping.
Context {F : Type} `{FrameAlloc F} (canon : Z → Z).
Implicit Types s : mm F.

(** [paging_map], page by page. *)
Lemma map_page s virt phys flags :
  paging_inv s → shared_as canon s → ordinary virt → 0 ≤ phys < 2 ^ 32 → frames_left 1 (frames s) →
  ∃ s', paging_map virt phys flags s = Ok s' ∧ paging_inv s' ∧ cr3 s' = cr3 s ∧ kept 1 s s' ∧
    (∀ n, two_dirs s n → two_dirs s' n ∧
       ∀ k, 0 ≤ k < 1024 → ld (ram s') (PAGE_SIZE * n + 4 * k) = ld (ram s) (PAGE_SIZE * n + 4 * k)) ∧
    ∀ va, ordinary va → walk (ram s') (cr3 s') va =
      if decide (same_page canon va virt)
      then if Z.odd flags then Some (frame_of phys + va mod 4096) else None
      else walk (ram s) (cr3 s) va.
Proof.
  intros Hs Hu [Hv Hd] Hp Hl.
  assert (Hfree : present (pde s (page_dir_index virt)) = true ∨ ∃ p, frame_free (frames s) p).
  { right. by apply (frames_left_some 0). }
  destruct (paging_map_walk s virt phys flags Hs Hv Hd Hp Hfree) as (s' & Heq & Hi & Hc & Hsl & Hw).
  pose proof (kept_map s s' virt phys flags Hs Hv Hd Hp Hfree Heq) as Hk.
  exists s'. do 4 (split; [done|]). split.
  { intros n Htd. split; [by apply (two_dirs_map s s' n virt phys flags); [|split| |apply (frames_left_some 0)|]|].
    by apply (paging_map_foreign s s' virt phys flags n Hs Hv Hd Hp Hfree Heq (td_foreign _ _ Htd)). }
  intros va Hva. rewrite Hw by apply Hva.
  pose proof (slot_page canon s' va virt Hi (kept_shared _ _ _ Hk canon Hu) Hva (conj Hv Hd) Hsl) as Hiff.
  repeat case_decide; tauto.
Qed.

(** Several pages, one after the other. *)
Fixpoint map_all (l : list (Z * Z * Z)) (s : mm F) : res (mm F) :=
  match l with
  | [] => Ok s
  | (virt, phys, flags) :: l => s ← paging_map virt phys flags s; map_all l s
  end.

(** The translation of [va] after [l] was mapped, [w] being the one before. *)
Fixpoint mapped (l : list (Z * Z * Z)) (va : Z) (w : option Z) : option Z :=
  match l with
  | [] => w
  | (virt, phys, flags) :: l => mapped l va
      (if decide (same_page canon va virt)
       then if Z.odd flags then Some (frame_of phys + va mod 4096) else None else w)
  end.

Lemma map_all_ok l : ∀ s,
  paging_inv s → shared_as canon s → Forall (λ '(v, p, _), ordinary v ∧ 0 ≤ p < 2 ^ 32) l →
  frames_left (length l) (frames s) →
  ∃ s', map_all l s = Ok s' ∧ paging_inv s' ∧ cr3 s' = cr3 s ∧ kept (length l) s s' ∧
    (∀ n, two_dirs s n → two_dirs s' n ∧
       ∀ k, 0 ≤ k < 1024 → ld (ram s') (PAGE_SIZE * n + 4 * k) = ld (ram s) (PAGE_SIZE * n + 4 * k)) ∧
    ∀ va, ordinary va → walk (ram s') (cr3 s') va = mapped l va (walk (ram s) (cr3 s) va).
Proof.
  induction l as [|[[v p] f] l IH]; intros s Hs Hu Hl Hfr; cbn [map_all mapped length].
  - exists s. split; [done|]. split; [done|]. split; [done|]. split; [by apply kept_same|by split].
  - apply Forall_cons in Hl as [[Hv Hp] Hl].
    destruct (map_page s v p f Hs Hu Hv Hp) as (s1 & Heq & Hi1 & Hc1 & Hk1 & Ht1 & Hw1).
    { by apply (frames_left_le (Datatypes.S (length l))); [lia|]. }
    rewrite (bind_ok _ _ _ Heq).
    destruct (IH s1 Hi1 (kept_shared _ _ _ Hk1 canon Hu) Hl (kept_left _ _ _ Hk1 _ Hfr))
      as (s' & Heq' & Hi & Hc & Hk & Ht & Hw).
    exists s'. split; [done|]. split; [done|]. split; [congruence|].
    split; [exact (kept_trans 1 (length l) _ _ _ Hk1 Hk)|]. split.
    { intros n Htd. destruct (Ht1 n Htd) as [Htd1 Hl1]. destruct (Ht n Htd1) as [Htd' Hl'].
      split; [done|]. intros k Hk0. by rewrite Hl', Hl1. }
    intros va Hva. by rewrite Hw, Hw1.
Qed.

End Mapping.

(** ** The other directory while the kernel works *)

Section Carried.
Context {F : Type} `{FrameAlloc F}.
Implicit Types s : mm F.

(** What the loaded directory keeps, and the one in frame [n]; [c] frames are
    taken at most. *)
Record carried (c : nat) (n : Z) (s s' : mm F) : Prop := {
  ca_two : two_dirs s' n;
  ca_cr3 : cr3 s' = cr3 s;
  ca_kept : kept c s s';
  ca_frame k : 0 ≤ k < 1024 → ld (ram s') (PAGE_SIZE * n + 4 * k) = ld (ram s) (PAGE_SIZE * n + 4 * k);
  ca_walk va pa : ordinary va → walk (ram s) (cr3 s) va = Some pa →
    walk (ram s') (cr3 s') va = Some pa;
  ca_other va pa : ordinary va → walk (ram s) (PAGE_SIZE * n) va = Some pa →
    walk (ram s') (PAGE_SIZE * n) va = Some pa
}.

Lemma kept_weaken c c' s s' : (c ≤ c')%nat → kept c s s' → kept c' s s'.
Proof.
  intros Hc [Hp Hf Hu Hl]. split; [done|done|done|]. intros j Hj. apply Hl.
  by apply (frames_left_le (c' + j)); [lia|].
Qed.

Lemma carried_refl c n s : two_dirs s n → carried c n s s.
Proof.
  intros Hs. split; [done|done| |done|done|done].
  by apply (kept_weaken 0); [lia|apply kept_same].
Qed.

Lemma carried_trans c1 c2 n s1 s2 s3 :
  carried c1 n s1 s2 → carried c2 n s2 s3 → carried (c1 + c2) n s1 s3.
Proof.
  intros [_ Hc Hk Hl Hw Ho] [Ht Hc' Hk' Hl' Hw' Ho'].
  split; [done|congruence|by eapply kept_trans| | |]; [|auto..].
  intros k Hk0. by rewrite Hl', Hl.
Qed.

(** The sharing of the tables in the other directory. *)
Lemma carried_shared canon c n s s' :
  carried c n s s' → shared_as canon (page_dir_switch (PAGE_SIZE * n) s) →
  shared_as canon (page_dir_switch (PAGE_SIZE * n) s').
Proof.
  intros [Ht _ _ Hl _ _] [Hu Hpr].
  destruct (frame_addr n (proj1 (td_foreign _ _ Ht))) as (_ & Hnfr & _).
  assert (Hp : ∀ k, 0 ≤ k < 1023 → pde (page_dir_switch (PAGE_SIZE * n) s') k
    = pde (page_dir_switch (PAGE_SIZE * n) s) k).
  { intros k Hk. unfold pde. cbn [ram cr3 page_dir_switch]. rewrite Hnfr. apply Hl. lia. }
  split; intros j k Hj Hk; rewrite !Hp by done; [by apply Hu|by apply Hpr].
Qed.

(** A page is mapped where nothing was. *)
Lemma carried_map s n virt phys flags :
  two_dirs s n → ordinary virt → 0 ≤ phys < 2 ^ 32 → frames_left 1 (frames s) →
  walk (ram s) (cr3 s) virt = None →
  ∃ s', paging_map virt phys flags s = Ok s' ∧ carried 1 n s s' ∧
    (Z.odd flags = true → walk (ram s') (cr3 s') virt = Some (frame_of phys + virt mod 4096)).
Proof.
  intros Htd Hv Hp Hl Hnone. pose proof Hv as [Hvr Hi].
  assert (Hfree : ∃ p, frame_free (frames s) p) by by apply (frames_left_some 0).
  destruct (paging_map_walk s virt phys flags (td_inv _ _ Htd) Hvr Hi Hp (or_intror Hfree))
    as (s' & Hm & Hi2 & Hc & _ & Hw).
  exists s'. split; [done|]. split; [split|].
  - by apply (two_dirs_map s s' n virt phys flags).
  - done.
  - by apply (kept_map s s' virt phys flags (td_inv _ _ Htd) Hvr Hi Hp (or_intror Hfree)).
  - by apply (paging_map_foreign s s' virt phys flags n (td_inv _ _ Htd) Hvr Hi Hp
      (or_intror Hfree) Hm (td_foreign _ _ Htd)).
  - intros va pa [Hva Hd].
    by apply (Memory.paging_map_new s virt phys flags va pa s' (td_inv _ _ Htd)).
  - intros va pa. by apply (map_other s s' n virt phys flags).
  - intros Hodd. by rewrite Hw, decide_True, Hodd.
Qed.

(** ... in a frame that is taken for it. *)
Lemma carried_page s n virt flags :
  two_dirs s n → ordinary virt → frames_left 2 (frames s) → walk (ram s) (cr3 s) virt = None →
  ∃ q s1 s2, alloc_frame s = Ok (PAGE_SIZE * q, s1) ∧ frame_free (frames s) q ∧
    paging_map virt (PAGE_SIZE * q) flags s1 = Ok s2 ∧ carried 2 n s s2 ∧
    (Z.odd flags = true → walk (ram s2) (cr3 s2) virt = Some (PAGE_SIZE * q + virt mod 4096)).
Proof.
  intros Htd Hv Hl Hnone. destruct (frames_left_some 1 _ Hl) as [p Hp].
  destruct (two_dirs_alloc s n p Htd Hp) as (q & s1 & Ha & Hqf & Ht1 & Hq & Hr & Hc & Hk1 & _).
  destruct (frame_addr q (proj1 Hq)) as (Hqb & Hqfr & _). rewrite <- Hr, <- Hc in Hnone.
  destruct (carried_map s1 n virt (PAGE_SIZE * q) flags Ht1 Hv Hqb (kept_left _ _ _ Hk1 1 Hl) Hnone)
    as (s2 & Hm & Hca & Hw).
  exists q, s1, s2. split; [done|]. split; [done|]. split; [done|]. split; [|by rewrite Hqfr in Hw].
  apply (carried_trans 1 1 n s s1 s2); [|done].
  split; [done|done|done|by rewrite Hr|by rewrite Hr, Hc|by rewrite Hr].
Qed.

(** The heap grows by a page. *)
Lemma kbrk_carried n j (b b' : Memory.brk) :
  Memory.room b (Datatypes.S j) → two_dirs (Memory.vm b) n → Memory.kbrk_step b = Ok b' →
  carried 2 n (Memory.vm b) (Memory.vm b').
Proof.
  intros [Hinv Hfr Hst Hal Hend] Htd Heq. rewrite PAGE_SIZE_eq in Hend.
  destruct (Memory.heap_index (Memory.heap b)) as [Hr Hi]; [done..|lia|].
  unfold Memory.kbrk_step in Heq. rewrite paging_is_mapped_walk in Heq by done.
  cbn [mbind res_bind] in Heq.
  destruct (walk (ram (Memory.vm b)) (cr3 (Memory.vm b)) (Memory.heap b)) as [pa|] eqn:Hnone.
  { rewrite bool_decide_false in Heq by done. injection Heq as <-. by apply carried_refl. }
  rewrite bool_decide_true in Heq by done.
  destruct (carried_page (Memory.vm b) n (Memory.heap b) (Z.lor PAGE_PRESENT PAGE_WRITABLE) Htd
    (conj Hr Hi)) as (q & s1 & s2 & Ha & _ & Hm & Hca & _); [|done|].
  { by apply (frames_left_le (2 * Datatypes.S j)); [lia|]. }
  rewrite Ha in Heq. cbn [mbind res_bind] in Heq. rewrite Hm in Heq.
  cbn [mbind res_bind] in Heq. by injection Heq as <-.
Qed.

(** An allocation of at most a page. *)
Lemma kmalloc_carried n j live size p (h h' : Memory.memory (F := F)) m m' :
  Memory.heap_ok live (Datatypes.S j) h m → two_dirs (Memory.vm (Memory.area h)) n →
  Memory.kmalloc Memory.KFUEL size h m = Ok (p, h', m') →
  carried 2 n (Memory.vm (Memory.area h)) (Memory.vm (Memory.area h')).
Proof.
  intros (ls & pool & Hrep) Hf Heq. pose proof (Memory.hr_room _ _ _ _ _ _ Hrep) as Hroom.
  unfold Memory.kmalloc in Heq. apply res_bind_Ok in Heq as (l & _ & Heq).
  apply res_bind_Ok in Heq as ([[r a] b] & Ha & Heq).
  apply res_bind_Ok in Heq as ([x m1] & _ & Heq). injection Heq as _ <- _. cbn [Memory.area].
  destruct (Memory.mem_alloc_pages _ _ _ _ _ _ Ha) as [->|[q Hq]].
  - by apply carried_refl.
  - eapply kbrk_carried; [exact Hroom|done|exact (Memory.kbrk_one _ _ _ Hq)].
Qed.

Lemma NEW_carried n j live size p (h h' : Memory.memory (F := F)) m m' :
  Memory.heap_ok live (Datatypes.S j) h m → two_dirs (Memory.vm (Memory.area h)) n →
  Memory.NEW Memory.KFUEL size h m = Ok (p, h', m') →
  carried 2 n (Memory.vm (Memory.area h)) (Memory.vm (Memory.area h')).
Proof.
  intros Hh Hf Heq. unfold Memory.NEW in Heq. apply res_bind_Ok in Heq as ([[r h1] m1] & Hk & Heq).
  apply res_bind_Ok in Heq as ([x m2] & _ & Heq). injection Heq as _ <- _.
  by eapply kmalloc_carried.
Qed.

(** The heap with other tables below it. *)
Lemma heap_ok_vm live n k (h : Memory.memory (F := F)) m v :
  Memory.heap_ok live n h m → (k ≤ n)%nat → paging_inv v → frames_left (2 * k) (frames v) →
  Memory.heap_ok live k
    (Memory.Mem (Memory.Brk (Memory.heap (Memory.area h)) v) (Memory.lock h) (Memory.stats h)
       (Memory.allocator h)) m.
Proof.
  intros (ls & pool & [Hg Hbel Hroom Hpool Hlock Hbytes Hlive]) Hk Hv Hl.
  exists ls, pool. destruct Hroom as [_ _ Hst Hal Hend]. rewrite PAGE_SIZE_eq in *.
  split; [done|done| |lia|done| |done].
  - split; [done..|]. cbn [Memory.heap Memory.area]. rewrite PAGE_SIZE_eq. lia.
  - intros x Hx. apply Hbytes. cbn [Memory.heap Memory.area] in Hx.
    rewrite PAGE_SIZE_eq in *. destruct Hx as [Hx|Hx]; [by left|right; lia].
Qed.

End Carried.

End Dirs.
