(* ===== verification/Spawn.v ===== *)
(** User processes in memory (kernel/process.c and kernel/thread.c on
    kernel/paging.c and kernel/memory.c).

    [proc_create] clones the kernel's page directory, allocates the process on
    the kernel's heap and maps a page of each section in the clone; [sees] is
    what a process finds at an address of a section.  [thread_create] for user
    space maps a stack in the directory of the process.  Afterwards the kernel's
    heap and both directories can be used as before. *)

From Stdlib Require Import ZArith Lia.
From stdpp Require Import base option list gmap.
From S2P Require Import Prelude Interfaces Locks Palloc Strings Paging Stream Thread Kmalloc Memory.
From S2P Require Import Interrupts Process Dirs.

Module Spawn.
Import Paging Thread Process Dirs.

(** ** Creating a process *)

Section Create.
Context {F : Type} `{FrameAlloc F} (canon : Z → Z) (kdir : Z).

Lemma set_vm_heap live k (s : pstate (F := F)) v :
  Memory.heap_ok live k (mem s) (bytes s) → paging_inv v → frames_left (2 * k) (frames v) →
  Memory.heap_ok live k (mem (set_vm v s)) (bytes (set_vm v s)).
Proof. intros Hh. by apply (heap_ok_vm live k k). Qed.

Definition USER : Z := Z.lor PAGE_PRESENT PAGE_USERMODE.

Definition page_of (x : proc_section) (flags : Z) : Z * Z * Z :=
  (Memory.page_align (virt_addr x), phys_addr x, flags).

(** The pages [proc_create] maps: the first one of each section. *)
Definition section_pages (text data bss rodata : proc_section) : list (Z * Z * Z) :=
  [page_of text USER; page_of data (Z.lor USER PAGE_WRITABLE);
   page_of bss (Z.lor USER PAGE_WRITABLE); page_of rodata USER].

(** The physical address of [va] by the sections: the last one wins. *)
Fixpoint sees (l : list proc_section) (va : Z) : option Z :=
  match l with
  | [] => None
  | x :: l =>
      match sees l va with
      | Some pa => Some pa
      | None => if decide (same_page canon va (virt_addr x))
                then Some (frame_of (phys_addr x) + va mod 4096) else None
      end
  end.

Definition section_ok (x : proc_section) : Prop :=
  ordinary (virt_addr x) ∧ 0 ≤ phys_addr x < 2 ^ 32.

Lemma aligned_page va : ordinary va → ordinary (Memory.page_align va) ∧
  ∀ v, same_page canon v (Memory.page_align va) ↔ same_page canon v va.
Proof.
  intros [Hva Hd]. rewrite Memory.page_align_eq, PAGE_SIZE_eq by done. rewrite page_dir_index_eq in Hd.
  unfold ordinary, same_page. split.
  - rewrite page_dir_index_eq. dlia.
  - intros v. rewrite !page_dir_index_eq, !page_table_index_eq.
    assert (H1 : 4096 * (va / 4096) / 4194304 = va / 4194304) by dlia.
    assert (H2 : 4096 * (va / 4096) / 4096 = va / 4096) by dlia. by rewrite H1, H2.
Qed.

Lemma mapped_sees l va w :
  Forall (λ '(x, f), section_ok x ∧ Z.odd f = true) l →
  mapped canon (map (λ '(x, f), page_of x f) l) va w =
  match sees l.*1 va with Some pa => Some pa | None => w end.
Proof.
  revert w. induction l as [|[x f] l IH]; intros w Hl; [done|].
  apply Forall_cons in Hl as [[[Hx _] Hf] Hl].
  cbn [map page_of mapped sees fmap list_fmap fst]. rewrite IH by done.
  destruct (sees l.*1 va); [done|].
  rewrite Hf. pose proof (proj2 (aligned_page _ Hx) va) as Hs. repeat case_decide; tauto.
Qed.

(** The scratch pages of [page_dir_clone]. *)
Definition scratch (va : Z) : Prop := same_page canon va olddir_virt ∨ same_page canon va newdir_virt.

Lemma clone_sees (s s' : mm F) va pa :
  paging_inv s' → shared_as canon s' → slot s' olddir_virt ≠ None → slot s' newdir_virt ≠ None →
  (∀ va, 0 ≤ va < 2 ^ 32 → page_dir_index va < 1023 → walk (ram s') (cr3 s') va =
     if decide (slot s' va = slot s' olddir_virt ∨ slot s' va = slot s' newdir_virt)
     then None else walk (ram s) (cr3 s) va) →
  ordinary va → ¬ scratch va → walk (ram s) (cr3 s) va = Some pa → walk (ram s') (cr3 s') va = Some pa.
Proof.
  intros Hi Hu Ho Hn Hw Hva Hsc Hpa. pose proof Hva as [Hb Hd]. rewrite Hw, decide_False; [done| |done|done].
  assert (H1 : ordinary olddir_virt) by (split; by vm_compute).
  assert (H2 : ordinary newdir_virt) by (split; by vm_compute).
  intros [He|He]; apply Hsc; [left|right]; by apply (slot_page canon s').
Qed.

(** [proc_create] is a clone, an object and four pages. *)
Lemma proc_create_run text data bss rodata (s s' : pstate (F := F)) i dir v p o :
  find_next_pid s = Ok (i, set_plock 0 s) → 0 ≤ i < MAX_PROCESSES →
  page_dir_clone kdir (vm_of s) = Ok (dir, v) →
  NEW PROCESS_SIZE (set_vm v (set_plock 0 s)) = Ok (p, s') →
  map_all (section_pages text data bss rodata) (page_dir_switch dir (vm_of s')) = Ok o →
  proc_create kdir text data bss rodata s =
  Ok (p, set_vm (page_dir_switch kdir o)
    (set_procs (<[p := Proc i text data bss rodata dir ∅ ∅]> (procs s'))
       (set_table (<[i := p]> (table s')) s'))).
Proof.
  intros Hpid Hi Hclone Hnew Hmap. unfold proc_create. rewrite (bind_ok _ _ _ Hpid).
  cbv iota beta. change (vm_of (set_plock 0 s)) with (vm_of s). rewrite (bind_ok _ _ _ Hclone).
  cbv iota beta. rewrite (bind_ok _ _ _ Hnew). cbv iota beta.
  rewrite (bind_ok _ _ (<[i := p]> (table s'))) by (by apply aset_in). cbv zeta.
  unfold section_pages, page_of, USER in Hmap. cbn [map_all] in Hmap.
  apply res_bind_Ok in Hmap as (v1 & H1 & Hmap). apply res_bind_Ok in Hmap as (v2 & H2 & Hmap).
  apply res_bind_Ok in Hmap as (v3 & H3 & Hmap). apply res_bind_Ok in Hmap as (v4 & H4 & [= ->]).
  rewrite (bind_ok _ _ _ H1), (bind_ok _ _ _ H2), (bind_ok _ _ _ H3), (bind_ok _ _ _ H4).
  reflexivity.
Qed.


Lemma section_pages_ok text data bss rodata :
  Forall section_ok [text; data; bss; rodata] →
  Forall (λ '(v, p, _), ordinary v ∧ 0 ≤ p < 2 ^ 32) (section_pages text data bss rodata).
Proof.
  intros Hl.
  unfold section_pages, page_of. rewrite !Forall_cons in Hl. rewrite !Forall_cons. unfold section_ok in Hl.
  destruct Hl as ([? ?] & [? ?] & [? ?] & [? ?] & _).
  by repeat (split; [split; [by apply aligned_page|done]|]).
Qed.

Lemma section_pages_sees text data bss rodata va w :
  Forall section_ok [text; data; bss; rodata] →
  mapped canon (section_pages text data bss rodata) va w =
  match sees [text; data; bss; rodata] va with Some pa => Some pa | None => w end.
Proof.
  intros Hl. rewrite !Forall_cons in Hl.
  apply (mapped_sees [(text, USER); (data, Z.lor USER PAGE_WRITABLE);
    (bss, Z.lor USER PAGE_WRITABLE); (rodata, USER)]).
  destruct Hl as (? & ? & ? & ? & _). repeat (apply Forall_cons_2; [done|]). apply Forall_nil_2.
Qed.

(** The process directory after the clone and the allocation. *)
Lemma clone_usable (s s1 s2 : mm F) n c :
  paging_inv s1 → foreign s1 n → shared_as canon s1 →
  (∀ k, 0 ≤ k < 1023 → ld (ram s1) (PAGE_SIZE * n + 4 * k) = pde s1 k) →
  ld (ram s1) (PAGE_SIZE * n + 4 * 1023) = page_entry (PAGE_SIZE * n) PAGE_PRESENT →
  (∀ va pa, ordinary va → ¬ scratch va → walk (ram s) (cr3 s) va = Some pa →
     walk (ram s1) (cr3 s1) va = Some pa) →
  (two_dirs s1 n → carried c n s1 s2) →
  let o := page_dir_switch (PAGE_SIZE * n) s2 in
  two_dirs s2 n ∧ shared_as canon o ∧ shared_as canon s2 ∧ cr3 s2 = cr3 s1 ∧ kept c s1 s2 ∧
  ∀ va pa, ordinary va → ¬ scratch va → walk (ram s) (cr3 s) va = Some pa →
    walk (ram o) (cr3 o) va = Some pa.
Proof.
  intros Hi Hf Hu Hcopy Hself Hw Hcar o.
  destruct (clone_two_dirs s1 n Hi Hf Hcopy Hself) as (Htd & Hpde & Hsame).
  destruct (Hcar Htd) as [Htd2 Hc Hk Hl _ Hother].
  destruct (frame_addr n (proj1 Hf)) as (_ & Hnfr & _).
  split; [done|]. split; [|split; [exact (kept_shared _ _ _ Hk canon Hu)|split; [done|split; [done|]]]].
  - assert (Ho : ∀ k, 0 ≤ k < 1023 → pde o k = pde s1 k).
    { intros k Hk'. rewrite <- Hpde by done. unfold pde, o. cbn [ram cr3 page_dir_switch].
      rewrite Hnfr. apply Hl. lia. }
    destruct Hu as [Hu Hpr]. split; intros j k Hj Hk'; rewrite !Ho by done; [by apply Hu|by apply Hpr].
  - intros va pa Hva Hs Hpa. apply Hother; [done|]. rewrite Hsame by done. by apply Hw.
Qed.

(** The kernel goes on where it was after work in the other directory. *)
Lemma come_back (s o : mm F) n k c :
  two_dirs s n → cr3 s = PAGE_SIZE * k → 0 ≤ k < PAGES → shared_as canon s →
  cr3 o = PAGE_SIZE * n → kept c (page_dir_switch (PAGE_SIZE * n) s) o →
  (∀ m, two_dirs (page_dir_switch (PAGE_SIZE * n) s) m → two_dirs o m ∧ ∀ j, 0 ≤ j < 1024 →
     ld (ram o) (PAGE_SIZE * m + 4 * j) = ld (ram s) (PAGE_SIZE * m + 4 * j)) →
  let s' := page_dir_switch (PAGE_SIZE * k) o in
  two_dirs s' n ∧ shared_as canon s' ∧ page_dir_switch (PAGE_SIZE * n) s' = o ∧
  ∀ j, frames_left (c + j) (frames s) → frames_left j (frames s').
Proof.
  intros Htd Hc Hk [Hu Hpr] Hco Hkept Hm s'. pose proof (proj1 (td_foreign _ _ Htd)) as Hn.
  destruct (frame_addr k Hk) as (_ & Hkfr & _).
  destruct (Hm k (two_dirs_switch s n k Hc Hk Htd)) as [Hto Hl].
  split; [exact (two_dirs_switch o k n Hco Hn Hto)|]. split.
  - assert (Hp : ∀ j, 0 ≤ j < 1023 → pde s' j = pde s j).
    { intros j Hj. unfold pde, s'. cbn [ram cr3 page_dir_switch]. rewrite Hc, Hkfr. apply Hl. lia. }
    split; intros i j Hi Hj; rewrite !Hp by done; [by apply Hu|by apply Hpr].
  - split; [destruct o as [r c0 f]; cbn in Hco; unfold s', page_dir_switch; cbn; by rewrite Hco|].
    intros j Hj. exact (kept_left _ _ _ Hkept j Hj).
Qed.

(** [proc_create] with room for [k] more allocations. *)
Lemma proc_create_ok live k kn text data bss rodata (s : pstate (F := F)) :
  let l := [text; data; bss; rodata] in
  plock s = 0 → Memory.heap_ok live (k + 5) (mem s) (bytes s) → shared_as canon (vm_of s) →
  cr3 (vm_of s) = kdir → kdir = PAGE_SIZE * kn → 0 ≤ kn < PAGES → Forall section_ok l →
  ∃ i n p s', proc_create kdir text data bss rodata s = Ok (p, s') ∧
    slot_for (table s) i ∧ table s' = <[i := p]> (table s) ∧
    procs s' = <[p := Proc i text data bss rodata (PAGE_SIZE * n) ∅ ∅]> (procs s) ∧
    threads s' = threads s ∧ plock s' = 0 ∧
    Memory.fresh_block live p PROCESS_SIZE (bytes s) (bytes s') ∧
    Memory.heap_ok (λ a, live a ∨ p ≤ a < p + PROCESS_SIZE) k (mem s') (bytes s') ∧
    frame_free (frames (vm_of s)) n ∧
    (∀ m, frame_free (frames (vm_of s')) m → frame_free (frames (vm_of s)) m) ∧ cr3 (vm_of s') = kdir ∧ two_dirs (vm_of s') n ∧
    shared_as canon (vm_of s') ∧ shared_as canon (page_dir_switch (PAGE_SIZE * n) (vm_of s')) ∧
    ∀ va, ordinary va →
      match sees l va with
      | Some pa => walk (ram (vm_of s')) (PAGE_SIZE * n) va = Some pa
      | None => ¬ scratch va → ∀ pa, walk (ram (vm_of s)) kdir va = Some pa →
          walk (ram (vm_of s')) (PAGE_SIZE * n) va = Some pa
      end.
Proof.
  intros l Hlock Hh Hu Hcr Hkd Hkn Hl. destruct (find_next_pid_ok s Hlock) as (i & Hpid & Hslot).
  pose proof Hh as (ls & pool & Hrep). pose proof (Memory.hr_room _ _ _ _ _ _ Hrep) as Hroom.
  pose proof (Memory.room_inv _ _ Hroom) as Hinv. pose proof (Memory.room_frames _ _ Hroom) as Hfr.
  fold (vm_of s) in Hinv, Hfr. clear ls pool Hrep Hroom.
  destruct (page_dir_clone_ok (vm_of s) kdir Hinv) as
    (n & v & Hclone & Hnf & Hiv & Hfor & Hcv & Hcopy & Hself & Hkept & Hso & Hsn & Hwv);
    [by rewrite Hcr|rewrite <- Hcr; apply Hinv|by apply (frames_left_le (2 * (k + 5))); [lia|]|].
  pose proof (kept_shared _ _ _ Hkept canon Hu) as Huv.
  assert (Hlv : frames_left (2 * k + 7) (frames v)).
  { apply (kept_left _ _ _ Hkept). by apply (frames_left_le (2 * (k + 5))); [lia|]. }
  assert (Hh1 : Memory.heap_ok live (Datatypes.S (k + 2)) (mem (set_vm v (set_plock 0 s))) (bytes s)).
  { apply (heap_ok_vm live (k + 5)); [done|lia|done|]. by apply (frames_left_le (2 * k + 7)); [lia|]. }
  destruct (Memory.NEW_page live (k + 2) PROCESS_SIZE _ _ ltac:(done) Hh1)
    as (p & h & m & Hnew & Hb & Hh2).
  destruct (clone_usable (vm_of s) v (Memory.vm (Memory.area h)) n 2 Hiv Hfor Huv Hcopy Hself)
    as (Htd & Huo & Hu2 & Hc2 & Hk2 & Hwo).
  { intros va pa Hva Hs. by apply (clone_sees (vm_of s)). }
  { intros Ht. exact (NEW_carried n (k + 2) live _ _ _ _ _ _ Hh1 Ht Hnew). }
  assert (Hl2 : frames_left (2 * k + 5) (frames (Memory.vm (Memory.area h)))).
  { apply (kept_left _ _ _ Hk2). by apply (frames_left_le (2 * k + 7)); [lia|]. }
  set (o := page_dir_switch _ _) in *.
  destruct (map_all_ok canon (section_pages text data bss rodata) o (td_other _ _ Htd) Huo)
    as (o' & Hmap & _ & Hc & Hk & Ht & Hw).
  { by apply section_pages_ok. }
  { apply (frames_left_le (2 * k + 5)); [simpl; lia|exact Hl2]. }
  rewrite Hcv, Hcr, Hkd in Hc2.
  destruct (come_back _ o' n kn 4 Htd Hc2 Hkn Hu2 Hc Hk Ht) as (Htd' & Hu' & Hback & Hleft).
  rewrite <- Hkd in Htd', Hu', Hback, Hleft.
  set (s1 := set_mem h m (set_vm v (set_plock 0 s))).
  exists i, n, p. eexists. split.
  { eapply (proc_create_run text data bss rodata s s1); [exact Hpid|apply Hslot|exact Hclone| |exact Hmap].
    unfold NEW. by rewrite (bind_ok _ _ _ Hnew). }
  do 5 (split; [done|]). split; [done|]. split.
  { apply (heap_ok_vm _ (k + 2)); [exact Hh2|lia|exact (td_inv _ _ Htd')|]. apply Hleft.
    by apply (frames_left_le (2 * k + 5)); [lia|]. }
  split; [done|]. split; [exact (λ m Hm, kept_free _ _ _ Hkept m (kept_free _ _ _ Hk2 m
    (kept_free _ _ _ Hk m Hm)))|].
  split; [done|]. split; [exact Htd'|]. split; [exact Hu'|]. split.
  { cbn [vm_of set_vm mem set_mem Memory.area Memory.vm]. rewrite Hback.
    exact (kept_shared _ _ _ Hk canon Huo). }
  intros va Hva. set (s2 := set_vm _ _). change (ram (vm_of s2)) with (ram o').
  rewrite Hc in Hw. change (cr3 o) with (PAGE_SIZE * n) in Hw.
  rewrite Hw, section_pages_sees by done. fold l. destruct (sees l va) as [pa|]; [done|].
  intros Hsc pa Hpa. apply Hwo; [done|done|]. by rewrite Hcr.
Qed.

(** ** A thread of a process *)

Definition USER_STACK : Z := 0xa00000.

Lemma user_stack (s : mm F) n kn :
  two_dirs s n → cr3 s = PAGE_SIZE * kn → 0 ≤ kn < PAGES → shared_as canon s →
  shared_as canon (page_dir_switch (PAGE_SIZE * n) s) → frames_left 2 (frames s) →
  ∃ q o1 o2, alloc_frame (page_dir_switch (PAGE_SIZE * n) s) = Ok (PAGE_SIZE * q, o1) ∧
    paging_map USER_STACK (PAGE_SIZE * q) (Z.lor (Z.lor PAGE_USERMODE PAGE_PRESENT) PAGE_WRITABLE) o1
      = Ok o2 ∧ frame_free (frames s) q ∧
    let s' := page_dir_switch (PAGE_SIZE * kn) o2 in
    two_dirs s' n ∧ shared_as canon s' ∧ shared_as canon (page_dir_switch (PAGE_SIZE * n) s') ∧
    (∀ j, frames_left (2 + j) (frames s) → frames_left j (frames s')) ∧
    ∀ va, ordinary va → walk (ram s') (PAGE_SIZE * n) va =
      if decide (same_page canon va USER_STACK) then Some (PAGE_SIZE * q + va mod 4096)
      else walk (ram s) (PAGE_SIZE * n) va.
Proof.
  intros Htd Hc Hkn Hu Huo Hl. set (o := page_dir_switch (PAGE_SIZE * n) s) in *.
  destruct (frames_left_some 1 (frames o) Hl) as [p Hp].
  destruct (inv_alloc_frame o p (td_other _ _ Htd) Hp) as (q & o1 & Ha & Hqf & Hi1 & Hq & Hr & Hc1 & Hfree).
  pose proof (kept_alloc o o1 q Hr Hc1 Hfree) as Hk1.
  destruct (frame_addr q (proj1 Hq)) as (Hqb & Hqfr & _).
  destruct (map_page canon o1 USER_STACK (PAGE_SIZE * q)
    (Z.lor (Z.lor PAGE_USERMODE PAGE_PRESENT) PAGE_WRITABLE) Hi1 (kept_shared _ _ _ Hk1 canon Huo))
    as (o2 & Hm & _ & Hc2 & Hk2 & Ht2 & Hw2); [split; by vm_compute|done| |].
  { by apply (kept_left _ _ _ Hk1 1). }
  pose proof (kept_trans 1 1 _ _ _ Hk1 Hk2) as Hk.
  destruct (come_back s o2 n kn 2 Htd Hc Hkn Hu) as (Htd' & Hu' & Hback & Hleft);
    [by rewrite Hc2, Hc1|exact Hk| |].
  { intros m Hm2. destruct (Ht2 m) as [Hm3 Hl3]; [by apply (alloc_two o o1 q)|].
    split; [done|]. intros j Hj. by rewrite Hl3, Hr. }
  exists q, o1, o2. split; [done|]. split; [done|]. split; [done|]. cbv zeta.
  split; [done|]. split; [done|]. split; [rewrite Hback; exact (kept_shared _ _ _ Hk canon Huo)|].
  split; [done|]. intros va Hva. change (ram (page_dir_switch (PAGE_SIZE * kn) o2)) with (ram o2).
  rewrite Hc2, Hc1, Hr in Hw2. change (cr3 o) with (PAGE_SIZE * n) in Hw2.
  rewrite Hw2 by done. by rewrite Hqfr.
Qed.

(** [thread_create] for user space, with room for [k] more allocations. *)
Lemma thread_create_user at_leave live k kn n parent pr entry (s : pstate (F := F)) :
  Memory.heap_ok live (k + 3) (mem s) (bytes s) → procs s !! parent = Some pr →
  pdir pr = PAGE_SIZE * n → two_dirs (vm_of s) n → cr3 (vm_of s) = kdir → kdir = PAGE_SIZE * kn →
  0 ≤ kn < PAGES → shared_as canon (vm_of s) →
  shared_as canon (page_dir_switch (PAGE_SIZE * n) (vm_of s)) → 0 ≤ entry < 2 ^ 32 →
  ∃ new q s' th, let ks := kernel_stack th - (PAGE_SIZE - 16) in
    let used a := new ≤ a < new + THREAD_SIZE ∨ ks ≤ a < ks + PAGE_SIZE in
    thread_create kdir at_leave parent entry Interrupts.THREAD_USERSPACE s = Ok (new, s') ∧
    threads s' = <[new := th]> (threads s) ∧ procs s' = procs s ∧ table s' = table s ∧
    plock s' = plock s ∧
    th = Thr parent 0 USER_STACK (kernel_stack th) (kernel_stack th - 80) at_leave 0 0 NoEvent ∧
    (∀ ss, leave_kernel ss (esp th) (bytes s') = Ok (loaded (USER_STACK + PAGE_SIZE - 16) 0x23
       (Interrupts.regs_init (USER_STACK + PAGE_SIZE - 16) entry Interrupts.THREAD_USERSPACE))) ∧
    0 < new < 2 ^ 32 ∧ (∀ a, live a → ¬ used a ∧ bytes s' !! a = bytes s !! a) ∧
    Memory.heap_ok (λ a, live a ∨ used a) k (mem s') (bytes s') ∧
    frame_free (frames (vm_of s)) q ∧ cr3 (vm_of s') = kdir ∧ two_dirs (vm_of s') n ∧
    shared_as canon (vm_of s') ∧ shared_as canon (page_dir_switch (PAGE_SIZE * n) (vm_of s')) ∧
    ∀ va pa, ordinary va →
      (if decide (same_page canon va USER_STACK) then pa = PAGE_SIZE * q + va mod 4096
       else walk (ram (vm_of s)) (PAGE_SIZE * n) va = Some pa) →
      walk (ram (vm_of s')) (PAGE_SIZE * n) va = Some pa.
Proof.
  intros Hh Hpr Hpd Htd Hcr Hkd Hkn Hu Huo He.
  assert (Hh0 : Memory.heap_ok live (Datatypes.S (k + 2)) (mem s) (bytes s)).
  { by replace (Datatypes.S (k + 2)) with (k + 3)%nat by lia. }
  destruct (Memory.NEW_page live (k + 2) THREAD_SIZE (mem s) (bytes s)) as (new & h1 & m1 & H1 & Hb1 & Hh1);
    [split; [discriminate|by rewrite PAGE_SIZE_eq]|done|].
  assert (Hh1' : Memory.heap_ok (λ a, live a ∨ new ≤ a < new + THREAD_SIZE) (Datatypes.S (k + 1)) h1 m1).
  { by replace (Datatypes.S (k + 1)) with (k + 2)%nat by lia. }
  destruct (Memory.kmalloc_page _ (k + 1) PAGE_SIZE h1 m1 ltac:(done) Hh1') as (b & h2 & m2 & H2 & Hb2 & Hh2).
  pose proof (NEW_carried n (k + 2) live _ _ _ _ _ _ Hh0 Htd H1) as Hca1.
  pose proof (kmalloc_carried n (k + 1) _ _ _ _ _ _ _ Hh1' (ca_two _ _ _ _ Hca1) H2) as Hca2.
  pose proof (carried_trans 2 2 n _ _ _ Hca1 Hca2) as Hca. clear Hca1 Hca2.
  set (v2 := Memory.vm (Memory.area h2)) in *. fold (vm_of s) in Hca.
  pose proof (ca_two _ _ _ _ Hca) as Htd2. pose proof (ca_kept _ _ _ _ Hca) as Hk2.
  assert (Hl2 : frames_left (2 * k + 2) (frames v2)).
  { apply (kept_left _ _ _ Hk2). destruct Hh as (ls & pool & Hrep).
    apply (frames_left_le (2 * (k + 3))); [lia|].
    exact (Memory.room_frames _ _ (Memory.hr_room _ _ _ _ _ _ Hrep)). }
  destruct (user_stack v2 n kn Htd2) as (q & o1 & o2 & Ha & Hm & Hqf & Htd' & Hu' & Huo' & Hleft & Hw);
    [by rewrite (ca_cr3 _ _ _ _ Hca), Hcr|done|exact (kept_shared _ _ _ Hk2 canon Hu)
    |exact (carried_shared canon _ n _ _ Hca Huo)|by apply (frames_left_le (2 * k + 2)); [lia|]|].
  destruct Hb1 as [Hp1 He1 _ _ Hs1 Hf1], Hb2 as [Hp2 He2 _ Hz2 Hs2 Hf2].
  destruct (thread_context_ok at_leave parent USER_STACK b entry Interrupts.THREAD_USERSPACE m2 Hp2 He2 He)
    as (m3 & H3 & Hlv & Hc3).
  { intros a Hin. rewrite Hz2 by done. by eexists. }
  exists new, q. eexists.
  exists (Thr parent 0 USER_STACK (b + PAGE_SIZE - 16) (b + PAGE_SIZE - 16 - 80) at_leave 0 0 NoEvent).
  cbn [kernel_stack esp]. replace (b + PAGE_SIZE - 16 - (PAGE_SIZE - 16)) with b by lia. cbv zeta.
  rewrite <- Hkd in Htd', Hu', Huo', Hleft, Hw. split.
  { unfold thread_create, NEW, kmalloc. rewrite (bind_ok _ _ _ H1). cbn [mbind res_bind set_mem mem bytes].
    rewrite (bind_ok _ _ _ H2). cbn [mbind res_bind set_mem mem bytes].
    rewrite (bool_decide_false (Interrupts.THREAD_USERSPACE = 0)) by done. cbn [negb].
    unfold get_process. cbn [procs set_mem]. rewrite Hpr. cbn [mbind res_bind].
    rewrite Hpd. change (vm_of (set_mem h2 m2 (set_mem h1 m1 s))) with v2.
    rewrite (bind_ok _ _ _ Ha). cbv iota beta. fold USER_STACK. rewrite (bind_ok _ _ _ Hm).
    cbn [mbind res_bind]. rewrite (u32_small (b + PAGE_SIZE - 16)) by (rewrite PAGE_SIZE_eq in *; lia).
    cbn [bytes set_vm set_mem]. rewrite (bind_ok _ _ _ H3). reflexivity. }
  do 5 (split; [done|]). split; [exact Hlv|]. split; [change THREAD_SIZE with 36 in He1; lia|]. cbn [bytes set_threads set_mem mem set_vm].
  split; [|split; [|split; [|split; [done|split; [exact Htd'|split; [exact Hu'|split; [exact Huo'|]]]]]]].
  - intros a Hla. assert (N1 : ¬ (new ≤ a < new + THREAD_SIZE)) by (intros Hin; by apply (Hf1 a Hin)).
    assert (N2 : ¬ (b ≤ a < b + PAGE_SIZE)) by (intros Hin; apply (Hf2 a Hin); by left).
    split; [tauto|]. by rewrite (proj1 Hc3), Hs2, Hs1.
  - eapply Memory.heap_ok_changed; [exact Hc3|].
    apply (Memory.heap_ok_live (λ a, (live a ∨ new ≤ a < new + THREAD_SIZE) ∨ b ≤ a < b + PAGE_SIZE));
      [tauto|]. apply (heap_ok_vm _ (k + 1)); [exact Hh2|lia|exact (td_inv _ _ Htd')|].
    apply Hleft. by apply (frames_left_le (2 * k + 2)); [lia|].
  - exact (kept_free _ _ _ Hk2 q Hqf).
  - intros va pa Hva Hcase. change (walk (ram (page_dir_switch kdir o2)) (PAGE_SIZE * n) va = Some pa).
    rewrite Hw by done. case_decide; [by subst|]. by apply (ca_other _ _ _ _ Hca).
Qed.

(** C21. [proc_create] takes the lowest free process id and a fresh object, and
    gives the process a directory in a frame that was free; the kernel's
    directory is loaded again and the kernel's heap can be used as before.  In
    the process's directory the first page of each section translates to the
    section's frame (of sections on one page the last one wins), and the other
    addresses below the recursive window that the kernel had mapped translate as
    in the kernel's directory, the two scratch pages of the cloning excepted.
    Pages that the kernel's directory reaches through one table, as [canon]
    says, are one page here: a section in the first four megabytes also replaces
    the kernel's page above 0xC0000000. *)
Theorem proc_create_maps live k kn text data bss rodata (s : pstate (F := F)) :
  let l := [text; data; bss; rodata] in
  plock s = 0 → Memory.heap_ok live (k + 5) (mem s) (bytes s) → shared_as canon (vm_of s) →
  cr3 (vm_of s) = kdir → kdir = PAGE_SIZE * kn → 0 ≤ kn < PAGES → Forall section_ok l →
  ∃ i n p s', proc_create kdir text data bss rodata s = Ok (p, s') ∧
    slot_for (table s) i ∧ table s' = <[i := p]> (table s) ∧
    procs s' = <[p := Proc i text data bss rodata (PAGE_SIZE * n) ∅ ∅]> (procs s) ∧
    Memory.fresh_block live p PROCESS_SIZE (bytes s) (bytes s') ∧
    Memory.heap_ok (λ a, live a ∨ p ≤ a < p + PROCESS_SIZE) k (mem s') (bytes s') ∧
    frame_free (frames (vm_of s)) n ∧ cr3 (vm_of s') = kdir ∧
    ∀ va, ordinary va →
      match sees l va with
      | Some pa => walk (ram (vm_of s')) (PAGE_SIZE * n) va = Some pa
      | None => ¬ scratch va → ∀ pa, walk (ram (vm_of s)) kdir va = Some pa →
          walk (ram (vm_of s')) (PAGE_SIZE * n) va = Some pa
      end.
Proof.
  intros l Hlock Hh Hu Hcr Hkd Hkn Hl.
  destruct (proc_create_ok live k kn text data bss rodata s Hlock Hh Hu Hcr Hkd Hkn Hl)
    as (i & n & p & s' & Hs & Hi & Ht & Hp & _ & _ & Hb & Hh' & Hn & _ & Hc & _ & _ & _ & Hw).
  exists i, n, p, s'. by repeat (split; [done|]).
Qed.

End Create.

(** ** A process on a fresh heap *)

(** Text, data and read-only data of one page each, and no bss: [elf_load]
    leaves it zero. *)
Definition demo_text : proc_section := Sect 0x400000 0x200000 1.
Definition demo_data : proc_section := Sect 0x402010 0x201010 1.
Definition demo_rodata : proc_section := Sect 0x401000 0x202000 2.

(** The directory kernel/entry.s builds, at [0x10000]: one table, which maps the
    first four megabytes to themselves, in the entries 0 and 768, and the
    directory in its own last entry. *)
Definition boot_ram : gmap Z Z :=
  <[0x10000 := 0x11007]> (<[0x10000 + 4 * 768 := 0x11007]> (<[0x10000 + 4 * 1023 := 0x10007]>
    (foldr (λ k, <[0x11000 + 4 * k := 4096 * k + 7]>) ∅ (seqZ 0 1024)))).

Definition boot_mm : mm Palloc.palloc := MM boot_ram 0x10000 (Palloc.word_frames 0xFFFCFFE0).

Definition boot_canon (j : Z) : Z := if j =? 768 then 0 else j.

Lemma boot_words a : 0 ≤ ld boot_ram a < 2 ^ 32.
Proof.
  assert (Hf : map_Forall (λ _ v, 0 ≤ v < 2 ^ 32) boot_ram).
  { apply (bool_decide_unpack _). by vm_compute. }
  unfold ld, arr. destruct (boot_ram !! a) as [v|] eqn:Hv; simpl; [exact (Hf a v Hv)|lia].
Qed.

Lemma boot_entries j :
  0 ≤ j < 1023 → pde boot_mm j = if decide (j = 0 ∨ j = 768) then 0x11007 else 0.
Proof.
  intros Hj.
  assert (Hf : Forall (λ j, pde boot_mm j = if decide (j = 0 ∨ j = 768) then 0x11007 else 0)
    (seqZ 0 1023)) by (apply (bool_decide_unpack _); by vm_compute).
  eapply Forall_forall in Hf; [exact Hf|]. apply elem_of_seqZ. lia.
Qed.

Lemma boot_present j : 0 ≤ j < 1023 → present (pde boot_mm j) = true ↔ j = 0 ∨ j = 768.
Proof. intros Hj. rewrite boot_entries by done. by case_decide. Qed.

Lemma boot_shared : shared_as boot_canon boot_mm.
Proof.
  split; intros j k Hj Hk.
  - rewrite !boot_present, !boot_entries by done. intros H1 H2. rewrite !decide_True by done.
    unfold boot_canon. destruct H1 as [->| ->], H2 as [->| ->]; done.
  - intros Hne Hc. apply boot_present; [done|]. unfold boot_canon in Hc.
    destruct (Z.eqb_spec j 768), (Z.eqb_spec k 768); lia.
Qed.

(** With any free frames but those of the directory and its table. *)
Lemma boot_inv_with fr :
  Palloc.palloc_ok fr → ¬ Palloc.page_free fr 16 → ¬ Palloc.page_free fr 17 →
  paging_inv (MM boot_ram 0x10000 fr).
Proof.
  intros Hok H16 H17. split; [exact boot_words|by vm_compute|by vm_compute| |exact H16|exact Hok].
  intros i Hi Hp. change (pde (MM boot_ram 0x10000 fr) i) with (pde boot_mm i) in *.
  apply boot_present in Hp; [|done]. rewrite boot_entries, decide_True by done.
  split; [by vm_compute|exact H17].
Qed.

Lemma boot_inv : paging_inv boot_mm.
Proof.
  apply boot_inv_with; [apply Palloc.word_frames_ok; split; [discriminate|reflexivity]|..];
    intros [_ Hb]; by vm_compute in Hb.
Qed.

Definition boot_state (a : Kmalloc.mem_allocator) : pstate := set_vm boot_mm (start a).

Lemma boot_left : frames_left (2 * 8) (frames boot_mm).
Proof. exact heap_mm_left. Qed.

Lemma boot_heap a n :
  (n ≤ 8)%nat → Kmalloc.good a Kmalloc.no_blocks (seqZ 1 (Kmalloc.NODES - 1)) →
  Memory.heap_ok (λ _, False) n (mem (boot_state a)) (bytes (boot_state a)).
Proof.
  intros Hn Hg. apply (set_vm_heap _ n (start a) boot_mm (start_ok a n Hn Hg) boot_inv).
  apply (frames_left_le (2 * 8)); [lia|exact boot_left].
Qed.

Lemma boot_page : 0x10000 = PAGE_SIZE * 16.
Proof. done. Qed.

Lemma boot_page_range : 0 ≤ 16 < PAGES.
Proof. by vm_compute. Qed.

Lemma five_pages : (5 ≤ 8)%nat.
Proof. lia. Qed.

Lemma demo_data_sees :
  sees boot_canon [demo_text; demo_data; section0; demo_rodata] 0x402010 = Some 0x201010.
Proof. by vm_compute. Qed.

Lemma demo_kernel_sees :
  sees boot_canon [demo_text; demo_data; section0; demo_rodata] 0xC0100010 = None.
Proof. by vm_compute. Qed.

Lemma demo_kernel_walk : walk boot_ram 0x10000 0xC0100010 = Some 0x100010.
Proof. by vm_compute. Qed.

Lemma demo_scratch : ¬ scratch boot_canon 0xC0100010.
Proof. intros [[Hc _]|[Hc _]]; by vm_compute in Hc. Qed.

Lemma demo_sections_ok : Forall section_ok [demo_text; demo_data; section0; demo_rodata].
Proof. by repeat constructor; vm_compute. Qed.

Lemma demo_data_ordinary : ordinary 0x402010.
Proof. by split; vm_compute. Qed.

Lemma demo_kernel_ordinary : ordinary 0xC0100010.
Proof. by split; vm_compute. Qed.

Lemma proc_create_maps_witness :
  ∃ a i n p s', Kmalloc.mem_allocator_init Kmalloc.allocator0 = Ok a ∧
    proc_create 0x10000 demo_text demo_data section0 demo_rodata (boot_state a) = Ok (p, s') ∧
    slot_for ∅ i ∧ walk (ram (vm_of s')) (PAGE_SIZE * n) 0x402010 = Some 0x201010 ∧
    walk (ram (vm_of s')) (PAGE_SIZE * n) 0xC0100010 = Some 0x100010.
Proof.
  destruct (Kmalloc.mem_allocator_init_good Kmalloc.allocator0) as (a & Ha & Hg).
  destruct (proc_create_maps boot_canon 0x10000 (λ _, False) 0 16 demo_text demo_data section0
    demo_rodata (boot_state a) eq_refl (boot_heap a 5 five_pages Hg) boot_shared eq_refl boot_page boot_page_range
    demo_sections_ok) as (i & n & p & s' & Hs & Hi & _ & _ & _ & _ & _ & _ & Hw).
  exists a, i, n, p, s'. split; [exact Ha|]. split; [exact Hs|]. split; [exact Hi|].
  pose proof (Hw 0x402010 demo_data_ordinary) as H1. rewrite demo_data_sees in H1.
  pose proof (Hw 0xC0100010 demo_kernel_ordinary) as H2. rewrite demo_kernel_sees in H2.
  split; [exact H1|exact (H2 demo_scratch _ demo_kernel_walk)].
Defined.

End Spawn.
