(* ===== verification/Ready.v ===== *)
(** Handing a thread to a processor (sched_thread_ready of kernel/scheduler.c on
    kernel/list.c, kernel/memory.c, kernel/util.c and kernel/screen.c).

    The message on the console, the list element from the kernel's heap, and the
    push to the queue that the scheduler found. *)

From Stdlib Require Import ZArith Lia.
From stdpp Require Import base option list gmap.
From S2P Require Import Prelude Interfaces Locks Palloc Strings Paging Stream Timer Thread Scheduler.
From S2P Require Import Kmalloc Memory Screen Interrupts Process System Dirs.

Module Ready.
Import Thread System Dirs Paging.

(** "Adding thread:%x to sched:[%x]\n" with its arguments. *)
Definition ready_pieces (thread target : Z) : list Strings.piece :=
  (Strings.Lit <$> [65; 100; 100; 105; 110; 103; 32; 116; 104; 114; 101; 97; 100; 58]) ++
  [Strings.Hex thread] ++
  (Strings.Lit <$> [32; 116; 111; 32; 115; 99; 104; 101; 100; 58; 91]) ++
  [Strings.Hex target] ++ (Strings.Lit <$> [93; 10]).

Definition ready_format : list Z := concat (Strings.format_of <$> ready_pieces 0 0).

(** The message can be printed: the format is at [fmt], and the 128 bytes of [buf]
    are there and apart from it. *)
Record message_at (m : Strings.mem8) (fmt buf : Z) : Prop := {
  ms_format : Strings.cstr m fmt ready_format;
  ms_buffer : Strings.writable m buf 128;
  ms_apart : Strings.outside fmt ready_format buf 128
}.

Lemma cstr_kept (m m' : Strings.mem8) p s :
  (∀ a, p ≤ a ≤ p + Z.of_nat (length s) → m' !! a = m !! a) → Strings.cstr m p s → Strings.cstr m' p s.
Proof.
  revert p. induction s as [|x s IH]; intros p Hk; cbn [Strings.cstr length] in *.
  - intros H0. rewrite Hk by lia. exact H0.
  - intros (Hx & Hok & Hr). split; [rewrite Hk by lia; exact Hx|]. split; [exact Hok|].
    apply IH; [|exact Hr]. intros a Ha. apply Hk. lia.
Qed.

Lemma ready_ok thread target :
  0 ≤ thread < 2 ^ 32 → 0 ≤ target < MAX_CPU → Forall Strings.piece_ok (ready_pieces thread target).
Proof.
  intros Ht Hc. change MAX_CPU with 8 in Hc. unfold ready_pieces. cbn [fmap list_fmap app].
  repeat (apply Forall_cons_2; [simpl; unfold Strings.char_ok; lia|]). apply Forall_nil_2.
Qed.

Lemma print_ready fuel m fmt buf thread target sc :
  message_at m fmt buf → 0 ≤ thread < 2 ^ 32 → 0 ≤ target < MAX_CPU → (50 < fuel)%nat →
  Screen.console_ok sc →
  ∃ m' outs, Strings.kprintf fuel m buf fmt [thread; target] = Ok (buf, m') ∧
    Forall2 Strings.prints (ready_pieces thread target) outs ∧ Strings.changed buf 128 m m' ∧
    Screen.screen_putstr fuel m' buf sc = Ok (Screen.typed (concat outs) sc) ∧
    Screen.console_ok (Screen.typed (concat outs) sc).
Proof.
  intros [Hf Hw Ho] Ht Hc Hfuel Hsc.
  apply (Screen.message_ok fuel 1 buf 128 fmt (ready_pieces thread target) m sc); try done.
  - by apply ready_ok.
  - unfold ready_pieces. cbn [fmap list_fmap app].
    repeat (apply Forall_cons_2; [exact I|]). apply Forall_nil_2.
  - change (length (ready_pieces thread target)) with 29%nat. lia.
  - change (Z.to_nat (Strings.room (ready_pieces thread target))) with 47%nat. lia.
Qed.

Section Elements.
Context {F : Type} `{FrameAlloc F} {M : Type} `{QueueStore (Z * Z) M}.
Notation sys := (sys (F := F) (M := M)).

Definition elements (st : sys) : Z → Prop := qelem (Scheduler.queues (sched st)).

(** The kernel's heap and tables between two states, with room for one
    allocation less; [n] is another directory in use. *)
Record heap_step (c : Z) (live live' : Z → Prop) (j : nat) (n : Z) (st st' : sys) : Prop := {
  hs_heap : heap_on c live' j st';
  hs_live a : live a → live' a;
  hs_elems a : elements st' a → live' a;
  hs_carried : carried 2 n (vm_on c st) (vm_on c st');
  hs_table : table st' = table st;
  hs_plock : plock st' = plock st;
  hs_threads : threads_of st' = threads_of st;
  hs_world : world_of st' = world_of st;
  hs_ints : ints st' = ints st;
  hs_handlers : handlers st' = handlers st;
  hs_dirs c' : Scheduler.c_pdir (Scheduler.cpu_of c' (sched st')) =
               Scheduler.c_pdir (Scheduler.cpu_of c' (sched st))
}.

Lemma heap_ok_fewer live j (h : Memory.memory (F := F)) m :
  Memory.heap_ok live (Datatypes.S j) h m → Memory.heap_ok live j h m.
Proof.
  intros Hh. pose proof Hh as (ls & pool & Hr). pose proof (Memory.hr_room _ _ _ _ _ _ Hr) as Hroom.
  pose proof (heap_ok_vm live (Datatypes.S j) j h m (Memory.vm (Memory.area h)) Hh ltac:(lia)
    (Memory.room_inv _ _ Hroom)) as Hf.
  destruct h as [[hp v] lk sts al]. apply Hf. apply (frames_left_le (2 * Datatypes.S j)); [lia|].
  exact (Memory.room_frames _ _ Hroom).
Qed.

(** After [new_element] the queue has a spare element, which is a fresh object
    of the kernel's heap or was there before. *)
Lemma new_element_ok c live j n k (st : sys) :
  0 ≤ c < MAX_CPU → heap_on c live (Datatypes.S j) st → two_dirs (vm_on c st) n →
  qok (Scheduler.queues (sched st)) → (∀ a, elements st a → live a) →
  ∃ st' live', new_element c k st = Ok st' ∧ heap_step c live live' j n st st' ∧
    qok (Scheduler.queues (sched st')) ∧ qspare k (Scheduler.queues (sched st')) = true ∧
    (∀ k', qitems (Scheduler.queues (sched st')) k' = qitems (Scheduler.queues (sched st)) k') ∧
    Scheduler.scheds (sched st') = Scheduler.scheds (sched st) ∧ console st' = console st ∧
    ∀ a, live a → bytes st' !! a = bytes st !! a.
Proof.
  intros Hc Hh Htd Hq Hel. unfold new_element. destruct (qspare k (Scheduler.queues (sched st))) eqn:Hsp.
  { exists st, live. split; [done|]. split; [|done]. split; try done; [by apply heap_ok_fewer|].
    destruct (carried_refl 0 n (vm_on c st) Htd) as [H1 H2 H3 H4 H5 H6]. split; try done.
    by apply (kept_weaken 0); [lia|]. }
  destruct (Memory.NEW_page live j ELEM_SIZE _ _ ltac:(split; [done|by rewrite PAGE_SIZE_eq]) Hh)
    as (p & h & m & Hn & Hb & Hh').
  assert (Hn' : Process.NEW ELEM_SIZE (process_view c st) = Ok (p, Process.set_mem h m (process_view c st))).
  { unfold Process.NEW. cbn [Process.mem Process.bytes process_view]. by rewrite (bind_ok _ _ _ Hn). }
  pose proof (NEW_carried n j live ELEM_SIZE p _ _ _ _ Hh Htd Hn) as Hca.
  destruct (on_process_ok c _ _ _ st Hc Hn') as (st1 & Ho & Hv & Hk & Hst).
  pose proof (on_process_dirs c _ _ _ st st1 Hc Hn' Ho) as Hd. rewrite (bind_ok _ _ _ Ho). cbv iota beta.
  destruct Hb as [Hp0 _ _ _ Hsame Hfresh].
  assert (Hpn : ¬ qelem (Scheduler.queues (sched st1)) p).
  { rewrite (sk_queues _ _ Hk). intros Hin. apply (Hfresh p); [split; [lia|change ELEM_SIZE with 8; lia]|].
    by apply Hel. }
  destruct (qgive_spec k p (Scheduler.queues (sched st1))) as (q & Hg & Hqok & Hqs & Hqi & Hqe);
    [by rewrite (sk_queues _ _ Hk)|lia|done|].
  rewrite (bind_ok _ _ _ Hg). eexists _, (λ a, live a ∨ p ≤ a < p + ELEM_SIZE).
  split; [reflexivity|]. set (st2 := set_sched _ st1).
  assert (Hview : process_view c st2 = Process.set_mem h m (process_view c st)) by exact Hv.
  assert (Hvm : vm_on c st2 = Memory.vm (Memory.area h)).
  { change (Process.vm_of (process_view c st2) = Memory.vm (Memory.area h)). by rewrite Hview. }
  split; [split|split; [done|split; [done|split; [|split; [|split]]]]].
  - unfold heap_on. change (Memory.heap_ok (λ a, live a ∨ p ≤ a < p + ELEM_SIZE) j
      (Process.mem (process_view c st2)) (Process.bytes (process_view c st2))). by rewrite Hview.
  - by left.
  - unfold elements. cbn [sched set_sched st2 Scheduler.set_queues Scheduler.queues].
    intros a Ha. apply Hqe in Ha as [Ha| ->]; [|right; change ELEM_SIZE with 8; lia].
    left. apply Hel. unfold elements. by rewrite <- (sk_queues _ _ Hk).
  - rewrite Hvm. exact Hca.
  - exact (f_equal Process.table Hview).
  - exact (f_equal Process.plock Hview).
  - exact (f_equal Process.threads Hview).
  - change (world_of st2) with (world_of st1). pose proof (f_equal Process.procs Hview) as Hpr.
    change (procs (world_of st1) = procs (world_of st)) in Hpr. pose proof (sk_ticks _ _ Hk) as Ht.
    unfold streams_of in Hst. destruct (world_of st1), (world_of st). cbn in *. congruence.
  - exact (sk_ints _ _ Hk).
  - exact (sk_handlers _ _ Hk).
  - intros c'. change (sched st2) with (Scheduler.set_queues q (sched st1)).
    change (Scheduler.cpu_of c' (Scheduler.set_queues q (sched st1))) with (Scheduler.cpu_of c' (sched st1)).
    rewrite Hd. case_decide as Hcc; [|done]. subst c'.
    change (Process.vm_of (Process.set_mem h m (process_view c st))) with (Memory.vm (Memory.area h)).
    exact (ca_cr3 _ _ _ _ Hca).
  - intros k'. change (qitems q k' = qitems (Scheduler.queues (sched st)) k'). by rewrite Hqi, (sk_queues _ _ Hk).
  - exact (sk_scheds _ _ Hk).
  - exact (sk_console _ _ Hk).
  - intros a Ha. pose proof (f_equal Process.bytes Hview) as Hbs.
    change (bytes st2 = m) in Hbs. rewrite Hbs. apply Hsame. intros Hin. by apply (Hfresh a Hin).
Qed.

(** The schedulers look at what the queues hold, not at what they are made of. *)
Lemma wf_items c' (k k' : Scheduler.kstate M) :
  Scheduler.scheds k' = Scheduler.scheds k → Scheduler.threads k' = Scheduler.threads k →
  Scheduler.wld k' = Scheduler.wld k → qok (Scheduler.queues k') →
  (∀ j, qitems (Scheduler.queues k') j = qitems (Scheduler.queues k) j) →
  (∀ i, Scheduler.c_pdir (Scheduler.cpu_of i k') = Scheduler.c_pdir (Scheduler.cpu_of i k)) →
  Scheduler.cpu_threads c' k' = Scheduler.cpu_threads c' k ∧
  (Scheduler.sched_wf c' k → Scheduler.sched_wf c' k').
Proof.
  intros Hs Ht Hw Hq Hi Hd.
  assert (Hthis : Scheduler.this c' k' = Scheduler.this c' k) by (unfold Scheduler.this; by rewrite Hs).
  assert (Hque : ∀ p, Scheduler.queue k' c' p = Scheduler.queue k c' p) by (intros p; apply Hi).
  assert (Hok : ∀ x prio, Scheduler.thread_ok k x prio → Scheduler.thread_ok k' x prio)
    by (intros x prio; unfold Scheduler.thread_ok; by rewrite Ht, Hw).
  assert (Hthr : Scheduler.cpu_threads c' k' = Scheduler.cpu_threads c' k).
  { unfold Scheduler.cpu_threads, Scheduler.cur_list, Scheduler.queued. rewrite Hthis. f_equal.
    symmetry. apply flat_map_same. intros x _. symmetry. apply Hque. }
  split; [exact Hthr|]. intros [H1 H2 H3 H4 H5 H6 H7 H8 H9]. split; rewrite ?Hthis, ?Ht; try done.
  - by rewrite Hque.
  - destruct H4 as [Hn [prio Hp]]. split; [done|]. exists prio. by apply Hok.
  - destruct H6 as [Hn [Hx|(prio & Hpr & Hp)]]; split; try done; [by left|].
    right. exists prio. split; [done|]. by apply Hok.
  - intros prio x Hpr. rewrite Hque. intros Hin. destruct (H7 prio x Hpr Hin). split; [done|by apply Hok].
  - by rewrite Hthr.
  - rewrite Hd, H9. unfold Scheduler.dir_of. by rewrite Ht, Hw.
Qed.

Lemma thread_push_elems c th t (k k' : Scheduler.kstate M) :
  Scheduler.threads k !! th = Some t → qspare (c, priority t) (Scheduler.queues k) = true →
  Scheduler.thread_push c th k = Ok k' →
  ∀ a, qelem (Scheduler.queues k') a ↔ qelem (Scheduler.queues k) a.
Proof.
  intros Ht Hsp Hp a. unfold Scheduler.thread_push in Hp.
  rewrite (Scheduler.get_thread_Some _ _ _ Ht) in Hp. cbn [mbind res_bind] in Hp.
  case_bool_decide; [|done]. apply res_bind_Ok in Hp as (m & Hm & Hp).
  apply res_bind_Ok in Hp as (s & _ & Hp). unfold Scheduler.set_sched in Hp.
  apply res_bind_Ok in Hp as (ss & _ & [= <-]). cbn [Scheduler.queues Scheduler.set_queues].
  exact (qpush_elems _ _ _ _ Hsp Hm a).
Qed.

(** A message on the console and the thread at the end of its queue. *)
Record made_ready (c : Z) (fmt buf t p : Z) (live live' : Z → Prop) (j : nat) (n : Z)
    (outs : list (list Z)) (st st' : sys) : Prop := {
  mr_step : heap_step c live live' j n st st';
  mr_prints : Forall2 Strings.prints (ready_pieces t (Scheduler.scheduler_find (sched st))) outs;
  mr_console : console st' = Screen.typed (concat outs) (console st);
  mr_ok : Screen.console_ok (console st');
  mr_bytes a : live a → ¬ (buf ≤ a < buf + 128) → bytes st' !! a = bytes st !! a;
  mr_buffer : Strings.writable (bytes st') buf 128;
  mr_wf c' : Scheduler.sched_wf c' (sched st) → Scheduler.sched_wf c' (sched st');
  mr_queue c' p' : Scheduler.queue (sched st') c' p' = Scheduler.queue (sched st) c' p' ++
    if decide ((c', p') = (Scheduler.scheduler_find (sched st), p)) then [t] else [];
  mr_scheds c' : Scheduler.current_thread (Scheduler.this c' (sched st')) =
           Scheduler.current_thread (Scheduler.this c' (sched st)) ∧
       Scheduler.started (Scheduler.this c' (sched st')) =
       Scheduler.started (Scheduler.this c' (sched st)) ∧
       (length (Scheduler.cpu_threads c' (sched st')) ≤
        length (Scheduler.cpu_threads c' (sched st)) + 1)%nat
}.

Lemma sched_thread_ready_ok fuel fmt buf c live j n t p (st : sys) :
  let target := Scheduler.scheduler_find (sched st) in
  0 ≤ c < MAX_CPU → message_at (bytes st) fmt buf → (∀ a, buf ≤ a < buf + 128 → live a) →
  Screen.console_ok (console st) → (50 < fuel)%nat → 0 < t < 2 ^ 32 →
  Scheduler.sched_wf target (sched st) → Scheduler.thread_ok (sched st) t p → 0 ≤ p < MAX_PRIORITY →
  t ≠ Scheduler.idle_thread (Scheduler.this target (sched st)) →
  Z.of_nat (length (Scheduler.cpu_threads target (sched st))) + 1 < 2 ^ 31 - 1 →
  heap_on c live (Datatypes.S j) st → two_dirs (vm_on c st) n → (∀ a, elements st a → live a) →
  ∃ st' live' outs, sched_thread_ready fuel fmt buf c t st = Ok st' ∧
    made_ready c fmt buf t p live live' j n outs st st'.
Proof.
  intros target Hc Hms Hbl Hsc Hfuel Ht Hwf Htok Hp Hid Hroom Hh Htd Hel.
  destruct (Scheduler.scheduler_find_least (sched st)) as (_ & Htc & _). fold target in Htc.
  destruct (print_ready fuel (bytes st) fmt buf t target (console st) Hms ltac:(lia) Htc Hfuel Hsc)
    as (m & outs & Hk & Hpr & Hch & Hput & Hsc').
  set (st1 := set_console (Screen.typed (concat outs) (console st)) (set_memory (mem st) m st)).
  destruct (new_element_ok c live j n (target, p) st1 Hc) as (st2 & live' & He & Hstep & Hqok & Hsp & Hqi &
    Hss & Hco & Hby); [exact (Memory.heap_ok_changed _ _ _ _ _ _ _ Hch Hh)|exact Htd|
    exact (Scheduler.wf_queues _ _ Hwf)|exact Hel|].
  pose proof Hstep as [Hheap Hlv Hle Hca Htb Hpl Hth Hwo Hin Hha Hdi].
  assert (Hitems : ∀ c', Scheduler.cpu_threads c' (sched st2) = Scheduler.cpu_threads c' (sched st) ∧
    (Scheduler.sched_wf c' (sched st) → Scheduler.sched_wf c' (sched st2))).
  { intros c'. by apply wf_items. }
  assert (Hthis : ∀ c', Scheduler.this c' (sched st2) = Scheduler.this c' (sched st))
    by (intros c'; unfold Scheduler.this; by rewrite Hss).
  destruct (Scheduler.thread_push_ok target (sched st2) t p) as (k & Hpush & Hkw & Hkq & _ & Hks & Hkt & Hkc & Hkd);
    [by apply Hitems|lia|done| |by rewrite Hthis|by rewrite (proj1 (Hitems _))|].
  { destruct Htok as (th & H1 & H2 & H3 & H4). exists th. unfold threads_of, world_of in Hth, Hwo.
    change (sched st1) with (sched st) in Hth, Hwo. by rewrite Hth, Hwo. }
  destruct Htok as (th & Hth1 & Hpri & _).
  assert (Hlook : Scheduler.threads (sched st2) !! t = Some th)
    by (unfold threads_of in Hth; by rewrite Hth).
  assert (Hels : ∀ a, elements (set_sched k st2) a ↔ elements st2 a).
  { intros a. apply (thread_push_elems target t th); [done|by rewrite Hpri|done]. }
  exists (set_sched k st2), live', outs. split.
  { unfold sched_thread_ready. fold target. rewrite (bind_ok _ _ _ Hk). cbv iota beta.
    rewrite (bind_ok _ _ _ Hput). cbv zeta. fold st1.
    rewrite (bind_ok _ _ _ (Scheduler.get_thread_Some t th (sched st1) Hth1)).
    rewrite Hpri, (bind_ok _ _ _ He). by rewrite (bind_ok _ _ _ Hpush). }
  assert (Hdirs : ∀ c', Scheduler.c_pdir (Scheduler.cpu_of c' k) = Scheduler.c_pdir (Scheduler.cpu_of c' (sched st))).
  { intros c'. unfold Scheduler.cpu_of at 1. rewrite Hkc. apply Hdi. }
  assert (Hvm : vm_on c (set_sched k st2) = vm_on c st2).
  { unfold vm_on. cbn [sched set_sched mem]. unfold Scheduler.cpu_of. by rewrite Hkc. }
  split; [split|..].
  - unfold heap_on. rewrite Hvm. exact Hheap.
  - exact Hlv.
  - intros a Ha. by apply Hle, Hels.
  - rewrite Hvm. exact Hca.
  - exact Htb.
  - exact Hpl.
  - unfold threads_of. cbn [sched set_sched]. rewrite Hkt. exact Hth.
  - unfold world_of. cbn [sched set_sched]. rewrite Hkd. exact Hwo.
  - exact Hin.
  - exact Hha.
  - exact Hdirs.
  - exact Hpr.
  - exact Hco.
  - change (console (set_sched k st2)) with (console st2). by rewrite Hco.
  - intros a Ha Hb. change (bytes st2 !! a = bytes st !! a). rewrite (Hby a Ha). by apply (proj1 Hch).
  - intros a Ha. change (is_Some (bytes st2 !! a)). rewrite (Hby a (Hbl a Ha)).
    apply (proj2 Hch). by apply (ms_buffer _ _ _ Hms).
  - intros c' Hw. by apply Hkw, Hitems.
  - intros c' p'. cbn [sched set_sched]. rewrite Hkq. f_equal. apply Hqi.
  - intros c'. cbn [sched set_sched]. rewrite <- Hthis, <- (proj1 (Hitems c')). apply Hks.
Qed.

End Elements.
End Ready.
