(* ===== verification/Loading.v ===== *)
(** Loading a program (kernel/elf.c on the kernel).

    [elf_load] from the image in memory to the thread in a scheduler's queue:
    the sections the parser keeps, the process and its page directory, the
    first thread with its two stacks and the context it returns to.  The state
    that it leaves is one in which the next image can be loaded. *)

From Stdlib Require Import ZArith Lia.
From stdpp Require Import base option list gmap.
From S2P Require Import Prelude Interfaces Locks Palloc Strings Paging Stream Timer Thread Scheduler.
From S2P Require Import Kmalloc Memory Screen Interrupts Isr Process System Elf Mboot Dirs Spawn Ready.

Module Loading.
Import Thread System Elf Dirs Ready.

(** ** The schedulers do not see a new process and its thread *)

Section Schedulers.
Context {M : Type} `{QueueStore (Z * Z) M}.
Notation kstate := (Scheduler.kstate M).

(** [k'] knows a process at [p] and a thread at [t] that [k] does not. *)
Record extended (p t : Z) (k k' : kstate) : Prop := {
  ex_scheds : Scheduler.scheds k' = Scheduler.scheds k;
  ex_queues : Scheduler.queues k' = Scheduler.queues k;
  ex_dirs c : Scheduler.c_pdir (Scheduler.cpu_of c k') = Scheduler.c_pdir (Scheduler.cpu_of c k);
  ex_ticks : ticks (Scheduler.wld k') = ticks (Scheduler.wld k);
  ex_streams : streams (Scheduler.wld k') = streams (Scheduler.wld k);
  ex_procs : ∃ pr, procs (Scheduler.wld k') = <[p := pr]> (procs (Scheduler.wld k));
  ex_threads : ∃ th, Scheduler.threads k' = <[t := th]> (Scheduler.threads k);
  ex_new_proc : procs (Scheduler.wld k) !! p = None;
  ex_new_thread : Scheduler.threads k !! t = None
}.

Lemma ready_extended p t (k k' : kstate) th :
  extended p t k k' → is_Some (procs (Scheduler.wld k) !! parent th) →
  ready (Scheduler.wld k') th = ready (Scheduler.wld k) th.
Proof.
  intros [_ _ _ Hti Hst [pr Hpr] _ Hnp _] Hpar.
  unfold ready. case_bool_decide; [done|]. unfold run_event.
  destruct (event th); rewrite ?Hti; try done; unfold stream_select_event, stream_read_event,
    stream_write_event, get_proc; rewrite ?Hst; try done.
  rewrite Hpr, lookup_insert_ne; [done|]. intros ->. rewrite Hnp in Hpar. by destruct Hpar.
Qed.

Lemma thread_ok_extended p t (k k' : kstate) x prio :
  extended p t k k' → Scheduler.thread_ok k x prio → Scheduler.thread_ok k' x prio.
Proof.
  intros He (th & Hth & Hp & Hpar & b & Hb). destruct (ex_threads _ _ _ _ He) as [nt Hnt].
  destruct (ex_procs _ _ _ _ He) as [pr Hpr].
  exists th. split; [|split; [done|split]].
  - rewrite Hnt, lookup_insert_ne; [done|]. intros ->. by rewrite (ex_new_thread _ _ _ _ He) in Hth.
  - rewrite Hpr, lookup_insert_ne; [done|]. intros Heq. rewrite <- Heq, (ex_new_proc _ _ _ _ He) in Hpar.
    by destruct Hpar.
  - exists b. by rewrite (ready_extended p t k k').
Qed.

Lemma wf_extended p t (k k' : kstate) c :
  extended p t k k' → Scheduler.sched_wf c k → Scheduler.sched_wf c k'.
Proof.
  intros He [Hc Hq Hwait Hidle Hiev Hcur Hqd Hroom Hdir].
  pose proof (ex_scheds _ _ _ _ He) as Hs. pose proof (ex_queues _ _ _ _ He) as Hqs.
  assert (Hthis : Scheduler.this c k' = Scheduler.this c k) by (unfold Scheduler.this; by rewrite Hs).
  assert (Hque : ∀ c p, Scheduler.queue k' c p = Scheduler.queue k c p).
  { intros c' p'. unfold Scheduler.queue. by rewrite Hqs. }
  assert (Hold : ∀ x prio, Scheduler.thread_ok k x prio → Scheduler.threads k' !! x = Scheduler.threads k !! x).
  { intros x prio (th & Hth & _). destruct (ex_threads _ _ _ _ He) as [nt ->].
    apply lookup_insert_ne. intros ->. by rewrite (ex_new_thread _ _ _ _ He) in Hth. }
  assert (Hok := thread_ok_extended p t k k').
  split; rewrite ?Hthis; try done.
  - by rewrite Hqs.
  - by rewrite Hque.
  - destruct Hidle as [Hne [prio Hp]]. split; [done|]. exists prio. by apply Hok.
  - intros th. destruct Hidle as [_ [prio Hp]]. rewrite (Hold _ _ Hp). apply Hiev.
  - destruct Hcur as [Hne Hcase]. split; [done|]. destruct Hcase as [|(prio & Hpr & Hp)]; [by left|].
    right. exists prio. split; [done|]. by apply Hok.
  - intros prio x Hpr. rewrite Hque. intros Hin. destruct (Hqd prio x Hpr Hin) as [Hne Hx].
    split; [done|by apply Hok].
  - unfold Scheduler.cpu_threads, Scheduler.queued, Scheduler.cur_list, Scheduler.queue in *.
    by rewrite Hthis, Hqs.
  - rewrite (ex_dirs _ _ _ _ He), Hdir. unfold Scheduler.dir_of.
    assert (Hcur' : ∃ prio, Scheduler.thread_ok k (Scheduler.current_thread (Scheduler.this c k)) prio).
    { destruct Hcur as [_ [->|(prio & _ & Hp)]]; [by destruct Hidle as [_ Hp]|by exists prio]. }
    destruct Hcur' as [prio Hp]. rewrite (Hold _ _ Hp). destruct Hp as (th & -> & _ & Hpar & _).
    destruct (ex_procs _ _ _ _ He) as [pr ->]. rewrite lookup_insert_ne; [done|].
    intros ->. rewrite (ex_new_proc _ _ _ _ He) in Hpar. by destruct Hpar.
Qed.

End Schedulers.

(** ** A process and its first thread *)

Section Launch.
Context {F : Type} `{FrameAlloc F} (canon : Z → Z) (kdir at_leave : Z).
Notation pstate := (Process.pstate (F := F)).

Definition user_thread (p ks : Z) : thread :=
  Thr p 0 Spawn.USER_STACK ks (ks - 80) at_leave 0 0 NoEvent.

(** The context in which a program starts. *)
Definition start_regs (entry : Z) : Isr.registers :=
  let sp := Spawn.USER_STACK + PAGE_SIZE - 16 in
  Process.loaded sp 0x23 (Interrupts.regs_init sp entry Interrupts.THREAD_USERSPACE).

(** The page a thread's kernel stack is in. *)
Definition stack_page (th : thread) (a : Z) : Prop :=
  kernel_stack th - (PAGE_SIZE - 16) ≤ a < kernel_stack th + 16.

Definition section_list (x : sections) : list proc_section :=
  [s_text x; s_data x; s_bss x; s_rodata x].

(** What a process finds at an address: its stack, a section, or what the
    kernel has there. *)
Definition finds (v : Paging.mm F) (x : sections) (q va pa : Z) : Prop :=
  if decide (same_page canon va Spawn.USER_STACK) then pa = PAGE_SIZE * q + va mod 4096
  else match Spawn.sees canon (section_list x) va with
       | Some a => pa = a
       | None => ¬ Spawn.scratch canon va ∧ Paging.walk (Paging.ram v) kdir va = Some pa
       end.

(** From [s] to [s'] a process at [p] with the id [i], the sections [x] and the
    directory in frame [n] appears, and its thread [th] at [t] with its stack in
    frame [q]; of the bytes in use, [live], only those of [own] change.
    Afterwards [live'] is in use, with room for [k] more allocations. *)
Record launched (own live live' : Z → Prop) (k : nat) (x : sections) (entry : Z) (s s' : pstate)
    (i p t n q : Z) (th : thread) : Prop := {
  la_slot : Process.slot_for (Process.table s) i;
  la_table : Process.table s' = <[i := p]> (Process.table s);
  la_procs : Process.procs s' = <[p := Proc i (s_text x) (s_data x) (s_bss x) (s_rodata x)
    (PAGE_SIZE * n) ∅ ∅]> (Process.procs s);
  la_threads : Process.threads s' = <[t := th]> (Process.threads s);
  la_thread : th = user_thread p (kernel_stack th);
  la_context ss : Process.leave_kernel ss (esp th) (Process.bytes s') = Ok (start_regs entry);
  la_lock : Process.plock s' = 0;
  la_fresh : 0 < t < 2 ^ 32 ∧ ¬ live p ∧ ¬ live t;
  la_stack a : stack_page th a → ¬ live a;
  la_bytes a : live a → ¬ own a → Process.bytes s' !! a = Process.bytes s !! a;
  la_live a : live a ∨ a = p ∨ a = t ∨ stack_page th a → live' a;
  la_heap : Memory.heap_ok live' k (Process.mem s') (Process.bytes s');
  la_frames : frame_free (Paging.frames (Process.vm_of s)) n ∧
    frame_free (Paging.frames (Process.vm_of s)) q ∧ n ≠ q;
  la_cr3 : Paging.cr3 (Process.vm_of s') = kdir;
  la_two : Paging.two_dirs (Process.vm_of s') n;
  la_shared : Paging.shared_as canon (Process.vm_of s');
  la_space va pa : ordinary va → finds (Process.vm_of s) x q va pa →
    Paging.walk (Paging.ram (Process.vm_of s')) (PAGE_SIZE * n) va = Some pa
}.

Lemma launch live k kn (x : sections) entry (s : pstate) :
  Process.plock s = 0 → Memory.heap_ok live (k + 8) (Process.mem s) (Process.bytes s) →
  Paging.shared_as canon (Process.vm_of s) → Paging.cr3 (Process.vm_of s) = kdir →
  kdir = PAGE_SIZE * kn → 0 ≤ kn < PAGES → Forall Spawn.section_ok (section_list x) →
  0 ≤ entry < 2 ^ 32 →
  ∃ i p t n q th live' s1 s2,
    Process.proc_create kdir (s_text x) (s_data x) (s_bss x) (s_rodata x) s = Ok (p, s1) ∧
    Process.thread_create kdir at_leave p entry Interrupts.THREAD_USERSPACE s1 = Ok (t, s2) ∧
    launched (λ _, False) live live' k x entry s s2 i p t n q th.
Proof.
  intros Hlock Hh Hu Hcr Hkd Hkn Hx He.
  assert (Hh' : Memory.heap_ok live ((k + 3) + 5) (Process.mem s) (Process.bytes s)).
  { by replace (k + 3 + 5)%nat with (k + 8)%nat by lia. }
  destruct (Spawn.proc_create_ok canon kdir live (k + 3) kn (s_text x) (s_data x) (s_bss x) (s_rodata x)
    s Hlock Hh' Hu Hcr Hkd Hkn Hx) as (i & n & p & s1 & H1 & Hslot & Ht1 & Hp1 & Hth1 & Hl1 & Hb1 & Hh1 &
      Hn & Hfree & Hc1 & Htd1 & Hu1 & Huo1 & Hw1).
  destruct (Spawn.thread_create_user canon kdir at_leave _ k kn n p
    (Proc i (s_text x) (s_data x) (s_bss x) (s_rodata x) (PAGE_SIZE * n) ∅ ∅) entry s1 Hh1)
    as (t & q & s2 & th & H2 & Hth2 & Hp2 & Ht2 & Hl2 & Hth & Hctx & Ht0 & Hby & Hh2 & Hq & Hc2 & Htd2 &
      Hu2 & _ & Hw2); [by rewrite Hp1, lookup_insert_eq|done..|].
  assert (Hsz : ∀ a b, 0 < b → a ≤ a < a + b) by (intros; lia).
  exists i, p, t, n, q, th.
  match type of Hh2 with Memory.heap_ok ?used _ _ _ => exists used, s1, s2 end. split; [exact H1|]. split; [exact H2|]. split.
  - done.
  - by rewrite Ht2.
  - by rewrite Hp2.
  - by rewrite Hth2, Hth1.
  - exact Hth.
  - intros ss. apply Hctx.
  - by rewrite Hl2.
  - split; [done|]. split; [apply (Memory.fb_fresh _ _ _ _ _ Hb1); apply Hsz; reflexivity|].
    intros Hlive. apply (proj1 (Hby t (or_introl Hlive))). left. apply Hsz. reflexivity.
  - intros a Ha Hla. apply (proj1 (Hby a (or_introl Hla))). right. unfold stack_page in Ha.
    rewrite PAGE_SIZE_eq in *. lia.
  - intros a Ha _. rewrite (proj2 (Hby a (or_introl Ha))). apply (Memory.fb_same _ _ _ _ _ Hb1).
    intros Hin. by apply (Memory.fb_fresh _ _ _ _ _ Hb1 a Hin).
  - intros a [Ha|[-> |[-> |Ha]]].
    + by left; left.
    + left; right. apply Hsz. reflexivity.
    + right; left. apply Hsz. reflexivity.
    + right; right. unfold stack_page in Ha. rewrite PAGE_SIZE_eq in *. lia.
  - exact Hh2.
  - split; [done|]. split; [by apply Hfree|]. intros ->. exact (proj1 (proj2 (Paging.td_foreign _ _ Htd1)) Hq).
  - done.
  - done.
  - done.
  - intros va pa Hva Hf. apply Hw2; [done|]. unfold finds in Hf. case_decide; [done|].
    pose proof (Hw1 va Hva) as Hw. fold (section_list x) in Hw.
    destruct (Spawn.sees canon (section_list x) va) as [a|]; [by subst|]. destruct Hf as [Hs Hf]. by apply Hw.
Qed.

End Launch.

(** ** Loading an image *)

Section Load.
Context {F : Type} `{FrameAlloc F} {M : Type} `{QueueStore (Z * Z) M}.
Context (canon : Z → Z) (kdir at_leave : Z) (lit : literals).
Notation sys := (sys (F := F) (M := M)).

(** Every thread, every process and every element of a list is an object in use. *)
Definition objects_live (live : Z → Prop) (st : sys) : Prop :=
  ∀ a, is_Some (threads_of st !! a) ∨ is_Some (procs_of st !! a) ∨ elements st a → live a.

(** The buffer of the message. *)
Definition in_buffer (a : Z) : Prop := l_buf lit ≤ a < l_buf lit + 128.

Lemma launched_extended own live live' k x entry c (st st' : sys) i p t n q th :
  launched canon kdir at_leave own live live' k x entry (process_view c st) (process_view c st') i p t n q th →
  same_kernel st st' → streams_of st' = streams_of st → objects_live live st →
  (∀ c', Scheduler.c_pdir (Scheduler.cpu_of c' (sched st')) =
         Scheduler.c_pdir (Scheduler.cpu_of c' (sched st))) →
  extended p t (sched st) (sched st').
Proof.
  intros Hl [Hs Hq Ht _ _ _] Hst Hob Hd.
  destruct Hl as [_ _ Hpr Hth _ _ _ (_ & Hp & Ht') _ _ _ _ _ _ _ _ _].
  split; [done|done|done|done|done|by eexists|by eexists| |].
  - destruct (procs_of st !! p) eqn:E; [|done]. destruct Hp. apply Hob. right; left. by rewrite E.
  - destruct (threads_of st !! t) eqn:E; [|done]. destruct Ht'. apply Hob. left. by rewrite E.
Qed.

(** Two runs of process.c, one after the other. *)
Lemma on_process_two {A B} c (f : Process.pstate (F := F) → res (A * Process.pstate (F := F)))
    (g : A → Process.pstate (F := F) → res (B * Process.pstate (F := F))) a b s1 s2 (st : sys) :
  0 ≤ c < MAX_CPU → f (process_view c st) = Ok (a, s1) → g a s1 = Ok (b, s2) →
  ∃ st1 st2, on_process c f st = Ok (a, st1) ∧ on_process c (g a) st1 = Ok (b, st2) ∧
    process_view c st2 = s2 ∧ same_kernel st st2 ∧ streams_of st2 = streams_of st ∧
    ∀ c', Scheduler.c_pdir (Scheduler.cpu_of c' (sched st2)) =
      if decide (c' = c) then Paging.cr3 (Process.vm_of s2)
      else Scheduler.c_pdir (Scheduler.cpu_of c' (sched st)).
Proof.
  intros Hc Hf Hg. destruct (on_process_ok c f a s1 st Hc Hf) as (st1 & H1 & Hv1 & Hk1 & Hs1).
  pose proof (on_process_dirs c f a s1 st st1 Hc Hf H1) as Hd1. rewrite <- Hv1 in Hg.
  destruct (on_process_ok c (g a) b s2 st1 Hc Hg) as (st2 & H2 & Hv2 & Hk2 & Hs2).
  pose proof (on_process_dirs c (g a) b s2 st1 st2 Hc Hg H2) as Hd2.
  exists st1, st2. split; [done|]. split; [done|]. split; [done|].
  split; [exact (same_kernel_trans _ _ _ Hk1 Hk2)|]. split; [by rewrite Hs2|].
  intros c'. rewrite Hd2, Hd1. by case_decide.
Qed.

(** The new thread may go to a queue. *)
Lemma launched_ready own live live' k x entry c (st st' : sys) i p t n q th :
  launched canon kdir at_leave own live live' k x entry (process_view c st) (process_view c st') i p t n q th →
  Scheduler.thread_ok (sched st') t 0.
Proof.
  intros [_ _ Hpr Hths Hth _ _ _ _ _ _ _ _ _ _ _ _]. exists th.
  split; [|split; [by rewrite Hth|split]].
  - change (Process.threads (process_view c st') !! t = Some th). rewrite Hths. apply lookup_insert_eq.
  - rewrite Hth. change (is_Some (Process.procs (process_view c st') !! p)).
    rewrite Hpr, lookup_insert_eq. by eexists.
  - exists true. unfold ready. by rewrite Hth.
Qed.

(** The message and the list element leave the program as it is. *)
Lemma launched_later c live live' live2 k x entry (s : Process.pstate (F := F)) (st st' : sys) outs
    i p t n q th :
  launched canon kdir at_leave (λ _, False) live live' (Datatypes.S k) x entry s (process_view c st) i p t n q th →
  (∀ a, in_buffer a → live a) →
  made_ready c (l_ready lit) (l_buf lit) t 0 live' live2 k n outs st st' →
  launched canon kdir at_leave in_buffer live live2 k x entry s (process_view c st') i p t n q th.
Proof.
  intros [L1 L2 L3 L4 L5 L6 L7 L8 L9 L10 L11 L12 L13 L14 L15 L16 L17] Hbuf
    [[H1 H2 _ H4 H5 H6 H7 H8 _ _ _] _ _ _ Hby _ _ _ _].
  destruct H4 as [Ct Cc Ck _ _ Co].
  assert (Hpr : procs_of st' = procs_of st) by (unfold procs_of; by rewrite H8).
  split.
  - done.
  - cbn [Process.table process_view]. by rewrite H5.
  - cbn [Process.procs process_view]. by rewrite Hpr.
  - cbn [Process.threads process_view]. by rewrite H7.
  - done.
  - intros ss. rewrite <- (L6 ss). apply Isr.isr_leave_same. intros a Ha.
    assert (Hsp : stack_page th a).
    { assert (Hesp : esp th = kernel_stack th - 80) by (by rewrite L5).
      unfold stack_page. rewrite PAGE_SIZE_eq. clear - Ha Hesp. lia. }
    apply Hby; [apply L11; tauto|]. intros Hb. by apply (L9 a Hsp), Hbuf.
  - cbn [Process.plock process_view]. by rewrite H6.
  - done.
  - done.
  - intros a Ha Hb. rewrite <- (L10 a Ha (λ Hn, Hn)). apply Hby; [apply L11; by left|done].
  - intros a Ha. by apply H2, L11.
  - exact H1.
  - done.
  - change (Paging.cr3 (vm_on c st') = kdir). rewrite Cc. exact L14.
  - exact Ct.
  - exact (Paging.kept_shared _ _ _ Ck canon L16).
  - intros va pa Hva Hf. apply Co; [done|]. by apply L17.
Qed.

(** The kernel can load the image at [buf] and announce its thread. *)
Record can_load (fuel : nat) (c : Z) (live : Z → Prop) (k : nat) (kn buf entry : Z) (l : list section)
    (st : sys) : Prop := {
  cl_cpu : 0 ≤ c < MAX_CPU;
  cl_fuel : (50 < fuel)%nat;
  cl_names : literals_at (bytes st) lit;
  cl_image : image_at fuel (bytes st) buf entry l;
  cl_entry : 0 ≤ entry < 2 ^ 32;
  cl_sections : Forall Spawn.section_ok (section_list (picked buf l));
  cl_message : message_at (bytes st) (l_ready lit) (l_buf lit);
  cl_buffer a : in_buffer a → live a;
  cl_format a : l_ready lit ≤ a ≤ l_ready lit + Z.of_nat (length ready_format) → live a;
  cl_console : Screen.console_ok (console st);
  cl_lock : plock st = 0;
  cl_heap : heap_on c live (k + 9) st;
  cl_shared : Paging.shared_as canon (vm_on c st);
  cl_dir : Scheduler.c_pdir (Scheduler.cpu_of c (sched st)) = kdir;
  cl_kdir : kdir = PAGE_SIZE * kn ∧ 0 ≤ kn < PAGES;
  cl_objects : objects_live live st;
  cl_sched : Scheduler.sched_wf (Scheduler.scheduler_find (sched st)) (sched st);
  cl_room : Z.of_nat (length (Scheduler.cpu_threads (Scheduler.scheduler_find (sched st)) (sched st)))
              + 1 < 2 ^ 31 - 1
}.

(** The process and the thread of an image, before they are announced. *)
Lemma elf_load_launched fuel c live k kn buf entry l (st : sys) :
  can_load fuel c live k kn buf entry l st →
  ∃ i p t n q th live' st1 st2,
    on_process c (Process.proc_create kdir (s_text (picked buf l)) (s_data (picked buf l))
      (s_bss (picked buf l)) (s_rodata (picked buf l))) st = Ok (p, st1) ∧
    on_process c (Process.thread_create kdir at_leave p entry Interrupts.THREAD_USERSPACE) st1 = Ok (t, st2) ∧
    launched canon kdir at_leave (λ _, False) live live' (Datatypes.S k) (picked buf l) entry
      (process_view c st) (process_view c st2) i p t n q th ∧
    same_kernel st st2 ∧ extended p t (sched st) (sched st2).
Proof.
  intros [Hc _ _ _ He Hx _ _ _ _ Hlock Hh Hu Hd [Hkd Hkn] Hob _ _].
  replace (k + 9)%nat with (Datatypes.S k + 8)%nat in Hh by lia.
  destruct (launch canon kdir at_leave live (Datatypes.S k) kn (picked buf l) entry (process_view c st) Hlock
    Hh Hu Hd Hkd Hkn Hx He) as (i & p & t & n & q & th & live' & s1 & s2 & H1 & H2 & Hl).
  destruct (on_process_two c _ (λ p, Process.thread_create kdir at_leave p entry
    Interrupts.THREAD_USERSPACE) p t s1 s2 st Hc H1 H2)
    as (st1 & st2 & Ho1 & Ho2 & <- & Hk & Hst & Hdirs).
  exists i, p, t, n, q, th, live', st1, st2. do 4 (split; [done|]).
  apply (launched_extended (λ _, False) live live' (Datatypes.S k) (picked buf l) entry c st st2 i p t n q th
    Hl Hk Hst Hob). intros c'. rewrite Hdirs. case_decide as Hcc; [|done].
  rewrite Hcc, Hd. by destruct Hl.
Qed.

(** What [sched_thread_ready] makes of that. *)
Lemma message_after fuel c live live' k kn buf entry l (st st2 : sys) i p t n q th :
  can_load fuel c live k kn buf entry l st →
  launched canon kdir at_leave (λ _, False) live live' (Datatypes.S k) (picked buf l) entry
    (process_view c st) (process_view c st2) i p t n q th →
  same_kernel st st2 → extended p t (sched st) (sched st2) →
  ∃ st' live2 outs, sched_thread_ready fuel (l_ready lit) (l_buf lit) c t st2 = Ok st' ∧
    made_ready c (l_ready lit) (l_buf lit) t 0 live' live2 k n outs st2 st'.
Proof.
  intros [Hc Hfuel _ _ _ _ Hms Hbuf Hfl Hsc _ _ _ _ _ Hob Hwf Hroom] Hl Hk Hext.
  pose proof (launched_ready _ _ _ _ _ _ _ _ _ _ _ _ _ _ _ Hl) as Htok.
  destruct Hl as [_ _ _ _ _ _ _ (Ht & _ & Htf) _ Hby Hlive Hheap _ _ Htwo _ _].
  assert (Hfind : Scheduler.scheduler_find (sched st2) = Scheduler.scheduler_find (sched st)).
  { unfold Scheduler.scheduler_find. by rewrite (ex_scheds _ _ _ _ Hext). }
  assert (Hthis : ∀ c', Scheduler.this c' (sched st2) = Scheduler.this c' (sched st))
    by (intros c'; unfold Scheduler.this; by rewrite (ex_scheds _ _ _ _ Hext)).
  apply sched_thread_ready_ok; rewrite ?Hfind; try done.
  - destruct Hms as [Hf Hw Ho]. split; [|intros a Ha|exact Ho].
    + apply (cstr_kept (bytes st)); [|exact Hf]. intros a Ha.
      change (Process.bytes (process_view c st2) !! a = bytes st !! a). apply Hby; [by apply Hfl|tauto].
    + change (is_Some (Process.bytes (process_view c st2) !! a)). rewrite Hby; [by apply Hw|by apply Hbuf|tauto].
  - intros a Ha. apply Hlive. left. by apply Hbuf.
  - by rewrite (sk_console _ _ Hk).
  - by apply (wf_extended p t (sched st)).
  - rewrite Hthis. intros ->. destruct (Scheduler.wf_idle _ _ Hwf) as [_ (p' & x & Hx & _)].
    by rewrite (ex_new_thread _ _ _ _ Hext) in Hx.
  - unfold Scheduler.cpu_threads, Scheduler.queued, Scheduler.cur_list, Scheduler.queue in *.
    by rewrite Hthis, (ex_queues _ _ _ _ Hext).
  - intros a Ha. apply Hlive. left. apply Hob. do 2 right. unfold elements in *.
    by rewrite (ex_queues _ _ _ _ Hext) in Ha.
Qed.

Lemma elf_load_ok fuel c live k kn buf entry l (st : sys) :
  let x := picked buf l in let target := Scheduler.scheduler_find (sched st) in
  can_load fuel c live k kn buf entry l st →
  ∃ i p t n q th live' outs st', elf_load kdir at_leave lit fuel c buf st = Ok (0, st') ∧
    launched canon kdir at_leave in_buffer live live' k x entry (process_view c st) (process_view c st')
      i p t n q th ∧
    Forall2 Strings.prints (ready_pieces t target) outs ∧
    console st' = Screen.typed (concat outs) (console st) ∧ Screen.console_ok (console st') ∧
    objects_live live' st' ∧ Strings.writable (bytes st') (l_buf lit) 128 ∧
    (∀ c' p', Scheduler.queue (sched st') c' p' =
       Scheduler.queue (sched st) c' p' ++ if decide ((c', p') = (target, 0)) then [t] else []) ∧
    (∀ c', Scheduler.current_thread (Scheduler.this c' (sched st')) =
           Scheduler.current_thread (Scheduler.this c' (sched st)) ∧
       Scheduler.started (Scheduler.this c' (sched st')) =
       Scheduler.started (Scheduler.this c' (sched st)) ∧
       (length (Scheduler.cpu_threads c' (sched st')) ≤
        length (Scheduler.cpu_threads c' (sched st)) + 1)%nat) ∧
    (∀ c', Scheduler.sched_wf c' (sched st) → Scheduler.sched_wf c' (sched st')) ∧
    (∀ c', Scheduler.c_pdir (Scheduler.cpu_of c' (sched st')) =
       Scheduler.c_pdir (Scheduler.cpu_of c' (sched st))) ∧
    ints st' = ints st ∧ handlers st' = handlers st.
Proof.
  intros x target Hcl. destruct (elf_load_launched _ _ _ _ _ _ _ _ _ Hcl)
    as (i & p & t & n & q & th & live' & st1 & st2 & Ho1 & Ho2 & Hl & Hk & Hext).
  destruct (message_after fuel c live live' k kn buf entry l st st2 i p t n q th Hcl Hl Hk Hext)
    as (st' & live2 & outs & Hr & Hm).
  destruct Hcl as [Hc Hfuel Hlit Himg _ _ _ Hbuf _ _ _ _ _ _ _ Hob _ _].
  pose proof (launched_later c live live' live2 k x entry _ st2 st' outs i p t n q th Hl Hbuf Hm) as Hl'.
  assert (Hfind : Scheduler.scheduler_find (sched st2) = target).
  { unfold target, Scheduler.scheduler_find. by rewrite (ex_scheds _ _ _ _ Hext). }
  destruct Hm as [Hstep Hpr Hco Hcok _ Hwr Hw Hq Hcu]. rewrite Hfind in Hpr, Hq.
  assert (Hcons : console st2 = console st) by apply Hk.
  assert (Hthis : ∀ c', Scheduler.this c' (sched st2) = Scheduler.this c' (sched st))
    by (intros c'; unfold Scheduler.this; by rewrite (ex_scheds _ _ _ _ Hext)).
  exists i, p, t, n, q, th, live2, outs, st'. split.
  { unfold elf_load. rewrite (bind_ok _ _ _ (elf_parse_ok fuel (bytes st) lit buf entry l Hlit Himg)).
    cbv iota beta. rewrite (bind_ok _ _ _ Ho1). cbv iota beta. rewrite (bind_ok _ _ _ Ho2).
    cbv iota beta. by rewrite (bind_ok _ _ _ Hr). }
  split; [exact Hl'|]. split; [done|]. split; [by rewrite Hco, Hcons|]. split; [done|].
  destruct Hl' as [_ _ Hprs Hths _ _ _ _ _ _ Hlv _ _ _ _ _ _].
  split; [|split; [exact Hwr|split; [|split; [|split; [|split; [|split]]]]]].
  - intros a [Ha|[Ha|Ha]]; [| |by apply (hs_elems _ _ _ _ _ _ _ Hstep)]; apply Hlv.
    + change (is_Some (Process.threads (process_view c st') !! a)) in Ha. rewrite Hths in Ha.
      destruct (decide (a = t)) as [->|]; [tauto|]. rewrite lookup_insert_ne in Ha by done.
      left. apply Hob. by left.
    + change (is_Some (Process.procs (process_view c st') !! a)) in Ha. rewrite Hprs in Ha.
      destruct (decide (a = p)) as [->|]; [tauto|]. rewrite lookup_insert_ne in Ha by done.
      left. apply Hob. right. by left.
  - intros c' p'. rewrite Hq. f_equal. unfold Scheduler.queue. by rewrite (ex_queues _ _ _ _ Hext).
  - intros c'. rewrite <- Hthis. replace (Scheduler.cpu_threads c' (sched st)) with
      (Scheduler.cpu_threads c' (sched st2)); [apply Hcu|].
    unfold Scheduler.cpu_threads, Scheduler.queued, Scheduler.cur_list, Scheduler.queue.
    by rewrite Hthis, (ex_queues _ _ _ _ Hext).
  - intros c' Hwf. apply Hw. by apply (wf_extended p t (sched st)).
  - intros c'. rewrite (hs_dirs _ _ _ _ _ _ _ Hstep). apply (ex_dirs _ _ _ _ Hext).
  - rewrite (hs_ints _ _ _ _ _ _ _ Hstep). apply Hk.
  - rewrite (hs_handlers _ _ _ _ _ _ _ Hstep). apply Hk.
Qed.

(** C10. [elf_load] makes a program of an image: the process has the sections
    the parser keeps and a directory of its own, in which a mapped address is
    found on the stack at USER_STACK, in a section, or where the kernel has it;
    its first thread starts at the entry point of the header on the top of that
    stack, in user mode, and is the last in the queue of priority 0 of a least
    loaded processor, which a line on the console says.  The schedulers stay well
    formed; of the bytes in use only the buffer of that line changes; the
    kernel's directory is loaded again, and its heap, from which the process, its
    thread and the list element come, has room for [k] more allocations. *)
Theorem elf_load_runs fuel c live k kn buf entry l (st : sys) :
  let x := picked buf l in let target := Scheduler.scheduler_find (sched st) in
  can_load fuel c live k kn buf entry l st →
  ∃ i p t n q th live' outs st', elf_load kdir at_leave lit fuel c buf st = Ok (0, st') ∧
    launched canon kdir at_leave in_buffer live live' k x entry (process_view c st) (process_view c st')
      i p t n q th ∧
    (∀ c' p', Scheduler.queue (sched st') c' p' =
       Scheduler.queue (sched st) c' p' ++ if decide ((c', p') = (target, 0)) then [t] else []) ∧
    (∀ c', Scheduler.current_thread (Scheduler.this c' (sched st')) =
       Scheduler.current_thread (Scheduler.this c' (sched st))) ∧
    (∀ c', Scheduler.sched_wf c' (sched st) → Scheduler.sched_wf c' (sched st')) ∧
    objects_live live' st' ∧ ints st' = ints st ∧ handlers st' = handlers st ∧
    Forall2 Strings.prints (ready_pieces t target) outs ∧
    console st' = Screen.typed (concat outs) (console st).
Proof.
  intros x target Hcl. destruct (elf_load_ok fuel c live k kn buf entry l st Hcl)
    as (i & p & t & n & q & th & live' & outs & st' & Hs & Hl & Hpr & Hco & _ & Hob & _ & Hq & Hcu & Hwf' & _ &
      Hin & Hha).
  exists i, p, t, n, q, th, live', outs, st'. do 3 (split; [done|]). split; [intros c'; apply Hcu|].
  exact (conj Hwf' (conj Hob (conj Hin (conj Hha (conj Hpr Hco))))).
Qed.

End Load.

(** ** Loading all the modules *)

Section Modules.
Context {F : Type} `{FrameAlloc F} {M : Type} `{QueueStore (Z * Z) M}.
Context (canon : Z → Z) (kdir at_leave kn : Z) (lit : literals) (fuel : nat) (c : Z) (image : mem8).
Notation sys := (sys (F := F) (M := M)).

(** A program in memory: where its image is, its entry point and its sections. *)
Record program := Program { image_of : Z; entry_of : Z; sections_of : list section }.

Definition kept_sections (g : program) : sections := picked (image_of g) (sections_of g).

Definition program_ok (g : program) : Prop :=
  image_at fuel image (image_of g) (entry_of g) (sections_of g) ∧ 0 ≤ entry_of g < 2 ^ 32 ∧
  Forall Spawn.section_ok (section_list (kept_sections g)).

(** The message of [sched_thread_ready] can be printed with the format in the
    image and a buffer outside of it. *)
Record announces : Prop := {
  an_format : Strings.cstr image (l_ready lit) ready_format;
  an_apart : Strings.outside (l_ready lit) ready_format (l_buf lit) 128;
  an_buffer a : in_buffer lit a → image !! a = None
}.

(** The kernel's memory is in order, with room for [k] more allocations, and the
    bytes [image], which are in use, are as they were. *)
Record usable (live : Z → Prop) (k : nat) (st : sys) : Prop := {
  us_lock : plock st = 0;
  us_heap : heap_on c live k st;
  us_shared : Paging.shared_as canon (vm_on c st);
  us_dir : Scheduler.c_pdir (Scheduler.cpu_of c (sched st)) = kdir;
  us_objects : objects_live live st;
  us_image : image ⊆ bytes st;
  us_live a : is_Some (image !! a) → live a
}.

(** The kernel can load [r] more programs: the schedulers in use have room for
    their threads too, and the console and the buffer are there to announce them. *)
Record loadable (live : Z → Prop) (k r : nat) (st : sys) : Prop := {
  lo_usable : usable live k st;
  lo_console : Screen.console_ok (console st);
  lo_buffer a : in_buffer lit a → is_Some (bytes st !! a) ∧ live a;
  lo_scheds c' : Scheduler.eligible (Scheduler.scheds (sched st)) c' →
    Scheduler.sched_wf c' (sched st) ∧
    Z.of_nat (length (Scheduler.cpu_threads c' (sched st))) + Z.of_nat r < 2 ^ 31 - 1
}.

(** The programs [gs] were loaded one after the other, and their threads [ts]
    went to the processors they are paired with, each with its line on the
    console. *)
Inductive loads (live : Z → Prop) : list program → list (Z * Z) → sys → sys → Prop :=
| loads_none st : loads live [] [] st st
| loads_one gs ts g live1 live2 k i p t n q th outs st st1 st2 :
    loads live gs ts st st1 → (∀ a, live a → live1 a) →
    launched canon kdir at_leave (in_buffer lit) live1 live2 k (kept_sections g) (entry_of g)
      (process_view c st1) (process_view c st2) i p t n q th →
    Forall2 Strings.prints (ready_pieces t (Scheduler.scheduler_find (sched st1))) outs →
    console st2 = Screen.typed (concat outs) (console st1) →
    loads live (gs ++ [g]) (ts ++ [(Scheduler.scheduler_find (sched st1), t)]) st st2.

Lemma loads_length live gs ts st st' : loads live gs ts st st' → length ts = length gs.
Proof. induction 1; [done|]. rewrite !length_app. simpl. lia. Qed.

(** The threads of [ts] for a queue. *)
Definition placed (ts : list (Z * Z)) (c' p' : Z) : list Z :=
  if decide (p' = 0) then (filter (λ x, x.1 = c') ts).*2 else [].

Lemma placed_snoc ts c0 t c' p' :
  placed (ts ++ [(c0, t)]) c' p' =
  placed ts c' p' ++ if decide ((c', p') = (c0, 0)) then [t] else [].
Proof.
  unfold placed. destruct (decide (p' = 0)) as [->|Hne].
  - rewrite filter_app, fmap_app. f_equal. rewrite filter_cons, filter_nil. simpl.
    repeat case_decide; simplify_eq; done.
  - rewrite decide_False; [done|]. naive_solver.
Qed.

Lemma loadable_can_load live k r g (st : sys) :
  0 ≤ c < MAX_CPU → (50 < fuel)%nat → literals_at image lit → announces → kdir = PAGE_SIZE * kn →
  0 ≤ kn < PAGES → program_ok g → loadable live (k + 9) (S r) st →
  can_load canon kdir lit fuel c live k kn (image_of g) (entry_of g) (sections_of g) st.
Proof.
  intros Hc Hfuel Hlit [Hf Ho Hn] Hkd Hkn (Himg & He & Hx) [[Hlock Hh Hu Hd Hob Him Hil] Hcons Hb Hsc].
  destruct (Scheduler.scheduler_find_least (sched st)) as (Hel & _ & _).
  destruct (Hsc _ Hel) as [Hwf Hroom].
  split; try done; [by apply (literals_at_sub image)|by apply (image_at_sub fuel image)| | | |lia].
  - split; [by apply (cstr_sub image)| |done]. intros a Ha. by apply Hb.
  - intros a Ha. by apply Hb.
  - intros a Ha. apply Hil. replace a with (l_ready lit + Z.of_nat (Z.to_nat (a - l_ready lit))) by lia.
    apply Strings.cstr_bytes in Hf as (Hf & _ & Hend).
    destruct (lookup_lt_is_Some_2 (ready_format ++ [0]) (Z.to_nat (a - l_ready lit))) as [x Hx'];
      [rewrite length_app; cbn [length]; lia|].
    exists x. apply (Process.bytes_at_lookup _ _ (ready_format ++ [0])); [|exact Hx'].
    apply Strings.bytes_app. split; [exact Hf|]. by split.
Qed.

Lemma elf_load_next live k r g (st : sys) :
  0 ≤ c < MAX_CPU → (50 < fuel)%nat → literals_at image lit → announces → kdir = PAGE_SIZE * kn →
  0 ≤ kn < PAGES → program_ok g → loadable live (k + 9) (S r) st →
  ∃ i p t n q th st' live' outs, elf_load kdir at_leave lit fuel c (image_of g) st = Ok (0, st') ∧
    launched canon kdir at_leave (in_buffer lit) live live' k (kept_sections g) (entry_of g)
      (process_view c st) (process_view c st') i p t n q th ∧
    Forall2 Strings.prints (ready_pieces t (Scheduler.scheduler_find (sched st))) outs ∧
    console st' = Screen.typed (concat outs) (console st) ∧
    (∀ c' p', Scheduler.queue (sched st') c' p' = Scheduler.queue (sched st) c' p' ++
       if decide ((c', p') = (Scheduler.scheduler_find (sched st), 0)) then [t] else []) ∧
    loadable live' k r st' ∧ (∀ a, live a ∨ a = t → live' a) ∧ ¬ live t.
Proof.
  intros Hc Hfuel Hlit Han Hkd Hkn Hok Hlo.
  destruct (elf_load_ok canon kdir at_leave lit fuel c live k kn (image_of g) (entry_of g) (sections_of g) st
    (loadable_can_load live k r g st Hc Hfuel Hlit Han Hkd Hkn Hok Hlo))
    as (i & p & t & n & q & th & live' & outs & st' & Hs & Hl & Hpr & Hco & Hcok & Hob & Hwr & Hq & Hcu & Hwf' &
      Hdir & _).
  exists i, p, t, n, q, th, st', live', outs. do 5 (split; [done|]).
  destruct Hl as [_ _ _ _ _ _ Hlk (_ & _ & Htf) _ Hby Hlive Hh' _ _ _ Hsh _].
  split; [|split; [intros a [Ha|Ha]; apply Hlive; tauto|exact Htf]].
  destruct Hlo as [[_ _ _ Hd _ Him Hil] _ Hb Hsc]. split; [split|..].
  - exact Hlk.
  - exact Hh'.
  - exact Hsh.
  - by rewrite Hdir.
  - exact Hob.
  - apply map_subseteq_spec. intros a v Ha. change (Process.bytes (process_view c st') !! a = Some v).
    rewrite Hby; [by apply (lookup_weaken image)|apply Hil; by rewrite Ha|].
    intros Hin. by rewrite (an_buffer Han a Hin) in Ha.
  - intros a Ha. apply Hlive. left. by apply Hil.
  - exact Hcok.
  - intros a Ha. split; [by apply Hwr|]. apply Hlive. left. by apply Hb.
  - intros c' Hel'. destruct (Hcu c') as (_ & Hst & Hlen).
    destruct (Hsc c') as [Hw Hr]; [|split; [by apply Hwf'|lia]].
    destruct Hel' as [|[Hc' Hne]]; [by left|right; split; [done|]].
    unfold Scheduler.this in Hst. by rewrite <- Hst.
Qed.

(** After the first [j] of the programs. *)
Record progress (live0 : Z → Prop) (k r : nat) (addr : Z) (gs : list program) (st0 : sys) (j : Z)
    (mi : Z) (st : sys) : Prop := {
  pg_next : j < Z.of_nat (length gs) → mi = addr + Mboot.MODULE_SIZE * j;
  pg_rest : ∃ ts live, loads live0 (take (Z.to_nat j) gs) ts st0 st ∧
    loadable live (k + 9 * (length gs - Z.to_nat j)) (r + (length gs - Z.to_nat j)) st ∧
    (∀ a, live0 a → live a) ∧ NoDup ts.*2 ∧ (∀ t, t ∈ ts.*2 → live t ∧ ¬ live0 t) ∧
    ∀ c' p', Scheduler.queue (sched st) c' p' = Scheduler.queue (sched st0) c' p' ++ placed ts c' p'
}.

Definition module_turn (ms : Z * sys) : res (Z * sys) :=
  let '(mod_info, st) := ms in
  mod_start ← Memory.load32 (mod_info + Mboot.MOD_START) (bytes st);
  '(_, st) ← elf_load kdir at_leave lit fuel c mod_start st;
  Ok (u32 (mod_info + Mboot.MODULE_SIZE), st).

Lemma modules_nth m addr l j x :
  Mboot.modules_at m addr l → l !! j = Some x →
  Memory.load32 (addr + Mboot.MODULE_SIZE * Z.of_nat j + Mboot.MOD_START) m = Ok (Mboot.mod_start x).
Proof.
  revert addr j. induction l as [|y l IH]; intros addr [|j] Hat; [done|done| |].
  - intros [= ->]. destruct Hat as (Hs & _). by rewrite Z.mul_0_r, Z.add_0_r.
  - intros Hj. destruct Hat as (_ & _ & Hat). rewrite <- (IH _ j Hat Hj). f_equal. lia.
Qed.

Lemma module_turn_ok live0 k r addr mods gs st0 j mi st :
  0 ≤ c < MAX_CPU → (50 < fuel)%nat → literals_at image lit → announces → kdir = PAGE_SIZE * kn →
  0 ≤ kn < PAGES → Mboot.modules_at image addr mods → Forall2 (λ x g, Mboot.mod_start x = image_of g ∧ program_ok g) mods gs →
  0 ≤ addr → addr + Mboot.MODULE_SIZE * Z.of_nat (length gs) ≤ 2 ^ 32 →
  0 ≤ j < Z.of_nat (length gs) → progress live0 k r addr gs st0 j mi st →
  ∃ mi' st', module_turn (mi, st) = Ok (mi', st') ∧ progress live0 k r addr gs st0 (j + 1) mi' st'.
Proof.
  intros Hc Hfuel Hlit Han Hkd Hkn Hat Hall Ha He Hj [Hn (ts & live & Hl & Hlo & Hsub & Hnd & Hts & Hq)].
  rewrite (Hn ltac:(lia)). destruct (lookup_lt_is_Some_2 gs (Z.to_nat j)) as [g Hg]; [lia|].
  destruct (Forall2_lookup_r _ _ _ _ _ Hall Hg) as (x & Hx & Hbuf & Hok).
  pose proof (modules_nth image addr mods _ x Hat Hx) as Hload. rewrite Z2Nat.id in Hload by lia.
  set (k' := (k + 9 * (length gs - Z.to_nat (j + 1)))%nat).
  set (r' := (r + (length gs - Z.to_nat (j + 1)))%nat).
  replace (k + 9 * (length gs - Z.to_nat j))%nat with (k' + 9)%nat in Hlo by lia.
  replace (r + (length gs - Z.to_nat j))%nat with (S r') in Hlo by lia.
  destruct (elf_load_next live k' r' g st Hc Hfuel Hlit Han Hkd Hkn Hok Hlo)
    as (i & p & t & n & q & th & st' & live' & outs & Hs & Hla & Hpr & Hco & Hq' & Hlo' & Hlive & Hnew).
  eexists _, st'. split.
  { unfold module_turn. rewrite (bind_ok _ _ _ (load32_sub _ _ _ _ (us_image _ _ _ (lo_usable _ _ _ _ Hlo)) Hload)), Hbuf.
    by rewrite (bind_ok _ _ _ Hs). }
  split.
  { intros Hj'. change Mboot.MODULE_SIZE with 16 in *. rewrite u32_small by lia. lia. }
  exists (ts ++ [(Scheduler.scheduler_find (sched st), t)]), live'.
  replace (Z.to_nat (j + 1)) with (S (Z.to_nat j)) by lia. rewrite (take_S_r _ _ _ Hg), fmap_app.
  split; [by apply (loads_one live0 _ _ g live live' k' i p t n q th outs st0 st)|].
  split; [by replace (S (Z.to_nat j)) with (Z.to_nat (j + 1)) by lia|].
  split; [intros a Ha'; apply Hlive; left; by apply Hsub|].
  split; [|split].
  - apply NoDup_app. split; [done|]. split; [|apply NoDup_singleton].
    intros y Hy Hyt. apply list_elem_of_singleton in Hyt as ->. by destruct (Hts t Hy).
  - intros y Hy. apply elem_of_app in Hy as [Hy|Hy].
    + split; [apply Hlive; left; by apply Hts|by apply Hts].
    + apply list_elem_of_singleton in Hy as ->. split; [apply Hlive; by right|].
      intros Hl0. by apply Hnew, Hsub.
  - intros c' p'. by rewrite Hq', Hq, placed_snoc, app_assoc.
Qed.

(** [mboot_load_modules] loads the image of every module of the boot
    information, in order: each becomes a process with a thread of its own,
    and each of the threads waits at the end of the queue of the processor it
    was given to, in the order of the modules.  The kernel can then go on as
    before: its objects, heap, page directory and schedulers are well formed. *)
Theorem mboot_load_modules_runs live k r mboot addr mods gs (st : sys) :
  0 ≤ c < MAX_CPU → (50 < fuel)%nat → literals_at image lit → announces → kdir = PAGE_SIZE * kn →
  0 ≤ kn < PAGES → Memory.load32 (mboot + Mboot.MODS_ADDR) (bytes st) = Ok addr →
  Memory.load32 (mboot + Mboot.MODS_COUNT) (bytes st) = Ok (Z.of_nat (length mods)) →
  0 ≤ addr → addr + Mboot.MODULE_SIZE * Z.of_nat (length mods) ≤ 2 ^ 32 →
  Mboot.modules_at image addr mods →
  Forall2 (λ x g, Mboot.mod_start x = image_of g ∧ program_ok g) mods gs →
  loadable live (k + 9 * length mods) (r + length mods) st →
  ∃ st' ts live', Mboot.mboot_load_modules kdir at_leave lit fuel c mboot st = Ok st' ∧
    loads live gs ts st st' ∧ NoDup ts.*2 ∧ (∀ t, t ∈ ts.*2 → ¬ live t) ∧
    (∀ c' p', Scheduler.queue (sched st') c' p' =
       Scheduler.queue (sched st) c' p' ++ placed ts c' p') ∧
    loadable live' k r st' ∧ (∀ a, live a → live' a).
Proof.
  intros Hc Hfuel Hlit Han Hkd Hkn H1 H2 Ha He Hat Hall Hlo. pose proof (Forall2_length _ _ _ Hall) as Hlen.
  rewrite Hlen in *.
  destruct (for_upto_inv (λ j s, progress live k r addr gs st j s.1 s.2) (Z.of_nat (length gs))
    (λ _, module_turn) (addr, st)) as ([mi st'] & Hs & Hp); [lia| | |].
  - split; [intros _; simpl; lia|]. exists [], live. rewrite !Nat.sub_0_r. split; [apply loads_none|].
    split; [done|]. split; [done|]. split; [by apply NoDup_nil|].
    split; [intros t Ht; by apply not_elem_of_nil in Ht|]. intros c' p'.
    unfold placed. by case_decide; rewrite app_nil_r.
  - intros j [mi s] Hj Hp. destruct (module_turn_ok live k r addr mods gs st j mi s) as (mi' & s' & ? & ?);
      [done..|]. by exists (mi', s').
  - destruct Hp as [_ (ts & live' & Hl & Hlo' & Hsub & Hnd & Hts & Hq)].
    rewrite Nat2Z.id, firstn_all, Nat.sub_diag, Nat.mul_0_r, !Nat.add_0_r in *.
    exists st', ts, live'. split; [|by repeat (split; [done || (intros t Ht; by apply Hts)|])].
    unfold Mboot.mboot_load_modules. rewrite (bind_ok _ _ _ H1), (bind_ok _ _ _ H2).
    fold module_turn. unfold module_turn in Hs. by rewrite (bind_ok _ _ _ Hs).
Qed.

End Modules.

(** ** A concrete image on a fresh kernel *)

(** The image of Elf.v as the only module: boot information at [0x8000] and the
    table of modules at [0x8100]; the format of the message at [0x540]. *)
Definition module_memory : mem8 :=
  demo_memory ∪ (Strings.with_str 0x540 ready_format (Memory.fill 0x8000 (Mboot.info_bytes 0)) ∪
    Memory.fill 0x8100 (Memory.le32 0x100000 ++ Memory.le32 0x104000 ++ replicate 8 0)).

(** With the buffer of the message and nine pages for the heap. *)
Definition image_bytes : mem8 :=
  module_memory ∪ (Strings.blank 0x600 (Z.to_nat 128) ∪ Strings.blank 0xC3000000 (Z.to_nat 36864)).

(** Processor 0 idles in the kernel's process; the others have not started. *)
Definition idle_sched : Scheduler.kstate Scheduler.lists :=
  Scheduler.KState {[0 := Scheduler.Sched 0x1000 0x1000 0 0 1]} Scheduler.no_lists
    {[0x1000 := Thr 0x2000 4 0 0 0 0 0 0 NoEvent]} {[0 := Scheduler.Cpu 0 0 0x10000 0]}
    (World 0 ∅ {[0x2000 := Proc 0 section0 section0 section0 section0 0x10000 ∅ ∅]}).

Definition idle_kernel (a : Kmalloc.mem_allocator) : sys (F := Palloc.palloc) (M := Scheduler.lists) :=
  Sys idle_sched {[0 := 0x2000]} 0 (Process.fresh_heap Spawn.boot_mm a) image_bytes
    Interrupts.state0 ∅ Screen.screen0.

Definition below_heap (a : Z) : Prop := a < 0xC3000000.

Lemma idle_wf : Scheduler.sched_wf 0 idle_sched.
Proof.
  assert (Hid : Scheduler.thread_ok idle_sched 0x1000 4).
  { eexists. split; [reflexivity|]. split; [done|]. split; [by eexists|]. eexists. reflexivity. }
  split; try done.
  - apply Scheduler.no_lists_ok.
  - split; [done|]. by exists 4.
  - intros th [= <-]. done.
  - split; [done|]. by left.
  - intros p t _ Hin. by apply not_elem_of_nil in Hin.
Qed.

Lemma idle_objects a : objects_live below_heap (idle_kernel a).
Proof.
  intros x [Hx|[Hx|Hx]].
  - change (is_Some (({[0x1000 := Thr 0x2000 4 0 0 0 0 0 0 NoEvent]} : gmap Z thread) !! x)) in Hx.
    apply lookup_singleton_is_Some in Hx as <-. reflexivity.
  - change (is_Some (({[0x2000 := Proc 0 section0 section0 section0 section0 0x10000 ∅ ∅]}
      : gmap Z process) !! x)) in Hx.
    apply lookup_singleton_is_Some in Hx as <-. reflexivity.
  - apply Scheduler.no_elements in Hx. done.
Qed.

Lemma image_buffer x : 0x600 ≤ x < 0x600 + 128 → is_Some (image_bytes !! x).
Proof.
  intros Hx. apply lookup_union_is_Some. right. apply lookup_union_is_Some. left.
  exact (Strings.blank_writable 0x600 (Z.to_nat 128) x Hx).
Qed.

Lemma image_heap x : 0xC3000000 ≤ x < 0xC3000000 + 36864 → is_Some (image_bytes !! x).
Proof.
  intros Hx. apply lookup_union_is_Some. right. apply lookup_union_is_Some. right.
  exact (Strings.blank_writable 0xC3000000 (Z.to_nat 36864) x Hx).
Qed.

Lemma idle_vm a : vm_on 0 (idle_kernel a) = Spawn.boot_mm.
Proof. done. Qed.

Lemma idle_left : frames_left (2 * 9) (Paging.frames Spawn.boot_mm).
Proof.
  exists [5; 6; 7; 8; 9; 10; 11; 12; 13; 14; 15; 18; 19; 20; 21; 22; 23; 24].
  split; [apply (bool_decide_unpack _); by vm_compute|].
  split; [done|]. repeat constructor; by vm_compute.
Qed.

Lemma nine_pages : (9 ≤ 200)%nat.
Proof. apply Nat.leb_le. reflexivity. Qed.

Lemma idle_heap a :
  Kmalloc.good a Kmalloc.no_blocks (seqZ 1 (Kmalloc.NODES - 1)) →
  heap_on 0 below_heap 9 (idle_kernel a).
Proof.
  intros Hg. unfold heap_on. rewrite idle_vm.
  change (with_vm Spawn.boot_mm (mem (idle_kernel a))) with (Process.fresh_heap Spawn.boot_mm a).
  change (bytes (idle_kernel a)) with image_bytes.
  apply (Process.fresh_heap_ok below_heap Spawn.boot_mm a 9 image_bytes Spawn.boot_inv idle_left nine_pages Hg).
  - intros x Hx. rewrite PAGE_SIZE_eq in Hx. exact (image_heap x Hx).
  - intros x Hx. exact Hx.
Qed.

Lemma module_in_image : module_memory ⊆ image_bytes.
Proof. exact (map_union_subseteq_l _ _). Qed.

Lemma eight_sixty : (8 ≤ 60)%nat.
Proof. apply Nat.leb_le. reflexivity. Qed.

Lemma image_at_more f g m buf entry l : (f ≤ g)%nat → image_at f m buf entry l → image_at g m buf entry l.
Proof.
  intros Hfg (shoff & ndx & off & H1 & H2 & H3 & H4 & H5 & H6). exists shoff, ndx, off.
  do 5 (split; [done|]). intros i x Hx. destruct (H6 i x Hx) as (n & K1 & K2 & K3 & K4).
  exists n. split; [done|]. split; [done|]. split; [lia|done].
Qed.

Lemma buffer_low x : 0x600 ≤ x < 0x600 + 128 → below_heap x.
Proof. unfold below_heap. lia. Qed.

Lemma module_literals : literals_at module_memory demo_lits.
Proof. exact (literals_at_sub _ _ _ (map_union_subseteq_l _ _) demo_literals). Qed.

Lemma module_image : image_at 60 module_memory 0x100000 0x400010 demo_sections.
Proof. exact (image_at_sub _ _ _ _ _ _ (map_union_subseteq_l _ _) (image_at_more 8 60 _ _ _ _ eight_sixty demo_image_at)). Qed.

Lemma image_literals : literals_at image_bytes demo_lits.
Proof. exact (literals_at_sub _ _ _ module_in_image module_literals). Qed.

Lemma image_there : image_at 60 image_bytes 0x100000 0x400010 demo_sections.
Proof. exact (image_at_sub _ _ _ _ _ _ module_in_image module_image). Qed.

Lemma module_low a : is_Some (module_memory !! a) → below_heap a.
Proof.
  assert (Hf : map_Forall (λ a (_ : Z), a < 0xC3000000) module_memory).
  { apply (bool_decide_unpack _). by vm_compute. }
  intros [v Hv]. exact (Hf a v Hv).
Qed.

Lemma module_words : Memory.load32 (0x8000 + Mboot.MODS_ADDR) image_bytes = Ok 0x8100 ∧
  Memory.load32 (0x8000 + Mboot.MODS_COUNT) image_bytes = Ok 1.
Proof. by split; apply (load32_sub _ _ _ _ module_in_image); vm_compute. Qed.

Definition the_module : Mboot.module_info := Mboot.Module_ 0x100000 0x104000.
Definition the_program : program := Program 0x100000 0x400010 demo_sections.

Lemma module_table : Mboot.modules_at module_memory 0x8100 [the_module].
Proof. by repeat split; vm_compute. Qed.

Lemma table_range : 0 ≤ 0x8100 ∧ 0x8100 + Mboot.MODULE_SIZE * 1 ≤ 2 ^ 32.
Proof. by split; vm_compute. Qed.

Lemma image_sections : Forall Spawn.section_ok (section_list (picked 0x100000 demo_sections)).
Proof. by repeat constructor; vm_compute. Qed.

Lemma image_finds_text q :
  finds Spawn.boot_canon 0x10000 Spawn.boot_mm (picked 0x100000 demo_sections) q 0x400010 0x101010.
Proof. by vm_compute. Qed.

Lemma image_finds_stack q :
  finds Spawn.boot_canon 0x10000 Spawn.boot_mm (picked 0x100000 demo_sections) q 0xa00ff0
    (PAGE_SIZE * q + 0xff0).
Proof. reflexivity. Qed.

Lemma image_ordinary : ordinary 0x400010 ∧ ordinary 0xa00ff0.
Proof. by repeat split; vm_compute. Qed.

Lemma idle_room : Z.of_nat (length (Scheduler.cpu_threads 0 idle_sched)) + 1 < 2 ^ 31 - 1.
Proof. reflexivity. Qed.

Lemma image_entry : 0 ≤ 0x400010 < 2 ^ 32.
Proof. by vm_compute. Qed.

Lemma module_announces : announces demo_lits module_memory.
Proof.
  split.
  - by vm_compute.
  - left. by vm_compute.
  - assert (Hf : map_Forall (λ a (_ : Z), ¬ (0x600 ≤ a < 0x600 + 128)) module_memory).
    { apply (bool_decide_unpack _). by vm_compute. }
    intros a Ha. destruct (module_memory !! a) as [v|] eqn:Hv; [|done]. by destruct (Hf a v Hv).
Qed.

Lemma the_program_ok : Forall2 (λ x g, Mboot.mod_start x = image_of g ∧ program_ok 60 module_memory g)
  [the_module] [the_program].
Proof.
  constructor; [|constructor]. split; [reflexivity|].
  exact (conj module_image (conj image_entry image_sections)).
Qed.

Lemma idle_loadable a :
  Kmalloc.good a Kmalloc.no_blocks (seqZ 1 (Kmalloc.NODES - 1)) →
  loadable Spawn.boot_canon 0x10000 demo_lits 0 module_memory below_heap (0 + 9) 1 (idle_kernel a).
Proof.
  intros Hg. split; [split|..].
  - reflexivity.
  - exact (idle_heap a Hg).
  - exact Spawn.boot_shared.
  - reflexivity.
  - exact (idle_objects a).
  - exact module_in_image.
  - exact module_low.
  - by vm_compute.
  - intros x Hx. split; [exact (image_buffer x Hx)|exact (buffer_low x Hx)].
  - intros c' Hel. assert (c' = 0) as ->; [|exact (conj idle_wf idle_room)].
    destruct Hel as [|[Hc' Hst]]; [done|]. destruct Hst.
    change (Scheduler.scheds (sched (idle_kernel a))) with
      ({[0 := Scheduler.Sched 0x1000 0x1000 0 0 1]} : gmap Z Scheduler.scheduler).
    unfold arr. by rewrite lookup_singleton_ne by lia.
Qed.

Lemma fuel_sixty : (50 < 60)%nat.
Proof. apply Nat.ltb_lt. reflexivity. Qed.

Lemma idle_can_load a :
  Kmalloc.good a Kmalloc.no_blocks (seqZ 1 (Kmalloc.NODES - 1)) →
  can_load Spawn.boot_canon 0x10000 demo_lits 60 0 below_heap 0 16 0x100000 0x400010 demo_sections
    (idle_kernel a).
Proof.
  intros Hg. apply (loadable_can_load Spawn.boot_canon 0x10000 16 demo_lits 60 0 module_memory below_heap 0 0
    the_program (idle_kernel a) (conj (Z.le_refl 0) (eq_refl : 0 < MAX_CPU)) fuel_sixty module_literals
    module_announces Spawn.boot_page Spawn.boot_page_range); [|exact (idle_loadable a Hg)].
  exact (conj module_image (conj image_entry image_sections)).
Qed.

Lemma elf_load_runs_witness :
  ∃ a t n q th outs st', Kmalloc.mem_allocator_init Kmalloc.allocator0 = Ok a ∧
    elf_load 0x10000 0xC000 demo_lits 60 0 0x100000 (idle_kernel a) = Ok (0, st') ∧
    Scheduler.queue (sched st') 0 0 = [t] ∧ Scheduler.sched_wf 0 (sched st') ∧
    (∀ ss, Process.leave_kernel ss (esp th) (Process.bytes (process_view 0 st')) = Ok (start_regs 0x400010)) ∧
    Paging.walk (Paging.ram (Process.vm_of (process_view 0 st'))) (PAGE_SIZE * n) 0x400010
      = Some 0x101010 ∧
    Paging.walk (Paging.ram (Process.vm_of (process_view 0 st'))) (PAGE_SIZE * n) 0xa00ff0
      = Some (PAGE_SIZE * q + 0xff0) ∧
    Forall2 Strings.prints (ready_pieces t 0) outs ∧
    console st' = Screen.typed (concat outs) Screen.screen0.
Proof.
  destruct (Kmalloc.mem_allocator_init_good Kmalloc.allocator0) as (a & Ha & Hg).
  destruct (elf_load_runs Spawn.boot_canon 0x10000 0xC000 demo_lits 60 0 below_heap 0 16 0x100000 0x400010
    demo_sections (idle_kernel a) (idle_can_load a Hg))
    as (i & p & t & n & q & th & live' & outs & st' & Hs & Hl & Hq & _ & Hwf & _ & _ & _ & Hpr & Hco).
  exists a, t, n, q, th, outs, st'. split; [exact Ha|]. split; [exact Hs|]. split; [exact (Hq 0 0)|].
  split; [exact (Hwf 0 idle_wf)|]. destruct Hl as [_ _ _ _ _ Hctx _ _ _ _ _ _ _ _ _ _ Hsp].
  split; [exact Hctx|]. destruct image_ordinary as [H1 H2].
  split; [exact (Hsp _ _ H1 (image_finds_text q))|]. split; [exact (Hsp _ _ H2 (image_finds_stack q))|].
  exact (conj Hpr Hco).
Defined.

Lemma mboot_load_modules_runs_witness :
  ∃ a st' ts, Kmalloc.mem_allocator_init Kmalloc.allocator0 = Ok a ∧
    Mboot.mboot_load_modules 0x10000 0xC000 demo_lits 60 0 0x8000 (idle_kernel a) = Ok st' ∧
    length ts = 1%nat ∧ Scheduler.queue (sched st') 0 0 = placed ts 0 0.
Proof.
  destruct (Kmalloc.mem_allocator_init_good Kmalloc.allocator0) as (a & Ha & Hg).
  destruct (mboot_load_modules_runs Spawn.boot_canon 0x10000 0xC000 16 demo_lits 60 0 module_memory
    below_heap 0 0 0x8000 0x8100 [the_module] [the_program] (idle_kernel a)
    (conj (Z.le_refl 0) (eq_refl : 0 < MAX_CPU)) fuel_sixty module_literals module_announces Spawn.boot_page
    Spawn.boot_page_range (proj1 module_words) (proj2 module_words) (proj1 table_range) (proj2 table_range)
    module_table the_program_ok (idle_loadable a Hg)) as (st' & ts & live' & Hs & Hl & _ & _ & Hq & _).
  exists a, st', ts. split; [exact Ha|]. split; [exact Hs|].
  split; [exact (loads_length _ _ _ _ _ _ _ _ _ _ Hl)|exact (Hq 0 0)].
Defined.

End Loading.
