(* ===== verification/Calls.v ===== *)
(** The system calls that do not wait for another process (kernel/syscall.c):
    what SYSCALL_EXIT, SYSCALL_MMAP, SYSCALL_PEEK, SYSCALL_TIME, SYSCALL_WAIT
    of no time and unknown calls do to the state and return.  The calls that
    connect processes and move bytes are in Syscall.v. *)

From Stdlib Require Import ZArith Lia.
From stdpp Require Import base option list gmap.
From S2P Require Import Prelude Interfaces Palloc Kmalloc Strings Paging Stream Timer Thread Scheduler.
From S2P Require Import Memory Screen Interrupts Process System Drivers Syscall Dirs Spawn.

Module Calls.
Import Thread System Drivers Syscall.

(** ** Leaving *)

(** The format of SYSCALL_EXIT, "proc:%x thread: %x cpu:%x exit syscall: %x\n",
    with its arguments. *)
Definition exit_pieces (proc th c code : Z) : list Strings.piece :=
  (Strings.Lit <$> [112; 114; 111; 99; 58]) ++ [Strings.Hex proc] ++
  (Strings.Lit <$> [32; 116; 104; 114; 101; 97; 100; 58; 32]) ++ [Strings.Hex th] ++
  (Strings.Lit <$> [32; 99; 112; 117; 58]) ++ [Strings.Hex c] ++
  (Strings.Lit <$> [32; 101; 120; 105; 116; 32; 115; 121; 115; 99; 97; 108; 108; 58; 32]) ++
  [Strings.Hex code] ++ [Strings.Lit 10].

Definition exit_format : list Z := concat (Strings.format_of <$> exit_pieces 0 0 0 0).

Lemma exit_room proc th c code : Strings.room (exit_pieces proc th c code) = 75.
Proof. reflexivity. Qed.

Lemma exit_pieces_ok proc th c code :
  0 ≤ proc < 2 ^ 32 → 0 ≤ th < 2 ^ 32 → 0 ≤ c < 2 ^ 32 → 0 ≤ code < 2 ^ 32 →
  Forall Strings.piece_ok (exit_pieces proc th c code).
Proof.
  intros Hp Ht Hc He. unfold exit_pieces. cbn [fmap list_fmap app].
  repeat (apply Forall_cons_2; [simpl; unfold Strings.char_ok; lia|]). apply Forall_nil_2.
Qed.

(** ** Mapping *)

Section Views.
Context {F : Type} `{FrameAlloc F} {M : Type}.
Notation sys := (sys (F := F) (M := M)).

(** Paging code that keeps the directory in use. *)
Lemma on_vm_ok c f (st : sys) v :
  0 ≤ c < MAX_CPU → f (vm_on c st) = Ok v →
  ∃ st', on_vm c f st = Ok st' ∧ vm_on c st' = v ∧ same_kernel st st' ∧
    world_of st' = world_of st ∧ threads_of st' = threads_of st ∧ table st' = table st ∧
    bytes st' = bytes st.
Proof.
  intros Hc Hf. unfold on_vm. rewrite (bind_ok _ _ _ Hf).
  destruct (load_dir_ok c (Paging.cr3 v) st Hc) as (k & Hk & Hcpu & Hs & Hq & Ht & Hw).
  rewrite (bind_ok _ _ _ Hk). eexists. split; [reflexivity|]. split.
  - unfold vm_on. cbn [sched set_memory set_sched mem]. rewrite Hcpu. cbn [Scheduler.c_pdir].
    apply switch_same.
  - split; [split; try done; unfold world_of; cbn; by rewrite Hw|].
    split; [exact Hw|]. split; [exact Ht|]. done.
Qed.

End Views.

(** ** Properties *)

(** C9. SYSCALL_EXIT does not end anything: it prints which process, thread
    and processor it was called from and the exit code, in a buffer of 128
    bytes that it does not leave, and returns -1 to the caller.  The thread
    stays current, the process keeps its slot, its name, its descriptors and
    its memory. *)
Theorem syscall_exit_stays `{FrameAlloc F} `{QueueStore (Z * Z) M} resume fuel exit_buf exit_fmt
    c proc th (r : Interrupts.thread_state) (st : sys (F := F) (M := M)) :
  let ps := exit_pieces proc th c (Interrupts.ebx r) in
  current c proc th st → Interrupts.eax r = SYSCALL_EXIT → Forall Strings.piece_ok ps →
  Strings.cstr (bytes st) exit_fmt exit_format → Strings.writable (bytes st) exit_buf 128 →
  Strings.outside exit_fmt exit_format exit_buf 128 → Screen.console_ok (console st) →
  (80 < fuel)%nat →
  ∃ m' outs, Forall2 Strings.prints ps outs ∧ Strings.changed exit_buf 128 (bytes st) m' ∧
    let sc := foldl (λ s x, Screen.screen_putchar (s8 x) (Screen.cur_style s) s) (console st)
      (concat outs) in
    syscall resume fuel exit_buf exit_fmt c r st
      = Ok (Returns (set_eax (-1) r), set_console sc (set_memory (mem st) m' st)) ∧
    Screen.console_ok sc.
Proof.
  intros ps Hcur Hid Hok Hf Hw Ho Hsc Hfuel.
  destruct (Screen.message_ok fuel 1 exit_buf 128 exit_fmt ps (bytes st) (console st))
    as (m' & outs & Hk & Hp & Hch & Hput & Hsc'); [done|done|done|unfold ps; by rewrite exit_room|done| | | |done|].
  { unfold ps, exit_pieces. cbn [fmap list_fmap app].
    repeat (apply Forall_cons_2; [exact I|]). apply Forall_nil_2. }
  { change (length ps) with 39%nat. lia. }
  { unfold ps. rewrite exit_room. lia. }
  exists m', outs. split; [done|]. split; [done|]. cbv zeta. split; [|done].
  apply (syscall_run _ _ _ _ c proc th r st (Returns (-1)) _ Hcur).
  unfold dispatch. rewrite Hid. unfold exit_call.
  change [proc; th; c; Interrupts.ebx r] with (concat (Strings.args_of <$> ps)).
  rewrite (bind_ok _ _ _ Hk). cbv iota beta. by rewrite (bind_ok _ _ _ Hput).
Qed.

(** C8. SYSCALL_MMAP maps the frame a process asks for at the address it asks
    for, without a check of either, as long as the address is below the last
    4 MiB, where the directory maps itself: in the directory in use, the pages
    of the kernel that all directories share included, the page of EBX translates
    to the frame of ECX and no other page below that window changes ([canon] says which entries of the
    directory share their table).  It returns -1 all the same. *)
Theorem syscall_mmap_anywhere `{FrameAlloc F} `{QueueStore (Z * Z) M} canon resume fuel exit_buf exit_fmt
    c proc th (r : Interrupts.thread_state) (st : sys (F := F) (M := M)) :
  let virt := Interrupts.ebx r in let phys := Interrupts.ecx r in
  0 ≤ c < MAX_CPU → current c proc th st → Interrupts.eax r = SYSCALL_MMAP →
  Paging.paging_inv (vm_on c st) → Paging.shared_as canon (vm_on c st) → Dirs.ordinary virt →
  0 ≤ phys < 2 ^ 32 → frames_left 1 (Paging.frames (vm_on c st)) →
  ∃ st', syscall resume fuel exit_buf exit_fmt c r st = Ok (Returns (set_eax (-1) r), st') ∧
    let v := vm_on c st in let v' := vm_on c st' in
    Paging.paging_inv v' ∧ Paging.shared_as canon v' ∧ Paging.cr3 v' = Paging.cr3 v ∧
    (∀ va, Dirs.ordinary va → Paging.walk (Paging.ram v') (Paging.cr3 v') va =
       if decide (Dirs.same_page canon va virt) then Some (Paging.frame_of phys + va mod 4096)
       else Paging.walk (Paging.ram v) (Paging.cr3 v) va) ∧
    same_kernel st st' ∧ world_of st' = world_of st ∧ threads_of st' = threads_of st ∧
    table st' = table st.
Proof.
  intros virt phys Hc Hcur Hid Hi Hu Hv Hp Hl.
  destruct (Dirs.map_page canon (vm_on c st) virt phys
    (Z.lor (Z.lor Paging.PAGE_USERMODE Paging.PAGE_WRITABLE) Paging.PAGE_PRESENT) Hi Hu Hv Hp Hl)
    as (v & Heq & Hi' & Hcr & Hk & _ & Hw).
  destruct (on_vm_ok c (Paging.paging_map virt phys
    (Z.lor (Z.lor Paging.PAGE_USERMODE Paging.PAGE_WRITABLE) Paging.PAGE_PRESENT)) st v Hc Heq)
    as (st' & Hst & Hvm & Hsk & Hwo & Hth & Ht & _).
  exists st'. rewrite Hvm. split.
  { apply (syscall_run _ _ _ _ c proc th r st (Returns (-1)) _ Hcur).
    unfold dispatch. rewrite Hid. unfold mmap_call. by rewrite (bind_ok _ _ _ Hst). }
  cbv zeta. split; [done|]. split; [exact (Paging.kept_shared _ _ _ Hk canon Hu)|]. by split.
Qed.

(** The calls that only ask: SYSCALL_TIME returns the ticks since the
    start, SYSCALL_PEEK the number of bytes that wait in the stream the
    descriptor reads from; SYSCALL_WAIT for no time and a call the kernel does
    not know return -1.  None of them changes anything. *)
Theorem syscall_answers `{FrameAlloc F} `{QueueStore (Z * Z) M} resume fuel exit_buf exit_fmt
    c proc th (r : Interrupts.thread_state) (st : sys (F := F) (M := M)) :
  let run := syscall resume fuel exit_buf exit_fmt c r st in
  let id := Interrupts.eax r in
  current c proc th st →
  (id = SYSCALL_TIME → run = Ok (Returns (set_eax (ticks (world_of st)) r), st)) ∧
  (id = SYSCALL_PEEK → ∀ pr s q, procs_of st !! proc = Some pr →
     0 ≤ Interrupts.ebx r < Stream.MAX_DESCRIPTORS →
     streams_of st !! Stream.input (arr Stream.null_ios (iodescr pr) (Interrupts.ebx r)) = Some s →
     Stream.ring_rep s q → run = Ok (Returns (set_eax (Z.of_nat (length q)) r), st)) ∧
  (id = SYSCALL_WAIT ∧ Interrupts.ebx r = 0 ∨ SYSCALL_TIME < id →
     run = Ok (Returns (set_eax (-1) r), st)).
Proof.
  intros run id Hcur.
  assert (Hrun : ∀ x, dispatch resume fuel exit_buf exit_fmt c proc th r st = Ok (Returns x, st) →
    run = Ok (Returns (set_eax x r), st)).
  { intros x. exact (syscall_run _ _ _ _ c proc th r st (Returns x) st Hcur). }
  clearbody run. unfold dispatch in Hrun. fold id in Hrun. split; [|split].
  - intros Hid. apply Hrun. by rewrite Hid.
  - intros Hid pr s q Hp Hi Hs Hq. apply Hrun. rewrite Hid. cbn. unfold peek_call.
    rewrite (bind_ok _ _ _ (descriptor_ok proc pr _ st Hp Hi)). unfold get_stream, Stream.get_stream.
    rewrite Hs. cbn [mbind res_bind]. by rewrite (proj1 (Stream.ring_rep_length s q Hq)).
  - intros [[Hid He]|Hid]; apply Hrun.
    + rewrite Hid. unfold wait_call. by rewrite He.
    + repeat (rewrite (proj2 (Z.eqb_neq id _)); [|apply not_eq_sym, Z.lt_neq; exact Hid || 
        (eapply Z.lt_trans; [|exact Hid]; reflexivity)]). done.
Qed.

(** ** Concrete runs *)

Lemma exit_format_at : Strings.cstr (demo_bytes exit_format) 0x500 exit_format.
Proof. apply Strings.with_str_cstr. repeat constructor; done. Qed.

Lemma exit_demo_pieces : Forall Strings.piece_ok (exit_pieces 0x1000 50 0 7).
Proof. apply exit_pieces_ok; lia. Qed.

Lemma syscall_exit_stays_witness :
  ∃ m' sc, syscall 0xC000 100 0xC3000000 0x500 0 (call_regs SYSCALL_EXIT 7 0 0)
      (demo Kmalloc.allocator0 exit_format)
    = Ok (Returns (set_eax (-1) (call_regs SYSCALL_EXIT 7 0 0)),
          set_console sc (set_memory (mem (demo Kmalloc.allocator0 exit_format)) m'
            (demo Kmalloc.allocator0 exit_format))).
Proof.
  generalize Kmalloc.allocator0. intros a.
  destruct (syscall_exit_stays 0xC000 100 0xC3000000 0x500 0 0x1000 50
    (call_regs SYSCALL_EXIT 7 0 0) (demo a exit_format)) as (m' & outs & _ & _ & Hs & _).
  - exact (demo_current a exit_format).
  - reflexivity.
  - exact exit_demo_pieces.
  - exact exit_format_at.
  - eapply Strings.writable_sub; [apply demo_heap_bytes; apply Nat.ltb_lt; reflexivity|lia|lia].
  - left. reflexivity.
  - by vm_compute.
  - apply Nat.ltb_lt. reflexivity.
  - do 2 eexists. exact Hs.
Defined.

(** The kernel's own directory, in which the first four megabytes are also
    above 0xC0000000. *)
Definition boot_demo (a : Kmalloc.mem_allocator) : sys (F := Palloc.palloc) (M := Scheduler.lists) :=
  set_memory (with_vm Spawn.boot_mm (mem (demo a []))) (bytes (demo a [])) (demo a []).

Lemma boot_demo_vm a : vm_on 0 (boot_demo a) = Spawn.boot_mm.
Proof. reflexivity. Qed.

Lemma demo_page : Dirs.ordinary 0x100010.
Proof. by split; vm_compute. Qed.

Definition mmap_regs : Interrupts.thread_state := call_regs SYSCALL_MMAP 0xC0100000 0x300000 0.

Lemma syscall_mmap_anywhere_witness :
  ∃ st', syscall 0xC000 9 0 0 0 mmap_regs (boot_demo Kmalloc.allocator0)
      = Ok (Returns (set_eax (-1) mmap_regs), st') ∧
    Paging.walk (Paging.ram (vm_on 0 st')) (Paging.cr3 (vm_on 0 st')) 0x100010 = Some 0x300010.
Proof.
  generalize Kmalloc.allocator0. intros a.
  destruct (syscall_mmap_anywhere Spawn.boot_canon 0xC000 9 0 0 0 0x1000 50 mmap_regs (boot_demo a))
    as (st' & Hs & _ & _ & _ & Hw & _).
  - split; [discriminate|reflexivity].
  - split; reflexivity.
  - reflexivity.
  - rewrite boot_demo_vm. exact Spawn.boot_inv.
  - rewrite boot_demo_vm. exact Spawn.boot_shared.
  - split; by vm_compute.
  - split; [discriminate|reflexivity].
  - rewrite boot_demo_vm. apply (frames_left_le (2 * 8)); [lia|exact Spawn.boot_left].
  - exists st'. split; [exact Hs|]. rewrite Hw; [reflexivity|exact demo_page].
Defined.

Lemma syscall_answers_witness :
  syscall 0xC000 9 0 0 0 (call_regs SYSCALL_TIME 0 0 0) (demo Kmalloc.allocator0 [])
    = Ok (Returns (set_eax 10 (call_regs SYSCALL_TIME 0 0 0)), demo Kmalloc.allocator0 []).
Proof.
  generalize Kmalloc.allocator0. intros a.
  exact (proj1 (syscall_answers 0xC000 9 0 0 0 0x1000 50 (call_regs SYSCALL_TIME 0 0 0) (demo a [])
    (demo_current a [])) eq_refl).
Defined.

End Calls.
