(* ===== verification/Startup.v ===== *)
(** Waking the other processors (kernel/cpu.c).

    [cpu_wake_all] copies the trampoline of kernel/cpu_asm.s to 0x50000 and
    sends each processor that [cpu_find] listed the sequence of messages that
    starts it there.  What the interrupt controllers do with the messages is a
    parameter: [Apic] gives the write to a register of the local controller and
    the time to the next tick, [Startup] states what the documentation says of
    the interrupt command register, and [board] is a machine that behaves so.

    [bytes] is memory as the processor sees it, low memory at its own addresses;
    a store to a page that shows another frame changes that frame too. *)

From Stdlib Require Import ZArith Lia.
From stdpp Require Import base option list gmap.
From S2P Require Import Prelude Interfaces Palloc Strings Utils Paging Timer Kmalloc Memory Screen Interrupts.
From S2P Require Import Process Mboot Cpu Devices.

Module Startup.

Notation mem8 := Strings.mem8.

Definition INIT : Z := 0x500.
Definition STARTUP : Z := 0x600.
Definition LEVEL : Z := 0x8000.
Definition ASSERT : Z := 0x4000.
Definition DEASSERT : Z := 0.
Definition CR0_PAGING : Z := Z.shiftl 1 31.
Definition CR0_PROTECTED_MODE : Z := Z.shiftl 1 0.
Definition LAPIC_ICR_LOW : Z := 0x300.
Definition LAPIC_ICR_HIGH : Z := 0x310.
(** [sizeof(struct gdt)], and the offset of its [base]. *)
Definition GDT_SIZE : Z := 6.
Definition GDT_BASE : Z := 2.

(** ** The code *)

(** The local controller, the tick counter, and what happens up to the next
    tick. *)
Class Apic (A : Type) := {
  lapic_set : Z → Z → A → A;
  ticks : A → Z;
  next_tick : A → A
}.

(** The loop of [timer_active_wait] that began at [start], for [fuel] ticks at
    most. *)
Fixpoint active_wait `{Apic A} (fuel : nat) (wtime start : Z) (a : A) : res A :=
  if Timer.active_wait_over wtime start (ticks a) then Ok a else
  match fuel with O => Spin | S f => active_wait f wtime start (next_tick a) end.

Definition timer_active_wait `{Apic A} (wtime : Z) (a : A) : res A :=
  active_wait (Z.to_nat wtime) wtime (ticks a) a.

(** Symbols of the linker, string literals and the buffer. *)
Record symbols := Symbols {
  cpu_trampoline : Z; cpu_trampoline_end : Z; fake_gdt_ptr : Z; fake_gdt_end : Z;
  f_wake : Z; f_done : Z; f_buf : Z
}.

Section Wake.
Context {F : Type} `{FrameAlloc F} {A : Type} `{Apic A} {D : Type} `{Ports D}.
Context (fuel : nat) (y : symbols).

Record machine := Machine {
  vm : Paging.mm F; bytes : mem8; console : Screen.screen; cr0 : Z; orig_cr0 : Z; apic : A; dev : D
}.

Definition restore_cr0 (s : machine) : machine :=
  Machine (vm s) (bytes s) (console s) (u32 (orig_cr0 s)) (orig_cr0 s) (apic s) (dev s).

(** A store of 16 bits at [a], in the page at [virt] that shows the frame of
    [phys]. *)
Definition store_shown (virt phys a v : Z) (m : mem8) : res mem8 :=
  m ← Utils.store16 a v m; Utils.store16 (Paging.frame_of phys + (a - virt)) v m.

(** The messages to the processor [id], the trampoline being at [addr]. *)
Definition send_startup (id addr : Z) (a : A) : res A :=
  let a := lapic_set LAPIC_ICR_HIGH (u32 (Z.shiftl id 24)) a in
  let a := lapic_set LAPIC_ICR_LOW (Z.lor (Z.lor INIT LEVEL) ASSERT) a in
  a ← timer_active_wait 1 a;
  let a := lapic_set LAPIC_ICR_HIGH (u32 (Z.shiftl id 24)) a in
  let a := lapic_set LAPIC_ICR_LOW (Z.lor (Z.lor INIT LEVEL) DEASSERT) a in
  a ← timer_active_wait 1 a;
  let a := lapic_set LAPIC_ICR_HIGH (u32 (Z.shiftl id 24)) a in
  let a := lapic_set LAPIC_ICR_LOW (Z.lor STARTUP (Z.shiftr addr 12)) a in
  timer_active_wait 1 a.

(** One turn of the loop. *)
Definition wake_step (cpu_mapping : gmap Z Z) (addr cpu : Z) (s : machine) : res machine :=
  id ← aget 0 MAX_CPU cpu_mapping cpu;
  '(m, sc) ← Devices.print fuel (f_buf y) (f_wake y) [cpu; id] (bytes s) (console s);
  a ← send_startup id addr (apic s);
  Ok (Machine (vm s) m sc (cr0 s) (orig_cr0 s) a (dev s)).

(** Up to the loop: the trampoline with its descriptor table, and the warm
    reset vector. *)
Definition wake_prepare (s : machine) : res (Z * machine) :=
  let warm_reset_vector := 0x1000 in
  let trampoline := 0x50000 in
  let trampoline_len := u32 (cpu_trampoline_end y - cpu_trampoline y) in
  let fake_gdt_len := u32 (fake_gdt_end y - fake_gdt_ptr y) in
  let s := restore_cr0 (Machine (vm s) (bytes s) (console s) (cr0 s)
             (s32 (Z.lor CR0_PAGING CR0_PROTECTED_MODE)) (apic s) (dev s)) in
  v ← Paging.paging_map trampoline 0x50000 (Z.lor Paging.PAGE_WRITABLE Paging.PAGE_PRESENT) (vm s);
  let m := Mboot.show_page trampoline 0x50000 (bytes s) in
  '(_, m) ← Strings.kmemcpy m trampoline (cpu_trampoline y) trampoline_len;
  '(_, m) ← Strings.kmemcpy m (trampoline + PAGE_SIZE) (fake_gdt_ptr y) fake_gdt_len;
  addr ← Paging.paging_get_phys trampoline v;
  let virt_gdt_ptr := trampoline + PAGE_SIZE in
  m ← Memory.store32 (virt_gdt_ptr + GDT_BASE) (u32 (addr + PAGE_SIZE + GDT_SIZE)) m;
  let d := port_write 0x70 0x0F (dev s) in
  let d := port_write 0x71 0x0A d in
  v ← Paging.paging_map warm_reset_vector 0x467 (Z.lor Paging.PAGE_PRESENT Paging.PAGE_WRITABLE) v;
  let m := Mboot.show_page warm_reset_vector 0x467 m in
  m ← store_shown warm_reset_vector 0x467 warm_reset_vector (u16 (Z.land addr 0xf)) m;
  m ← store_shown warm_reset_vector 0x467 (warm_reset_vector + 2) (u16 (Z.shiftr addr 4)) m;
  Ok (addr, Machine v m (console s) (cr0 s) (orig_cr0 s) (apic s) d).

Definition cpu_wake_all (cpu_mapping : gmap Z Z) (count : Z) (s : machine) : res machine :=
  '(addr, s) ← wake_prepare s;
  s ← for_from (wake_step cpu_mapping addr) (Z.to_nat (count - 1)) 1 s;
  '(m, sc) ← Devices.print fuel (f_buf y) (f_done y) [] (bytes s) (console s);
  Ok (Machine (vm s) m sc (cr0 s) (orig_cr0 s) (apic s) (dev s)).

End Wake.

(** ** The interrupt command register *)

Inductive ap_state := Asleep | Reset | Running (start : Z).

#[export] Instance ap_state_eq_dec : EqDecision ap_state.
Proof. solve_decision. Defined.

(** The high half holds the destination.  A write to the low half sends a
    message to it: INIT with the level asserted resets a processor, which then
    waits for a startup message and begins at the page the message names; INIT
    with the level deasserted only touches the controllers' arbitration. *)
Class Startup (A : Type) `{Apic A} := {
  icr_dest : A → Z;
  processor : Z → A → ap_state;
  icr_high v a : 0 ≤ v < 2 ^ 32 →
    icr_dest (lapic_set LAPIC_ICR_HIGH v a) = v / 2 ^ 24 ∧
    ∀ i, processor i (lapic_set LAPIC_ICR_HIGH v a) = processor i a;
  icr_init a i : processor i (lapic_set LAPIC_ICR_LOW 0xC500 a) =
    if decide (i = icr_dest a) then Reset else processor i a;
  icr_deassert a i : processor i (lapic_set LAPIC_ICR_LOW 0x8500 a) = processor i a;
  icr_startup v a i : 0 ≤ v < 256 →
    processor i (lapic_set LAPIC_ICR_LOW (Z.lor 0x600 v) a) =
    if decide (i = icr_dest a ∧ processor i a = Reset) then Running (4096 * v) else processor i a;
  icr_low_dest v a : icr_dest (lapic_set LAPIC_ICR_LOW v a) = icr_dest a;
  tick_keeps a i : processor i (next_tick a) = processor i a;
  tick_counts a : ticks (next_tick a) = Timer.tick (ticks a);
  ticks_range a : 0 ≤ ticks a < 2 ^ 32
}.

(** Waiting for a tick. *)
Lemma wait_ok `{Startup A} (a : A) :
  ∃ a', timer_active_wait 1 a = Ok a' ∧ ∀ i, processor i a' = processor i a.
Proof.
  pose proof (ticks_range a) as Hr. unfold timer_active_wait. change (Z.to_nat 1) with 1%nat.
  cbn [active_wait]. destruct (Timer.active_wait_over 1 (ticks a) (ticks a)) eqn:Hov.
  { exists a. by split. }
  assert (Hlt : ticks a < u32 (1 + ticks a)).
  { unfold Timer.active_wait_over in Hov. apply Z.ltb_lt. by apply negb_false_iff in Hov. }
  exists (next_tick a). split; [|apply tick_keeps].
  unfold Timer.active_wait_over. rewrite tick_counts. unfold Timer.tick, Timer.uint64.
  by rewrite (Z.add_comm 1), Z.ltb_irrefl.
Qed.

(** The sequence starts the processor, whatever it was doing. *)
Lemma send_startup_ok `{Startup A} id addr (a : A) :
  0 ≤ id < 256 → 0 ≤ addr < 0x100000 → addr mod 4096 = 0 →
  ∃ a', send_startup id addr a = Ok a' ∧
    ∀ i, processor i a' = if decide (i = id) then Running addr else processor i a.
Proof.
  intros Hid Ha Hal. unfold send_startup.
  assert (Hv : 0 ≤ u32 (Z.shiftl id 24) < 2 ^ 32) by apply u32_range.
  assert (Hd : u32 (Z.shiftl id 24) / 2 ^ 24 = id).
  { rewrite Z.shiftl_mul_pow2 by lia. rewrite u32_small by lia. by rewrite Z.div_mul. }
  set (h := u32 _) in *. cbv zeta.
  change (Z.lor (Z.lor INIT LEVEL) ASSERT) with 0xC500.
  change (Z.lor (Z.lor INIT LEVEL) DEASSERT) with 0x8500. unfold STARTUP.
  destruct (wait_ok (lapic_set LAPIC_ICR_LOW 0xC500 (lapic_set LAPIC_ICR_HIGH h a))) as (a1 & H1 & Hp1).
  rewrite (bind_ok _ _ _ H1).
  destruct (wait_ok (lapic_set LAPIC_ICR_LOW 0x8500 (lapic_set LAPIC_ICR_HIGH h a1))) as (a2 & H2 & Hp2).
  rewrite (bind_ok _ _ _ H2).
  destruct (wait_ok (lapic_set LAPIC_ICR_LOW (Z.lor 0x600 (Z.shiftr addr 12))
    (lapic_set LAPIC_ICR_HIGH h a2))) as (a3 & H3 & Hp3).
  exists a3. split; [exact H3|]. intros i. rewrite Hp3.
  rewrite Z.shiftr_div_pow2, icr_startup by dlia.
  destruct (icr_high h a2 Hv) as [-> ->], (icr_high h a1 Hv) as [_ Hh1], (icr_high h a Hv) as [Hh2 Hh3].
  rewrite Hd, Hp2, icr_deassert, Hh1, Hp1, icr_init, Hh2, Hd, Hh3.
  destruct (decide (i = id)) as [->|Hne]; [|by rewrite decide_False by tauto].
  rewrite decide_True by done. f_equal. change (2 ^ 12) with 4096. dlia.
Qed.


(** ** The preparation *)

Lemma show_same virt m : Paging.frame_of virt = virt → Mboot.show_page virt virt m = m.
Proof.
  intros Hv. apply map_eq. intros a. destruct (decide (virt ≤ a < virt + PAGE_SIZE)) as [Ha|Ha].
  - replace a with (virt + (a - virt)) by lia. rewrite Mboot.show_page_in by lia. by rewrite Hv.
  - by apply Mboot.show_page_out.
Qed.

Lemma store16_ok a v m :
  Strings.writable m a 2 →
  ∃ m', Utils.store16 a v m = Ok m' ∧
    Strings.bytes_at m' a [u8 (v mod 256); u8 (v / 256)] ∧ Strings.changed a 2 m m'.
Proof.
  intros Hw. unfold Utils.store16.
  assert (H0 : is_Some (m !! a)) by (apply Hw; lia).
  assert (Hc0 := Strings.changed_insert a m (u8 (v mod 256)) H0).
  assert (H1 : is_Some (<[a := u8 (v mod 256)]> m !! (a + 1))) by (apply (proj2 Hc0), Hw; lia).
  rewrite Strings.store8_Some by done. cbn [mbind res_bind]. rewrite Strings.store8_Some by done.
  eexists. split; [done|]. split.
  - cbn [Strings.bytes_at]. rewrite lookup_insert_ne, !lookup_insert_eq by lia. done.
  - eapply Strings.changed_trans; eapply Strings.changed_widen;
      [exact Hc0|lia|lia|by apply Strings.changed_insert|lia|lia].
Qed.

Lemma store_shown_ok virt phys a v m :
  let b := Paging.frame_of phys + (a - virt) in
  Strings.writable m a 2 → Strings.writable m b 2 → b + 2 ≤ a →
  ∃ m', store_shown virt phys a v m = Ok m' ∧
    Strings.bytes_at m' a [u8 (v mod 256); u8 (v / 256)] ∧
    Strings.bytes_at m' b [u8 (v mod 256); u8 (v / 256)] ∧ Strings.changed b (a + 2 - b) m m' ∧
    ∀ x, b + 2 ≤ x < a → m' !! x = m !! x.
Proof.
  intros b Ha Hb Hd. unfold store_shown. fold b.
  destruct (store16_ok a v m Ha) as (m1 & H1 & Hb1 & Hc1). rewrite (bind_ok _ _ _ H1).
  destruct (store16_ok b v m1) as (m2 & H2 & Hb2 & Hc2); [by eapply Strings.writable_changed|].
  exists m2. split; [done|]. split; [|split; [done|split]].
  - eapply Strings.bytes_changed; [exact Hc2| |exact Hb1]. cbn [length]. lia.
  - eapply Strings.changed_trans; eapply Strings.changed_widen;
      [exact Hc1|lia|lia|exact Hc2|lia|lia].
  - intros x Hx. rewrite (proj1 Hc2), (proj1 Hc1) by lia. done.
Qed.

(** The trampoline [code] and the descriptor table [gdt] with its pointer are
    above the first megabyte, and the low pages are memory. *)
Record layout (y : symbols) (code gdt : list Z) (m : mem8) : Prop := {
  ly_code : Strings.bytes_at m (cpu_trampoline y) code;
  ly_code_end : cpu_trampoline_end y = cpu_trampoline y + Z.of_nat (length code);
  ly_code_bytes : Forall (λ c, 0 ≤ c < 256) code;
  ly_code_size : Z.of_nat (length code) ≤ PAGE_SIZE;
  ly_code_high : 0x100000 ≤ cpu_trampoline y;
  ly_gdt : Strings.bytes_at m (fake_gdt_ptr y) gdt;
  ly_gdt_end : fake_gdt_end y = fake_gdt_ptr y + Z.of_nat (length gdt);
  ly_gdt_bytes : Forall (λ c, 0 ≤ c < 256) gdt;
  ly_gdt_size : GDT_SIZE ≤ Z.of_nat (length gdt) ≤ PAGE_SIZE;
  ly_gdt_high : 0x100000 ≤ fake_gdt_ptr y;
  ly_low : Strings.writable m 0 (2 * PAGE_SIZE);
  ly_pages : Strings.writable m 0x50000 (2 * PAGE_SIZE)
}.

(** The two pages at 0x50000: the code, and the pointer to the table behind it. *)
Record installed (code gdt : list Z) (m m' : mem8) : Prop := {
  in_code : Strings.bytes_at m' 0x50000 code;
  in_limit : Strings.bytes_at m' 0x51000 (take 2 gdt);
  in_base : Memory.load32 0x51002 m' = Ok 0x51006;
  in_table : Strings.bytes_at m' 0x51006 (drop 6 gdt);
  in_changed : Strings.changed 0x50000 (2 * PAGE_SIZE) m m'
}.

Lemma install_ok y code gdt m :
  layout y code gdt m →
  ∃ r1 r2 m1 m2 m3, Strings.kmemcpy m 0x50000 (cpu_trampoline y)
      (u32 (cpu_trampoline_end y - cpu_trampoline y)) = Ok (r1, m1) ∧
    Strings.kmemcpy m1 (0x50000 + PAGE_SIZE) (fake_gdt_ptr y)
      (u32 (fake_gdt_end y - fake_gdt_ptr y)) = Ok (r2, m2) ∧
    Memory.store32 (0x50000 + PAGE_SIZE + GDT_BASE) (u32 (0x50000 + PAGE_SIZE + GDT_SIZE)) m2 = Ok m3 ∧
    installed code gdt m m3.
Proof.
  intros [Hc Hce Hcb Hcs Hch Hg Hge Hgb Hgs Hgh _ Hw]. rewrite PAGE_SIZE_eq in *.
  change GDT_SIZE with 6 in *. change GDT_BASE with 2 in *.
  replace (cpu_trampoline_end y - cpu_trampoline y) with (Z.of_nat (length code)) by lia.
  replace (fake_gdt_end y - fake_gdt_ptr y) with (Z.of_nat (length gdt)) by lia.
  rewrite !(u32_small (Z.of_nat _)) by lia.
  change (0x50000 + 4096) with 0x51000. change (0x51000 + 2) with 0x51002.
  change (u32 (0x51000 + 6)) with 0x51006.
  destruct (Strings.kmemcpy_ok code m 0x50000 (cpu_trampoline y)) as (r1 & m1 & H1 & Hb1 & Hc1);
    [done|done|by eapply Strings.writable_sub; [exact Hw|lia|lia]|lia|].
  destruct (Strings.kmemcpy_ok gdt m1 0x51000 (fake_gdt_ptr y)) as (r2 & m2 & H2 & Hb2 & Hc2).
  { eapply Strings.bytes_changed; [exact Hc1|lia|exact Hg]. }
  { done. }
  { eapply Strings.writable_changed; [exact Hc1|]. eapply Strings.writable_sub; [exact Hw|lia|lia]. }
  { lia. }
  destruct (Memory.store32_ok 0x51002 0x51006 m2) as (m3 & H3 & Hl3 & Hc3); [|done|].
  { do 2 (eapply Strings.writable_changed; [eassumption|]).
    eapply Strings.writable_sub; [exact Hw|lia|lia]. }
  assert (Hsplit : gdt = take 2 gdt ++ take 4 (drop 2 gdt) ++ drop 6 gdt).
  { rewrite <- (take_drop 2 gdt) at 1. f_equal. rewrite <- (take_drop 4 (drop 2 gdt)) at 1.
    by rewrite drop_drop. }
  assert (Hl2 : Z.of_nat (length (take 2 gdt)) = 2) by (rewrite length_take; lia).
  rewrite Hsplit in Hb2. apply Strings.bytes_app in Hb2 as [Hlim Hb2].
  apply Strings.bytes_app in Hb2 as [_ Htab]. rewrite Hl2, length_take, length_drop in Htab.
  replace (0x51000 + 2 + Z.of_nat (4 `min` (length gdt - 2))) with 0x51006 in Htab by lia.
  exists r1, r2, m1, m2, m3. split; [done|]. split; [done|]. split; [done|]. split.
  - eapply Strings.bytes_changed; [exact Hc3|lia|].
    eapply Strings.bytes_changed; [exact Hc2|lia|exact Hb1].
  - eapply Strings.bytes_changed; [exact Hc3|lia|exact Hlim].
  - exact Hl3.
  - eapply Strings.bytes_changed; [exact Hc3|lia|exact Htab].
  - rewrite PAGE_SIZE_eq. eapply Strings.changed_trans; [eapply Strings.changed_widen; [exact Hc1|lia|lia]|].
    eapply Strings.changed_trans; eapply Strings.changed_widen; [exact Hc2|lia|lia|exact Hc3|lia|lia].
Qed.

(** The stores to the warm reset vector, and where they go. *)
Lemma vector_ok m :
  Strings.writable m 0 0x2000 →
  ∃ m1 m2, store_shown 0x1000 0x467 0x1000 (u16 (Z.land 0x50000 0xf)) (Mboot.show_page 0x1000 0x467 m)
      = Ok m1 ∧
    store_shown 0x1000 0x467 (0x1000 + 2) (u16 (Z.shiftr 0x50000 4)) m1 = Ok m2 ∧
    Strings.bytes_at m2 0 [0; 0; 0; 0x50] ∧ Strings.changed 0 0x2000 m m2 ∧
    ∀ a, 4 ≤ a < 0x1000 → m2 !! a = m !! a.
Proof.
  intros Hw. set (m0 := Mboot.show_page 0x1000 0x467 m).
  assert (Hout : ∀ a, ¬ (0x1000 ≤ a < 0x2000) → m0 !! a = m !! a).
  { intros a Ha. apply Mboot.show_page_out. rewrite PAGE_SIZE_eq. lia. }
  assert (Hw0 : Strings.writable m0 0 0x2000).
  { intros a Ha. destruct (decide (0x1000 ≤ a < 0x2000)) as [Hb|Hb]; [|rewrite Hout by done; by apply Hw].
    unfold m0. replace a with (0x1000 + (a - 0x1000)) by lia.
    rewrite Mboot.show_page_in by (rewrite PAGE_SIZE_eq; lia). apply Hw.
    change (Paging.frame_of 0x467) with 0. lia. }
  destruct (store_shown_ok 0x1000 0x467 0x1000 (u16 (Z.land 0x50000 0xf)) m0)
    as (m1 & H1 & _ & Hb1 & Hc1 & Hs1); change (Paging.frame_of 0x467) with 0 in *;
    [by eapply Strings.writable_sub; [exact Hw0|lia|lia]..|lia|].
  destruct (store_shown_ok 0x1000 0x467 (0x1000 + 2) (u16 (Z.shiftr 0x50000 4)) m1)
    as (m2 & H2 & _ & Hb2 & Hc2 & Hs2); change (Paging.frame_of 0x467) with 0 in *;
    [by eapply Strings.writable_changed; [exact Hc1|]; eapply Strings.writable_sub; [exact Hw0|lia|lia]..|lia|].
  exists m1, m2. split; [done|]. split; [done|]. split; [|split].
  - apply (Strings.bytes_app m2 0 [0; 0] [0; 0x50]). split; [|exact Hb2].
    cbn in Hb1 |- *. rewrite !(proj1 Hc2) by lia. tauto.
  - split; intros a Ha.
    + rewrite (proj1 Hc2), (proj1 Hc1), Hout by lia. done.
    + apply (proj2 Hc2), (proj2 Hc1). destruct (decide (0x1000 ≤ a < 0x2000)); [apply Hw0; lia|].
      by rewrite Hout.
  - intros a Ha. rewrite Hs2, Hs1, Hout by lia. done.
Qed.

(** The two pages that are mapped. *)
Lemma wake_maps `{FrameAlloc F} (v : Paging.mm F) :
  Paging.paging_inv v → frames_left 2 (Paging.frames v) →
  ∃ v1 v2, Paging.paging_map 0x50000 0x50000 (Z.lor Paging.PAGE_WRITABLE Paging.PAGE_PRESENT) v = Ok v1 ∧
    Paging.paging_get_phys 0x50000 v1 = Ok 0x50000 ∧
    Paging.paging_map 0x1000 0x467 (Z.lor Paging.PAGE_PRESENT Paging.PAGE_WRITABLE) v1 = Ok v2 ∧
    Paging.paging_inv v2 ∧ Memory.spent 2 v v2.
Proof.
  intros Hi Hl. destruct (frames_left_some 1 _ Hl) as [p Hp].
  destruct (Paging.paging_map_walk v 0x50000 0x50000 (Z.lor Paging.PAGE_WRITABLE Paging.PAGE_PRESENT)
    Hi) as (v1 & Hm1 & Hi1 & Hc1 & _ & Hw1); [by vm_compute|by vm_compute|by vm_compute|by right; exists p|].
  pose proof (Paging.kept_map v v1 0x50000 0x50000 _ Hi ltac:(by vm_compute) ltac:(by vm_compute)
    ltac:(by vm_compute) (or_intror (ex_intro _ p Hp)) Hm1) as Hk1.
  destruct (frames_left_some 0 _ (Paging.kept_left _ _ _ Hk1 1 Hl)) as [q Hq].
  destruct (Paging.paging_map_walk v1 0x1000 0x467 (Z.lor Paging.PAGE_PRESENT Paging.PAGE_WRITABLE)
    Hi1) as (v2 & Hm2 & Hi2 & Hc2 & _ & _); [by vm_compute|by vm_compute|by vm_compute|by right; exists q|].
  exists v1, v2. split; [done|]. split; [|split; [done|split; [done|]]].
  2: { split; [done|congruence|]. apply (Paging.kept_trans 1 1 _ v1); [exact Hk1|].
       exact (Paging.kept_map v1 v2 0x1000 0x467 _ Hi1 ltac:(by vm_compute) ltac:(by vm_compute)
         ltac:(by vm_compute) (or_intror (ex_intro _ q Hq)) Hm2). }
  rewrite Paging.paging_get_phys_walk, Hw1, decide_True by (done || by vm_compute). by vm_compute.
Qed.

(** What [wake_prepare] leaves. *)
Record prepared `{FrameAlloc F} {A D} `{Ports D} (code gdt : list Z) (s s' : machine (F := F) (A := A) (D := D)) : Prop := {
  pr_inv : Paging.paging_inv (vm s');
  pr_vm : Memory.spent 2 (vm s) (vm s');
  pr_changed : Strings.changed 0 0x60000 (bytes s) (bytes s');
  pr_cr0 : cr0 s' = 0x80000001;
  pr_orig : u32 (orig_cr0 s') = 0x80000001;
  pr_code : Strings.bytes_at (bytes s') 0x50000 code;
  pr_limit : Strings.bytes_at (bytes s') 0x51000 (take 2 gdt);
  pr_base : Memory.load32 0x51002 (bytes s') = Ok 0x51006;
  pr_table : Strings.bytes_at (bytes s') 0x51006 (drop 6 gdt);
  pr_vector : Strings.bytes_at (bytes s') 0 [0; 0; 0; 0x50];
  pr_low a : 4 ≤ a < PAGE_SIZE → bytes s' !! a = bytes s !! a;
  pr_high a : 0x60000 ≤ a → bytes s' !! a = bytes s !! a;
  pr_dev : dev s' = port_write 0x71 0x0A (port_write 0x70 0x0F (dev s));
  pr_console : console s' = console s;
  pr_apic : apic s' = apic s
}.

Lemma wake_prepare_ok `{FrameAlloc F} {A D} `{Ports D} y code gdt (s : machine (F := F) (A := A) (D := D)) :
  layout y code gdt (bytes s) → Paging.paging_inv (vm s) → frames_left 2 (Paging.frames (vm s)) →
  ∃ s', wake_prepare y s = Ok (0x50000, s') ∧ prepared code gdt s s'.
Proof.
  intros Hly Hi Hl. destruct (wake_maps (vm s) Hi Hl) as (v1 & v2 & Hm1 & Hphys & Hm2 & Hi2 & Hsp).
  destruct (install_ok y code gdt (bytes s) Hly) as (r1 & r2 & m1 & m2 & m3 & H1 & H2 & H3 & Hin).
  destruct Hly as [_ _ _ Hcs _ _ _ _ Hgs _ Hlow _]. destruct Hin as [Hcode Hlim Hbase Htab Hch].
  rewrite PAGE_SIZE_eq in *. change GDT_SIZE with 6 in *.
  destruct (vector_ok m3) as (m5 & m6 & H5 & H6 & Hv & Hc & Hs); [by eapply Strings.writable_changed|].
  eexists. split.
  { unfold wake_prepare, restore_cr0. cbv zeta. cbn [vm bytes console apic dev cr0 orig_cr0].
    rewrite (bind_ok _ _ _ Hm1), show_same, (bind_ok _ _ _ H1) by done. cbv iota beta.
    rewrite (bind_ok _ _ _ H2). cbv iota beta. rewrite (bind_ok _ _ _ Hphys), (bind_ok _ _ _ H3).
    rewrite (bind_ok _ _ _ Hm2), (bind_ok _ _ _ H5), (bind_ok _ _ _ H6). reflexivity. }
  split; cbn [vm bytes console apic dev cr0 orig_cr0]; try done.
  - eapply Strings.changed_trans; eapply Strings.changed_widen; [exact Hch|lia|lia|exact Hc|lia|lia].
  - eapply Strings.bytes_changed; [exact Hc|lia|exact Hcode].
  - eapply Strings.bytes_changed; [exact Hc|lia|exact Hlim].
  - rewrite (Memory.load32_changed _ 0x2000 0 m3) by (done || lia). exact Hbase.
  - eapply Strings.bytes_changed; [exact Hc|lia|exact Htab].
  - intros a Ha. rewrite PAGE_SIZE_eq in Ha. rewrite Hs, (proj1 Hch) by lia. done.
  - intros a Ha. rewrite (proj1 Hc), (proj1 Hch) by lia. done.
Qed.

(** ** The messages on the console *)

Lemma print_ok fuel g buf size fmt ps m sc :
  Forall Strings.piece_ok ps → Strings.cstr m fmt (concat (Strings.format_of <$> ps)) →
  Strings.writable m buf size → Strings.room ps + 1 ≤ size →
  Strings.outside fmt (concat (Strings.format_of <$> ps)) buf size →
  Forall (Strings.arg_in m buf (Strings.room ps + 1) g) ps → (length ps + g < fuel)%nat →
  (Z.to_nat (Strings.room ps) < fuel)%nat → Screen.console_ok sc →
  ∃ m' sc', Devices.print fuel buf fmt (concat (Strings.args_of <$> ps)) m sc = Ok (m', sc') ∧
    Strings.changed buf size m m' ∧ Screen.console_ok sc'.
Proof.
  intros Hok Hf Hw Hr Ho Ha Hg Hfuel Hsc.
  destruct (Screen.message_ok fuel g buf size fmt ps m sc) as (m' & outs & Hk & _ & Hch & Hput & Hsc'); try done.
  exists m', (Screen.typed (concat outs) sc). split; [|by split].
  unfold Devices.print. rewrite (bind_ok _ _ _ Hk). cbv iota beta. by rewrite (bind_ok _ _ _ Hput).
Qed.

(** "wake! cpu %i lapic_id:%x\n" and "WAKEUP DONE\n". *)
Definition wake_pieces (cpu id : Z) : list Strings.piece :=
  (Strings.Lit <$> [119; 97; 107; 101; 33; 32; 99; 112; 117; 32]) ++ [Strings.Dec cpu] ++
  (Strings.Lit <$> [32; 108; 97; 112; 105; 99; 95; 105; 100; 58]) ++ [Strings.Hex id; Strings.Lit 10].

Definition done_pieces : list Strings.piece :=
  Strings.Lit <$> [87; 65; 75; 69; 85; 80; 32; 68; 79; 78; 69; 10].

Definition wake_format : list Z := concat (Strings.format_of <$> wake_pieces 0 0).
Definition done_format : list Z := concat (Strings.format_of <$> done_pieces).

(** The formats and the buffer, apart from each other and from low memory. *)
Record texts_at (y : symbols) (m : mem8) : Prop := {
  tx_wake : Strings.cstr m (f_wake y) wake_format;
  tx_done : Strings.cstr m (f_done y) done_format;
  tx_buf : Strings.writable m (f_buf y) 256;
  tx_wake_buf : Strings.outside (f_wake y) wake_format (f_buf y) 256;
  tx_done_buf : Strings.outside (f_done y) done_format (f_buf y) 256;
  tx_high : 0x60000 ≤ f_wake y ∧ 0x60000 ≤ f_done y ∧ 0x60000 ≤ f_buf y
}.

Lemma texts_changed y m m' : Strings.changed (f_buf y) 256 m m' → texts_at y m → texts_at y m'.
Proof.
  intros Hc [Hw Hd Hb Ho1 Ho2 Hh]. split; [by eapply Strings.cstr_changed|by eapply Strings.cstr_changed| |done..].
  by eapply Strings.writable_changed.
Qed.

Lemma print_wake fuel y cpu id m sc :
  texts_at y m → 0 ≤ cpu < 2 ^ 32 → 0 ≤ id < 2 ^ 32 → Screen.console_ok sc → (50 < fuel)%nat →
  ∃ m' sc', Devices.print fuel (f_buf y) (f_wake y) [cpu; id] m sc = Ok (m', sc') ∧
    Strings.changed (f_buf y) 256 m m' ∧ Screen.console_ok sc'.
Proof.
  intros [Hw _ Hb Ho _ _] Hc Hi Hsc Hf.
  assert (Hr : Strings.room (wake_pieces cpu id) = 41) by reflexivity.
  apply (print_ok fuel 1 (f_buf y) 256 (f_wake y) (wake_pieces cpu id)); rewrite ?Hr; try done; try lia.
  - unfold wake_pieces. cbn [fmap list_fmap app].
    repeat (apply Forall_cons_2; [simpl; unfold Strings.char_ok; lia|]). apply Forall_nil_2.
  - unfold wake_pieces. cbn [fmap list_fmap app].
    repeat (apply Forall_cons_2; [exact I|]). apply Forall_nil_2.
  - change (length (wake_pieces cpu id)) with 23%nat. lia.
Qed.

Lemma print_done fuel y m sc :
  texts_at y m → Screen.console_ok sc → (50 < fuel)%nat →
  ∃ m' sc', Devices.print fuel (f_buf y) (f_done y) [] m sc = Ok (m', sc') ∧
    Strings.changed (f_buf y) 256 m m' ∧ Screen.console_ok sc'.
Proof.
  intros [_ Hd Hb _ Ho _] Hsc Hf.
  assert (Hr : Strings.room done_pieces = 12) by reflexivity.
  apply (print_ok fuel 1 (f_buf y) 256 (f_done y) done_pieces); rewrite ?Hr; try done; try lia.
  - unfold done_pieces. cbn [fmap list_fmap].
    repeat (apply Forall_cons_2; [simpl; unfold Strings.char_ok; lia|]). apply Forall_nil_2.
  - unfold done_pieces. cbn [fmap list_fmap]. repeat (apply Forall_cons_2; [exact I|]). apply Forall_nil_2.
  - change (length done_pieces) with 12%nat. lia.
Qed.

(** ** The loop *)

Section Loop.
Context {F : Type} `{FrameAlloc F} {A : Type} `{Startup A} {D : Type} `{Ports D}.
Context (fuel : nat) (y : symbols) (mapping : gmap Z Z) (addr : Z) (s0 : machine (F := F) (A := A) (D := D)).

(** Processor number [k] of the list, and the state before turn [j]. *)
Notation id k := (arr 0 mapping k).

Record woken (j : Z) (s : machine (F := F) (A := A) (D := D)) : Prop := {
  wk_texts : texts_at y (bytes s);
  wk_console : Screen.console_ok (console s);
  wk_bytes : Strings.changed (f_buf y) 256 (bytes s0) (bytes s);
  wk_running k : 1 ≤ k < j → processor (id k) (apic s) = Running addr;
  wk_others i : (∀ k, 1 ≤ k < j → id k ≠ i) → processor i (apic s) = processor i (apic s0);
  wk_vm : vm s = vm s0;
  wk_cr0 : cr0 s = cr0 s0;
  wk_orig : orig_cr0 s = orig_cr0 s0;
  wk_dev : dev s = dev s0
}.

Lemma wake_loop n :
  texts_at y (bytes s0) → Screen.console_ok (console s0) → (50 < fuel)%nat →
  1 + Z.of_nat n ≤ MAX_CPU → (∀ k, 0 ≤ id k < 256) → 0 ≤ addr < 0x100000 → addr mod 4096 = 0 →
  ∃ s', for_from (wake_step fuel y mapping addr) n 1 s0 = Ok s' ∧ woken (1 + Z.of_nat n) s'.
Proof.
  intros Ht Hsc Hf Hn Hid Ha Hal. assert (Hmax : MAX_CPU = 8) by reflexivity.
  apply for_from_inv.
  { split; try done. intros k Hk. lia. }
  intros j s Hj [Htx Hcon Hby Hrun Hoth Hv Hc Ho Hd].
  destruct (print_wake fuel y j (id j) (bytes s) (console s)) as (m' & sc' & Hp & Hch & Hsc');
    [done|lia|specialize (Hid j); lia|done|done|].
  destruct (send_startup_ok (id j) addr (apic s) (Hid j) Ha Hal) as (a' & Hs & Hap).
  eexists. split.
  { unfold wake_step. rewrite aget_in by lia. cbn [mbind res_bind]. rewrite (bind_ok _ _ _ Hp).
    cbv iota beta. rewrite (bind_ok _ _ _ Hs). reflexivity. }
  split; cbn [bytes console apic vm cr0 orig_cr0 dev]; try done.
  - by eapply texts_changed.
  - by eapply Strings.changed_trans.
  - intros k Hk. rewrite Hap. case_decide; [done|]. apply Hrun.
    destruct (decide (k = j)) as [->|]; [done|lia].
  - intros i Hi. rewrite Hap, decide_False by (intros ->; apply (Hi j); [lia|done]).
    apply Hoth. intros k Hk. apply Hi. lia.
Qed.

End Loop.

Lemma texts_high y m m' :
  (∀ a, 0x60000 ≤ a → m' !! a = m !! a) → texts_at y m → texts_at y m'.
Proof.
  intros Hsame [Hw Hd Hb Ho1 Ho2 (Hh1 & Hh2 & Hh3)].
  assert (Hs : ∀ str p, 0x60000 ≤ p → Strings.cstr m p str → Strings.cstr m' p str).
  { induction str as [|c str IH]; intros p Hp; cbn [Strings.cstr]; rewrite Hsame by lia; [done|].
    intros (Hx & Hy & Hz). split; [done|]. split; [done|]. apply IH; [lia|done]. }
  split; [by apply Hs|by apply Hs| |done..]. intros a Ha. rewrite Hsame by lia. by apply Hb.
Qed.

(** Behind the return of [cpu_wake_all]. *)
Lemma cpu_wake_all_ok `{FrameAlloc F} `{Startup A} `{Ports D} fuel y code gdt mapping count
    (s : machine (F := F) (A := A) (D := D)) :
  layout y code gdt (bytes s) → texts_at y (bytes s) → Screen.console_ok (console s) →
  Paging.paging_inv (vm s) → frames_left 2 (Paging.frames (vm s)) → 1 ≤ count ≤ MAX_CPU →
  (∀ k, 0 ≤ arr 0 mapping k < 256) → (50 < fuel)%nat →
  ∃ s', cpu_wake_all fuel y mapping count s = Ok s' ∧
    (∀ k, 1 ≤ k < count → processor (arr 0 mapping k) (apic s') = Running 0x50000) ∧
    (∀ i, (∀ k, 1 ≤ k < count → arr 0 mapping k ≠ i) → processor i (apic s') = processor i (apic s)) ∧
    Strings.bytes_at (bytes s') 0x50000 code ∧ Strings.bytes_at (bytes s') 0x51000 (take 2 gdt) ∧
    Memory.load32 0x51002 (bytes s') = Ok 0x51006 ∧ Strings.bytes_at (bytes s') 0x51006 (drop 6 gdt) ∧
    Strings.bytes_at (bytes s') 0 [0; 0; 0; 0x50] ∧
    (∀ a, 0x467 ≤ a < 0x46B → bytes s' !! a = bytes s !! a) ∧
    Memory.spent 2 (vm s) (vm s') ∧ cr0 s' = 0x80000001 ∧ Screen.console_ok (console s') ∧
    (∀ a, is_Some (bytes s !! a) → is_Some (bytes s' !! a)) ∧
    (∀ a, 0x60000 ≤ a → ¬ (f_buf y ≤ a < f_buf y + 256) → bytes s' !! a = bytes s !! a) ∧
    u32 (orig_cr0 s') = 0x80000001.
Proof.
  intros Hly Htx Hsc Hi Hl Hcount Hid Hf. pose proof Hly as [_ _ _ Hcs _ _ _ _ Hgs _ _ _].
  rewrite PAGE_SIZE_eq in *. change GDT_SIZE with 6 in *.
  destruct (wake_prepare_ok y code gdt s Hly Hi Hl) as (s1 & Hpre & Hp).
  pose proof (texts_high _ _ _ (pr_high _ _ _ _ Hp) Htx) as Htx1.
  destruct (wake_loop fuel y mapping 0x50000 s1 (Z.to_nat (count - 1))) as (s2 & Hloop & Hw);
    [done|by rewrite (pr_console _ _ _ _ Hp)|done|lia|done|done|done|].
  replace (1 + Z.of_nat (Z.to_nat (count - 1))) with count in Hw by lia.
  destruct (print_done fuel y (bytes s2) (console s2) (wk_texts _ _ _ _ _ _ Hw)
    (wk_console _ _ _ _ _ _ Hw) Hf) as (m & sc & Hend & Hc3 & Hsc3).
  pose proof (Strings.changed_trans _ _ _ _ _ (wk_bytes _ _ _ _ _ _ Hw) Hc3) as Hch.
  destruct (tx_high _ _ Htx) as (_ & _ & Hhigh).
  eexists. split.
  { unfold cpu_wake_all. rewrite (bind_ok _ _ _ Hpre). cbv iota beta. rewrite (bind_ok _ _ _ Hloop).
    rewrite (bind_ok _ _ _ Hend). reflexivity. }
  cbn [bytes apic vm cr0 orig_cr0 console]. destruct Hp as [Hpi Hsp Hpch Hpc Hor Hcode Hlim Hbase Htab Hvec Hlow _ _ _ Hap].
  split; [exact (wk_running _ _ _ _ _ _ Hw)|].
  split; [intros i Hne; rewrite <- Hap; by apply (wk_others _ _ _ _ _ _ Hw)|].
  split; [eapply Strings.bytes_changed; [exact Hch|lia|exact Hcode]|].
  split; [eapply Strings.bytes_changed; [exact Hch|rewrite length_take; lia|exact Hlim]|].
  split; [by rewrite (Memory.load32_changed _ _ _ _ _ Hch) by lia|].
  split; [eapply Strings.bytes_changed; [exact Hch|rewrite length_drop; lia|exact Htab]|].
  split; [eapply Strings.bytes_changed; [exact Hch|cbn [length]; lia|exact Hvec]|].
  split; [intros a Ha; rewrite (proj1 Hch), Hlow by (rewrite ?PAGE_SIZE_eq; lia); done|].
  split; [by rewrite (wk_vm _ _ _ _ _ _ Hw)|]. split; [by rewrite (wk_cr0 _ _ _ _ _ _ Hw)|].
  split; [done|]. split; [intros a Ha; by apply (proj2 Hch), (proj2 Hpch)|].
  split; [intros a Ha Hna; by rewrite (proj1 Hch), (proj1 Hpch) by lia|].
  by rewrite (wk_orig _ _ _ _ _ _ Hw).
Qed.

(** ** Properties *)

(** C27. [cpu_wake_all] starts the processors: behind its return every
    processor that the list names from entry 1 on runs at 0x50000, where the
    trampoline is, with the pointer to a copy of its descriptor table in the
    page behind, and the others are as they were.  The warm reset vector is not
    set: the page it is written through shows frame 0, so its four bytes replace
    the first interrupt vector, and the vector at 0x467 stays. *)
Theorem cpu_wake_starts `{FrameAlloc F} `{Startup A} `{Ports D} fuel y code gdt mapping count
    (s : machine (F := F) (A := A) (D := D)) :
  layout y code gdt (bytes s) → texts_at y (bytes s) → Screen.console_ok (console s) →
  Paging.paging_inv (vm s) → frames_left 2 (Paging.frames (vm s)) → 1 ≤ count ≤ MAX_CPU →
  (∀ k, 0 ≤ arr 0 mapping k < 256) → (50 < fuel)%nat →
  ∃ s', cpu_wake_all fuel y mapping count s = Ok s' ∧
    (∀ k, 1 ≤ k < count → processor (arr 0 mapping k) (apic s') = Running 0x50000) ∧
    (∀ i, (∀ k, 1 ≤ k < count → arr 0 mapping k ≠ i) → processor i (apic s') = processor i (apic s)) ∧
    Strings.bytes_at (bytes s') 0x50000 code ∧ Strings.bytes_at (bytes s') 0x51000 (take 2 gdt) ∧
    Memory.load32 0x51002 (bytes s') = Ok 0x51006 ∧ Strings.bytes_at (bytes s') 0x51006 (drop 6 gdt) ∧
    Strings.bytes_at (bytes s') 0 [0; 0; 0; 0x50] ∧
    (∀ a, 0x467 ≤ a < 0x46B → bytes s' !! a = bytes s !! a) ∧
    Paging.paging_inv (vm s') ∧ cr0 s' = 0x80000001.
Proof.
  intros Hly Htx Hsc Hi Hl Hcount Hid Hf.
  destruct (cpu_wake_all_ok fuel y code gdt mapping count s Hly Htx Hsc Hi Hl Hcount Hid Hf)
    as (s' & Hs & P1 & P2 & P3 & P4 & P5 & P6 & P7 & P8 & Hsp & P9 & _).
  exists s'. do 9 (split; [done|]). split; [exact (Memory.sp_inv _ _ _ Hsp)|done].
Qed.

(** ** A board *)

Record board := Board { b_dest : Z; b_procs : gmap Z ap_state; b_ticks : Z }.

Definition b_processor (i : Z) (b : board) : ap_state := arr Asleep (b_procs b) i.

(** Bits 8 to 10 of the low half are the kind of message, bit 14 the level. *)
Definition b_lapic_set (reg v : Z) (b : board) : board :=
  if reg =? LAPIC_ICR_HIGH then Board (v / 2 ^ 24) (b_procs b) (b_ticks b) else
  if reg =? LAPIC_ICR_LOW then
    let send p := Board (b_dest b) (<[b_dest b := p]> (b_procs b)) (b_ticks b) in
    if decide (v / 256 mod 8 = 5 ∧ Z.testbit v 14 = true) then send Reset else
    if decide (v / 256 mod 8 = 6 ∧ b_processor (b_dest b) b = Reset)
    then send (Running (4096 * (v mod 256))) else b
  else b.

#[export] Instance board_apic : Apic board := {|
  lapic_set := b_lapic_set; ticks b := u32 (b_ticks b);
  next_tick b := Board (b_dest b) (b_procs b) (b_ticks b + 1) |}.

Lemma startup_message v : 0 ≤ v < 256 → Z.lor 0x600 v = 0x600 + v.
Proof.
  revert v. apply (Devices.all_bytes (λ v, Z.lor 0x600 v = 0x600 + v)). by vm_compute.
Qed.

#[export] Program Instance board_startup : Startup board :=
  {| icr_dest := b_dest; processor := b_processor |}.
Next Obligation. done. Qed.
Next Obligation.
  intros a i. change (lapic_set LAPIC_ICR_LOW 0xC500 a)
    with (Board (b_dest a) (<[b_dest a := Reset]> (b_procs a)) (b_ticks a)).
  unfold b_processor. cbn [b_procs]. rewrite arr_insert. by repeat case_decide.
Qed.
Next Obligation. done. Qed.
Next Obligation.
  intros v a i Hv. cbn [lapic_set board_apic]. rewrite startup_message by done. unfold b_lapic_set.
  change (LAPIC_ICR_LOW =? LAPIC_ICR_HIGH) with false. change (LAPIC_ICR_LOW =? LAPIC_ICR_LOW) with true.
  cbv iota zeta. rewrite decide_False by (intros [Hm _]; dlia).
  destruct (decide (b_processor (b_dest a) a = Reset)) as [Hr|Hr].
  - rewrite decide_True by (split; [dlia|done]). unfold b_processor at 1. cbn [b_procs].
    rewrite arr_insert. replace ((0x600 + v) mod 256) with v by dlia.
    destruct (decide (b_dest a = i)) as [<-|Hne]; [by rewrite decide_True|].
    by rewrite decide_False by (intros [-> _]; done).
  - rewrite decide_False by tauto. by rewrite decide_False by (intros [-> ?]; done).
Qed.
Next Obligation.
  intros v a. cbn. unfold b_lapic_set. cbn. by repeat case_decide.
Qed.
Next Obligation. done. Qed.
Next Obligation.
  intros a. cbn. unfold Timer.tick, Timer.uint64, u32. by rewrite Zplus_mod_idemp_l.
Qed.
Next Obligation. intros a. apply u32_range. Qed.

(** ** Two processors are started *)

Definition demo_code : list Z := [0xFA; 0xF4].
Definition demo_gdt : list Z := [0x17; 1; 6; 0x10; 5; 1; 0xFF; 0xFF].
Definition demo_symbols : symbols :=
  Symbols 0x100000 0x100002 0x101000 0x101008 0x102000 0x102100 0x103000.

Definition demo_base : mem8 :=
  Strings.blank 0 (Z.to_nat 8192) ∪
  (Strings.blank 0x50000 (Z.to_nat 8192) ∪ Strings.blank 0x103000 (Z.to_nat 256)).

Definition demo_memory : mem8 :=
  Strings.with_str 0x102000 wake_format (Strings.with_str 0x102100 done_format
    (Strings.with_str 0x100000 demo_code (Strings.with_str 0x101000 demo_gdt demo_base))).

Lemma demo_outside a :
  ¬ (0x100000 ≤ a < 0x103000) → demo_memory !! a = demo_base !! a.
Proof.
  intros Ha. unfold demo_memory.
  by rewrite !Strings.with_str_changed by (cbn; lia).
Qed.

Lemma demo_blank p n :
  (p = 0 ∧ n = 8192) ∨ (p = 0x50000 ∧ n = 8192) ∨ (p = 0x103000 ∧ n = 256) →
  Strings.writable demo_memory p n.
Proof.
  intros Hp a Ha. rewrite demo_outside by lia. unfold demo_base.
  pose proof (λ q k, Strings.blank_writable q (Z.to_nat k)) as Hb.
  destruct Hp as [[-> ->]|[[-> ->]|[-> ->]]].
  - apply lookup_union_is_Some. left. apply (Hb 0 8192). lia.
  - apply lookup_union_is_Some. right. apply lookup_union_is_Some. left. apply (Hb 0x50000 8192). lia.
  - apply lookup_union_is_Some. right. apply lookup_union_is_Some. right. apply (Hb 0x103000 256). lia.
Qed.

Lemma demo_strings :
  Strings.cstr demo_memory 0x102000 wake_format ∧ Strings.cstr demo_memory 0x102100 done_format ∧
  Strings.cstr demo_memory 0x100000 demo_code ∧ Strings.cstr demo_memory 0x101000 demo_gdt.
Proof.
  unfold demo_memory. generalize demo_base. intros m. split; [|split; [|split]];
    repeat (apply Strings.with_str_other; [|cbn; lia]); apply Strings.with_str_cstr;
    repeat constructor; done.
Qed.

Lemma demo_layout : layout demo_symbols demo_code demo_gdt demo_memory.
Proof.
  destruct demo_strings as (_ & _ & (Hc & _ & _)%Strings.cstr_bytes & (Hg & _ & _)%Strings.cstr_bytes).
  split; try exact Hc; try exact Hg; try reflexivity; try (by repeat constructor);
    try (cbn; rewrite ?PAGE_SIZE_eq; lia).
  - apply demo_blank. rewrite PAGE_SIZE_eq. lia.
  - apply demo_blank. rewrite PAGE_SIZE_eq. lia.
Qed.

Lemma demo_texts : texts_at demo_symbols demo_memory.
Proof.
  destruct demo_strings as (Hw & Hd & _ & _). split; [exact Hw|exact Hd| | | |].
  - apply (demo_blank 0x103000 256). lia.
  - left. by vm_compute.
  - left. by vm_compute.
  - cbn. lia.
Qed.

#[local] Existing Instance Devices.chip_ports.

Definition demo_machine : machine (F := Palloc.palloc) (A := board) (D := Devices.chip) :=
  Machine Process.heap_mm demo_memory Screen.screen0 0 0 (Board 0 ∅ 0) (Devices.Chip 0 ∅ false).

Lemma cpu_wake_starts_witness :
  ∃ s', cpu_wake_all 60 demo_symbols {[1 := 1; 2 := 5]} 3 demo_machine = Ok s' ∧
    processor 5 (apic s') = Running 0x50000 ∧ processor 7 (apic s') = Asleep.
Proof.
  destruct (cpu_wake_starts 60 demo_symbols demo_code demo_gdt {[1 := 1; 2 := 5]} 3 demo_machine)
    as (s' & Hs & Hr & Ho & _).
  - exact demo_layout.
  - exact demo_texts.
  - by vm_compute.
  - exact Process.heap_mm_inv.
  - apply (frames_left_le 16); [lia|exact Process.heap_mm_left].
  - split; [discriminate|discriminate].
  - intros k. rewrite arr_insert. case_decide; [lia|]. unfold arr. rewrite lookup_singleton.
    case_decide; simpl; lia.
  - apply Nat.ltb_lt. reflexivity.
  - exists s'. split; [exact Hs|]. split; [exact (Hr 2 ltac:(lia))|].
    rewrite (Ho 7); [reflexivity|]. intros k Hk.
    destruct (decide (k = 1)) as [->|]; [discriminate|].
    replace k with 2 by lia. discriminate.
Defined.

End Startup.
