(* ===== verification/Dumps.v ===== *)
(** Functions that show a state on the console for debugging: [mem_phys_dump]
    (kernel/palloc.c) and [list_print] (kernel/list.c).  Formats and buffers
    are at addresses that are arguments. *)

From Stdlib Require Import ZArith Lia.
From stdpp Require Import base option list gmap.
From S2P Require Import Prelude Interfaces Palloc Strings KList Screen Devices Startup.

Module Dumps.

Notation mem8 := Strings.mem8.

Section Dumps.
Context (fuel : nat) (buf : Z).

(** One line for each word of the map with a free frame. *)
Definition mem_phys_dump (fmt : Z) (fr : Palloc.palloc) (m : mem8) (sc : Screen.screen)
    : res (mem8 * Screen.screen) :=
  for_upto Palloc.ENTRIES (λ i '(m, sc),
    w ← Palloc.map_get fr i;
    if negb (w =? 0) then Devices.print fuel buf fmt [i; w] m sc else Ok (m, sc)) (m, sc).

Context {A : Type} `{ObjAlloc A}.

(** A turn of the loop of [list_print]. *)
Definition show_elem (f_elem : Z) (lm : KList.lmem A) (st : Z * mem8 * Screen.screen)
    : res (Z * mem8 * Screen.screen) :=
  let '(ptr, m, sc) := st in
  e ← KList.get_elem ptr lm;
  '(m, sc) ← Devices.print fuel buf f_elem [KList.target e] m sc;
  Ok (KList.next e, m, sc).

Definition list_print (f_head f_elem f_end : Z) (at_ : Z) (this : KList.klist) (lm : KList.lmem A)
    (m : mem8) (sc : Screen.screen) : res (mem8 * Screen.screen) :=
  let ptr := KList.head this in
  '(m, sc) ← Devices.print fuel buf f_head [at_; KList.size this] m sc;
  '(_, m, sc) ← while fuel (λ '(ptr, m, sc), Ok (negb (ptr =? 0))) (show_elem f_elem lm) (ptr, m, sc);
  Devices.print fuel buf f_end [at_] m sc.

(** ** Lemmas *)

(** "%i %x\n", "%x(elem:%i): " and "%x->". *)
Definition word_pieces (i w : Z) : list Strings.piece :=
  [Strings.Dec i; Strings.Lit 32; Strings.Hex w; Strings.Lit 10].
Definition head_pieces (p n : Z) : list Strings.piece :=
  [Strings.Hex p] ++ (Strings.Lit <$> [40; 101; 108; 101; 109; 58]) ++ [Strings.Dec n] ++
  (Strings.Lit <$> [41; 58; 32]).
Definition elem_pieces (t : Z) : list Strings.piece := [Strings.Hex t; Strings.Lit 45; Strings.Lit 62].

Definition text_at (fmt : Z) (text : list Z) (m : mem8) : Prop :=
  Strings.cstr m fmt text ∧ Strings.writable m buf 128 ∧ Strings.outside fmt text buf 128.

Lemma text_changed fmt text m m' : Strings.changed buf 128 m m' → text_at fmt text m → text_at fmt text m'.
Proof.
  intros Hc (Ht & Hw & Ho). split; [by eapply Strings.cstr_changed|]. split; [|done].
  by eapply Strings.writable_changed.
Qed.

(** Pieces without strings. *)
Definition plain (pc : Strings.piece) : Prop :=
  match pc with Strings.Str _ _ => False | _ => True end.

Lemma print_plain fmt ps m sc :
  text_at fmt (concat (Strings.format_of <$> ps)) m → Forall Strings.piece_ok ps → Forall plain ps →
  Strings.room ps < 128 → (length ps + 1 < fuel)%nat → (128 < fuel)%nat → Screen.console_ok sc →
  ∃ m' sc', Devices.print fuel buf fmt (concat (Strings.args_of <$> ps)) m sc = Ok (m', sc') ∧
    Strings.changed buf 128 m m' ∧ Screen.console_ok sc'.
Proof.
  intros (Ht & Hw & Ho) Hok Hp Hr Hl Hf Hsc.
  apply (Startup.print_ok fuel 1 buf 128 fmt ps); try done; try lia.
  eapply Forall_impl; [exact Hp|]. by intros [].
Qed.

(** [mem_phys_dump] returns, and writes to its buffer and the screen only. *)
Lemma mem_phys_dump_ok fmt fr m sc :
  (∀ i, 0 ≤ i < Palloc.ENTRIES → 0 ≤ arr 0 (Palloc.memory_map fr) i < 2 ^ 32) →
  text_at fmt (concat (Strings.format_of <$> word_pieces 0 0)) m → (128 < fuel)%nat → Screen.console_ok sc →
  ∃ m' sc', mem_phys_dump fmt fr m sc = Ok (m', sc') ∧ Strings.changed buf 128 m m' ∧ Screen.console_ok sc'.
Proof.
  intros Hfr Ht Hf Hsc.
  destruct (for_upto_inv (λ _ '(m', sc'), Strings.changed buf 128 m m' ∧ Screen.console_ok sc') Palloc.ENTRIES
    (λ i '(m, sc), w ← Palloc.map_get fr i;
      if negb (w =? 0) then Devices.print fuel buf fmt [i; w] m sc else Ok (m, sc)) (m, sc))
    as ([m' sc'] & Hd & Hc & Hsc').
  { by vm_compute. }
  { split; [apply Strings.changed_refl|done]. }
  - intros i [m1 sc1] Hi [Hc1 Hsc1]. specialize (Hfr i Hi).
    assert (Hb : 0 ≤ i < Palloc.ENTRIES + 1) by lia.
    assert (Hi32 : 0 ≤ i < 2 ^ 32). { change Palloc.ENTRIES with 32768 in Hi. lia. }
    unfold Palloc.map_get. rewrite (bind_ok _ _ _ (aget_in 0 _ _ i Hb)).
    destruct (arr 0 (Palloc.memory_map fr) i =? 0); cbn [negb].
    { exists (m1, sc1). split; [reflexivity|by split]. }
    destruct (print_plain fmt (word_pieces i (arr 0 (Palloc.memory_map fr) i)) m1 sc1) as (m2 & sc2 & H2 & Hc2 & Hsc2); try done.
    + by eapply text_changed.
    + repeat constructor; simpl; unfold Strings.char_ok; lia.
    + repeat constructor.
    + change (length (word_pieces i (arr 0 (Palloc.memory_map fr) i))) with 4%nat. lia.
    + exists (m2, sc2). split; [exact H2|]. split; [by eapply Strings.changed_trans|done].
  - exists m', sc'. by split.
Qed.

(** The texts of [list_print]. *)
Record texts_ok (f_head f_elem f_end : Z) (m : mem8) : Prop := {
  tx_head : text_at f_head (concat (Strings.format_of <$> head_pieces 0 0)) m;
  tx_elem : text_at f_elem (concat (Strings.format_of <$> elem_pieces 0)) m;
  tx_end : text_at f_end [10] m
}.

Lemma texts_ok_changed f1 f2 f3 m m' : Strings.changed buf 128 m m' → texts_ok f1 f2 f3 m → texts_ok f1 f2 f3 m'.
Proof. intros Hc []. split; by eapply text_changed. Qed.

(** Before a turn: the elements that are left, and what changed. *)
Definition showing (lm : KList.lmem A) (m0 : mem8) (n : nat) (st : Z * mem8 * Screen.screen) : Prop :=
  let '(p, m, sc) := st in
  ∃ ps ts, KList.chain (KList.elems lm) p ps ts ∧ length ts = n ∧ Forall (λ t, 0 ≤ t < 2 ^ 32) ts ∧
    Strings.changed buf 128 m0 m ∧ Screen.console_ok sc.

Lemma show_elem_ok f_elem lm m0 n st :
  text_at f_elem (concat (Strings.format_of <$> elem_pieces 0)) m0 → (128 < fuel)%nat → showing lm m0 n st →
  ∃ b, (let '(ptr, m, sc) := st in Ok (negb (ptr =? 0))) = Ok b ∧
    (b = true → ∃ st' n', show_elem f_elem lm st = Ok st' ∧ showing lm m0 n' st' ∧ (n' < n)%nat).
Proof.
  destruct st as [[p m] sc]. intros Ht Hf (ps & ts & Hch & Hn & Hts & Hc & Hsc). eexists. split; [reflexivity|].
  intros Hp. destruct ps as [|a ps], ts as [|t ts]; cbn [KList.chain] in Hch; [subst p; done|done|done|].
  destruct Hch as (-> & Ha & nx & He & Hch). apply Forall_cons in Hts as [Ht32 Hts].
  destruct (print_plain f_elem (elem_pieces t) m sc) as (m1 & sc1 & H1 & Hc1 & Hsc1).
  { by eapply text_changed. }
  { repeat constructor; simpl; unfold Strings.char_ok; lia. }
  { repeat constructor. } { done. } { simpl. lia. } { lia. } { done. }
  exists (nx, m1, sc1), (length ts). split; [|split; [|by rewrite <- Hn; simpl; lia]].
  - unfold show_elem, KList.get_elem. rewrite He. cbn [mbind res_bind KList.target KList.next].
    change [t] with (concat (Strings.args_of <$> elem_pieces t)). by rewrite (bind_ok _ _ _ H1).
  - exists ps, ts. split; [done|]. split; [done|]. split; [done|]. split; [by eapply Strings.changed_trans|done].
Qed.

(** The last call has an argument that its format does not use. *)
Lemma kprintf_newline fmt a m :
  text_at fmt [10] m → (1 < fuel)%nat →
  Strings.kprintf fuel m buf fmt [a] = Strings.kprintf fuel m buf fmt [].
Proof.
  intros ((Hc & Hok & H0) & Hw & Ho) Hf. destruct fuel as [|[|f]]; [lia|lia|].
  unfold Strings.outside in Ho. simpl in Ho. unfold Strings.kprintf. cbn [Strings.kprintf_loop].
  rewrite !(Strings.load8_Some _ _ _ Hc). cbn [mbind res_bind].
  rewrite !bool_decide_false by done. rewrite !Strings.store8_Some by (apply Hw; lia). cbn [mbind res_bind].
  rewrite !(Strings.load8_Some _ (fmt + 1) 0) by (rewrite lookup_insert_ne by lia; exact H0). reflexivity.
Qed.

(** [list_print] shows a list of [ts] in as many turns, and returns. *)
Lemma list_print_ok f_head f_elem f_end at_ this lm qs fs ts m sc :
  KList.list_body this lm qs fs ts → Forall (λ t, 0 ≤ t < 2 ^ 32) ts → Z.of_nat (length ts) < 2 ^ 32 →
  0 ≤ at_ < 2 ^ 32 → texts_ok f_head f_elem f_end m → (128 + length ts < fuel)%nat → Screen.console_ok sc →
  ∃ m' sc', list_print f_head f_elem f_end at_ this lm m sc = Ok (m', sc') ∧
    Strings.changed buf 128 m m' ∧ Screen.console_ok sc'.
Proof.
  intros Hl Hts Hlen Hat Ht Hf Hsc. pose proof (KList.lr_chain _ _ _ _ _ Hl) as Hch.
  pose proof (KList.chain_length _ _ _ _ Hch) as Hq. unfold list_print. rewrite (KList.lr_size _ _ _ _ _ Hl).
  destruct (print_plain f_head (head_pieces at_ (Z.of_nat (length ts))) m sc) as (m1 & sc1 & H1 & Hc1 & Hsc1).
  { apply (tx_head _ _ _ _ Ht). }
  { repeat constructor; simpl; unfold Strings.char_ok; lia. }
  { repeat constructor. } { done. } { simpl. lia. } { lia. } { done. }
  cbv zeta. change [at_; Z.of_nat (length ts)] with (concat (Strings.args_of <$> head_pieces at_ (Z.of_nat (length ts)))).
  rewrite (bind_ok _ _ _ H1). cbv iota beta.
  destruct (while_total_ix (showing lm m) (λ '(ptr, m, sc), Ok (negb (ptr =? 0))) (show_elem f_elem lm))
    with (fuel := fuel) (n := length ts) (s := (KList.head this, m1, sc1))
    as ([[p m2] sc2] & n & Hw & (ps & us & _ & _ & _ & Hc2 & Hsc2) & _).
  { intros k st Hst. apply show_elem_ok; [exact (tx_elem _ _ _ _ Ht)|lia|exact Hst]. }
  { exists qs, ts. split; [exact Hch|]. split; [reflexivity|]. split; [exact Hts|]. split; [exact Hc1|exact Hsc1]. }
  { lia. }
  rewrite (bind_ok _ _ _ Hw). cbv iota beta.
  destruct (print_plain f_end [Strings.Lit 10] m2 sc2) as (m3 & sc3 & H3 & Hc3 & Hsc3).
  { eapply text_changed; [exact Hc2|]. apply (tx_end _ _ _ _ Ht). }
  { repeat constructor; simpl; unfold Strings.char_ok; lia. }
  { repeat constructor. } { done. } { simpl. lia. } { lia. } { done. }
  exists m3, sc3. split; [|split; [by eapply Strings.changed_trans|done]].
  rewrite <- H3. unfold Devices.print. rewrite (kprintf_newline f_end at_ m2); [done| |lia].
  eapply text_changed; [exact Hc2|]. apply (tx_end _ _ _ _ Ht).
Qed.

End Dumps.

End Dumps.
