(* ===== verification/Kmain.v ===== *)
(** The boot of the kernel (kernel/kmain.c).

    [kernel] joins the state of the running kernel with what only the boot
    uses: descriptor tables, the processors that were found, the devices.  The
    operations of the other files run on their part of it, and [kmain_boot],
    [hello_world] and [kmain_load] are kmain and hello_world up to and from the
    barrier [cpu_sync], of which Cpu.v proves that nobody passes it before all
    have come.  [booted] says what the barrier finds. *)

From Stdlib Require Import ZArith Lia.
From stdpp Require Import base option list gmap.
From S2P Require Import Prelude Interfaces Locks Palloc Strings Paging Stream Timer Thread Scheduler.
From S2P Require Import Kmalloc Memory Screen Gdt Interrupts Process System Drivers Elf Mboot Cpu.
From S2P Require Import Devices Dirs Spawn Ready Startup Loading.

Module Kmain.
Import Thread System.

(** What the linker decides: the tables, the entry points of the interrupts,
    the page directory, [_leave_kernel], [sched_idle_loop], the string literals
    and the buffers on the stack. *)
Record image := Image {
  gdt_at : Z; tss_at : Z; idt_at : Z; isr : Z → Z; kpage_dir : Z; leave_kernel_at : Z;
  idle_loop_at : Z; section_names : Elf.literals; boot_texts : Mboot.texts;
  wake_texts : Startup.symbols; f_max : Z; b_max : Z
}.

(** [sizeof(idt_entries)] *)
Definition IDT_SIZE : Z := 256 * 8.

(** The descriptor tables; [iptr] once it is set. *)
Record tables := Tables {
  gdt : Gdt.state; idt : gmap Z Interrupts.idt_entry; iptr : option Gdt.gdtr
}.

(** The variables of cpu.c. *)
Record processors := Processors {
  num_of_cpu : Z; cpu_stack : gmap Z Z; cpu_mapping : gmap Z Z; maximum_cpu : Z
}.

(** The registers of a processor that the boot sets: [cr0], the low half of the
    register 0x1B, the stack pointer, what [lgdt], [lidt] and [ltr] loaded, and
    its local controller. *)
Record registers := Registers {
  r_cr0 : Z; r_base : Z; r_esp : Z; r_gdtr : option Gdt.gdtr; r_idtr : option Gdt.gdtr;
  r_task : Z; r_lapic : gmap Z Z
}.

Definition registers0 : registers := Registers 0 0 0 None None 0 ∅.

Definition set_cr0 (v : Z) (r : registers) : registers :=
  Registers v (r_base r) (r_esp r) (r_gdtr r) (r_idtr r) (r_task r) (r_lapic r).
Definition set_base (v : Z) (r : registers) : registers :=
  Registers (r_cr0 r) v (r_esp r) (r_gdtr r) (r_idtr r) (r_task r) (r_lapic r).
Definition set_idtr (v : option Gdt.gdtr) (r : registers) : registers :=
  Registers (r_cr0 r) (r_base r) (r_esp r) (r_gdtr r) v (r_task r) (r_lapic r).
Definition set_task (v : Z) (r : registers) : registers :=
  Registers (r_cr0 r) (r_base r) (r_esp r) (r_gdtr r) (r_idtr r) v (r_lapic r).
Definition set_lapic (v : gmap Z Z) (r : registers) : registers :=
  Registers (r_cr0 r) (r_base r) (r_esp r) (r_gdtr r) (r_idtr r) (r_task r) v.

Section Boot.
Context {M : Type} `{QueueStore (Z * Z) M} {A : Type} `{Startup.Apic A} {D : Type} `{Ports D}.
Context (fuel : nat) (y : image).
Notation sys := (sys (F := Palloc.palloc) (M := M)).

(** The registers of the processors, [orig_cr0], the devices and the lock of the
    console.  The local controller of the first processor is in the state of the
    kernel. *)
Record hardware := Hardware {
  regs : gmap Z registers; orig_cr0 : Z; apic : A; dev : D; screen_lock : Z
}.

Record kernel := Kernel { sys_of : sys; tables_of : tables; cpus_of : processors; hw : hardware }.

Definition set_sys (st : sys) (k : kernel) : kernel := Kernel st (tables_of k) (cpus_of k) (hw k).
Definition set_gdt (g : Gdt.state) (k : kernel) : kernel :=
  Kernel (sys_of k) (Tables g (idt (tables_of k)) (iptr (tables_of k))) (cpus_of k) (hw k).
Definition set_idt i r (k : kernel) : kernel :=
  Kernel (sys_of k) (Tables (gdt (tables_of k)) i r) (cpus_of k) (hw k).
Definition set_cpus (p : processors) (k : kernel) : kernel :=
  Kernel (sys_of k) (tables_of k) p (hw k).
Definition set_hw (h : hardware) (k : kernel) : kernel :=
  Kernel (sys_of k) (tables_of k) (cpus_of k) h.
Definition set_dev (d : D) (k : kernel) : kernel :=
  let h := hw k in set_hw (Hardware (regs h) (orig_cr0 h) (apic h) d (screen_lock h)) k.
Definition reg_of (k : kernel) (c : Z) : registers := arr registers0 (regs (hw k)) c.

(** [f] on the registers of processor [c]. *)
Definition on_regs (c : Z) (f : registers → registers) (k : kernel) : kernel :=
  let h := hw k in
  set_hw (Hardware (<[c := f (reg_of k c)]> (regs h)) (orig_cr0 h) (apic h) (dev h) (screen_lock h)) k.

(** The heap as the first processor uses it, and the state with another. *)
Definition memory_of (k : kernel) : Memory.memory (F := Palloc.palloc) :=
  with_vm (vm_on 0 (sys_of k)) (mem (sys_of k)).
Definition put_memory (h : Memory.memory (F := Palloc.palloc)) (m : mem8) (k : kernel) : res kernel :=
  st ← load_dir 0 (Paging.cr3 (Memory.vm (Memory.area h))) (sys_of k);
  Ok (set_sys (set_memory h m st) k).
Definition put_vm (v : Paging.mm Palloc.palloc) (m : mem8) (sc : Screen.screen) (k : kernel)
    : res kernel :=
  k ← put_memory (with_vm v (mem (sys_of k))) m k; Ok (set_sys (set_console sc (sys_of k)) k).

(** ** The calls of kmain *)

Definition gdt_init (k : kernel) : res kernel :=
  g ← Gdt.gdt_init (gdt_at y) (tss_at y) (gdt (tables_of k)); Ok (set_gdt g k).

Definition mboot_parse (mboot : Z) (k : kernel) : res kernel :=
  h ← Mboot.mboot_parse fuel (bytes (sys_of k)) mboot (memory_of k);
  put_memory h (bytes (sys_of k)) k.

Definition mboot_parse_cmdline (mboot : Z) (k : kernel) : res kernel :=
  let p := cpus_of k in
  b ← Mboot.mboot_parse_cmdline fuel (boot_texts y) mboot
        (Mboot.Boot (vm_on 0 (sys_of k)) (bytes (sys_of k)) (console (sys_of k)) (maximum_cpu p));
  k ← put_vm (Mboot.vm b) (Mboot.bytes b) (Mboot.console b) k;
  Ok (set_cpus (Processors (num_of_cpu p) (cpu_stack p) (cpu_mapping p) (Mboot.maximum_cpu b)) k).

Definition cpu_find (k : kernel) : res kernel :=
  let p := cpus_of k in
  s ← Cpu.cpu_find (Cpu.Cpus (num_of_cpu p) (cpu_stack p) (cpu_mapping p) (maximum_cpu p)
                      (memory_of k) (bytes (sys_of k)));
  k ← put_memory (Cpu.mem s) (Cpu.bytes s) k;
  Ok (set_cpus (Processors (Cpu.num_of_cpu s) (Cpu.cpu_stack s) (Cpu.cpu_mapping s)
                  (Cpu.maximum_cpu s)) k).

Definition screen_clear (k : kernel) : res kernel :=
  '(l, sc) ← Screen.screen_clear (screen_lock (hw k)) (console (sys_of k));
  let h := hw k in
  Ok (set_hw (Hardware (regs h) (orig_cr0 h) (apic h) (dev h) l)
        (set_sys (set_console sc (sys_of k)) k)).

Definition idt_init (k : kernel) : res kernel :=
  i ← Interrupts.isr_init (isr y) (idt (tables_of k));
  let r := Some (Gdt.Gdtr (IDT_SIZE - 1) (Gdt.VIRT_TO_PHYS (idt_at y))) in
  Ok (on_regs 0 (set_idtr r) (set_idt i r k)).

(** [apic_enable] on processor [c]. *)
Definition apic_enable (c : Z) (k : kernel) : kernel :=
  let '(lo, d) := Devices.apic_enable (r_base (reg_of k c)) (dev (hw k)) in
  on_regs c (set_base lo) (set_dev d k).

Definition interrupts_init (k : kernel) : res kernel :=
  k ← idt_init k;
  let k := apic_enable 0 k in
  i ← Interrupts.interrupts_init (ints (sys_of k));
  Ok (set_sys (set_ints i (sys_of k)) k).

Definition syscalls_init (k : kernel) : res kernel :=
  i ← Interrupts.syscalls_init (ints (sys_of k)); Ok (set_sys (set_ints i (sys_of k)) k).

Definition drivers_init (k : kernel) : res kernel :=
  st ← Drivers.drivers_init (sys_of k); Ok (set_sys st k).

Definition proc_create_kernel_proc (k : kernel) : res kernel :=
  '(_, st) ← on_process 0 (Process.proc_create_kernel_proc (kpage_dir y)) (sys_of k);
  Ok (set_sys st k).

(** [thread_create(proc_get_by_pid(0), sched_idle_loop, THREAD_KERNEL)] and the
    rest of [scheduler_init]. *)
Definition scheduler_init (i : Z) (st : sys) : res sys :=
  p ← Process.proc_get_by_pid 0 (process_view 0 st);
  '(t, st) ← on_process 0 (Process.thread_create (kpage_dir y) (leave_kernel_at y) p (idle_loop_at y)
                             Interrupts.THREAD_KERNEL) st;
  k ← Scheduler.scheduler_init i t (sched st);
  Ok (set_sched k st).

Definition scheduling_init (k : kernel) : res kernel :=
  i ← Interrupts.interrupts_register_handler Interrupts.INT_SCHED_TICK Interrupts.sched_tick
        (ints (sys_of k));
  st ← for_upto MAX_CPU scheduler_init (set_ints i (sys_of k));
  Ok (set_sys st k).

Definition set_ticks (t : Z) (st : sys) : sys :=
  set_world (World t (streams_of st) (procs_of st)) st.

Definition timer_init (k : kernel) : res kernel :=
  let st := sys_of k in
  s ← Devices.timer_init (Devices.Clock (ticks (world_of st)) (ints st) (dev (hw k)));
  Ok (set_dev (Devices.dev s)
        (set_sys (set_ticks (Devices.ticks s) (set_ints (Devices.ints s) st)) k)).

(** Processor [c] takes a stack for its interrupts; [sti] is not modelled. *)
Definition interrupts_start (c : Z) (k : kernel) : res kernel :=
  '(p, st) ← on_process c (Process.kmalloc PAGE_SIZE) (sys_of k);
  g ← Gdt.tss_set_stack c p (gdt (tables_of k));
  Ok (on_regs c (set_task (Gdt.task (Gdt.tss_flush c g))) (set_gdt g (set_sys st k))).

Definition sched_ready (c : Z) (k : kernel) : res kernel :=
  s ← Scheduler.sched_ready c (sched (sys_of k)); Ok (set_sys (set_sched s (sys_of k)) k).

(** [screen_putstr(kprintf(buf, "MAX_CPU:%x\n", maximum_cpu))] *)
Definition print_max (k : kernel) : res kernel :=
  let st := sys_of k in
  '(m, sc) ← Devices.print fuel (b_max y) (f_max y) [maximum_cpu (cpus_of k)] (bytes st) (console st);
  Ok (set_sys (set_console sc (set_memory (mem st) m st)) k).

(** The ticks that went by meanwhile are counted. *)
Definition cpu_wake_all (k : kernel) : res kernel :=
  let st := sys_of k in let h := hw k in
  s ← Startup.cpu_wake_all fuel (wake_texts y) (cpu_mapping (cpus_of k)) (maximum_cpu (cpus_of k))
        (Startup.Machine (vm_on 0 st) (bytes st) (console st) 
           (r_cr0 (reg_of k 0)) (orig_cr0 h) (apic h) (dev h));
  k ← put_vm (Startup.vm s) (Startup.bytes s) (Startup.console s) k;
  Ok (on_regs 0 (set_cr0 (Startup.cr0 s))
        (set_hw (Hardware (regs h) (Startup.orig_cr0 s) (Startup.apic s) (Startup.dev s) (screen_lock h))
           (set_sys (set_ticks (Startup.ticks (Startup.apic s)) (sys_of k)) k))).

Definition mboot_load_modules (mboot : Z) (k : kernel) : res kernel :=
  st ← Mboot.mboot_load_modules (kpage_dir y) (leave_kernel_at y) (section_names y) fuel 0 mboot
         (sys_of k);
  Ok (set_sys st k).

(** The periodic interrupt of a local controller. *)
Definition sched_start_timer (s : Interrupts.state) : Interrupts.state :=
  let s := Interrupts.lapic_set 0x320 0x00020080 s in
  let s := Interrupts.lapic_set 0x3E0 0xB s in
  Interrupts.lapic_set 0x380 0x00100000 s.

(** ** kmain *)

(** To [cpu_find]: memory and processors are found. *)
Definition kmain_find (mboot : Z) (k : kernel) : res kernel :=
  k ← gdt_init k;
  k ← mboot_parse mboot k;
  k ← mboot_parse_cmdline mboot k;
  cpu_find k.

(** To [sched_ready]: the kernel is set up on the first processor. *)
Definition kmain_init (k : kernel) : res kernel :=
  k ← screen_clear k;
  k ← interrupts_init k;
  k ← syscalls_init k;
  k ← drivers_init k;
  k ← proc_create_kernel_proc k;
  k ← scheduling_init k;
  k ← timer_init k;
  k ← interrupts_start 0 k;
  sched_ready 0 k.

(** To [cpu_sync]. *)
Definition kmain_wake (k : kernel) : res kernel :=
  k ← print_max k;
  cpu_wake_all k.

Definition kmain_boot (mboot : Z) (k : kernel) : res kernel :=
  k ← kmain_find mboot k;
  k ← kmain_init k;
  kmain_wake k.

(** From [cpu_sync]; [sched_idle_loop] only halts. *)
Definition kmain_load (mboot : Z) (k : kernel) : res kernel :=
  k ← mboot_load_modules mboot k;
  Ok (set_sys (set_ints (sched_start_timer (ints (sys_of k))) (sys_of k)) k).

(** ** The other processors *)

(** [f] on the local controller of processor [c]. *)
Definition on_lapic (c : Z) (f : Interrupts.state → Interrupts.state) (k : kernel) : kernel :=
  on_regs c (λ r, set_lapic (Interrupts.lapic (f (Interrupts.State ∅ (r_lapic r) 0 ∅ 0))) r) k.

(** From protected mode to the call of [hello_world]: the kernel's page
    directory and tables, and the stack at the index of the processor. *)
Definition trampoline (c : Z) (k : kernel) : res kernel :=
  st ← load_dir c (kpage_dir y) (sys_of k);
  esp ← aget 0 MAX_CPU (cpu_stack (cpus_of k)) (Z.land c 0x0F);
  let t := tables_of k in
  Ok (on_regs c (λ r, Registers (Z.lor (Z.lor (r_cr0 r) 1) 0x80000000) (r_base r) esp
                        (Some (Gdt.reg (gdt t))) (iptr t) (r_task r) (r_lapic r)) (set_sys st k)).

Definition restore_cr0 (c : Z) (k : kernel) : kernel := on_regs c (set_cr0 (u32 (orig_cr0 (hw k)))) k.

(** Processor [c] to [cpu_sync]. *)
Definition hello_world (c : Z) (k : kernel) : res kernel :=
  k ← trampoline c k;
  let k := restore_cr0 c k in
  let k := apic_enable c k in
  let k := on_lapic c Interrupts.lapic_init k in
  k ← interrupts_start c k;
  sched_ready c k.

(** The processors [cs] come to the barrier in this order. *)
Fixpoint hello_all (cs : list Z) (k : kernel) : res kernel :=
  match cs with
  | [] => Ok k
  | c :: cs => k ← hello_world c k; hello_all cs k
  end.

(** From the barrier. *)
Definition hello_timer (c : Z) (k : kernel) : kernel := on_lapic c sched_start_timer k.

End Boot.
(** ** The memory of the kernel while it boots *)

Section Memory.
Context {M : Type} {HQ : QueueStore (Z * Z) M} (canon : Z → Z) (kdir : Z) (im : mem8).
Notation sys := (sys (F := Palloc.palloc) (M := M)).
Notation pstate := (Process.pstate (F := Palloc.palloc)).
Notation usable := (Loading.usable (M := M) canon kdir 0 im).

Lemma world_eq (w w' : world) :
  ticks w' = ticks w → streams w' = streams w → procs w' = procs w → w' = w.
Proof. destruct w, w'. cbn. congruence. Qed.

Lemma vm_on_same c c' (st : sys) :
  Scheduler.c_pdir (Scheduler.cpu_of c (sched st)) = Scheduler.c_pdir (Scheduler.cpu_of c' (sched st)) →
  vm_on c st = vm_on c' st.
Proof. unfold vm_on. by intros ->. Qed.

(** What is behind the parts of the state that memory does not depend on. *)
Record same_memory (st st' : sys) : Prop := {
  sm_plock : plock st' = plock st;
  sm_mem : mem st' = mem st;
  sm_bytes : bytes st' = bytes st;
  sm_dir : Scheduler.c_pdir (Scheduler.cpu_of 0 (sched st')) =
           Scheduler.c_pdir (Scheduler.cpu_of 0 (sched st));
  sm_threads : threads_of st' = threads_of st;
  sm_procs : procs_of st' = procs_of st;
  sm_elems a : Ready.elements st' a → Ready.elements st a
}.

Lemma usable_same live k st st' : same_memory st st' → usable live k st → usable live k st'.
Proof.
  intros [Hp Hm Hb Hd Ht Hpr He] [Hlock Hh Hu Hdir Hob Him Hl].
  assert (Hv : vm_on 0 st' = vm_on 0 st) by (unfold vm_on; by rewrite Hd, Hm).
  split.
  - by rewrite Hp.
  - unfold heap_on. by rewrite Hv, Hm, Hb.
  - by rewrite Hv.
  - by rewrite Hd.
  - intros a. rewrite Ht, Hpr. intros [Ha|[Ha|Ha]]; apply Hob; [by left|by right; left|].
    right; right. by apply He.
  - by rewrite Hb.
  - done.
Qed.

(** A run of process.c or thread.c on a processor that has the kernel's directory
    loaded. *)
Lemma usable_run {B} c n live live' j k (f : pstate → res (B * pstate)) b s (st : sys) :
  0 ≤ c < MAX_CPU → Scheduler.c_pdir (Scheduler.cpu_of c (sched st)) = kdir → usable live k st →
  f (process_view c st) = Ok (b, s) →
  Memory.spent n (Process.vm_of (process_view c st)) (Process.vm_of s) →
  Memory.heap_ok live' j (Process.mem s) (Process.bytes s) → Process.plock s = 0 →
  (∀ a, is_Some (Process.threads s !! a) ∨ is_Some (Process.procs s !! a) → live' a) →
  (∀ a, live a → live' a ∧ Process.bytes s !! a = bytes st !! a) →
  ∃ st', on_process c f st = Ok (b, st') ∧ process_view c st' = s ∧ same_kernel st st' ∧
    streams_of st' = streams_of st ∧ usable live' j st' ∧
    ∀ c', Scheduler.c_pdir (Scheduler.cpu_of c' (sched st')) =
          Scheduler.c_pdir (Scheduler.cpu_of c' (sched st)).
Proof.
  intros Hc Hdc [Hlock Hh Hu Hdir Hob Him Hl] Hf [Hi Hcr Hk] Hh' Hlk Hob' Hlive.
  destruct (on_process_ok c f b s st Hc Hf) as (st' & Ho & Hv & Hsk & Hst).
  pose proof (on_process_dirs c f b s st st' Hc Hf Ho) as Hd.
  assert (Hdirs : ∀ c', Scheduler.c_pdir (Scheduler.cpu_of c' (sched st')) =
    Scheduler.c_pdir (Scheduler.cpu_of c' (sched st))).
  { intros c'. rewrite Hd. case_decide as Hcc; [|done]. by rewrite Hcr, Hcc. }
  assert (Hvm : vm_on 0 st' = vm_on c st') by (apply vm_on_same; by rewrite !Hdirs, Hdc).
  assert (Hvm0 : vm_on 0 st = vm_on c st) by (apply vm_on_same; by rewrite Hdc).
  exists st'. split; [done|]. split; [done|]. split; [done|]. split; [done|]. split; [|done].
  subst s. split.
  - exact Hlk.
  - unfold heap_on. rewrite Hvm. exact Hh'.
  - rewrite Hvm. apply (Paging.kept_shared _ _ _ Hk). rewrite Hvm0 in Hu. exact Hu.
  - by rewrite Hdirs.
  - intros a [Ha|[Ha|Ha]]; [apply Hob'; by left|apply Hob'; by right|].
    apply Hlive, Hob. right; right. unfold Ready.elements in *. by rewrite (sk_queues _ _ Hsk) in Ha.
  - apply map_subseteq_spec. intros a v Ha. change (Process.bytes (process_view c st') !! a = Some v).
    rewrite (proj2 (Hlive a ltac:(by apply Hl; rewrite Ha))). by apply (lookup_weaken im).
  - intros a Ha. by apply Hlive, Hl.
Qed.

(** A page from the heap. *)
Lemma usable_page c live k (st : sys) :
  0 ≤ c < MAX_CPU → Scheduler.c_pdir (Scheduler.cpu_of c (sched st)) = kdir →
  usable live (S k) st →
  ∃ p st', on_process c (Process.kmalloc PAGE_SIZE) st = Ok (p, st') ∧
    usable (λ a, live a ∨ p ≤ a < p + PAGE_SIZE) k st' ∧ same_kernel st st' ∧
    threads_of st' = threads_of st ∧ world_of st' = world_of st ∧ table st' = table st ∧
    (∀ a, p ≤ a < p + PAGE_SIZE → ¬ live a) ∧
    ∀ c', Scheduler.c_pdir (Scheduler.cpu_of c' (sched st')) =
          Scheduler.c_pdir (Scheduler.cpu_of c' (sched st)).
Proof.
  intros Hc Hdc Hus. pose proof Hus as [Hlock Hh _ Hdir Hob _ _].
  assert (Hvm : vm_on 0 st = vm_on c st) by (apply vm_on_same; by rewrite Hdc).
  unfold heap_on in Hh. rewrite Hvm in Hh.
  destruct (Memory.kmalloc_page live k PAGE_SIZE _ _ ltac:(done) Hh) as (p & h & m & Hk & Hb & Hh').
  destruct (usable_run c 2 live (λ a, live a ∨ p ≤ a < p + PAGE_SIZE) k (S k) (Process.kmalloc PAGE_SIZE) p
    (Process.set_mem h m (process_view c st)) st Hc Hdc Hus)
    as (st' & Ho & Hv & Hsk & Hst & Hus' & Hdirs).
  - unfold Process.kmalloc. cbn [Process.mem Process.bytes process_view].
    by rewrite (bind_ok _ _ _ Hk).
  - exact (Memory.kmalloc_spent _ _ _ _ _ _ _ _ Hh Hk).
  - exact Hh'.
  - exact Hlock.
  - intros a Ha. left. apply Hob. tauto.
  - intros a Ha. split; [by left|]. apply (Memory.fb_same _ _ _ _ _ Hb). intros Hin.
    by apply (Memory.fb_fresh _ _ _ _ _ Hb a Hin).
  - exists p, st'. split; [done|]. split; [done|]. split; [done|].
    pose proof (f_equal Process.procs Hv) as Hpr. pose proof (f_equal Process.threads Hv) as Hth.
    pose proof (f_equal Process.table Hv) as Hta. split; [exact Hth|].
    split; [|split; [exact Hta|split; [exact (Memory.fb_fresh _ _ _ _ _ Hb)|done]]].
    exact (world_eq _ _ (sk_ticks _ _ Hsk) Hst Hpr).
Qed.

End Memory.

(** ** Processors that idle *)

Section Idle.
Context {M : Type} {HQ : QueueStore (Z * Z) M}.
Notation kstate := (Scheduler.kstate M).

(** Processor [c] runs its idle thread, in the process at [kp], and nothing
    waits for it. *)
Record idles (kp c : Z) (k : kstate) : Prop := {
  id_thread : ∃ t s th, Scheduler.this c k = Scheduler.Sched t t 0 0 s ∧ t ≠ 0 ∧
    Scheduler.threads k !! t = Some th ∧ parent th = kp ∧ event th = NoEvent;
  id_queue p : p = Scheduler.WAITING ∨ 0 ≤ p < MAX_PRIORITY → Scheduler.queue k c p = []
}.

Lemma idles_wf kp c (k : kstate) pr :
  0 ≤ c < MAX_CPU → qok (Scheduler.queues k) → idles kp c k →
  procs (Scheduler.wld k) !! kp = Some pr → Scheduler.c_pdir (Scheduler.cpu_of c k) = pdir pr →
  Scheduler.sched_wf c k ∧ Scheduler.cpu_threads c k = [].
Proof.
  intros Hc Hok [(t & s & th & Hth & Ht0 & Ht & Hpar & Hev) Hq] Hpr Hdir.
  assert (Htok : Scheduler.thread_ok k t (priority th)).
  { exists th. split; [done|]. split; [done|]. rewrite Hpar, Hpr. split; [by eexists|].
    exists true. unfold ready. by rewrite bool_decide_true. }
  assert (Hempty : Scheduler.cpu_threads c k = []).
  { unfold Scheduler.cpu_threads, Scheduler.cur_list, Scheduler.queued. rewrite Hth. cbn.
    rewrite decide_True by done. change (seqZ 0 MAX_PRIORITY) with [0; 1; 2; 3; 4]. cbn [flat_map].
    change MAX_PRIORITY with 5 in Hq. by rewrite !Hq by lia. }
  split; [|done]. split; rewrite ?Hth; cbn.
  - done.
  - done.
  - by apply Hq; left.
  - split; [done|]. by eexists.
  - intros th' Hth'. congruence.
  - split; [done|by left].
  - intros p x Hp. rewrite Hq by (by right). intros Hin. by apply not_elem_of_nil in Hin.
  - rewrite Hempty. reflexivity.
  - unfold Scheduler.dir_of. by rewrite Ht, Hpar, Hpr.
Qed.

(** Other threads and the other processors do not matter. *)
Lemma idles_same kp c (k k' : kstate) :
  Scheduler.idle_thread (Scheduler.this c k') = Scheduler.idle_thread (Scheduler.this c k) →
  Scheduler.current_thread (Scheduler.this c k') = Scheduler.current_thread (Scheduler.this c k) →
  Scheduler.next_thread (Scheduler.this c k') = Scheduler.next_thread (Scheduler.this c k) →
  Scheduler.load (Scheduler.this c k') = Scheduler.load (Scheduler.this c k) →
  (∀ p, Scheduler.queue k' c p = Scheduler.queue k c p) →
  (∀ t th, Scheduler.threads k !! t = Some th → Scheduler.threads k' !! t = Some th) →
  idles kp c k → idles kp c k'.
Proof.
  intros Hi Hcu Hn Hl Hq Ht [(t & s & th & Hth & Ht0 & Hth0 & Hrest) Hqs].
  split; [|intros p Hp; rewrite Hq; by apply Hqs].
  rewrite Hth in *. destruct (Scheduler.this c k') as [i' c' n' l' s'] eqn:E. cbn in *. subst.
  exists t, s', th. split; [done|]. split; [done|]. split; [by apply Ht|done].
Qed.

Lemma qzero_all c ps (m : M) :
  qok m → qok (fold_right (λ p, qzero (c, p)) m ps) ∧
  ∀ c' p, qitems (fold_right (λ p, qzero (c, p)) m ps) (c', p) =
    if decide (c' = c ∧ p ∈ ps) then [] else qitems m (c', p).
Proof.
  intros Hm. induction ps as [|q ps [IHo IHi]]; cbn [fold_right].
  - split; [done|]. intros c' p. rewrite decide_False; [done|]. intros [_ Hin].
    by apply not_elem_of_nil in Hin.
  - destruct (qzero_spec (c, q) _ IHo) as [Ho Hi]. split; [done|]. intros c' p. rewrite Hi, IHi.
    destruct (decide ((c', p) = (c, q))) as [[= -> ->]|Hd].
    { rewrite decide_True; [done|]. split; [done|]. apply elem_of_cons. by left. }
    destruct (decide (c' = c ∧ p ∈ ps)) as [[-> Hp]|Hd2].
    { rewrite decide_True; [done|]. split; [done|]. apply elem_of_cons. by right. }
    rewrite decide_False; [done|]. intros [-> [->|Hp]%elem_of_cons]; tauto.
Qed.

Lemma qzero_all_elems (c : Z) ps (m : M) a :
  qelem (fold_right (λ p, qzero (c, p)) m ps) a ↔ qelem m a.
Proof. induction ps as [|p ps IH]; cbn [fold_right]; [done|]. by rewrite qzero_elems. Qed.

Lemma scheduler_init_idles i t th (k : kstate) :
  0 ≤ i < MAX_CPU → qok (Scheduler.queues k) → t ≠ 0 → Scheduler.threads k !! t = Some th →
  event th = NoEvent →
  ∃ k', Scheduler.scheduler_init i t k = Ok k' ∧ qok (Scheduler.queues k') ∧ idles (parent th) i k' ∧
    Scheduler.started (Scheduler.this i k') = 0 ∧
    (∀ c, c ≠ i → Scheduler.this c k' = Scheduler.this c k ∧
       ∀ p, Scheduler.queue k' c p = Scheduler.queue k c p) ∧
    Scheduler.threads k' = Scheduler.threads k ∧ Scheduler.cpus k' = Scheduler.cpus k ∧
    Scheduler.wld k' = Scheduler.wld k ∧
    ∀ a, qelem (Scheduler.queues k') a ↔ qelem (Scheduler.queues k) a.
Proof.
  intros Hi Hok Ht Hth Hev. destruct (qzero_all i [Scheduler.WAITING; 0; 1; 2; 3; 4] _ Hok) as [Ho Hq].
  unfold Scheduler.scheduler_init. rewrite Scheduler.set_sched_in by done. eexists. split; [done|].
  split; [exact Ho|]. unfold Scheduler.this, Scheduler.queue. cbn [Scheduler.scheds Scheduler.queues
    Scheduler.threads Scheduler.set_queues].
  split; [split|split; [by rewrite arr_insert_eq|split; [|do 3 (split; [done|]); apply qzero_all_elems]]].
  - exists t, 0, th. unfold Scheduler.this. cbn [Scheduler.scheds]. by rewrite arr_insert_eq.
  - intros p Hp. unfold Scheduler.queue. cbn [Scheduler.queues]. rewrite Hq, decide_True; [done|].
    split; [done|]. change MAX_PRIORITY with 5 in Hp. change Scheduler.WAITING with 5 in *.
    rewrite !elem_of_cons. destruct Hp; [tauto|]. assert (p = 0 ∨ p = 1 ∨ p = 2 ∨ p = 3 ∨ p = 4) by lia. tauto.
  - intros c Hc. rewrite arr_insert_ne by done. split; [done|]. intros p.
    rewrite Hq, decide_False; [done|]. by intros [? _].
Qed.

End Idle.

(** ** The idle threads *)

Section Scheduling.
Context {M : Type} {HQ : QueueStore (Z * Z) M} (canon : Z → Z) (y : image) (im : mem8).
Notation sys := (sys (F := Palloc.palloc) (M := M)).
Notation usable := (Loading.usable (M := M) canon (kpage_dir y) 0 im).

(** What the set-up of the schedulers leaves alone. *)
Record same_rest (st st' : sys) : Prop := {
  sr_table : table st' = table st;
  sr_world : world_of st' = world_of st;
  sr_dir c : Scheduler.c_pdir (Scheduler.cpu_of c (sched st')) =
             Scheduler.c_pdir (Scheduler.cpu_of c (sched st));
  sr_ints : ints st' = ints st;
  sr_handlers : handlers st' = handlers st;
  sr_console : console st' = console st
}.

Lemma same_rest_trans st1 st2 st3 : same_rest st1 st2 → same_rest st2 st3 → same_rest st1 st3.
Proof. intros [] []. split; try congruence. Qed.

Lemma scheduler_init_ok live j kp i (st : sys) :
  0 ≤ i < MAX_CPU → 0 ≤ idle_loop_at y < 2 ^ 32 → arr 0 (table st) 0 = kp →
  usable live (j + 3) st → qok (Scheduler.queues (sched st)) →
  ∃ st' live', scheduler_init y i st = Ok st' ∧ usable live' j st' ∧ (∀ a, live a → live' a) ∧
    qok (Scheduler.queues (sched st')) ∧ idles kp i (sched st') ∧
    Scheduler.started (Scheduler.this i (sched st')) = 0 ∧ same_rest st st' ∧
    (∀ c, c ≠ i → Scheduler.this c (sched st') = Scheduler.this c (sched st) ∧
       ∀ p, Scheduler.queue (sched st') c p = Scheduler.queue (sched st) c p) ∧
    ∀ t th, threads_of st !! t = Some th → threads_of st' !! t = Some th.
Proof.
  intros Hi He Hkp Hus Hok. pose proof Hus as [Hlock Hh _ Hdir Hob _ _].
  destruct (Process.thread_create_kernel (kpage_dir y) (leave_kernel_at y) live j kp (idle_loop_at y)
    (process_view 0 st) Hh He) as (t & s & th & live' & Hcr & Hts & Hps & Htb & Hth & _ & Hh' & Hin & Hout &
      Hsp & Hlk & Ht0).
  assert (Hlive : ∀ a, live a → live' a) by (intros a Ha; apply Hin; by left).
  assert (Hlt : live' t) by (apply Hin; right; left; split; [lia|]; change Process.THREAD_SIZE with 36; lia).
  destruct (usable_run canon (kpage_dir y) im 0 6 live live' j (j + 3) _ t s st (conj (Z.le_refl 0) (eq_refl : 0 < MAX_CPU)) Hdir Hus
    Hcr Hsp Hh') as (st1 & Ho & Hv & Hsk & Hst & Hus' & Hdirs).
  - by rewrite Hlk.
  - intros a. rewrite Hts, Hps. destruct (decide (a = t)) as [->|Hne]; [done|].
    rewrite lookup_insert_ne by done. intros Ha. apply Hlive, Hob. tauto.
  - intros a Ha. split; [by apply Hlive|]. by apply Hout.
  - subst s. assert (Hnew : threads_of st !! t = None).
    { destruct (threads_of st !! t) eqn:E; [|done]. destruct (Hout t) as (Hn & _).
      - apply Hob. left. by rewrite E.
      - destruct Hn. split; [lia|]. change Process.THREAD_SIZE with 36. lia. }
    destruct (scheduler_init_idles i t th (sched st1)) as (k' & Hk & Hok' & Hid & Hsta & Hoth & Hkt & Hkc & Hkw & Hke);
      [done|by rewrite (sk_queues _ _ Hsk)|done| |by rewrite Hth|].
    { change (Process.threads (process_view 0 st1) !! t = Some th). rewrite Hts. apply lookup_insert_eq. }
    rewrite Hth in Hid. cbn [parent] in Hid.
    assert (Hw : world_of st1 = world_of st).
    { exact (world_eq _ _ (sk_ticks _ _ Hsk) Hst Hps). }
    exists (set_sched k' st1), live'. split; [|split; [|split; [done|split; [done|split; [done|split; [done|split; [|split]]]]]]].
    + unfold scheduler_init, Process.proc_get_by_pid. rewrite aget_in by done. cbn [mbind res_bind].
      change (Process.table (process_view 0 st)) with (table st). rewrite Hkp, (bind_ok _ _ _ Ho).
      cbv iota beta. by rewrite (bind_ok _ _ _ Hk).
    + eapply usable_same; [|exact Hus']. split; try done; unfold Scheduler.cpu_of, threads_of, procs_of,
        world_of; cbn [sched set_sched]; [by rewrite Hkc|by rewrite Hkw|].
      intros a. unfold Ready.elements. cbn [sched set_sched]. by rewrite Hke.
    + destruct Hsk as [Hs1 Hs2 Hs3 Hs4 Hs5 Hs6]. split; try done.
      * unfold world_of. cbn [sched set_sched]. rewrite Hkw. exact Hw.
      * intros c. rewrite <- Hdirs. unfold Scheduler.cpu_of. cbn [sched set_sched]. by rewrite Hkc.
    + intros c Hc. destruct (Hoth c Hc) as [Hc1 Hc2]. cbn [sched set_sched]. rewrite Hc1. split.
      * unfold Scheduler.this. by rewrite (sk_scheds _ _ Hsk).
      * intros p. rewrite Hc2. unfold Scheduler.queue. by rewrite (sk_queues _ _ Hsk).
    + intros t' th' Ht'. unfold threads_of. cbn [sched set_sched]. rewrite Hkt.
      change (Process.threads (process_view 0 st1) !! t' = Some th'). rewrite Hts.
      rewrite lookup_insert_ne; [done|]. intros ->. congruence.
Qed.

End Scheduling.

(** ** What the barrier finds *)

Section Booted.
Context {M : Type} {HQ : QueueStore (Z * Z) M} {A : Type} {HA : Startup.Apic A} {D : Type} {HD : Ports D}.
Context (canon : Z → Z) (y : image) (im : mem8).
Notation sys := (sys (F := Palloc.palloc) (M := M)).
Notation kernel := (kernel (M := M) (A := A) (D := D)).
Notation usable := (Loading.usable (M := M) canon (kpage_dir y) 0 im).

Definition kernel_proc : process := Proc 0 section0 section0 section0 section0 (kpage_dir y) ∅ ∅.

(** The kernel is set up, its process is at [kp], the processors [cs] have
    started and every processor's scheduler idles; [k] more allocations are
    possible. *)
Record booted (kp : Z) (live : Z → Prop) (k : nat) (cs : list Z) (x : kernel) : Prop := {
  bt_usable : usable live k (sys_of x);
  bt_slot : arr 0 (table (sys_of x)) 0 = kp;
  bt_proc : procs_of (sys_of x) !! kp = Some kernel_proc;
  bt_queues : qok (Scheduler.queues (sched (sys_of x)));
  bt_idles c : 0 ≤ c < MAX_CPU → idles kp c (sched (sys_of x));
  bt_started c : 0 ≤ c < MAX_CPU → Scheduler.started (Scheduler.this c (sched (sys_of x))) ≠ 0 ↔ c ∈ cs;
  bt_dirs c : c ∈ cs → Scheduler.c_pdir (Scheduler.cpu_of c (sched (sys_of x))) = kpage_dir y;
  bt_range c : c ∈ cs → 0 ≤ c < MAX_CPU;
  bt_handlers id : 0 ≤ id < 256 →
    arr Interrupts.NullHandler (Interrupts.int_handlers (ints (sys_of x))) id = Interrupts.intended id
}.

(** What the barrier needs of the parts that other steps leave alone. *)
Record same_boot (st st' : sys) : Prop := {
  sb_scheds : Scheduler.scheds (sched st') = Scheduler.scheds (sched st);
  sb_queues : Scheduler.queues (sched st') = Scheduler.queues (sched st);
  sb_threads : threads_of st' = threads_of st;
  sb_procs : procs_of st' = procs_of st;
  sb_table : table st' = table st;
  sb_dirs c : Scheduler.c_pdir (Scheduler.cpu_of c (sched st')) =
              Scheduler.c_pdir (Scheduler.cpu_of c (sched st));
  sb_ints : Interrupts.int_handlers (ints st') = Interrupts.int_handlers (ints st)
}.

Lemma booted_same kp live live' k k' cs (x x' : kernel) :
  same_boot (sys_of x) (sys_of x') → usable live' k' (sys_of x') →
  booted kp live k cs x → booted kp live' k' cs x'.
Proof.
  intros [Hs Hq Ht Hp Hta Hd Hi] Hus [_ B1 B2 B3 B4 B5 B6 B7 B8].
  split; rewrite ?Hta, ?Hp, ?Hq, ?Hi; try done; intros c Hc; [|unfold Scheduler.this; rewrite Hs; by apply B5|rewrite Hd; by apply B6].
  apply (idles_same kp c (sched (sys_of x))); unfold Scheduler.this, Scheduler.queue; rewrite ?Hs, ?Hq; try done.
  - intros t th Hx. unfold threads_of in Ht. by rewrite Ht.
  - by apply B4.
Qed.

(** Such a kernel can load programs. *)
Lemma booted_loadable kp live k cs r (x : kernel) :
  0 ∈ cs → Z.of_nat r < 2 ^ 31 - 1 → booted kp live k cs x → Screen.console_ok (console (sys_of x)) →
  (∀ a, Loading.in_buffer (section_names y) a → is_Some (im !! a)) →
  Loading.loadable canon (kpage_dir y) (section_names y) 0 im live k r (sys_of x).
Proof.
  intros H0 Hr [Hus _ B2 B3 B4 B5 B6 B7 _] Hsc Hbuf. split; [done|done| |].
  { intros a Ha. destruct (Hbuf a Ha) as [v Hv]. split; [|by apply (Loading.us_live _ _ _ _ _ _ _ Hus); exists v].
    exists v. apply (lookup_weaken im); [done|]. exact (Loading.us_image _ _ _ _ _ _ _ Hus). }
  intros c Hel.
  assert (Hc : 0 ≤ c < MAX_CPU ∧ c ∈ cs).
  { destruct Hel as [->|[Hc Hst]]; [split; [by apply B7|done]|].
    split; [lia|]. apply B5; [lia|]. exact Hst. }
  destruct Hc as [Hc Hin]. destruct (idles_wf kp c (sched (sys_of x)) kernel_proc) as [Hwf Hemp];
    [done|done|by apply B4|done|by apply B6|].
  split; [done|]. rewrite Hemp. exact Hr.
Qed.

(** What the processors leave alone on their way to the barrier. *)
Record unmoved (x x' : kernel) : Prop := {
  um_cpus : cpus_of x' = cpus_of x;
  um_apic : apic (hw x') = apic (hw x);
  um_console : console (sys_of x') = console (sys_of x);
  um_idt : idt (tables_of x') = idt (tables_of x);
  um_iptr : iptr (tables_of x') = iptr (tables_of x);
  um_gdtr : Gdt.reg (gdt (tables_of x')) = Gdt.reg (gdt (tables_of x));
  um_orig : orig_cr0 (hw x') = orig_cr0 (hw x)
}.

Lemma unmoved_trans (x1 x2 x3 : kernel) : unmoved x1 x2 → unmoved x2 x3 → unmoved x1 x3.
Proof. intros [] []. split; congruence. Qed.

(** Processor [c] came by the trampoline: its registers are those of [kmain],
    its stack is the one [cpu_find] gave it and its task state its own. *)
Record awake (x : kernel) (c : Z) : Prop := {
  aw_cr0 : r_cr0 (reg_of x c) = u32 (orig_cr0 (hw x));
  aw_esp : r_esp (reg_of x c) = arr 0 (cpu_stack (cpus_of x)) c;
  aw_gdtr : r_gdtr (reg_of x c) = Some (Gdt.reg (gdt (tables_of x)));
  aw_idtr : r_idtr (reg_of x c) = iptr (tables_of x);
  aw_task : r_task (reg_of x c) = 8 * (5 + c) + 3
}.

Lemma awake_same (x x' : kernel) c :
  unmoved x x' → reg_of x' c = reg_of x c → awake x c → awake x' c.
Proof.
  intros [Hc _ _ _ Hi Hg Ho] Hr [H1 H2 H3 H4 H5]. by split; rewrite Hr, ?Ho, ?Hc, ?Hg, ?Hi.
Qed.

Lemma reg_on_regs c f (x : kernel) c' :
  reg_of (on_regs c f x) c' = if decide (c = c') then f (reg_of x c) else reg_of x c'.
Proof. unfold reg_of, on_regs. cbn [hw set_hw regs]. by rewrite arr_insert. Qed.

Lemma reg_apic_enable c (x : kernel) c' :
  reg_of (apic_enable c x) c' = if decide (c = c') then
    set_base (Z.lor (Z.land (r_base (reg_of x c)) 0xFFFFF000) 0x800) (reg_of x c) else reg_of x c'.
Proof. unfold apic_enable, Devices.apic_enable. cbv zeta iota beta. by rewrite reg_on_regs. Qed.

Lemma cpu_nibble c : 0 ≤ c < MAX_CPU → Z.land c 0x0F = c.
Proof.
  intros Hc. change MAX_CPU with 8 in Hc. change 0x0F with (Z.ones 4).
  rewrite Z.land_ones by lia. apply Z.mod_small. lia.
Qed.

(** The stack for the interrupts of processor [c]: [esp0] of its task state. *)
Definition stack_of (x : kernel) (c : Z) : Z := Gdt.esp0 (arr Gdt.tss0 (Gdt.tss (gdt (tables_of x))) c).

(** Each of the processors [cs] has a page of its own at its stack. *)
Record stacks (live : Z → Prop) (cs : list Z) (x : kernel) : Prop := {
  st_live c a : c ∈ cs → stack_of x c ≤ a < stack_of x c + PAGE_SIZE → live a;
  st_apart c c' : c ∈ cs → c' ∈ cs → c ≠ c' →
    stack_of x c + PAGE_SIZE ≤ stack_of x c' ∨ stack_of x c' + PAGE_SIZE ≤ stack_of x c
}.

Lemma stacks_add live cs c p (x x' : kernel) :
  c ∉ cs → stack_of x' c = p → (∀ c', c' ≠ c → stack_of x' c' = stack_of x c') →
  (∀ a, p ≤ a < p + PAGE_SIZE → ¬ live a) → stacks live cs x →
  stacks (λ a, live a ∨ p ≤ a < p + PAGE_SIZE) (c :: cs) x'.
Proof.
  intros Hc Hp Hoth Hfr [Hl Ha].
  assert (Hin : ∀ c', c' ∈ cs → stack_of x' c' = stack_of x c') by (intros c' Hin; apply Hoth; by intros ->).
  assert (Hfar : ∀ c', c' ∈ cs → p + PAGE_SIZE ≤ stack_of x' c' ∨ stack_of x' c' + PAGE_SIZE ≤ p).
  { intros c' Hc'. rewrite Hin by done.
    destruct (decide (p + PAGE_SIZE ≤ stack_of x c')) as [|H1]; [by left|].
    destruct (decide (stack_of x c' + PAGE_SIZE ≤ p)) as [|H2]; [by right|]. exfalso.
    apply (Hfr (Z.max p (stack_of x c'))); [rewrite PAGE_SIZE_eq in *; lia|].
    apply (Hl c'); [done|rewrite PAGE_SIZE_eq in *; lia]. }
  split.
  - intros c' a [->|Hc']%elem_of_cons; [rewrite Hp; by right|]. rewrite Hin by done. left. by apply (Hl c').
  - intros c1 c2 [->|H1]%elem_of_cons [->|H2]%elem_of_cons Hne; [done|rewrite Hp; by apply Hfar| |].
    + rewrite Hp. destruct (Hfar c1 H1); [by right|by left].
    + rewrite !Hin by done. by apply Ha.
Qed.

(** A processor takes its stack and reports ready. *)
Lemma interrupts_start_ok kp live k cs c (x : kernel) :
  0 ≤ c < MAX_CPU → Scheduler.c_pdir (Scheduler.cpu_of c (sched (sys_of x))) = kpage_dir y →
  booted kp live (S k) cs x → c ∉ cs → stacks live cs x →
  ∃ p x', interrupts_start c x = Ok x' ∧ booted kp (λ a, live a ∨ p ≤ a < p + PAGE_SIZE) k cs x' ∧
    stacks (λ a, live a ∨ p ≤ a < p + PAGE_SIZE) (c :: cs) x' ∧
    (∀ c', Scheduler.c_pdir (Scheduler.cpu_of c' (sched (sys_of x'))) =
           Scheduler.c_pdir (Scheduler.cpu_of c' (sched (sys_of x)))) ∧ unmoved x x' ∧
    ∀ c', reg_of x' c' = if decide (c = c') then set_task (8 * (5 + c) + 3) (reg_of x c) else reg_of x c'.
Proof.
  intros Hc Hd Hb Hnew Hst.
  destruct (usable_page canon (kpage_dir y) im c live k (sys_of x) Hc Hd (bt_usable _ _ _ _ _ Hb))
    as (p & st' & Ho & Hus & Hsk & Hth & Hw & Hta & Hfresh & Hdirs).
  unfold interrupts_start. rewrite (bind_ok _ _ _ Ho). cbv iota beta.
  unfold Gdt.tss_set_stack. rewrite aget_in by done. cbn [mbind res_bind]. rewrite aset_in by done.
  cbn [mbind res_bind]. exists p. eexists. split; [reflexivity|].
  cbn [tables_of gdt Gdt.tss Gdt.tss_flush Gdt.set_tss set_gdt set_sys on_regs set_hw sys_of cpus_of].
  split; [|split; [|split; [done|split; [by split; destruct Hsk|]]]].
  3: { intros c'. rewrite reg_on_regs, (Gdt.task_register c) by done. reflexivity. }
  2: { apply (stacks_add live cs c p x); try done; unfold stack_of;
         cbn [tables_of gdt Gdt.tss Gdt.set_tss set_gdt set_sys on_regs set_hw].
       - by rewrite arr_insert_eq.
       - intros c' Hc'. by rewrite arr_insert_ne. }
  apply (booted_same kp live _ (S k) k cs x); [|done|done]. destruct Hsk as [Hs Hq _ Hi _ _].
  split; cbn [sys_of set_gdt set_sys on_regs set_hw]; try done; [by unfold procs_of; rewrite Hw|by rewrite Hi].
Qed.

Lemma sched_ready_ok kp live k cs c (x : kernel) :
  0 ≤ c < MAX_CPU → Scheduler.c_pdir (Scheduler.cpu_of c (sched (sys_of x))) = kpage_dir y →
  booted kp live k cs x →
  ∃ x', sched_ready c x = Ok x' ∧ booted kp live k (c :: cs) x' ∧ tables_of x' = tables_of x ∧
    unmoved x x' ∧ hw x' = hw x.
Proof.
  intros Hc Hd [B0 B1 B2 B3 B4 B5 B6 B7 B8].
  unfold sched_ready, Scheduler.sched_ready. rewrite Scheduler.get_sched_in by done.
  cbn [mbind res_bind]. rewrite Scheduler.set_sched_in by done. cbn [mbind res_bind].
  eexists. split; [reflexivity|]. split; [|by repeat split]. split; cbn [sys_of set_sys]; try done.
  - eapply usable_same; [|exact B0]. by split.
  - intros c' Hc'. apply (idles_same kp c' (sched (sys_of x))); try done; [..|by apply B4];
      unfold Scheduler.this; cbn [Scheduler.scheds sched set_sched]; rewrite arr_insert; case_decide; by subst.
  - intros c' Hc'. unfold Scheduler.this. cbn [Scheduler.scheds sched set_sched]. rewrite arr_insert, elem_of_cons.
    case_decide as He; [by subst; split; [by left|]|]. rewrite <- B5 by done.
    split; [by right|by intros [?|?]; [congruence|]].
  - intros c' [->|Hin]%elem_of_cons; [exact Hd|by apply B6].
  - intros c' [->|Hin]%elem_of_cons; [done|by apply B7].
Qed.

(** ** The other processors *)

Lemma trampoline_ok kp live k cs c (x : kernel) :
  0 ≤ c < MAX_CPU → booted kp live k cs x →
  ∃ x', trampoline y c x = Ok x' ∧ booted kp live k cs x' ∧
    Scheduler.c_pdir (Scheduler.cpu_of c (sched (sys_of x'))) = kpage_dir y ∧
    tables_of x' = tables_of x ∧ unmoved x x' ∧
    ∃ cr0 lapic, ∀ c', reg_of x' c' = if decide (c = c') then
      Registers cr0 (r_base (reg_of x c)) (arr 0 (cpu_stack (cpus_of x)) c)
        (Some (Gdt.reg (gdt (tables_of x)))) (iptr (tables_of x)) (r_task (reg_of x c)) lapic
      else reg_of x c'.
Proof.
  intros Hc [B0 B1 B2 B3 B4 B5 B6 B7 B8].
  destruct (load_dir_ok c (kpage_dir y) (sys_of x) Hc) as (s & Hs & Hcpu & Hsc & Hqs & Hth & Hw).
  assert (Hall : ∀ c', Scheduler.c_pdir (Scheduler.cpu_of c' s) =
    if decide (c' = c) then kpage_dir y else Scheduler.c_pdir (Scheduler.cpu_of c' (sched (sys_of x)))).
  { unfold load_dir in Hs. rewrite aset_in in Hs by done. injection Hs as <-. intros c'.
    unfold Scheduler.cpu_of. cbn [Scheduler.cpus Scheduler.set_cpus]. rewrite arr_insert.
    by destruct (decide (c = c')) as [->|]; [rewrite decide_True|rewrite decide_False]. }
  unfold trampoline. rewrite (bind_ok _ _ _ Hs), cpu_nibble, aget_in by done. cbn [mbind res_bind].
  eexists. split; [reflexivity|]. cbn [sys_of set_sys on_regs set_hw sched set_sched].
  split; [|split; [by rewrite Hall, decide_True|split; [done|split; [by split|]]]].
  2: { eexists _, _. intros c'. rewrite reg_on_regs. reflexivity. }
  pose proof (Loading.us_dir _ _ _ _ _ _ _ B0) as Hd0.
  split; cbn [sys_of set_sys on_regs set_hw sched set_sched]; try done.
  - eapply usable_same; [|exact B0]. split; try done; cbn [sched set_sched].
    + rewrite Hall. case_decide; [by rewrite Hd0|done].
    + unfold procs_of, world_of. cbn [sched set_sched]. by rewrite Hw.
    + intros a. unfold Ready.elements. cbn [sched set_sched]. by rewrite Hqs.
  - unfold procs_of, world_of. cbn [sched set_sched]. by rewrite Hw.
  - by rewrite Hqs.
  - intros c' Hc'. apply (idles_same kp c' (sched (sys_of x))); unfold Scheduler.this, Scheduler.queue;
      rewrite ?Hsc, ?Hqs, ?Hth; try done. by apply B4.
  - intros c' Hc'. unfold Scheduler.this. rewrite Hsc. by apply B5.
  - intros c' Hin. rewrite Hall. case_decide; [done|by apply B6].
Qed.

(** [restore_cr0], [apic_enable] and [lapic_init] on processor [c]. *)
Lemma woken_ok kp live k cs c (x : kernel) :
  booted kp live k cs x →
  let x' := on_lapic c Interrupts.lapic_init (apic_enable c (restore_cr0 c x)) in
  booted kp live k cs x' ∧ tables_of x' = tables_of x ∧ unmoved x x' ∧
  (∀ c', Scheduler.cpu_of c' (sched (sys_of x')) = Scheduler.cpu_of c' (sched (sys_of x))) ∧
  r_cr0 (reg_of x' c) = u32 (orig_cr0 (hw x)) ∧ r_esp (reg_of x' c) = r_esp (reg_of x c) ∧
  r_gdtr (reg_of x' c) = r_gdtr (reg_of x c) ∧ r_idtr (reg_of x' c) = r_idtr (reg_of x c) ∧
  ∀ c', c' ≠ c → reg_of x' c' = reg_of x c'.
Proof.
  intros Hb x'. split; [by apply (booted_same kp live live k k cs x); [split|apply Hb|]|].
  split; [done|]. split; [by split|]. split; [done|].
  unfold x', on_lapic, restore_cr0. split; [|split; [|split; [|split]]];
    [..|intros c' Hne; by rewrite reg_on_regs, decide_False, reg_apic_enable, decide_False, reg_on_regs,
      decide_False by congruence];
    by rewrite reg_on_regs, decide_True, reg_apic_enable, decide_True, reg_on_regs, decide_True by done.
Qed.

(** Processor [c] up to the barrier. *)
Lemma hello_world_ok kp live k cs c (x : kernel) :
  0 ≤ c < MAX_CPU → c ∉ cs → booted kp live (S k) cs x → stacks live cs x →
  ∃ p x', hello_world y c x = Ok x' ∧ booted kp (λ a, live a ∨ p ≤ a < p + PAGE_SIZE) k (c :: cs) x' ∧
    stacks (λ a, live a ∨ p ≤ a < p + PAGE_SIZE) (c :: cs) x' ∧ unmoved x x' ∧ awake x' c ∧
    ∀ c', c' ≠ c → reg_of x' c' = reg_of x c'.
Proof.
  intros Hc Hnew Hb Hst.
  destruct (trampoline_ok kp live (S k) cs c x Hc Hb) as (x1 & H1 & Hb1 & Hd1 & Ht1 & Hu1 & cr0 & lapic & Hr1).
  unfold hello_world. rewrite (bind_ok _ _ _ H1). cbv zeta.
  destruct (woken_ok kp live (S k) cs c x1 Hb1) as (Hb2 & Ht2 & Hu2 & Hc2 & Hr2).
  set (x2 := on_lapic _ _ _) in *.
  destruct (interrupts_start_ok kp live k cs c x2 Hc) as (p & x3 & H3 & Hb3 & Hst3 & Hdir3 & Hu3 & Hr3);
    [by rewrite Hc2|done|done| |].
  { destruct Hst as [Hl Ha]. split; unfold stack_of in *; by rewrite Ht2, Ht1. }
  rewrite (bind_ok _ _ _ H3). specialize (Hdir3 c). rewrite Hc2, Hd1 in Hdir3.
  destruct (sched_ready_ok kp _ k cs c x3 Hc Hdir3 Hb3) as (x4 & H4 & Hb4 & Ht4 & Hu4 & Hh4).
  exists p, x4. split; [done|]. split; [done|].
  pose proof (unmoved_trans _ _ _ Hu3 Hu4) as Hu34. pose proof (unmoved_trans _ _ _ Hu2 Hu34) as Hu24.
  pose proof (unmoved_trans _ _ _ Hu1 Hu24) as Hu.
  assert (Hr4 : ∀ c', reg_of x4 c' = reg_of x3 c') by (intros c'; unfold reg_of; by rewrite Hh4).
  split; [|split; [done|split]].
  - destruct Hst3 as [Hl Ha]. split; unfold stack_of in *; by rewrite Ht4.
  - destruct Hu as [U1 _ _ _ U5 U6 U7], Hr2 as (R1 & R2 & R3 & R4 & _), Hu1 as [_ _ _ _ _ _ V7].
    split; rewrite Hr4, Hr3, decide_True by done; cbn [set_task r_cr0 r_esp r_gdtr r_idtr r_task];
      rewrite ?R1, ?R2, ?R3, ?R4, ?Hr1, ?decide_True by done; cbn [r_esp r_gdtr r_idtr]; congruence.
  - intros c' Hne. destruct Hr2 as (_ & _ & _ & _ & R5).
    rewrite Hr4, Hr3, decide_False, R5, Hr1, decide_False by congruence. done.
Qed.

(** The processors come to the barrier in any order. *)
Lemma hello_all_ok kp k new : ∀ live cs (x : kernel),
  (∀ c, c ∈ new → 0 ≤ c < MAX_CPU) → NoDup (new ++ cs) → booted kp live (length new + k) cs x →
  stacks live cs x →
  ∃ x' live', hello_all y new x = Ok x' ∧ booted kp live' k (rev new ++ cs) x' ∧
    stacks live' (rev new ++ cs) x' ∧ (∀ a, live a → live' a) ∧ unmoved x x' ∧
    (∀ c, c ∈ new → awake x' c) ∧ ∀ c, c ∉ new → reg_of x' c = reg_of x c.
Proof.
  induction new as [|c new IH]; intros live cs x Hr Hnd Hb Hst; cbn [hello_all rev app].
  { exists x, live. do 4 (split; [done|]). split; [by split|]. split; [|done].
    intros c Hin. by apply not_elem_of_nil in Hin. }
  cbn [app] in Hnd. apply NoDup_cons in Hnd as [Hnin Hnd]. rewrite elem_of_app in Hnin.
  destruct (hello_world_ok kp live (length new + k) cs c x) as (p & x1 & H1 & Hb1 & Hst1 & Hu1 & Ha1 & Hr1);
    [apply Hr, elem_of_cons; by left|tauto|exact Hb|done|].
  rewrite (bind_ok _ _ _ H1).
  destruct (IH (λ a, live a ∨ p ≤ a < p + PAGE_SIZE) (c :: cs) x1)
    as (x2 & live2 & H2 & Hb2 & Hst2 & Hl2 & Hu2 & Ha2 & Hr2);
    [intros c' Hc'; apply Hr, elem_of_cons; by right| |exact Hb1|exact Hst1|].
  { rewrite <- Permutation_middle. apply NoDup_cons. rewrite elem_of_app. tauto. }
  exists x2, live2. rewrite <- app_assoc. cbn [app]. split; [done|]. split; [done|]. split; [done|].
  split; [intros a Ha; apply Hl2; by left|]. split; [by apply (unmoved_trans x x1)|]. split.
  - intros c' [->|Hin]%elem_of_cons; [|by apply Ha2].
    apply (awake_same x1 x2); [done|apply Hr2; tauto|done].
  - intros c' Hn. rewrite not_elem_of_cons in Hn. rewrite Hr2, Hr1 by tauto. done.
Qed.

End Booted.

(** ** The set-up on the first processor *)

Lemma drivers_init_total {M} {HQ : QueueStore (Z * Z) M} (st : sys (F := Palloc.palloc) (M := M)) :
  ∃ h, Drivers.drivers_init st = Ok (set_handlers h st).
Proof.
  destruct (for_upto_inv (λ _ (_ : gmap Z Z), True) 256 (λ i h, aset 256 h i 0) (handlers st))
    as (h & Hh & _); [lia|done| |].
  - intros j h Hj _. eexists. split; [by apply aset_in|done].
  - exists h. unfold Drivers.drivers_init. by rewrite (bind_ok _ _ _ Hh).
Qed.

Lemma timer_init_total {D} `{Ports D} (s : Devices.clock D) i :
  Interrupts.interrupts_register_handler Interrupts.INT_RTC Interrupts._tick (Devices.ints s) = Ok i →
  ∃ d, Devices.timer_init s = Ok (Devices.Clock 0 i d).
Proof.
  intros Hi. unfold Devices.timer_init. rewrite (bind_ok _ _ _ Hi). cbv zeta.
  destruct (port_read_8 0x71 _) as [p1 d1]. destruct (port_read_8 0x71 _) as [p2 d2].
  destruct (port_read_8 0x71 _) as [p3 d3]. by eexists.
Qed.

Section Init.
Context {M : Type} {HQ : QueueStore (Z * Z) M} {A : Type} {HA : Startup.Apic A} {D : Type} {HD : Ports D}.
Context (canon : Z → Z) (y : image) (im : mem8).
Notation sys := (sys (F := Palloc.palloc) (M := M)).
Notation kernel := (kernel (M := M) (A := A) (D := D)).
Notation usable := (Loading.usable (M := M) canon (kpage_dir y) 0 im).

(** [proc_create_kernel_proc] with an empty table. *)
Lemma kernel_proc_ok live k (st : sys) :
  usable live (S k) st → arr 0 (table st) 0 = 0 →
  ∃ p st', on_process 0 (Process.proc_create_kernel_proc (kpage_dir y)) st = Ok (p, st') ∧
    usable (λ a, live a ∨ p ≤ a < p + Process.PROCESS_SIZE) k st' ∧ same_kernel st st' ∧
    table st' = <[0 := p]> (table st) ∧ procs_of st' = <[p := kernel_proc y]> (procs_of st).
Proof.
  intros Hus H0. pose proof Hus as [Hlock Hh _ Hdir Hob _ _].
  destruct (Process.find_next_pid_ok (process_view 0 st) Hlock) as (i & Hpid & Hr & Hbelow & _).
  assert (i = 0) as ->.
  { destruct (decide (0 < i)); [|lia]. destruct (Hbelow 0); [lia|exact H0]. }
  destruct (Memory.NEW_page live k Process.PROCESS_SIZE _ _ ltac:(done) Hh) as (p & h & m & Hn & Hb & Hh').
  set (s := Process.set_procs (<[p := kernel_proc y]> (procs_of st))
    (Process.set_table (<[0 := p]> (table st)) (Process.set_mem h m (process_view 0 st)))).
  assert (Hp : p ≤ p < p + Process.PROCESS_SIZE) by (split; [lia|apply Z.lt_add_pos_r; reflexivity]).
  destruct (usable_run canon (kpage_dir y) im 0 2 live (λ a, live a ∨ p ≤ a < p + Process.PROCESS_SIZE) k
    (S k) (Process.proc_create_kernel_proc (kpage_dir y)) p s st
    (conj (Z.le_refl 0) (eq_refl : 0 < MAX_CPU)) Hdir Hus) as (st' & Ho & Hv & Hsk & _ & Hus' & _).
  - unfold Process.proc_create_kernel_proc. rewrite (bind_ok _ _ _ Hpid). cbv iota beta.
    unfold Process.NEW. cbn [Process.mem Process.bytes Process.set_plock process_view].
    rewrite (bind_ok _ _ _ Hn). cbv iota beta. cbn [mbind res_bind]. rewrite aset_in by done.
    cbn [mbind res_bind]. unfold s. do 3 f_equal. unfold process_view. cbn in Hlock |- *. by rewrite Hlock.
  - exact (Memory.NEW_spent _ _ _ _ _ _ _ _ Hh Hn).
  - exact Hh'.
  - exact Hlock.
  - intros a. cbn [Process.threads Process.procs s Process.set_procs Process.set_table Process.set_mem process_view].
    intros [Ha|Ha]; [left; apply Hob; by left|]. destruct (decide (a = p)) as [->|Hne]; [by right|].
    rewrite lookup_insert_ne in Ha by done. left. apply Hob. by right; left.
  - intros a Ha. split; [by left|]. apply (Memory.fb_same _ _ _ _ _ Hb). intros Hin.
    by apply (Memory.fb_fresh _ _ _ _ _ Hb a Hin).
  - exists p, st'. split; [done|]. split; [done|]. split; [done|].
    split; [exact (f_equal Process.table Hv)|exact (f_equal Process.procs Hv)].
Qed.

(** The loop of [scheduling_init] after [i] turns. *)
Record scheduled (kp : Z) (live : Z → Prop) (k : nat) (st0 : sys) (i : Z) (st : sys) : Prop := {
  sd_usable : ∃ live', usable live' (k + 3 * Z.to_nat (MAX_CPU - i)) st ∧ ∀ a, live a → live' a;
  sd_queues : qok (Scheduler.queues (sched st));
  sd_idles c : 0 ≤ c < i → idles kp c (sched st) ∧ Scheduler.started (Scheduler.this c (sched st)) = 0;
  sd_rest : same_rest st0 st
}.

Lemma scheduling_loop kp live k (st : sys) :
  0 ≤ idle_loop_at y < 2 ^ 32 → arr 0 (table st) 0 = kp → usable live (k + 24) st →
  qok (Scheduler.queues (sched st)) →
  ∃ st', for_upto MAX_CPU (scheduler_init y) st = Ok st' ∧ scheduled kp live k st MAX_CPU st'.
Proof.
  intros He Hkp Hus Hok. apply for_upto_inv; [done| |].
  { split; [|done|intros c Hc; lia|by split]. exists live. by split. }
  intros i s Hi [(live1 & Hus1 & Hl1) Hok1 Hid1 Hr1]. pose proof Hr1 as [Hta _ _ _ _ _].
  replace (k + 3 * Z.to_nat (MAX_CPU - i))%nat with ((k + 3 * Z.to_nat (MAX_CPU - (i + 1))) + 3)%nat in Hus1 by lia.
  destruct (scheduler_init_ok canon y im live1 (k + 3 * Z.to_nat (MAX_CPU - (i + 1))) kp i s Hi He) as
    (s' & live2 & Hs & Hus2 & Hl2 & Hok2 & Hid2 & Hst2 & Hr2 & Hoth & Hth); [by rewrite Hta|exact Hus1|done|].
  exists s'. split; [done|]. split; [|done| |by apply (same_rest_trans _ s)].
  - exists live2. split; [done|]. auto.
  - intros c Hc. destruct (decide (c = i)) as [->|Hne]; [done|].
    destruct (Hoth c Hne) as [Hthis Hq]. destruct (Hid1 c ltac:(lia)) as [Hidc Hstc].
    rewrite Hthis. split; [|done]. apply (idles_same kp c (sched s)); rewrite ?Hthis; done.
Qed.

(** The kernel before its set-up: memory and processors are found. *)
Record found (live : Z → Prop) (k : nat) (x : kernel) : Prop := {
  fo_usable : usable live k (sys_of x);
  fo_empty : arr 0 (table (sys_of x)) 0 = 0;
  fo_queues : qok (Scheduler.queues (sched (sys_of x)));
  fo_lock : screen_lock (hw x) = 0;
  fo_idle : 0 ≤ idle_loop_at y < 2 ^ 32;
  fo_isr v : 0 ≤ isr y v < 2 ^ 32
}.

(** The descriptors of the interrupts lead to the entry points. *)
Definition gates (x : kernel) : Prop :=
  ∀ v, 0 ≤ v ≤ 240 → Interrupts.gate_of (arr Interrupts.gate0 (idt (tables_of x)) v) =
    Interrupts.GateTo (isr y v) 0x08 3 true true.

(** Before there are processes. *)
Record quiet (live : Z → Prop) (k : nat) (i : Interrupts.state) (x x' : kernel) : Prop := {
  qu_usable : usable live k (sys_of x');
  qu_empty : arr 0 (table (sys_of x')) 0 = 0;
  qu_queues : qok (Scheduler.queues (sched (sys_of x')));
  qu_ints : ints (sys_of x') = i;
  qu_gates : gates x';
  qu_console : Screen.console_ok (console (sys_of x'));
  qu_cpus : cpus_of x' = cpus_of x;
  qu_apic : apic (hw x') = apic (hw x)
}.

Lemma idt_init_ok (x : kernel) :
  (∀ v, 0 ≤ isr y v < 2 ^ 32) →
  ∃ i r, idt_init y x = Ok (on_regs 0 (set_idtr r) (set_idt i r x)) ∧ gates (set_idt i r x).
Proof.
  intros Hisr. destruct (Interrupts.isr_init_from_ok (isr y) Interrupts.isr_list (idt (tables_of x)))
    as (i & Hi & Hx).
  { apply Forall_forall. intros v Hv. split; [|apply Hisr]. unfold Interrupts.isr_list in Hv.
    apply elem_of_seqZ in Hv. lia. }
  eexists i, _. split.
  { unfold idt_init, Interrupts.isr_init. rewrite (bind_ok _ _ _ Hi). reflexivity. }
  intros v Hv. cbn [tables_of set_idt idt]. rewrite Hx, decide_True by (apply elem_of_seqZ; lia).
  apply Interrupts.gate_of_set, Hisr.
Qed.

Lemma quiet_ok live k i1 i2 (x : kernel) :
  found live k x → Interrupts.interrupts_init (ints (sys_of x)) = Ok i1 →
  Interrupts.syscalls_init i1 = Ok i2 →
  ∃ x1 x2 x3 x4, screen_clear x = Ok x1 ∧ interrupts_init y x1 = Ok x2 ∧ syscalls_init x2 = Ok x3 ∧
    drivers_init x3 = Ok x4 ∧ quiet live k i2 x x4.
Proof.
  intros [Hus He Hq Hl _ Hisr] H1 H2.
  set (sc := Screen.set_cur 0 0 (Screen.set_video (Screen.clear_cells (console (sys_of x))) (console (sys_of x)))).
  eexists. destruct (idt_init_ok (set_hw (Hardware (regs (hw x)) (orig_cr0 (hw x)) (apic (hw x)) (dev (hw x)) 0)
    (set_sys (set_console sc (sys_of x)) x)) Hisr) as (i & r & Hi & Hg).
  destruct (drivers_init_total (set_ints i2 (set_ints i1 (set_console sc (sys_of x))))) as (h & Hh).
  eexists _, _, _. split.
  { unfold screen_clear. rewrite Hl. unfold Screen.screen_clear. rewrite (bind_ok _ _ _ Locks.section_enter_free).
    reflexivity. }
  split.
  { unfold interrupts_init. rewrite (bind_ok _ _ _ Hi). cbv zeta.
    unfold apic_enable, Devices.apic_enable. cbv zeta iota beta.
    cbn [sys_of set_sys set_idt on_regs set_dev set_hw ints set_console].
    rewrite (bind_ok _ _ _ H1). reflexivity. }
  split.
  { unfold syscalls_init. cbn [sys_of set_sys ints set_ints]. rewrite (bind_ok _ _ _ H2). reflexivity. }
  split.
  { unfold drivers_init. cbn [sys_of set_sys]. rewrite (bind_ok _ _ _ Hh). reflexivity. }
  clear H1 H2 Hh. split; [|exact He|exact Hq|exact eq_refl|exact Hg| |exact eq_refl|exact eq_refl].
  - apply (usable_same canon (kpage_dir y) im live k (sys_of x)); [by split|exact Hus].
  - split; cbn; unfold Screen.SCREEN_WIDTH, Screen.SCREEN_HEIGHT; lia.
Qed.

(** The kernel's process, the idle threads, the clock. *)
Lemma idle_kernel_ok live k i2 i3 i4 (x x4 : kernel) :
  quiet live (k + 26) i2 x x4 → 0 ≤ idle_loop_at y < 2 ^ 32 →
  Interrupts.interrupts_register_handler Interrupts.INT_SCHED_TICK Interrupts.sched_tick i2 = Ok i3 →
  Interrupts.interrupts_register_handler Interrupts.INT_RTC Interrupts._tick i3 = Ok i4 →
  (∀ id, 0 ≤ id < 256 →
     arr Interrupts.NullHandler (Interrupts.int_handlers i4) id = Interrupts.intended id) →
  ∃ x5 x6 x7 kp live', proc_create_kernel_proc y x4 = Ok x5 ∧ scheduling_init y x5 = Ok x6 ∧
    timer_init x6 = Ok x7 ∧ booted canon y im kp live' (k + 1) [] x7 ∧ unmoved x4 x7 ∧ (∀ a, live a → live' a).
Proof.
  intros [Hus Hemp Hq Hi Hg Hsc Hcp Hap] He H3 H4 Hint.
  replace (k + 26)%nat with (S (k + 25)) in Hus by lia.
  destruct (kernel_proc_ok live (k + 25) (sys_of x4) Hus Hemp) as (p & st5 & Ho & Hus5 & Hsk & Hta & Hpr).
  pose proof (sk_ints _ _ Hsk) as Hi5. rewrite Hi in Hi5.
  destruct (scheduling_loop p (λ a, live a ∨ p ≤ a < p + Process.PROCESS_SIZE) (k + 1) (set_ints i3 st5) He)
    as (st6 & Hst6 & [(live6 & Hus6 & Hl6) Hq6 Hid6 [R1 R2 R3 R4 R5 R6]]).
  { cbn [table set_ints]. rewrite Hta. apply arr_insert_eq. }
  { replace (k + 1 + 24)%nat with (k + 25)%nat by lia.
    apply (usable_same canon (kpage_dir y) im _ _ st5); [by split|exact Hus5]. }
  { cbn [sched set_ints]. rewrite (sk_queues _ _ Hsk). exact Hq. }
  destruct (timer_init_total (Devices.Clock (ticks (world_of st6)) (ints st6) (dev (hw x4))) i4) as (d & Hd).
  { cbn [Devices.ints]. rewrite R4. exact H4. }
  eexists _, _, _, p, live6. split.
  { unfold proc_create_kernel_proc. rewrite (bind_ok _ _ _ Ho). reflexivity. }
  split.
  { unfold scheduling_init. cbn [sys_of set_sys]. rewrite Hi5, (bind_ok _ _ _ H3), (bind_ok _ _ _ Hst6).
    reflexivity. }
  split.
  { unfold timer_init. cbv zeta. cbn [sys_of set_sys hw]. rewrite (bind_ok _ _ _ Hd). reflexivity. }
  clear Ho Hst6 Hd H3 H4. cbn [Devices.ints Devices.dev Devices.ticks].
  split; [|split].
  - replace (k + 1 + 3 * Z.to_nat (MAX_CPU - MAX_CPU))%nat with (k + 1)%nat in Hus6 by (rewrite Z.sub_diag; lia).
    split.
    + apply (usable_same canon (kpage_dir y) im _ _ st6); [by split|exact Hus6].
    + cbn [sys_of set_dev set_sys set_hw table set_ticks set_world set_ints set_sched]. rewrite R1.
      cbn [table set_ints]. rewrite Hta. apply arr_insert_eq.
    + change (procs_of st6 !! p = Some (kernel_proc y)). unfold procs_of. rewrite R2.
      change (procs_of st5 !! p = Some (kernel_proc y)). rewrite Hpr. apply lookup_insert_eq.
    + exact Hq6.
    + intros c Hc. destruct (Hid6 c Hc) as [Hid _]. by apply (idles_same p c (sched st6)).
    + intros c Hc. destruct (Hid6 c Hc) as [_ Hst]. split; [|intros Hin; by apply not_elem_of_nil in Hin].
      intros Hne. by destruct Hne.
    + intros c Hin. by apply not_elem_of_nil in Hin.
    + intros c Hin. by apply not_elem_of_nil in Hin.
    + exact Hint.
  - split; try done. change (console st6 = console (sys_of x4)). rewrite R6. exact (sk_console _ _ Hsk).
  - intros a Ha. apply Hl6. by left.
Qed.

Lemma stacks_none live (x : kernel) : stacks live [] x.
Proof. split; [intros c a Hc|intros c c' Hc]; by apply not_elem_of_nil in Hc. Qed.

(** From [screen_clear] to [sched_ready]. *)
Lemma kmain_init_ok live k (x : kernel) :
  found live (k + 26) x →
  ∃ x' kp live', kmain_init y x = Ok x' ∧ booted canon y im kp live' k [0] x' ∧ stacks live' [0] x' ∧
    gates x' ∧ (∀ a, live a → live' a) ∧ cpus_of x' = cpus_of x ∧ apic (hw x') = apic (hw x) ∧
    Screen.console_ok (console (sys_of x')).
Proof.
  intros Hf. destruct (Interrupts.handlers_steps (ints (sys_of x)))
    as (i1 & i2 & i3 & i4 & I1 & I2 & I3 & I4 & Hint & _).
  destruct (quiet_ok live (k + 26) i1 i2 x Hf I1 I2) as (x1 & x2 & x3 & x4 & H1 & H2 & H3 & H4 & Hqu).
  destruct (idle_kernel_ok live k i2 i3 i4 x x4 Hqu (fo_idle _ _ _ Hf) I3 I4 Hint)
    as (x5 & x6 & x7 & kp & live7 & H5 & H6 & H7 & Hb7 & Hu7 & Hl7). clear I1 I2 I3 I4.
  replace (k + 1)%nat with (S k) in Hb7 by lia.
  pose proof (Loading.us_dir _ _ _ _ _ _ _ (bt_usable _ _ _ _ _ _ _ _ Hb7)) as Hd7.
  destruct (interrupts_start_ok canon y im kp live7 k [] 0 x7 (conj (Z.le_refl 0) (eq_refl : 0 < MAX_CPU))
    Hd7 Hb7 (not_elem_of_nil 0) (stacks_none live7 x7)) as (p & x8 & H8 & Hb8 & Hs8 & Hd8 & Hu8 & _).
  destruct (sched_ready_ok canon y im kp _ k [] 0 x8 (conj (Z.le_refl 0) (eq_refl : 0 < MAX_CPU))
    (eq_trans (Hd8 0) Hd7) Hb8) as (x9 & H9 & Hb9 & Ht9 & Hu9 & _).
  exists x9, kp, (λ a, live7 a ∨ p ≤ a < p + PAGE_SIZE). split.
  { unfold kmain_init. rewrite (bind_ok _ _ _ H1), (bind_ok _ _ _ H2), (bind_ok _ _ _ H3), (bind_ok _ _ _ H4).
    rewrite (bind_ok _ _ _ H5), (bind_ok _ _ _ H6), (bind_ok _ _ _ H7), (bind_ok _ _ _ H8). exact H9. }
  clear H1 H2 H3 H4 H5 H6 H7 H9.
  destruct Hqu as [_ _ _ _ Hg Hsc Hcp Hap], Hu7 as [U1 U2 U3 U4 _ _ _],
    Hu8 as [V1 V2 V3 V4 _ _ _], Hu9 as [W1 W2 W3 W4 _ _ _].
  split; [exact Hb9|]. split.
  { destruct Hs8 as [Hl Ha]. split; unfold stack_of in *; rewrite Ht9; [exact Hl|exact Ha]. }
  split.
  { unfold gates. by rewrite W4, V4, U4. }
  split; [intros a Ha; left; by apply Hl7|]. split; [congruence|]. split; [congruence|].
  by rewrite W3, V3, U3.
Qed.

End Init.

(** ** Waking the other processors *)

Section Wake.
Context {M : Type} {HQ : QueueStore (Z * Z) M} {A : Type} {HA : Startup.Apic A} {HS : Startup.Startup A}.
Context {D : Type} {HD : Ports D} (canon : Z → Z) (fuel : nat) (y : image).
Notation sys := (sys (F := Palloc.palloc) (M := M)).
Notation kernel := (kernel (M := M) (A := A) (D := D)).
Notation usable := (Loading.usable (M := M) canon (kpage_dir y) 0).
Notation booted := (booted (M := M) (A := A) (D := D) canon y).

(** Other bytes are written. *)
Lemma usable_bytes im im' live k (st : sys) m :
  (∀ a, is_Some (bytes st !! a) → is_Some (m !! a)) → im' ⊆ im →
  (∀ a, is_Some (im' !! a) → m !! a = bytes st !! a) → usable im live k st →
  usable im' live k (set_memory (mem st) m st).
Proof.
  intros Hd Hsub Hs [Hlock Hh Hu Hdir Hob Him Hl].
  assert (Hin : ∀ a v, im' !! a = Some v → im !! a = Some v) by (intros a v Ha; by apply (lookup_weaken im')).
  split; try done.
  - unfold heap_on in *. exact (Memory.heap_ok_bytes _ _ _ _ m Hd Hh).
  - apply map_subseteq_spec. intros a v Ha. cbn [bytes set_memory]. rewrite Hs by (by rewrite Ha).
    apply (lookup_weaken im); [by apply Hin|done].
  - intros a [v Ha]. apply Hl. rewrite (Hin a v Ha). by eexists.
Qed.

(** Pages are mapped. *)
Lemma usable_vm im live k (st st' : sys) v :
  Memory.spent 2 (vm_on 0 st) v → plock st' = plock st → mem st' = with_vm v (mem st) →
  bytes st' = bytes st → Scheduler.c_pdir (Scheduler.cpu_of 0 (sched st')) = Paging.cr3 v →
  threads_of st' = threads_of st → procs_of st' = procs_of st →
  Scheduler.queues (sched st') = Scheduler.queues (sched st) → usable im live (S k) st →
  usable im live k st'.
Proof.
  intros [Hi Hc Hk] Hp Hm Hb Hd Ht Hpr Hqu [Hlock Hh Hu Hdir Hob Him Hl].
  assert (Hv : vm_on 0 st' = v) by (unfold vm_on; rewrite Hd, Hm; apply switch_same).
  split.
  - by rewrite Hp.
  - unfold heap_on in *. rewrite Hv, Hm, Hb. apply (Dirs.heap_ok_vm live (S k) k _ _ v Hh); [lia|done|].
    apply (Paging.kept_left _ _ _ Hk). destruct Hh as (ls & pool & Hrep).
    apply (frames_left_le (2 * S k)); [lia|exact (Memory.room_frames _ _ (Memory.hr_room _ _ _ _ _ _ Hrep))].
  - rewrite Hv. exact (Paging.kept_shared _ _ _ Hk canon Hu).
  - rewrite Hd, Hc. exact Hdir.
  - intros a. unfold Ready.elements. rewrite Ht, Hpr, Hqu. apply Hob.
  - by rewrite Hb.
  - done.
Qed.

(** "MAX_CPU:%x\n" *)
Definition max_pieces (n : Z) : list Strings.piece :=
  (Strings.Lit <$> [77; 65; 88; 95; 67; 80; 85; 58]) ++ [Strings.Hex n; Strings.Lit 10].
Definition max_format : list Z := concat (Strings.format_of <$> max_pieces 0).

(** What is where in memory: [im] holds the format of the first message, of
    which [woken], apart from its buffer, holds what [cpu_wake_all] uses; [kept],
    above the low pages and apart from its buffer, stays. *)
Record laid_out (im woken kept : mem8) (code gdt : list Z) : Prop := {
  lo_format : Strings.cstr im (f_max y) max_format;
  lo_buf : Strings.writable im (b_max y) 64;
  lo_outside : Strings.outside (f_max y) max_format (b_max y) 64;
  lo_woken : woken ⊆ im;
  lo_woken_buf a : is_Some (woken !! a) → ¬ (b_max y ≤ a < b_max y + 64);
  lo_layout : Startup.layout (wake_texts y) code gdt woken;
  lo_texts : Startup.texts_at (wake_texts y) woken;
  lo_kept : kept ⊆ woken;
  lo_kept_high a : is_Some (kept !! a) → 0x60000 ≤ a ∧
    ¬ (Startup.f_buf (wake_texts y) ≤ a < Startup.f_buf (wake_texts y) + 256)
}.

Lemma bytes_at_sub m m' p l : m ⊆ m' → Strings.bytes_at m p l → Strings.bytes_at m' p l.
Proof.
  intros Hs. revert p. induction l as [|b l IH]; intros p; [done|]. intros [Hb Hl].
  split; [by apply (lookup_weaken m)|by apply IH].
Qed.

Lemma writable_sub_map m m' p n : m ⊆ m' → Strings.writable m p n → Strings.writable m' p n.
Proof. intros Hs Hw a Ha. destruct (Hw a Ha) as [v Hv]. exists v. by apply (lookup_weaken m). Qed.

Lemma layout_sub m m' code gdt :
  m ⊆ m' → Startup.layout (wake_texts y) code gdt m → Startup.layout (wake_texts y) code gdt m'.
Proof.
  intros Hs []. split; try done; first [by apply (bytes_at_sub m)|by apply (writable_sub_map m)].
Qed.

Lemma texts_sub m m' :
  m ⊆ m' → Startup.texts_at (wake_texts y) m → Startup.texts_at (wake_texts y) m'.
Proof.
  intros Hs []. split; try done; first [by apply (Elf.cstr_sub m)|by apply (writable_sub_map m)].
Qed.

Lemma print_max_ok im woken kept code gdt kp live k cs (x : kernel) :
  laid_out im woken kept code gdt → booted im kp live k cs x → 0 ≤ maximum_cpu (cpus_of x) < 2 ^ 32 →
  Screen.console_ok (console (sys_of x)) → (50 < fuel)%nat →
  ∃ x', print_max fuel y x = Ok x' ∧ booted woken kp live k cs x' ∧
    Screen.console_ok (console (sys_of x')) ∧ tables_of x' = tables_of x ∧ cpus_of x' = cpus_of x ∧
    hw x' = hw x.
Proof.
  intros [Hf Hw Ho Hsub Hout _ _ _ _] Hb Hn Hsc Hfuel.
  pose proof (bt_usable _ _ _ _ _ _ _ _ Hb) as Hus. pose proof (Loading.us_image _ _ _ _ _ _ _ Hus) as Him.
  assert (Hr : Strings.room (max_pieces (maximum_cpu (cpus_of x))) = 19) by reflexivity.
  destruct (Startup.print_ok fuel 1 (b_max y) 64 (f_max y) (max_pieces (maximum_cpu (cpus_of x)))
    (bytes (sys_of x)) (console (sys_of x))) as (m & sc & Hp & [Hsame Hdom] & Hsc').
  - unfold max_pieces. cbn [fmap list_fmap app].
    repeat (apply Forall_cons_2; [simpl; unfold Strings.char_ok; lia|]). apply Forall_nil_2.
  - exact (Elf.cstr_sub _ _ _ _ Him Hf).
  - exact (writable_sub_map _ _ _ _ Him Hw).
  - rewrite Hr. lia.
  - exact Ho.
  - unfold max_pieces. cbn [fmap list_fmap app].
    repeat (apply Forall_cons_2; [exact I|]). apply Forall_nil_2.
  - change (length (max_pieces (maximum_cpu (cpus_of x)))) with 10%nat. lia.
  - rewrite Hr. lia.
  - exact Hsc.
  - unfold print_max. cbv zeta. change [maximum_cpu (cpus_of x)] with
      (concat (Strings.args_of <$> max_pieces (maximum_cpu (cpus_of x)))).
    rewrite (bind_ok _ _ _ Hp). eexists. split; [reflexivity|]. split; [|exact (conj Hsc' (conj eq_refl (conj eq_refl eq_refl)))].
    pose proof (usable_bytes im woken live k (sys_of x) m Hdom Hsub) as Hus'.
    destruct Hb as [_ B1 B2 B3 B4 B5 B6 B7 B8]. split; try done.
    apply (usable_same canon (kpage_dir y) woken live k (set_memory (mem (sys_of x)) m (sys_of x))); [by split|].
    apply Hus'; [|exact Hus]. intros a Ha. apply Hsame. by apply Hout.
Qed.

(** [cpu_wake_all] takes two frames at most. *)
Lemma cpu_wake_all_boots im woken kept code gdt kp live k cs (x : kernel) :
  laid_out im woken kept code gdt → booted woken kp live (S k) cs x → 0 ∈ cs →
  1 ≤ maximum_cpu (cpus_of x) ≤ MAX_CPU →
  (∀ j, 0 ≤ arr 0 (cpu_mapping (cpus_of x)) j < 256) →
  Screen.console_ok (console (sys_of x)) → (50 < fuel)%nat →
  ∃ x', cpu_wake_all fuel y x = Ok x' ∧ booted kept kp live k cs x' ∧ tables_of x' = tables_of x ∧
    cpus_of x' = cpus_of x ∧ r_cr0 (reg_of x' 0) = 0x80000001 ∧ u32 (orig_cr0 (hw x')) = 0x80000001 ∧
    Screen.console_ok (console (sys_of x')) ∧ ∀ j, 1 ≤ j < maximum_cpu (cpus_of x) →
      Startup.processor (arr 0 (cpu_mapping (cpus_of x)) j) (apic (hw x')) = Startup.Running 0x50000.
Proof.
  intros [_ _ _ _ _ Hly Htx Hsub Hkept] Hb H0 Hmax Hmap Hsc Hfuel.
  pose proof (bt_usable _ _ _ _ _ _ _ _ Hb) as Hus. pose proof Hus as [_ Hh _ Hdir _ Him _].
  destruct Hh as (ls & pool & Hrep). pose proof (Memory.hr_room _ _ _ _ _ _ Hrep) as Hroom. clear ls pool Hrep.
  destruct (Startup.cpu_wake_all_ok fuel (wake_texts y) code gdt (cpu_mapping (cpus_of x))
    (maximum_cpu (cpus_of x)) (Startup.Machine (vm_on 0 (sys_of x)) (bytes (sys_of x)) (console (sys_of x))
      (r_cr0 (reg_of x 0)) (orig_cr0 (hw x)) (apic (hw x)) (dev (hw x))))
    as (s & Hs & Hrun & _ & _ & _ & _ & _ & _ & _ & Hsp & Hcr0 & Hcon & Hdom & Hsame & Horig).
  - exact (layout_sub _ _ _ _ Him Hly).
  - exact (texts_sub _ _ Him Htx).
  - exact Hsc.
  - exact (Memory.room_inv _ _ Hroom).
  - apply (frames_left_le (2 * S k)); [lia|exact (Memory.room_frames _ _ Hroom)].
  - exact Hmax.
  - exact Hmap.
  - exact Hfuel.
  - cbn [Startup.vm Startup.bytes] in *.
    destruct (load_dir_ok 0 (Paging.cr3 (Startup.vm s)) (sys_of x)) as (q & Hq & Hcpu & Qs & Qq & Qt & Qw); [done|].
    assert (Hdirs : ∀ c, Scheduler.c_pdir (Scheduler.cpu_of c q) =
      Scheduler.c_pdir (Scheduler.cpu_of c (sched (sys_of x)))).
    { unfold load_dir in Hq. rewrite aset_in in Hq by done. injection Hq as <-. intros c.
      unfold Scheduler.cpu_of. cbn [Scheduler.cpus Scheduler.set_cpus]. rewrite arr_insert.
      case_decide as Hc0; [|done]. subst c. rewrite (Memory.sp_cr3 _ _ _ Hsp). reflexivity. }
    unfold cpu_wake_all. cbv zeta. rewrite (bind_ok _ _ _ Hs). unfold put_vm, put_memory.
    cbn [with_vm Memory.area Memory.vm]. rewrite (bind_ok _ _ _ Hq). cbn [mbind res_bind].
    eexists. split; [reflexivity|].
    split; [|do 2 (split; [reflexivity|]); split; [by rewrite reg_on_regs|exact (conj Horig (conj Hcon Hrun))]]. clear Hs.
    set (st1 := set_sched q (set_memory (with_vm (Startup.vm s) (mem (sys_of x))) (bytes (sys_of x)) (sys_of x))).
    assert (Hus1 : usable woken live k st1).
    { apply (usable_vm woken live k (sys_of x) st1 (Startup.vm s) Hsp); try done.
      - unfold st1. cbn [sched set_sched]. by rewrite Hcpu.
      - unfold procs_of, world_of, st1. cbn [sched set_sched]. by rewrite Qw. }
    assert (Hus2 : usable kept live k (set_memory (mem st1) (Startup.bytes s) st1)).
    { apply (usable_bytes woken kept); [exact Hdom|exact Hsub| |exact Hus1].
      intros a Ha. destruct (Hkept a Ha). by apply Hsame. }
    apply (booted_same canon y kept kp live live k k cs
      (Kernel (set_memory (mem st1) (Startup.bytes s) st1) (tables_of x) (cpus_of x) (hw x))).
    + by split.
    + eapply usable_same; [|exact Hus2]. by split.
    + destruct Hb as [_ B1 B2 B3 B4 B5 B6 B7 B8]. split; cbn [sys_of]; try done.
      * unfold procs_of, world_of, st1. cbn [sched set_sched set_memory]. by rewrite Qw.
      * unfold st1. cbn [sched set_sched set_memory]. by rewrite Qq.
      * intros c Hc. apply (idles_same kp c (sched (sys_of x))); unfold Scheduler.this, Scheduler.queue, st1;
          cbn [sched set_sched set_memory]; rewrite ?Qs, ?Qq, ?Qt; try done. by apply B4.
      * intros c Hc. unfold Scheduler.this, st1. cbn [sched set_sched set_memory]. rewrite Qs. by apply B5.
      * intros c Hc. unfold st1. cbn [sched set_sched set_memory]. rewrite Hdirs. by apply B6.
Qed.

End Wake.

(** ** Properties *)

Section Kernel.
Context {M : Type} {HQ : QueueStore (Z * Z) M} {A : Type} {HA : Startup.Apic A} {HS : Startup.Startup A}.
Context {D : Type} {HD : Ports D} (canon : Z → Z) (fuel : nat) (y : image).
Notation kernel := (kernel (M := M) (A := A) (D := D)).

(** The boot information at [mboot] in the memory [m]: the table of modules at
    [addr] names the programs [gs]. *)
Record modules_of (m : mem8) (mboot addr : Z) (mods : list Mboot.module_info)
    (gs : list Loading.program) : Prop := {
  mo_addr : Memory.load32 (mboot + Mboot.MODS_ADDR) m = Ok addr;
  mo_count : Memory.load32 (mboot + Mboot.MODS_COUNT) m = Ok (Z.of_nat (length mods));
  mo_range : 0 ≤ addr ∧ addr + Mboot.MODULE_SIZE * Z.of_nat (length mods) ≤ 2 ^ 32;
  mo_few : Z.of_nat (length mods) < 2 ^ 31 - 1;
  mo_table : Mboot.modules_at m addr mods;
  mo_programs : Forall2 (λ x g, Mboot.mod_start x = Loading.image_of g ∧ Loading.program_ok fuel m g)
    mods gs;
  mo_names : Elf.literals_at m (section_names y)
}.

(** The kernel's memory [m] apart from the buffer of [sched_thread_ready], which it
    holds too, is [m']. *)
Record announcing (m m' : mem8) : Prop := {
  ac_sub : m' ⊆ m;
  ac_buffer a : Loading.in_buffer (section_names y) a → is_Some (m !! a);
  ac_message : Loading.announces (section_names y) m'
}.

Lemma loadable_less (m m' : mem8) live k n st :
  m' ⊆ m → Loading.loadable (M := M) canon (kpage_dir y) (section_names y) 0 m live k n st →
  Loading.loadable canon (kpage_dir y) (section_names y) 0 m' live k n st.
Proof.
  intros Hs [[H1 H2 H3 H4 H5 H6 H7] H8 H9 H10]. split; [split|..]; try done.
  - by transitivity m.
  - intros a [v Hv]. apply H7. exists v. by apply (lookup_weaken m').
Qed.

(** Behind the barrier the modules are loaded. *)
Lemma kmain_load_ok m m' kp live k kn cs mboot addr mods gs (x : kernel) :
  booted canon y m kp live (k + 9 * length mods) cs x → 0 ∈ cs → announcing m m' →
  modules_of m' mboot addr mods gs → Screen.console_ok (console (sys_of x)) → (50 < fuel)%nat →
  kpage_dir y = PAGE_SIZE * kn → 0 ≤ kn < PAGES →
  ∃ st ts live', kmain_load fuel y mboot x =
      Ok (set_sys (set_ints (sched_start_timer (ints st)) st) x) ∧
    Loading.loads canon (kpage_dir y) (leave_kernel_at y) (section_names y) 0 live gs ts (sys_of x) st ∧
    NoDup ts.*2 ∧
    (∀ c p, 0 ≤ c < MAX_CPU → 0 ≤ p < MAX_PRIORITY →
       Scheduler.queue (sched st) c p = Loading.placed ts c p) ∧
    Loading.loadable canon (kpage_dir y) (section_names y) 0 m' live' k 0 st.
Proof.
  intros Hb H0 [Hsub Hbuf Han] [Ha Hn [Hr1 Hr2] Hfew Htab Hps Hlit] Hsc Hfuel Hkd Hkn.
  pose proof (loadable_less m m' live _ _ _ Hsub
    (booted_loadable canon y m kp live _ cs (0 + length mods) x H0 Hfew Hb Hsc Hbuf)) as Hlo.
  pose proof (Loading.us_image _ _ _ _ _ _ _ (Loading.lo_usable _ _ _ _ _ _ _ _ _ Hlo)) as Him.
  destruct (Loading.mboot_load_modules_runs canon (kpage_dir y) (leave_kernel_at y) kn (section_names y) fuel
    0 m' live k 0 mboot addr mods gs (sys_of x) (conj (Z.le_refl 0) (eq_refl : 0 < MAX_CPU)) Hfuel Hlit Han Hkd Hkn
    (Elf.load32_sub _ _ _ _ Him Ha) (Elf.load32_sub _ _ _ _ Him Hn) Hr1 Hr2 Htab Hps Hlo)
    as (st & ts & live' & Hs & Hl & Hnd & _ & Hq & Hlo' & _).
  exists st, ts, live'. split.
  { unfold kmain_load, mboot_load_modules. rewrite (bind_ok _ _ _ Hs). reflexivity. }
  split; [exact Hl|]. split; [exact Hnd|]. split; [|exact Hlo'].
  intros c p Hc Hp. rewrite Hq. rewrite (id_queue _ _ _ (bt_idles _ _ _ _ _ _ _ _ Hb c Hc) p (or_intror Hp)).
  done.
Qed.

(** C3. The boot of the kernel, from the screen to the idle loop: kmain sets
    up the kernel and starts the other processors at their trampoline; these,
    in any order, come by it with the page directory and the tables of the first
    on the stacks [cpu_find] gave them, each take a page of their own for the
    stack of their interrupts - of which [esp0] is the low end - and report
    ready; then kmain makes a process of each module, whose thread waits in the
    queue of a processor.  At the barrier every interrupt has its handler and
    its gate and every processor idles in the kernel's process; at the end the
    queues hold the new threads, in the order of the modules, and nothing else,
    a line on the console for each says which processor it went to, and memory,
    page tables and schedulers are well formed.  A page of the heap for each of
    the other processors, nine for each module - one of them for the element of
    the queue - and 27 more are enough. *)
Theorem kmain_runs live k kn cs mboot addr mods gs im woken kept loaded code gdt (x : kernel) :
  found canon y im live (S (length cs + (k + 9 * length mods)) + 26) x →
  laid_out y im woken kept code gdt → announcing kept loaded → (50 < fuel)%nat →
  1 ≤ maximum_cpu (cpus_of x) ≤ MAX_CPU → (∀ j, 0 ≤ arr 0 (cpu_mapping (cpus_of x)) j < 256) →
  NoDup cs → (∀ c, c ∈ cs → 1 ≤ c < MAX_CPU) →
  kpage_dir y = PAGE_SIZE * kn → 0 ≤ kn < PAGES → modules_of loaded mboot addr mods gs →
  ∃ x1 x2 x3 kp live' live'' st ts,
    kmain_init y x = Ok x1 ∧ kmain_wake fuel y x1 = Ok x2 ∧ hello_all y cs x2 = Ok x3 ∧
    kmain_load fuel y mboot x3 = Ok (set_sys (set_ints (sched_start_timer (ints st)) st) x3) ∧
    (∀ j, 1 ≤ j < maximum_cpu (cpus_of x) →
       Startup.processor (arr 0 (cpu_mapping (cpus_of x)) j) (apic (hw x3)) = Startup.Running 0x50000) ∧
    booted canon y kept kp live' (k + 9 * length mods) (rev cs ++ [0]) x3 ∧
    stacks live' (rev cs ++ [0]) x3 ∧ gates y x3 ∧ (∀ a, live a → live' a) ∧
    (∀ c, c ∈ cs → awake x3 c) ∧ (∀ c, c ∈ 0 :: cs → r_cr0 (reg_of x3 c) = 0x80000001) ∧
    Loading.loads canon (kpage_dir y) (leave_kernel_at y) (section_names y) 0 live' gs ts (sys_of x3) st ∧
    NoDup ts.*2 ∧
    (∀ c p, 0 ≤ c < MAX_CPU → 0 ≤ p < MAX_PRIORITY →
       Scheduler.queue (sched st) c p = Loading.placed ts c p) ∧
    Loading.loadable canon (kpage_dir y) (section_names y) 0 loaded live'' k 0 st.
Proof.
  intros Hf Hlay Han Hfuel Hmax Hmap Hnd Hcs Hkd Hkn Hmods.
  destruct (kmain_init_ok canon y im live _ x Hf)
    as (x1 & kp & live1 & H1 & Hb1 & Hs1 & Hg1 & Hl1 & Hcp1 & _ & Hsc1).
  assert (H32 : 0 ≤ maximum_cpu (cpus_of x1) < 2 ^ 32) by (rewrite Hcp1; change MAX_CPU with 8 in Hmax; lia).
  destruct (print_max_ok canon fuel y im woken kept code gdt kp live1 _ [0] x1 Hlay Hb1 H32 Hsc1 Hfuel)
    as (xp & Hp & Hbp & Hscp & Htp & Hcpp & _).
  rewrite <- Hcp1, <- Hcpp in Hmax, Hmap.
  destruct (cpu_wake_all_boots canon fuel y im woken kept code gdt kp live1 _ [0] xp Hlay Hbp
    (list_elem_of_here 0 []) Hmax Hmap Hscp Hfuel) as (x2 & H2 & Hb2 & Ht2 & Hcp2 & Hcr0 & Hor & Hsc2 & Hrun).
  assert (Hs2 : stacks live1 [0] x2).
  { destruct Hs1 as [Hl Ha]. split; unfold stack_of in *; by rewrite Ht2, Htp. }
  assert (Hnd0 : NoDup (cs ++ [0])).
  { apply NoDup_app. split; [exact Hnd|]. split; [|apply NoDup_singleton].
    intros c Hc Hin. apply list_elem_of_singleton in Hin. specialize (Hcs c Hc). lia. }
  destruct (hello_all_ok canon y kept kp (k + 9 * length mods) cs live1 [0] x2)
    as (x3 & live3 & H3 & Hb3 & Hs3 & Hl3 & Hu3 & Haw & Hreg); [|exact Hnd0|exact Hb2|exact Hs2|].
  - intros c Hc. specialize (Hcs c Hc). lia.
  - assert (Hsc3 : Screen.console_ok (console (sys_of x3))) by (by rewrite (um_console _ _ Hu3)).
    destruct (kmain_load_ok kept loaded kp live3 k kn (rev cs ++ [0]) mboot addr mods gs x3 Hb3
      (proj2 (elem_of_app _ _ _) (or_intror (list_elem_of_here 0 []))) Han Hmods Hsc3 Hfuel Hkd Hkn)
      as (st & ts & live4 & H4 & Hld & Hndt & Hq & Hlo).
    exists x1, x2, x3, kp, live3, live4, st, ts. split; [exact H1|]. split.
    { unfold kmain_wake. rewrite (bind_ok _ _ _ Hp). exact H2. }
    split; [exact H3|]. split; [exact H4|]. clear H1 Hp H2 H3 H4. split.
    { intros j Hj. rewrite (um_apic _ _ Hu3). rewrite <- Hcp1, <- Hcpp in Hj |- *. by apply Hrun. }
    split; [exact Hb3|]. split; [exact Hs3|]. split.
    { unfold gates in *. by rewrite (um_idt _ _ Hu3), Ht2, Htp. }
    split; [intros a Ha; by apply Hl3, Hl1|]. split; [exact Haw|]. split; [|by split].
    intros c [->|Hc]%elem_of_cons; [|by rewrite (aw_cr0 _ _ (Haw c Hc)), (um_orig _ _ Hu3)].
    rewrite Hreg; [exact Hcr0|]. intros H0. specialize (Hcs 0 H0). lia.
Qed.

End Kernel.

(** ** A concrete kernel *)

#[local] Existing Instances Devices.chip_ports Startup.board_apic Startup.board_startup.

(** The image of Elf.v at [0x200000], the names of the sections, the format of the
    message and the boot information with one module. *)
Definition program_lits : Elf.literals := Elf.Lits 0x70500 0x70510 0x70520 0x70530 0x70540 0x70600.
Definition loaded_memory : mem8 :=
  Strings.with_str 0x70500 Elf.dot_text (Strings.with_str 0x70510 Elf.dot_data
    (Strings.with_str 0x70520 Elf.dot_bss (Strings.with_str 0x70530 Elf.dot_rodata
      (Strings.with_str 0x70540 Ready.ready_format (Memory.fill 0x200000 Elf.demo_image))))) ∪
  (Memory.fill 0x70800 (Memory.le32 1 ++ replicate 16 0 ++ Memory.le32 1 ++ Memory.le32 0x70900) ∪
   Memory.fill 0x70900 (Memory.le32 0x200000 ++ Memory.le32 0x204000 ++ replicate 8 0)).

(** With the buffer of the message. *)
Definition program_memory : mem8 := loaded_memory ∪ Strings.blank 0x70600 (Z.to_nat 128).

(** With the trampoline and the low pages of Startup.v, then with the first
    message, then with the heap. *)
Definition wake_memory : mem8 := Startup.demo_memory ∪ program_memory.
Definition text_memory : mem8 :=
  wake_memory ∪ (Strings.with_str 0x104000 max_format ∅ ∪ Strings.blank 0x105000 (Z.to_nat 64)).
Definition all_memory : mem8 := text_memory ∪ Strings.blank 0xC3000000 (Z.to_nat 151552).

Definition program_module : Mboot.module_info := Mboot.Module_ 0x200000 0x204000.
Definition program_at : Loading.program := Loading.Program 0x200000 0x400010 Elf.demo_sections.

(** 89 free frames. *)
Definition many_frames : Palloc.palloc :=
  Palloc.Palloc 0 (<[0 := 0xFFFCFFE0]> (<[1 := 0xFFFFFFFF]> (<[2 := 0xFFFFFFFF]>
    (Palloc.memory_map Palloc.booted)))).
Definition boot_vm : Paging.mm Palloc.palloc := Paging.MM Spawn.boot_ram 0x10000 many_frames.

Definition demo_image : image :=
  Image 0x110000 0x111000 0x112000 (λ v, u32 (0xC0102000 + 16 * v)) 0x10000 0xC000 0xC0101000 program_lits
    (Mboot.Texts 0 0 0 0) Startup.demo_symbols 0x104000 0x105000.

(** Two processors. *)
Definition demo_kernel (a : Kmalloc.mem_allocator) :
    kernel (M := Scheduler.lists) (A := Startup.board) (D := Devices.chip) :=
  Kernel
    (Sys (Scheduler.KState ∅ Scheduler.no_lists ∅ {[0 := Scheduler.Cpu 0 0 0x10000 0]} (World 0 ∅ ∅)) ∅ 0
       (Process.fresh_heap boot_vm a) all_memory Interrupts.state0 ∅ Screen.screen0)
    (Tables (Gdt.State ∅ (Gdt.Gdtr 0 0) ∅ None 0) ∅ None) (Processors 2 ∅ {[1 := 1]} 2)
    (Hardware ∅ 0 (Startup.Board 0 ∅ 0) (Devices.Chip 0 ∅ false) 0).

Lemma many_frames_ok : Palloc.palloc_ok many_frames.
Proof.
  split; [|done]. unfold many_frames.
  repeat (apply (Palloc.pwf_insert 0); [|by vm_compute|by vm_compute]). apply Palloc.booted_wf.
Qed.

Lemma boot_vm_inv : Paging.paging_inv boot_vm.
Proof.
  apply Spawn.boot_inv_with; [exact many_frames_ok|..]; intros [_ Hb]; by vm_compute in Hb.
Qed.

Lemma boot_vm_left : frames_left (2 * 37) (Paging.frames boot_vm).
Proof.
  exists (seqZ 20 74). split; [apply NoDup_seqZ|]. split; [rewrite length_seqZ; done|].
  assert (Hf : Forall (λ p, bool_decide (Palloc.page_free many_frames p) = true) (seqZ 20 74)).
  { apply (bool_decide_unpack _). by vm_compute. }
  eapply Forall_impl; [exact Hf|]. intros p Hp. exact (bool_decide_eq_true_1 _ Hp).
Qed.

Lemma boot_vm_shared : Paging.shared_as Spawn.boot_canon boot_vm.
Proof. destruct Spawn.boot_shared as [H1 H2]. split; [exact H1|exact H2]. Qed.

(** What is where. *)
Lemma program_where a :
  is_Some (program_memory !! a) → 0x70000 ≤ a < 0x80000 ∨ 0x200000 ≤ a < 0x210000.
Proof.
  assert (Hf : map_Forall (λ a (_ : Z), 0x70000 ≤ a < 0x80000 ∨ 0x200000 ≤ a < 0x210000) program_memory).
  { apply (bool_decide_unpack _). by vm_compute. }
  intros [v Hv]. exact (Hf a v Hv).
Qed.

Lemma wake_where a : is_Some (Startup.demo_memory !! a) →
  0 ≤ a < 0x60000 ∨ 0x100000 ≤ a < 0x104000.
Proof.
  assert (Hf : map_Forall (λ a (_ : Z), 0 ≤ a < 0x60000 ∨ 0x100000 ≤ a < 0x104000) Startup.demo_memory).
  { apply (bool_decide_unpack _). by vm_compute. }
  intros [v Hv]. exact (Hf a v Hv).
Qed.

Lemma sub_right {K V : Type} `{Countable K} (m1 m2 : gmap K V) :
  (∀ a, is_Some (m1 !! a) → is_Some (m2 !! a) → False) → m2 ⊆ m1 ∪ m2.
Proof.
  intros Hd. apply map_union_subseteq_r. apply map_disjoint_spec. intros a v w H1 H2.
  apply (Hd a); by eexists.
Qed.

Lemma program_wake : program_memory ⊆ wake_memory.
Proof. apply sub_right. intros a H1%wake_where H2%program_where. lia. Qed.

Lemma wake_all_where a : is_Some (wake_memory !! a) → 0 ≤ a < 0x104000 ∨ 0x200000 ≤ a < 0x210000.
Proof.
  unfold wake_memory. rewrite lookup_union_is_Some. intros [?%wake_where|?%program_where]; lia.
Qed.

Definition message_memory : mem8 :=
  Strings.with_str 0x104000 max_format ∅ ∪ Strings.blank 0x105000 (Z.to_nat 64).

Lemma message_text : message_memory ⊆ text_memory.
Proof.
  apply sub_right. intros a H1%wake_all_where [v Hv].
  assert (Hf : map_Forall (λ a (_ : Z), 0x104000 ≤ a < 0x106000) message_memory).
  { apply (bool_decide_unpack _). by vm_compute. }
  specialize (Hf a v Hv). cbv beta in Hf. lia.
Qed.

Lemma text_where a : is_Some (text_memory !! a) → Loading.below_heap a.
Proof.
  assert (Hf : map_Forall (λ a (_ : Z), a < 0xC3000000) text_memory).
  { apply (bool_decide_unpack _). by vm_compute. }
  intros [v Hv]. exact (Hf a v Hv).
Qed.

Lemma message_format : Strings.cstr message_memory 0x104000 max_format.
Proof. by vm_compute. Qed.

Lemma message_buffer : Strings.writable message_memory 0x105000 64.
Proof.
  intros a Ha. apply lookup_union_is_Some. right.
  exact (Strings.blank_writable 0x105000 (Z.to_nat 64) a Ha).
Qed.

Lemma demo_laid_out :
  laid_out demo_image text_memory wake_memory program_memory Startup.demo_code Startup.demo_gdt.
Proof.
  assert (Hs : Startup.demo_memory ⊆ wake_memory) by exact (map_union_subseteq_l _ _).
  split.
  - exact (Elf.cstr_sub _ _ _ _ message_text message_format).
  - exact (writable_sub_map _ _ _ _ message_text message_buffer).
  - left. by vm_compute.
  - exact (map_union_subseteq_l _ _).
  - intros a Ha%wake_all_where. cbn [b_max demo_image]. lia.
  - exact (layout_sub demo_image _ _ _ _ Hs Startup.demo_layout).
  - exact (texts_sub demo_image _ _ Hs Startup.demo_texts).
  - exact program_wake.
  - intros a Ha%program_where. cbn [wake_texts demo_image Startup.f_buf Startup.demo_symbols]. lia.
Qed.

Lemma program_literals : Elf.literals_at loaded_memory program_lits.
Proof. split; by vm_compute. Qed.

Lemma program_image : Elf.image_at 60 loaded_memory 0x200000 0x400010 Elf.demo_sections.
Proof.
  exists 52, 2, 172. do 5 (split; [by vm_compute|]).
  intros [|[|[|i]]] x Hx; [injection Hx as <-..|discriminate Hx].
  - exists 1. split; [by vm_compute|]. split; [by vm_compute|]. split; [simpl; lia|]. by vm_compute.
  - exists 7. split; [by vm_compute|]. split; [by vm_compute|]. split; [simpl; lia|]. by vm_compute.
  - exists 0. split; [by vm_compute|]. split; [by vm_compute|]. split; [simpl; lia|]. by vm_compute.
Qed.

Lemma program_modules :
  modules_of 60 demo_image loaded_memory 0x70800 0x70900 [program_module] [program_at].
Proof.
  split; [by vm_compute|by vm_compute|by split; vm_compute|reflexivity| | |exact program_literals].
  - by repeat split; vm_compute.
  - constructor; [|constructor]. split; [reflexivity|]. split; [exact program_image|].
    split; [by vm_compute|]. by repeat constructor; vm_compute.
Qed.

Lemma program_announcing : announcing demo_image program_memory loaded_memory.
Proof.
  assert (Hf : map_Forall (λ a (_ : Z), ¬ (0x70600 ≤ a < 0x70600 + 128)) loaded_memory).
  { apply (bool_decide_unpack _). by vm_compute. }
  split.
  - exact (map_union_subseteq_l _ _).
  - intros a Ha. apply lookup_union_is_Some. right. exact (Strings.blank_writable 0x70600 (Z.to_nat 128) a Ha).
  - split.
    + by vm_compute.
    + left. by vm_compute.
    + intros a Ha. destruct (loaded_memory !! a) as [v|] eqn:Hv; [|done]. by destruct (Hf a v Hv).
Qed.

Lemma pages_37 : (37 ≤ 200)%nat.
Proof. apply Nat.leb_le. reflexivity. Qed.

Lemma blank_there p n x : 0 ≤ n → p ≤ x < p + n → is_Some (Strings.blank p (Z.to_nat n) !! x).
Proof. intros Hn Hx. apply Strings.blank_writable. rewrite Z2Nat.id; done. Qed.

Lemma heap_there x :
  0xC3000000 ≤ x < 0xC3000000 + PAGE_SIZE * Z.of_nat 37 → is_Some (all_memory !! x).
Proof.
  intros Hx. apply lookup_union_is_Some. right. apply blank_there; [discriminate|].
  rewrite PAGE_SIZE_eq in Hx. exact Hx.
Qed.

Lemma demo_found a :
  Kmalloc.good a Kmalloc.no_blocks (seqZ 1 (Kmalloc.NODES - 1)) →
  found Spawn.boot_canon demo_image text_memory Loading.below_heap 37 (demo_kernel a).
Proof.
  intros Hg. split; [split|exact eq_refl|exact Scheduler.no_lists_ok|exact eq_refl|by vm_compute|intros v; apply u32_range].
  - exact eq_refl.
  - unfold heap_on. change (with_vm _ _) with (Process.fresh_heap boot_vm a).
    change (bytes (sys_of (demo_kernel a))) with all_memory.
    apply (Process.fresh_heap_ok Loading.below_heap boot_vm a 37 all_memory boot_vm_inv boot_vm_left pages_37 Hg).
    + exact heap_there.
    + intros x Hx. exact Hx.
  - exact boot_vm_shared.
  - exact eq_refl.
  - intros x [Hx|[Hx|Hx]]; [destruct (is_Some_None Hx)|destruct (is_Some_None Hx)|].
    destruct (Scheduler.no_elements x Hx).
  - exact (map_union_subseteq_l _ _).
  - exact text_where.
Qed.

Lemma fuel_60 : (50 < 60)%nat.
Proof. apply Nat.ltb_lt. reflexivity. Qed.

Lemma two_processors : 1 ≤ 2 ≤ MAX_CPU.
Proof. by split; vm_compute. Qed.

Lemma one_mapped j : 0 ≤ arr 0 ({[1 := 1]} : gmap Z Z) j < 256.
Proof.
  unfold arr. destruct (decide (j = 1)) as [->|]; [rewrite lookup_singleton_eq; simpl; lia|].
  rewrite lookup_singleton_ne by done. simpl. lia.
Qed.

Lemma one_other : NoDup [1 : Z].
Proof. apply NoDup_singleton. Qed.

Lemma other_range c : c ∈ [1 : Z] → 1 ≤ c < MAX_CPU.
Proof. intros ->%list_elem_of_singleton. change MAX_CPU with 8. lia. Qed.

Lemma one_woken : 1 ≤ 1 < 2.
Proof. lia. Qed.

Lemma other_processor : 0 ≤ 1 < MAX_CPU.
Proof. by split; vm_compute. Qed.

Lemma first_priority : 0 ≤ 0 < MAX_PRIORITY.
Proof. by split; vm_compute. Qed.

Lemma kmain_runs_witness :
  ∃ a x1 x2 x3 st ts, Kmalloc.mem_allocator_init Kmalloc.allocator0 = Ok a ∧
    kmain_init demo_image (demo_kernel a) = Ok x1 ∧ kmain_wake 60 demo_image x1 = Ok x2 ∧
    hello_all demo_image [1] x2 = Ok x3 ∧
    kmain_load 60 demo_image 0x70800 x3 = Ok (set_sys (set_ints (sched_start_timer (ints st)) st) x3) ∧
    Startup.processor 1 (apic (hw x3)) = Startup.Running 0x50000 ∧ awake x3 1 ∧
    length ts = 1%nat ∧ Scheduler.queue (sched st) 1 0 = Loading.placed ts 1 0.
Proof.
  destruct (Kmalloc.mem_allocator_init_good Kmalloc.allocator0) as (a & Ha & Hg).
  destruct (kmain_runs Spawn.boot_canon 60 demo_image Loading.below_heap 0 16 [1] 0x70800 0x70900
    [program_module] [program_at] text_memory wake_memory program_memory loaded_memory Startup.demo_code
    Startup.demo_gdt (demo_kernel a) (demo_found a Hg) demo_laid_out program_announcing fuel_60 two_processors one_mapped
    one_other other_range Spawn.boot_page Spawn.boot_page_range program_modules)
    as (x1 & x2 & x3 & kp & live' & live'' & st & ts & H1 & H2 & H3 & H4 & H5 & _ & _ & _ & _ & Hup & _ & Hl & _ &
      Hq & _).
  exists a, x1, x2, x3, st, ts. split; [exact Ha|]. split; [exact H1|]. split; [exact H2|].
  split; [exact H3|]. split; [exact H4|]. split; [exact (H5 1 one_woken)|].
  split; [exact (Hup 1 (list_elem_of_here 1 []))|].
  split; [exact (Loading.loads_length _ _ _ _ _ _ _ _ _ _ Hl)|].
  exact (Hq 1 0 other_processor first_priority).
Defined.

End Kmain.
