(* ===== verification/Entry.v ===== *)
(** The page tables the kernel starts with (kernel/entry.s).

    [tmp_page_dir] fills one directory and one table before paging is on:
    [entry_pages] is its loop and the three stores behind it.  The lemmas say
    that the directory is in order for paging.c, that the first four megabytes
    are where they were and again at 0xC0000000, and that nothing else is
    mapped. *)

From Stdlib Require Import ZArith Lia.
From stdpp Require Import base option list gmap.
From S2P Require Import Prelude Interfaces Palloc Paging Memory Spawn.

Module Entry.
Import Paging.

(** The loop, with [n] turns left, on physical memory. *)
Fixpoint loop (n : nat) (eax ebx ecx : Z) (m : gmap Z Z) : gmap Z Z :=
  match n with
  | O => m
  | S n =>
      let m := <[eax := 0]> m in
      let edx := Z.lor ecx 7 in
      let m := <[ebx := edx]> m in
      let eax := u32 (eax + 4) in
      let ebx := u32 (ebx + 4) in
      let ecx := u32 (ecx + 0x1000) in
      if s32 ecx <? 0x400000 then loop n eax ebx ecx m else m
  end.

(** [kpage_dir] is at [dir] and [kpage_table] at [table]. *)
Definition entry_pages (dir table : Z) (m : gmap Z Z) : gmap Z Z :=
  let m := loop 1024 dir table 0 m in
  let eax := Z.lor table 0x07 in
  let m := <[dir := eax]> m in
  let m := <[dir + 768 * 4 := eax]> m in
  let eax := Z.lor dir 0x07 in
  <[dir + 1023 * 4 := eax]> m.

Lemma lor_seven k : Z.lor (4096 * k) 7 = 4096 * k + 7.
Proof.
  pose proof (Z.add_lor_land (4096 * k) 7) as Hs.
  assert (H0 : Z.land (4096 * k) 7 = 0); [|lia].
  change 7 with (Z.ones 3). rewrite Z.land_ones by lia. change (2 ^ 3) with 8. dlia.
Qed.

Lemma frame_seven k : 0 ≤ k < PAGES → frame_of (4096 * k + 7) = 4096 * k.
Proof. intros Hk. change PAGES with 1048576 in Hk. rewrite frame_of_eq by lia. dlia. Qed.

Lemma present_seven k : present (4096 * k + 7) = true.
Proof. rewrite present_odd, Z.odd_add, Z.odd_mul. reflexivity. Qed.

Section Tables.
Context (d t : Z) (Hd : 0 ≤ d < PAGES) (Ht : 0 ≤ t < PAGES) (Hne : d ≠ t).
Notation dir := (4096 * d).
Notation table := (4096 * t).

(** What the loop leaves from turn [i] on. *)
Lemma loop_ok n : ∀ i m, 0 ≤ i → i + Z.of_nat n = 1024 →
  let m' := loop n (dir + 4 * i) (table + 4 * i) (4096 * i) m in
  (∀ k, i ≤ k < 1024 → ld m' (dir + 4 * k) = 0) ∧
  (∀ k, i ≤ k < 1024 → ld m' (table + 4 * k) = 4096 * k + 7) ∧
  ∀ a, (∀ k, i ≤ k < 1024 → a ≠ dir + 4 * k ∧ a ≠ table + 4 * k) → ld m' a = ld m a.
Proof.
  change PAGES with 1048576 in *.
  induction n as [|n IH]; intros i m Hi Hn m'; [split; [intros; lia|split; [intros; lia|done]]|].
  set (m1 := <[table + 4 * i := Z.lor (4096 * i) 7]> (<[dir + 4 * i := 0]> m)).
  assert (Hone : ∀ a, ld m1 a = if decide (table + 4 * i = a) then 4096 * i + 7
    else if decide (dir + 4 * i = a) then 0 else ld m a).
  { intros a. unfold m1, ld. rewrite !arr_insert, lor_seven. by repeat case_decide. }
  assert (Hm : m' = if decide (i = 1023) then m1 else loop n (dir + 4 * (i + 1)) (table + 4 * (i + 1))
    (4096 * (i + 1)) m1).
  { unfold m'. cbn [loop]. cbv zeta. fold m1.
    replace (u32 (4096 * i + 4096)) with (4096 * (i + 1)) by (rewrite u32_small; lia).
    rewrite s32_small by lia. case_decide as Hc; [by subst i|].
    rewrite (u32_small (dir + 4 * i + 4)), (u32_small (table + 4 * i + 4)) by lia.
    destruct (Z.ltb_spec (4096 * (i + 1)) 0x400000); [|lia]. f_equal; lia. }
  rewrite Hm. case_decide as Hlast.
  - split; [|split].
    + intros k Hk. rewrite Hone, decide_False, decide_True by lia. done.
    + intros k Hk. rewrite Hone, decide_True by lia. f_equal. lia.
    + intros a Ha. destruct (Ha i) as [H1 H2]; [lia|]. by rewrite Hone, !decide_False by done.
  - destruct (IH (i + 1) m1) as (I1 & I2 & I3); [lia|lia|]. split; [|split].
    + intros k Hk. destruct (decide (k = i)) as [->|]; [|apply I1; lia].
      rewrite I3 by lia. rewrite Hone, decide_False, decide_True by lia. done.
    + intros k Hk. destruct (decide (k = i)) as [->|]; [|apply I2; lia].
      rewrite I3 by lia. by rewrite Hone, decide_True by lia.
    + intros a Ha. rewrite I3 by (intros k Hk; apply Ha; lia).
      destruct (Ha i) as [H1 H2]; [lia|]. by rewrite Hone, !decide_False by done.
Qed.

Context (m : gmap Z Z) (fr : Palloc.palloc).
Notation v := (MM (entry_pages dir table m) dir fr).

(** The words the entry code leaves. *)
Lemma entry_ld :
  let m' := entry_pages dir table m in
  (∀ k, 0 ≤ k < 1024 → ld m' (dir + 4 * k) =
     if decide (k = 0 ∨ k = 768) then table + 7 else if decide (k = 1023) then dir + 7 else 0) ∧
  (∀ k, 0 ≤ k < 1024 → ld m' (table + 4 * k) = 4096 * k + 7) ∧
  ∀ a, (∀ k, 0 ≤ k < 1024 → a ≠ dir + 4 * k ∧ a ≠ table + 4 * k) → ld m' a = ld m a.
Proof.
  destruct (loop_ok 1024 0 m) as (L1 & L2 & L3); [lia|reflexivity|].
  rewrite !Z.mul_0_r, !Z.add_0_r in *. cbv zeta. unfold entry_pages.
  set (m1 := loop 1024 dir table 0 m) in *. clearbody m1. unfold ld in *. cbv zeta.
  rewrite !lor_seven. split; [|split].
  - intros k Hk. rewrite !arr_insert. specialize (L1 k Hk). repeat case_decide; lia.
  - intros k Hk. rewrite !arr_insert. specialize (L2 k Hk). repeat case_decide; lia.
  - intros a Ha. rewrite !arr_insert. specialize (L3 a Ha).
    destruct (Ha 0) as [A0 _]; [lia|]. destruct (Ha 768) as [A1 _]; [lia|]. destruct (Ha 1023) as [A2 _]; [lia|].
    repeat case_decide; lia.
Qed.

Lemma entry_words : (∀ a, 0 ≤ ld m a < 2 ^ 32) → ∀ a, 0 ≤ ld (entry_pages dir table m) a < 2 ^ 32.
Proof.
  intros Hw a. destruct entry_ld as (L1 & L2 & L3). change PAGES with 1048576 in *.
  destruct (decide (0 ≤ (a - dir) < 4096 ∧ (a - dir) mod 4 = 0)) as [[Hr Hm]|Hnd].
  { replace a with (dir + 4 * ((a - dir) / 4)) by dlia. rewrite L1 by dlia. repeat case_decide; lia. }
  destruct (decide (0 ≤ (a - table) < 4096 ∧ (a - table) mod 4 = 0)) as [[Hr Hm]|Hnt].
  { replace a with (table + 4 * ((a - table) / 4)) by dlia. rewrite L2 by dlia. dlia. }
  rewrite L3; [apply Hw|]. intros k Hk. split; intros ->; [apply Hnd|apply Hnt]; dlia.
Qed.

Lemma entry_pde j : 0 ≤ j < 1024 → pde v j =
  if decide (j = 0 ∨ j = 768) then table + 7 else if decide (j = 1023) then dir + 7 else 0.
Proof.
  intros Hj. unfold pde. cbn [ram cr3]. destruct (frame_addr d Hd) as (_ & Hf & _).
  rewrite PAGE_SIZE_eq in Hf. rewrite Hf.
  destruct entry_ld as (L1 & _). exact (L1 j Hj).
Qed.

Lemma entry_present j : 0 ≤ j < 1023 → present (pde v j) = true ↔ j = 0 ∨ j = 768.
Proof.
  intros Hj. rewrite entry_pde by lia. case_decide; [by rewrite present_seven|].
  rewrite decide_False by lia. done.
Qed.

(** The directory is in order while its two frames are not free. *)
Lemma entry_inv :
  (∀ a, 0 ≤ ld m a < 2 ^ 32) → Palloc.palloc_ok fr → ¬ Palloc.page_free fr d → ¬ Palloc.page_free fr t →
  paging_inv v.
Proof.
  intros Hw Hok Hfd Hft. destruct (frame_addr d Hd) as (Hdr & Hdf & Hdd).
  destruct (frame_addr t Ht) as (Htr & Htf & Htd). rewrite PAGE_SIZE_eq in *.
  split; cbn [ram cr3 frames].
  - by apply entry_words.
  - exact Hdr.
  - rewrite entry_pde by lia. rewrite decide_False, decide_True by lia.
    rewrite present_seven, frame_seven, Hdf by done. done.
  - intros i Hi Hp. apply entry_present in Hp; [|done]. rewrite entry_pde, decide_True by (done || lia).
    rewrite frame_seven, Hdf, PAGE_SIZE_eq, Htd by done. split; [lia|exact Hft].
  - rewrite Hdf, PAGE_SIZE_eq, Hdd. exact Hfd.
  - exact Hok.
Qed.

(** The entries 0 and 768 share their table. *)
Lemma entry_shared : shared_as Spawn.boot_canon v.
Proof.
  split; intros j k Hj Hk.
  - rewrite !entry_present, !entry_pde by lia. intros H1 H2. rewrite !decide_True by done.
    unfold Spawn.boot_canon. destruct H1 as [->| ->], H2 as [->| ->]; done.
  - intros Hjk Hc. apply entry_present; [done|]. unfold Spawn.boot_canon in Hc.
    destruct (Z.eqb_spec j 768), (Z.eqb_spec k 768); lia.
Qed.

(** The tables are in frames that [mem_init] does not give away. *)
Lemma entry_reserved : Memory.reserved d → Memory.reserved t → Memory.tables_reserved v.
Proof.
  intros Hrd Hrt. destruct (frame_addr d Hd) as (_ & Hdf & Hdd). destruct (frame_addr t Ht) as (_ & _ & Htd).
  rewrite PAGE_SIZE_eq in *. split; cbn [cr3]; rewrite ?PAGE_SIZE_eq.
  - by rewrite Hdf, Hdd.
  - intros i Hi Hp. apply entry_present in Hp; [|done]. rewrite entry_pde, decide_True by (done || lia).
    by rewrite frame_seven, Htd.
Qed.

(** The first four megabytes are shown where they are and at 0xC0000000;
    nothing else below the tables is. *)
Lemma entry_walk va : 0 ≤ va < 0xFFC00000 → walk (ram v) (cr3 v) va =
  if decide (va < 0x400000) then Some va
  else if decide (0xC0000000 ≤ va < 0xC0400000) then Some (va - 0xC0000000) else None.
Proof.
  intros Hva. rewrite walk_eq. cbv zeta. fold (pde v (page_dir_index va)).
  destruct (index_bounds va) as [Hi Hj]; [lia|]. rewrite page_dir_index_eq, page_table_index_eq in *.
  rewrite entry_pde by lia. destruct entry_ld as (_ & L2 & _).
  destruct (decide (va / 4194304 = 0 ∨ va / 4194304 = 768)) as [Hin|Hout].
  - rewrite present_seven, frame_seven, L2, present_seven, frame_seven by (done || change PAGES with 1048576; dlia).
    repeat case_decide; try (f_equal; dlia); dlia.
  - rewrite decide_False by dlia. cbn. repeat case_decide; dlia || done.
Qed.

End Tables.
End Entry.
