(* ===== verification/Boot.v ===== *)
(** The first half of the boot (kernel/kmain.c, [gdt_init] to [cpu_find]).

    From the machine as entry.s and the boot loader leave it - no heap, no free
    frame, boot information, command line and firmware tables in memory -
    [kmain_find] makes the kernel that the second half of Kmain.v starts from:
    its lemmas run the calls one after the other on the state of the whole
    kernel. *)

From Stdlib Require Import ZArith Lia.
From stdpp Require Import base option list gmap.
From S2P Require Import Prelude Interfaces Locks Palloc Strings Paging Stream Timer Thread Scheduler.
From S2P Require Import Kmalloc Memory Screen Gdt Interrupts Process System Drivers Elf Mboot Cpu.
From S2P Require Import Devices Dirs Spawn Ready Startup Loading Kmain Entry.

Module Boot.
Import Thread System Kmain.

(** ** What is in memory stays *)

Lemma signature_sub m m' p b :
  m ⊆ m' → Cpu.signature_at p m = Ok b → Cpu.signature_at p m' = Ok b.
Proof.
  intros Hs. pose proof (λ a v, Elf.load8_sub m m' a v Hs) as H8. unfold Cpu.signature_at.
  intros Hb. apply res_bind_Ok in Hb as (c0 & H0 & Hb). rewrite (bind_ok _ _ _ (H8 _ _ H0)).
  destruct (negb _); [done|]. apply res_bind_Ok in Hb as (c1 & H1 & Hb). rewrite (bind_ok _ _ _ (H8 _ _ H1)).
  destruct (negb _); [done|]. apply res_bind_Ok in Hb as (c2 & H2 & Hb). rewrite (bind_ok _ _ _ (H8 _ _ H2)).
  destruct (negb _); [done|]. apply res_bind_Ok in Hb as (c3 & H3 & Hb). by rewrite (bind_ok _ _ _ (H8 _ _ H3)).
Qed.

Lemma mp_slide_sub m m' k : m ⊆ m' → ∀ p r,
  Cpu.mp_slide_from k p m = Ok r → Cpu.mp_slide_from k p m' = Ok r.
Proof.
  intros Hs. induction k as [|k IH]; intros p r; cbn [Cpu.mp_slide_from]; [done|].
  intros Hr. apply res_bind_Ok in Hr as (b & Hb & Hr). rewrite (bind_ok _ _ _ (signature_sub _ _ _ _ Hs Hb)).
  destruct b; [done|]. by apply IH.
Qed.

Lemma mp_find_sub m m' r : m ⊆ m' → Cpu.mp_find m = Ok r → Cpu.mp_find m' = Ok r.
Proof.
  intros Hs. unfold Cpu.mp_find, Cpu.mp_slide. intros Hr. apply res_bind_Ok in Hr as (p & Hp & Hr).
  rewrite (bind_ok _ _ _ (mp_slide_sub _ _ _ Hs _ _ Hp)). case_bool_decide; [done|].
  apply res_bind_Ok in Hr as (q & Hq & Hr). by rewrite (bind_ok _ _ _ (mp_slide_sub _ _ _ Hs _ _ Hq)).
Qed.

Lemma firmware_sub m m' mp mpc count ids :
  m ⊆ m' → Cpu.firmware m mp mpc count ids → Cpu.firmware m' mp mpc count ids.
Proof.
  intros Hs [F1 F2 (b0 & b1 & B0 & B1 & Hb) F4 F5 F6 F7 F8].
  pose proof (λ a v, lookup_weaken m m' a v) as Hl. split; try done.
  - by apply (mp_find_sub m).
  - by apply (Elf.load32_sub m).
  - exists b0, b1. split; [by apply (Elf.load8_sub m)|]. split; [by apply (Elf.load8_sub m)|done].
  - clear F2 F5 F6 F7 F8. revert F4. generalize (mpc + Cpu.CONFIG_SIZE). induction ids as [|id ids IH]; [done|].
    intros p (H1 & H2 & H3). split; [by apply Hl|]. split; [by apply Hl|by apply IH].
  - destruct F8 as [|(Hlt & ty & Hty & Hne)]; [by left|right]. split; [done|]. exists ty.
    split; [by apply Hl|done].
Qed.


Lemma mmap_sub m m' es : m ⊆ m' → ∀ p fin, Memory.mmap_at m p es fin → Memory.mmap_at m' p es fin.
Proof.
  intros Hs. induction es as [|e es IH]; intros p fin; cbn [Memory.mmap_at]; [done|].
  intros [(E1 & E2 & E3 & E4 & E5 & E6 & E7) Hes]. split; [|by apply IH].
  do 6 (split; [by apply (Elf.load32_sub m)|]). done.
Qed.

Lemma modules_sub m m' l : m ⊆ m' → ∀ p, Mboot.modules_at m p l → Mboot.modules_at m' p l.
Proof.
  intros Hs. induction l as [|x l IH]; intros p; cbn [Mboot.modules_at]; [done|].
  intros (H1 & H2 & H3). do 2 (split; [by apply (Elf.load32_sub m)|]). by apply IH.
Qed.

Lemma boot_info_sub fuel m m' mboot mmap length addr es l :
  m ⊆ m' → Mboot.boot_info fuel m mboot mmap length addr es l →
  Mboot.boot_info fuel m' mboot mmap length addr es l.
Proof.
  intros Hs [B1 B2 B3 B4 B5 B6 B7 B8 B9 B10 B11 B12].
  split; try done; first [by apply (Elf.load32_sub m)|by apply (mmap_sub m)|by apply (modules_sub m)].
Qed.

Lemma mboot_texts_sub m m' t : m ⊆ m' → Mboot.texts_at m t → Mboot.texts_at m' t.
Proof.
  intros Hs []. split; try done; first [by apply (Elf.cstr_sub m)|by apply (writable_sub_map m)].
Qed.

(** ** The calls one after the other *)

Section Find.
Context {M : Type} {HQ : QueueStore (Z * Z) M} {A : Type} {HA : Startup.Apic A} {D : Type} {HD : Ports D}.
Context (canon : Z → Z) (fuel : nat) (y : image).
Notation sys := (sys (F := Palloc.palloc) (M := M)).
Notation kernel := (kernel (M := M) (A := A) (D := D)).
Notation usable := (Loading.usable (M := M) canon (kpage_dir y) 0).
Notation found := (found (M := M) (A := A) (D := D) canon y).

(** The kernel as it is loaded: its variables are zero, entry.s has built the
    page tables, and there is memory for [n] pages of the heap. *)
Record cold (n : nat) (x : kernel) : Prop := {
  co_frames : Mboot.frames_of (memory_of x) = Palloc.palloc0;
  co_paging : Paging.paging_inv (Memory.vm (Memory.area (Mboot.with_frames Palloc.booted (memory_of x))));
  co_tables : Memory.tables_reserved (Memory.vm (Memory.area (Mboot.with_frames Palloc.booted (memory_of x))));
  co_shared : Paging.shared_as canon (Memory.vm (Memory.area (Mboot.with_frames Palloc.booted (memory_of x))));
  co_dir : Scheduler.c_pdir (Scheduler.cpu_of 0 (sched (sys_of x))) = kpage_dir y;
  co_locks : plock (sys_of x) = 0 ∧ Memory.lock (mem (sys_of x)) = 0 ∧ screen_lock (hw x) = 0;
  co_threads : threads_of (sys_of x) = ∅;
  co_procs : procs_of (sys_of x) = ∅;
  co_empty : arr 0 (table (sys_of x)) 0 = 0;
  co_queues : qok (Scheduler.queues (sched (sys_of x)));
  co_elements a : ¬ Ready.elements (sys_of x) a;
  co_idle : 0 ≤ idle_loop_at y < 2 ^ 32;
  co_isr v : 0 ≤ isr y v < 2 ^ 32;
  co_heap a : 0xC3000000 ≤ a < 0xC3000000 + PAGE_SIZE * Z.of_nat n → is_Some (bytes (sys_of x) !! a)
}.

(** The state after [put_memory]. *)
Record swapped (h : Memory.memory (F := Palloc.palloc)) (m : mem8) (st st' : sys) : Prop := {
  sw_mem : mem st' = h;
  sw_bytes : bytes st' = m;
  sw_vm : vm_on 0 st' = Memory.vm (Memory.area h);
  sw_plock : plock st' = plock st;
  sw_same : same_boot st st'
}.

Lemma put_memory_ok h m (x : kernel) :
  Paging.cr3 (Memory.vm (Memory.area h)) = Scheduler.c_pdir (Scheduler.cpu_of 0 (sched (sys_of x))) →
  ∃ st', put_memory h m x = Ok (set_sys st' x) ∧ swapped h m (sys_of x) st'.
Proof.
  intros Hcr. destruct (load_dir_ok 0 (Paging.cr3 (Memory.vm (Memory.area h))) (sys_of x))
    as (q & Hq & Hcpu & Qs & Qq & Qt & Qw); [done|].
  assert (Hdirs : ∀ c, Scheduler.c_pdir (Scheduler.cpu_of c q) =
    Scheduler.c_pdir (Scheduler.cpu_of c (sched (sys_of x)))).
  { unfold load_dir in Hq. rewrite aset_in in Hq by done. injection Hq as <-. intros c.
    unfold Scheduler.cpu_of. cbn [Scheduler.cpus Scheduler.set_cpus]. rewrite arr_insert.
    case_decide as Hc; [subst c|done]. exact Hcr. }
  unfold put_memory. rewrite (bind_ok _ _ _ Hq). eexists. split; [reflexivity|].
  split; try done.
  - unfold vm_on. cbn [sched set_memory mem]. change (sched (set_sched q (sys_of x))) with q.
    rewrite Hcpu. apply switch_same.
  - split; try done. unfold procs_of, world_of. cbn [sched set_memory set_sched]. by rewrite Qw.
Qed.

Lemma found_same im im' live live' k k' (x x' : kernel) :
  same_boot (sys_of x) (sys_of x') → hw x' = hw x → usable im' live' k' (sys_of x') →
  found im live k x → found im' live' k' x'.
Proof.
  intros [_ Hq _ _ Hta _ _] Hh Hus [_ F2 F3 F4 F5 F6].
  split; [done|by rewrite Hta|by rewrite Hq|by rewrite Hh|done|done].
Qed.

(** [gdt_init] only writes its tables. *)
Lemma gdt_step n (x : kernel) :
  cold n x → ∃ g, Kmain.gdt_init y x = Ok (set_gdt g x) ∧ cold n (set_gdt g x).
Proof.
  intros [C1 C2 C3 C4 C5 C6 C7 C8 C9 C10 CE C11 C12 C13].
  destruct (Gdt.gdt_init_ok (gdt_at y) (tss_at y) (gdt (tables_of x))) as (g & Hg & _).
  exists g. split; [unfold Kmain.gdt_init; by rewrite (bind_ok _ _ _ Hg)|]. by split.
Qed.

(** Below the heap. *)
Definition low (a : Z) : Prop := a < 0xC3000000.

Lemma frames_enough n free qs :
  (∃ ps, NoDup ps ∧ (n + 1 ≤ length ps)%nat ∧ Forall free ps) → (length qs ≤ 1)%nat →
  ∃ ps : list Z, NoDup ps ∧ (n ≤ length ps)%nat ∧ Forall (λ p, free p ∧ p ∉ qs) ps.
Proof.
  intros (ps & Hnd & Hl & Hf) Hq.
  destruct qs as [|q [|]]; [|clear Hq|simpl in Hq; lia].
  { exists ps. split; [done|]. split; [lia|]. eapply Forall_impl; [exact Hf|]. intros p Hp.
    split; [done|]. apply not_elem_of_nil. }
  exists (filter (λ p, p ≠ q) ps). split; [by apply NoDup_filter|]. split.
  - pose proof (length_filter_ne ps q Hnd). lia.
  - apply Forall_forall. intros p Hp. apply list_elem_of_filter in Hp as [Hne Hin].
    rewrite Forall_forall in Hf. split; [by apply Hf|]. by rewrite list_elem_of_singleton.
Qed.

(** [mboot_parse] makes a heap. *)
Lemma mboot_step im n mboot mmap length addr es l (x : kernel) :
  cold n x → (n ≤ 200)%nat → im ⊆ bytes (sys_of x) → (∀ a, is_Some (im !! a) → low a) →
  Mboot.boot_info fuel (bytes (sys_of x)) mboot mmap length addr es l →
  (∃ ps, NoDup ps ∧ (2 * n + 1 ≤ List.length ps)%nat ∧
     Forall (λ p, Mboot.given es mboot addr l p ∧ ¬ Memory.reserved p) ps) →
  ∃ st', Kmain.mboot_parse fuel mboot x = Ok (set_sys st' x) ∧ same_boot (sys_of x) st' ∧
    bytes st' = bytes (sys_of x) ∧ found im low n (set_sys st' x).
Proof.
  intros [C1 C2 C3 C4 C5 (CL1 & CL2 & CL3) C7 C8 C9 C10 CE C11 C12 C13] Hn Him Hlow Hbi Hps.
  destruct (Mboot.mboot_parse_ok fuel (bytes (sys_of x)) mboot (memory_of x) mmap length es addr l Hbi C1 C2 C3)
    as (h & Hh & [I1 I2 I3 _ _ I6 I7 _ I9 (qs & Hqs & Hfree)]).
  { destruct Hps as ([|p ps] & _ & Hl & Hf); [simpl in Hl; lia|]. exists p.
    apply Forall_inv in Hf as [[Hp _] Hr]. done. }
  destruct (put_memory_ok h (bytes (sys_of x)) x) as (st' & Hput & [W1 W2 W3 W4 W5]); [exact I7|].
  exists st'. split; [unfold Kmain.mboot_parse; by rewrite (bind_ok _ _ _ Hh)|]. clear Hh Hput.
  split; [done|]. split; [done|]. pose proof W5 as [S1 S2 S3 S4 S5 S6 S7].
  split; cbn [sys_of set_sys]; try (by rewrite ?S5, ?S2); try done.
  split.
  - by rewrite W4.
  - unfold heap_on. rewrite W3, W1, W2. replace (with_vm (Memory.vm (Memory.area h)) h) with h
      by (by destruct h as [[]]).
    apply Process.unused_heap_ok; try done; [by rewrite I6|].
    destruct (frames_enough (2 * n) _ qs Hps Hqs) as (ps & Hnd & Hl & Hf). exists ps. split; [done|].
    split; [done|]. eapply Forall_impl; [exact Hf|]. intros p [[Hg Hr] Hq]. by apply Hfree.
  - rewrite W3. by apply I9.
  - by rewrite S6.
  - intros a [Ha|[Ha|Ha]]; exfalso; revert Ha; [rewrite S3, C7|rewrite S4, C8|];
      [rewrite lookup_empty; apply is_Some_None..|]. unfold Ready.elements. rewrite S2. apply CE.
  - by rewrite W2.
  - done.
Qed.

(** Other page tables, another heap and other bytes. *)
Lemma usable_swapped im live live' j k c h m (st st' : sys) :
  usable im live j st → swapped h m st st' → Memory.heap_ok live' k h m →
  Memory.spent c (vm_on 0 st) (Memory.vm (Memory.area h)) → (∀ a, live a → live' a) →
  (∀ a, is_Some (im !! a) → m !! a = bytes st !! a) → usable im live' k st'.
Proof.
  intros [Hlock _ Hu Hdir Hob Him Hl] [W1 W2 W3 W4 [_ S2 S3 S4 _ S6 _]] Hh Hsp Hlive Hsame. split.
  - by rewrite W4.
  - unfold heap_on. rewrite W3, W1, W2. by replace (with_vm (Memory.vm (Memory.area h)) h) with h
      by (by destruct h as [[]]).
  - rewrite W3. exact (Paging.kept_shared _ _ _ (Memory.sp_kept _ _ _ Hsp) canon Hu).
  - by rewrite S6.
  - intros a. unfold Ready.elements. rewrite S2, S3, S4. intros Ha. by apply Hlive, Hob.
  - rewrite W2. apply map_subseteq_spec. intros a v Ha. rewrite Hsame by (by rewrite Ha).
    by apply (lookup_weaken im).
  - intros a Ha. by apply Hlive, Hl.
Qed.

Lemma found_room im live k (x : kernel) :
  found im live k x → Memory.heap_ok live k (memory_of x) (bytes (sys_of x)) ∧
    Memory.room (Memory.area (memory_of x)) k.
Proof.
  intros Hf. pose proof (Loading.us_heap _ _ _ _ _ _ _ (fo_usable _ _ _ _ _ _ Hf)) as Hh.
  split; [exact Hh|]. destruct Hh as (ls & pool & Hr). exact (Memory.hr_room _ _ _ _ _ _ Hr).
Qed.

(** A command line that the boot loader has put in a page of its own. *)
Record command_line (m : mem8) (mboot flags phys : Z) (str : list Z) : Prop := {
  cl_flags : Memory.load32 (mboot + Mboot.FLAGS) m = Ok flags;
  cl_given : flags ≠ 0;
  cl_phys : Memory.load32 (mboot + Mboot.CMDLINE) m = Ok phys;
  cl_range : 0 ≤ phys < 2 ^ 32;
  cl_texts : Mboot.texts_at m (boot_texts y);
  cl_str : Strings.cstr m (Paging.frame_of phys) str;
  cl_page : Strings.writable m (Paging.frame_of phys) PAGE_SIZE;
  cl_short : Z.of_nat (length str) + 8 < PAGE_SIZE;
  cl_fuel : (length str + 40 < fuel)%nat
}.

(** The number of processors that the command line asks for. *)
Definition asked (m : mem8) (phys : Z) (str : list Z) (old n : Z) : Prop :=
  ((∀ k, (k < length str)%nat → ¬ Strings.found_at str Mboot.max_cpu_text k) → n = old) ∧
  ∀ k b, (k < length str)%nat → Strings.found_at str Mboot.max_cpu_text k →
    (∀ j, (j < k)%nat → ¬ Strings.found_at str Mboot.max_cpu_text j) →
    m !! (Paging.frame_of phys + (Z.of_nat k + 8)) = Some b → n = u8 (s8 b - 48).

Lemma cmdline_step im live n mboot flags phys str (x : kernel) :
  found im live (S n) x → command_line (bytes (sys_of x)) mboot flags phys str →
  (∀ a, is_Some (im !! a) → ¬ (0x70000 ≤ a < 0x70000 + PAGE_SIZE) ∧
     ¬ (Mboot.t_buf (boot_texts y) ≤ a < Mboot.t_buf (boot_texts y) + 64)) →
  ∃ x' n', Kmain.mboot_parse_cmdline fuel y mboot x = Ok x' ∧ found im live n x' ∧ hw x' = hw x ∧
    tables_of x' = tables_of x ∧
    cpus_of x' = Processors (num_of_cpu (cpus_of x)) (cpu_stack (cpus_of x)) (cpu_mapping (cpus_of x)) n' ∧
    asked (bytes (sys_of x)) phys str (maximum_cpu (cpus_of x)) n'.
Proof.
  intros Hf [L1 L2 L3 L4 L5 L6 L7 L8 L9] Hout. destruct (found_room _ _ _ _ Hf) as [Hh [Hinv Hfr _ _ _]].
  destruct (Mboot.cmdline_parsed fuel (boot_texts y) mboot (Mboot.Boot (vm_on 0 (sys_of x))
    (bytes (sys_of x)) (console (sys_of x)) (maximum_cpu (cpus_of x))) flags phys str) as
    (b & Hb & _ & Hsp & Hdom & Hsame & Hn1 & Hn2); try assumption.
  { right. by apply (frames_left_some (2 * n + 1)), (frames_left_le (2 * S n)); [lia|]. }
  cbn [Mboot.vm Mboot.bytes Mboot.maximum_cpu] in *.
  destruct (put_memory_ok (with_vm (Mboot.vm b) (mem (sys_of x))) (Mboot.bytes b) x)
    as (st' & Hput & Hsw); [exact (Memory.sp_cr3 _ _ _ Hsp)|].
  exists (set_cpus (Processors (num_of_cpu (cpus_of x)) (cpu_stack (cpus_of x)) (cpu_mapping (cpus_of x))
    (Mboot.maximum_cpu b)) (set_sys (set_console (Mboot.console b) st') x)), (Mboot.maximum_cpu b).
  split.
  { unfold Kmain.mboot_parse_cmdline. cbv zeta. rewrite (bind_ok _ _ _ Hb). unfold put_vm.
    rewrite (bind_ok _ _ _ Hput). reflexivity. }
  clear Hb Hput. split; [|by repeat (split; [done|])].
  pose proof (sw_same _ _ _ _ Hsw) as [S1 S2 S3 S4 S5 S6 S7].
  apply (found_same im im live live (S n) n x); [by split|done| |exact Hf].
  apply (usable_same canon (kpage_dir y) im live n st'); [by split|].
  apply (usable_swapped im live live (S n) n 1 _ _ (sys_of x) st' (fo_usable _ _ _ _ _ _ Hf) Hsw); try done.
  - apply (Memory.heap_ok_bytes _ _ _ (bytes (sys_of x))); [exact Hdom|].
    apply (Dirs.heap_ok_vm live (S n) n (memory_of x)); [exact Hh|lia|exact (Memory.sp_inv _ _ _ Hsp)|].
    apply (Paging.kept_left _ _ _ (Memory.sp_kept _ _ _ Hsp)). by apply (frames_left_le (2 * S n)); [lia|].
  - intros a Ha. destruct (Hout a Ha). by apply Hsame.
Qed.

(** [cpu_find] gives each processor a stack. *)
Lemma cpus_step im live k mp mpc count ids (x : kernel) :
  found im live (length ids + k) x → Cpu.firmware im mp mpc count ids →
  (∀ a, mpc + Cpu.CONFIG_SIZE ≤ a < mpc + Cpu.CONFIG_SIZE + 20 * Z.of_nat (length ids) + 1 → live a) →
  ∃ x' ps live', Kmain.cpu_find x = Ok x' ∧ found im live' k x' ∧ hw x' = hw x ∧
    tables_of x' = tables_of x ∧ (∀ a, live a → live' a) ∧
    num_of_cpu (cpus_of x') = Z.of_nat (length ids) ∧
    maximum_cpu (cpus_of x') = Z.min (maximum_cpu (cpus_of x)) (Z.of_nat (length ids)) ∧
    (∀ j id, ids !! j = Some id → arr 0 (cpu_mapping (cpus_of x')) (Z.of_nat j) = id) ∧
    ((∀ j, 0 ≤ arr 0 (cpu_mapping (cpus_of x)) j < 256) →
     ∀ j, 0 ≤ arr 0 (cpu_mapping (cpus_of x')) j < 256) ∧
    length ps = length ids ∧ Cpu.fresh_pages live ps ∧
    ∀ j id p, ids !! j = Some id → ps !! j = Some p →
      arr 0 (cpu_stack (cpus_of x')) id = p + PAGE_SIZE - 16.
Proof.
  intros Hf Hfw Hlive. destruct (found_room _ _ _ _ Hf) as [Hh _].
  pose proof (fo_usable _ _ _ _ _ _ Hf) as Hus.
  pose proof (Loading.us_image _ _ _ _ _ _ _ Hus) as Him.
  destruct (Cpu.cpu_find_ok live k (Cpu.Cpus (num_of_cpu (cpus_of x)) (cpu_stack (cpus_of x))
    (cpu_mapping (cpus_of x)) (maximum_cpu (cpus_of x)) (memory_of x) (bytes (sys_of x))) mp mpc count ids
    (firmware_sub _ _ _ _ _ _ Him Hfw) Hh Hlive)
    as (s & ps & live' & Hs & Hn & Hmx & [Q1 Q2 _ _ Q5 _ Q7 Q8 _ Q10 Q11 Q12 Q13]).
  cbn [Cpu.mem Cpu.bytes Cpu.cpu_stack Cpu.cpu_mapping Cpu.maximum_cpu Cpu.num_of_cpu] in *.
  destruct (put_memory_ok (Cpu.mem s) (Cpu.bytes s) x) as (st' & Hput & Hsw); [exact (Memory.sp_cr3 _ _ _ Q13)|].
  exists (set_cpus (Processors (Cpu.num_of_cpu s) (Cpu.cpu_stack s) (Cpu.cpu_mapping s) (Cpu.maximum_cpu s))
    (set_sys st' x)), ps, live'. split.
  { unfold Kmain.cpu_find. cbv zeta. rewrite (bind_ok _ _ _ Hs), (bind_ok _ _ _ Hput). reflexivity. }
  clear Hs Hput. split.
  { pose proof (sw_same _ _ _ _ Hsw) as [S1 S2 S3 S4 S5 S6 S7].
    apply (found_same im im live live' (length ids + k) k x); [by split|done| |exact Hf].
    apply (usable_swapped im live live' (length ids + k) k (2 * length ids) _ _ (sys_of x) st' Hus Hsw Q11 Q13 Q12).
    intros a Ha. apply Q10. by apply (Loading.us_live _ _ _ _ _ _ _ Hus). }
  cbn [cpus_of set_cpus num_of_cpu cpu_stack cpu_mapping maximum_cpu hw tables_of set_sys].
  do 3 (split; [done|]). split; [exact Hn|]. split; [exact Hmx|].
  split; [exact Q5|]. split; [|by split].
  intros Hall. apply Q7. intros j. rewrite arr_insert. case_decide; [lia|apply Hall].
Qed.

(** To the end of [cpu_find]. *)
Lemma kmain_find_ok im k mboot mmap length addr es l flags phys str mp mpc count ids (x : kernel) :
  let n := (List.length ids + k + 1)%nat in
  cold n x → (n ≤ 200)%nat →
  Mboot.boot_info fuel (bytes (sys_of x)) mboot mmap length addr es l →
  (∃ ps, NoDup ps ∧ (2 * n + 1 ≤ List.length ps)%nat ∧
     Forall (λ p, Mboot.given es mboot addr l p ∧ ¬ Memory.reserved p) ps) →
  command_line (bytes (sys_of x)) mboot flags phys str →
  Cpu.firmware im mp mpc count ids →
  mpc + Cpu.CONFIG_SIZE + 20 * Z.of_nat (List.length ids) + 1 ≤ 0xC3000000 →
  im ⊆ bytes (sys_of x) →
  (∀ a, is_Some (im !! a) → low a ∧ ¬ (0x70000 ≤ a < 0x70000 + PAGE_SIZE) ∧
     ¬ (Mboot.t_buf (boot_texts y) ≤ a < Mboot.t_buf (boot_texts y) + 64)) →
  (∀ j, 0 ≤ arr 0 (cpu_mapping (cpus_of x)) j < 256) →
  ∃ x' live wanted ps, kmain_find fuel y mboot x = Ok x' ∧ found im live k x' ∧ (∀ a, low a → live a) ∧
    num_of_cpu (cpus_of x') = Z.of_nat (List.length ids) ∧
    asked (bytes (sys_of x)) phys str (maximum_cpu (cpus_of x)) wanted ∧
    maximum_cpu (cpus_of x') = Z.min wanted (Z.of_nat (List.length ids)) ∧
    (∀ j id, ids !! j = Some id → arr 0 (cpu_mapping (cpus_of x')) (Z.of_nat j) = id) ∧
    (∀ j, 0 ≤ arr 0 (cpu_mapping (cpus_of x')) j < 256) ∧
    List.length ps = List.length ids ∧ Cpu.fresh_pages low ps ∧
    ∀ j id p, ids !! j = Some id → ps !! j = Some p →
      arr 0 (cpu_stack (cpus_of x')) id = p + PAGE_SIZE - 16.
Proof.
  intros n Hcold Hn Hbi Hps Hcl Hfw Hmpc Him Hout Hmap.
  destruct (gdt_step n x Hcold) as (g & H1 & Hcold1).
  destruct (mboot_step im n mboot mmap length addr es l (set_gdt g x) Hcold1 Hn Him
    (λ a Ha, proj1 (Hout a Ha)) Hbi Hps) as (st' & H2 & _ & Hb2 & Hf2).
  replace n with (S (List.length ids + k)) in Hf2 by (unfold n; lia).
  destruct (cmdline_step im low (List.length ids + k) mboot flags phys str (set_sys st' (set_gdt g x)) Hf2)
    as (x3 & wanted & H3 & Hf3 & _ & _ & Hc3 & Hw).
  { change (bytes (sys_of (set_sys st' (set_gdt g x)))) with (bytes st'). by rewrite Hb2. }
  { intros a Ha. by apply Hout. }
  destruct (cpus_step im low k mp mpc count ids x3 Hf3 Hfw)
    as (x4 & ps & live & H4 & Hf4 & _ & _ & Hl & Hnum & Hmax & Hm & Hr & Hlen & Hfresh & Hst).
  { intros a Ha. unfold low. lia. }
  exists x4, live, wanted, ps. split.
  { unfold kmain_find. by rewrite (bind_ok _ _ _ H1), (bind_ok _ _ _ H2), (bind_ok _ _ _ H3). }
  clear H1 H2 H3 H4. rewrite Hc3 in Hmax, Hr. cbn [maximum_cpu cpu_mapping] in Hmax, Hr.
  change (bytes (sys_of (set_sys st' (set_gdt g x)))) with (bytes st') in Hw. rewrite Hb2 in Hw.
  do 6 (split; [done|]). split; [by apply Hr|]. done.
Qed.

End Find.

(** ** Properties *)

Section Whole.
Context {M : Type} {HQ : QueueStore (Z * Z) M} {A : Type} {HA : Startup.Apic A} {HS : Startup.Startup A}.
Context {D : Type} {HD : Ports D} (canon : Z → Z) (fuel : nat) (y : image).
Notation kernel := (kernel (M := M) (A := A) (D := D)).

(** C4. kmain comes to its barrier: from the machine as entry.s and the boot
    loader leave it - memory map, modules, command line and the firmware's table
    of processors in memory, no heap - every call up to [cpu_sync] returns.
    Each processor of the table has a number and, at its identifier, a stack on
    a page of its own; as many are in use as the command line asks for, at most
    those of the table, and these run the trampoline.  The interrupts have
    their gates and handlers, the kernel has its process, every scheduler
    idles in it, the first processor has started, and the heap has room for [k]
    pages more. *)
Theorem kmain_boot_runs im woken kept code gdt k mboot mmap length addr es l flags phys str mp mpc count ids
    (x : kernel) :
  let n := (List.length ids + (S k + 26) + 1)%nat in
  cold canon y n x → (n ≤ 200)%nat →
  Mboot.boot_info fuel (bytes (sys_of x)) mboot mmap length addr es l →
  (∃ ps, NoDup ps ∧ (2 * n + 1 ≤ List.length ps)%nat ∧
     Forall (λ p, Mboot.given es mboot addr l p ∧ ¬ Memory.reserved p) ps) →
  command_line fuel y (bytes (sys_of x)) mboot flags phys str →
  Cpu.firmware im mp mpc count ids → (1 ≤ List.length ids)%nat →
  mpc + Cpu.CONFIG_SIZE + 20 * Z.of_nat (List.length ids) + 1 ≤ 0xC3000000 →
  im ⊆ bytes (sys_of x) →
  (∀ a, is_Some (im !! a) → low a ∧ ¬ (0x70000 ≤ a < 0x70000 + PAGE_SIZE) ∧
     ¬ (Mboot.t_buf (boot_texts y) ≤ a < Mboot.t_buf (boot_texts y) + 64)) →
  (∀ j, 0 ≤ arr 0 (cpu_mapping (cpus_of x)) j < 256) →
  (∀ wanted, asked (bytes (sys_of x)) phys str (maximum_cpu (cpus_of x)) wanted → 1 ≤ wanted) →
  laid_out y im woken kept code gdt → (50 < fuel)%nat →
  ∃ x' kp live wanted ps, kmain_boot fuel y mboot x = Ok x' ∧ booted canon y kept kp live k [0] x' ∧
    stacks live [0] x' ∧ gates y x' ∧
    num_of_cpu (cpus_of x') = Z.of_nat (List.length ids) ∧
    asked (bytes (sys_of x)) phys str (maximum_cpu (cpus_of x)) wanted ∧
    maximum_cpu (cpus_of x') = Z.min wanted (Z.of_nat (List.length ids)) ∧
    (∀ j id, ids !! j = Some id → arr 0 (cpu_mapping (cpus_of x')) (Z.of_nat j) = id) ∧
    List.length ps = List.length ids ∧ Cpu.fresh_pages low ps ∧
    (∀ j id p, ids !! j = Some id → ps !! j = Some p →
       arr 0 (cpu_stack (cpus_of x')) id = p + PAGE_SIZE - 16) ∧
    ∀ j id, (1 ≤ j)%nat → Z.of_nat j < maximum_cpu (cpus_of x') → ids !! j = Some id →
      Startup.processor id (apic (hw x')) = Startup.Running 0x50000.
Proof.
  intros n Hcold Hn Hbi Hps Hcl Hfw Hone Hmpc Him Hout Hmap Hwanted Hlay Hfuel.
  destruct (kmain_find_ok canon fuel y im (S k + 26) mboot mmap length addr es l flags phys str mp mpc count ids
    x Hcold Hn Hbi Hps Hcl Hfw Hmpc Him Hout Hmap)
    as (x1 & live & wanted & ps & H1 & Hf & _ & Hnum & Hw & Hmax & Hids & Hrange & Hlen & Hfresh & Hst).
  destruct (kmain_init_ok canon y im live (S k) x1 Hf)
    as (x2 & kp & live2 & H2 & Hb2 & Hs2 & Hg2 & _ & Hc2 & _ & Hsc2).
  pose proof (Hwanted wanted Hw) as Hw1. pose proof (Cpu.fw_few _ _ _ _ _ Hfw) as Hfew.
  rewrite <- Hc2 in Hnum, Hmax, Hids, Hrange, Hst. change MAX_CPU with 8 in Hfew.
  destruct (print_max_ok canon fuel y im woken kept code gdt kp live2 (S k) [0] x2 Hlay Hb2) as
    (x3 & H3 & Hb3 & Hsc3 & Ht3 & Hc3 & _); [lia|exact Hsc2|exact Hfuel|].
  rewrite <- Hc3 in Hnum, Hmax, Hids, Hrange, Hst.
  destruct (cpu_wake_all_boots canon fuel y im woken kept code gdt kp live2 k [0] x3 Hlay Hb3
    (list_elem_of_here 0 [])) as (x4 & H4 & Hb4 & Ht4 & Hc4 & _ & _ & Hrun);
    [change MAX_CPU with 8; lia|exact Hrange|exact Hsc3|exact Hfuel|].
  exists x4, kp, live2, wanted, ps. split.
  { unfold kmain_boot, kmain_wake. rewrite (bind_ok _ _ _ H1), (bind_ok _ _ _ H2), (bind_ok _ _ _ H3). exact H4. }
  clear H1 H2 H3 H4. split; [exact Hb4|]. split.
  { destruct Hs2 as [Hl Ha]. split; unfold stack_of in *; by rewrite Ht4, Ht3. }
  split; [unfold gates in *; by rewrite Ht4, Ht3|]. rewrite Hc4. do 7 (split; [done|]).
  intros j id Hj1 Hj Hid. rewrite <- (Hids j id Hid). apply Hrun. lia.
Qed.

End Whole.

(** ** A concrete machine *)

#[local] Existing Instances Devices.chip_ports Startup.board_apic Startup.board_startup.

(** The firmware's table of Cpu.v, and the boot information and command line of
    Mboot.v. *)
Definition firmware_bytes : mem8 :=
  Memory.fill 0x9FC00 ([95; 77; 80; 95] ++ Memory.le32 0x9FD00) ∪
  Memory.fill 0x9FD00 (replicate 34 0 ++ [3; 0] ++ replicate 8 0 ++
    (0 :: 0 :: replicate 18 0) ++ (0 :: 1 :: replicate 18 0) ++ [1]).

Definition command_bytes : mem8 :=
  Mboot.boot_bytes 0x5123 ∪ Strings.with_str 0x90600 [10] (Strings.with_str 0x90610 Mboot.max_cpu_text
    (Strings.with_str 0x90620 Mboot.found_format (Strings.blank 0x90700 64 ∪
      Strings.with_str 0x5000 Mboot.four_cpus (Strings.blank 0x5000 4096)))).
Definition command_texts : Mboot.texts := Mboot.Texts 0x90600 0x90610 0x90620 0x90700.

(** With the trampoline and the low pages of Startup.v and the message of
    Kmain.v; and with the heap. *)
Definition image_bytes : mem8 := (Startup.demo_memory ∪ message_memory) ∪ firmware_bytes.
Definition loader_bytes : mem8 := command_bytes ∪ image_bytes.
Definition start_bytes : mem8 := loader_bytes ∪ Strings.blank 0xC3000000 (Z.to_nat 159744).

Notation first_dir := (4096 * 0x101).
Notation first_table := (4096 * 0x102).

Definition first_image : image :=
  Image 0x110000 0x111000 0x112000 (λ v, u32 (0xC0102000 + 16 * v)) first_dir 0xC000 0xC0101000 program_lits
    command_texts Startup.demo_symbols 0x104000 0x105000.

Definition first_kernel : kernel (M := Scheduler.lists) (A := Startup.board) (D := Devices.chip) :=
  Kernel
    (Sys (Scheduler.KState ∅ Scheduler.no_lists ∅ {[0 := Scheduler.Cpu 0 0 first_dir 0]} (World 0 ∅ ∅)) ∅ 0
       (Memory.Mem (Memory.Brk 0 (Paging.MM (Entry.entry_pages first_dir first_table ∅) first_dir
          Palloc.palloc0)) 0 0 Kmalloc.allocator0) start_bytes Interrupts.state0 ∅ Screen.screen0)
    (Tables (Gdt.State ∅ (Gdt.Gdtr 0 0) ∅ None 0) ∅ None) (Processors 0 ∅ ∅ 8)
    (Hardware ∅ 0 (Startup.Board 0 ∅ 0) (Devices.Chip 0 ∅ false) 0).

Lemma first_vm : Memory.vm (Memory.area (Mboot.with_frames Palloc.booted (memory_of first_kernel))) =
  Paging.MM (Entry.entry_pages first_dir first_table ∅) first_dir Palloc.booted.
Proof. reflexivity. Qed.

Lemma first_frames : 0 ≤ 0x101 < PAGES ∧ 0 ≤ 0x102 < PAGES ∧ (0x101 : Z) ≠ 0x102.
Proof. by repeat split; vm_compute. Qed.

Lemma blank_words a : 0 ≤ Paging.ld ∅ a < 2 ^ 32.
Proof. unfold Paging.ld. rewrite arr_empty. by vm_compute. Qed.

Lemma booted_ok : Palloc.palloc_ok Palloc.booted.
Proof. split; [exact Palloc.booted_wf|done]. Qed.

Lemma reserved_image p : 0x100 ≤ p < 0x200 → Memory.reserved p.
Proof. intros Hp. right. left. exact Hp. Qed.

Lemma start_heap a :
  0xC3000000 ≤ a < 0xC3000000 + PAGE_SIZE * Z.of_nat 39 → is_Some (start_bytes !! a).
Proof.
  intros Ha. apply lookup_union_is_Some. right. apply blank_there; [discriminate|].
  rewrite PAGE_SIZE_eq in Ha. exact Ha.
Qed.

Lemma first_cold : cold Spawn.boot_canon first_image 39 first_kernel.
Proof.
  destruct first_frames as (Hd & Ht & Hne). split.
  - reflexivity.
  - rewrite first_vm. exact (Entry.entry_inv 0x101 0x102 Hd Ht Hne ∅ Palloc.booted blank_words booted_ok
      (Palloc.booted_none _) (Palloc.booted_none _)).
  - rewrite first_vm. apply (Entry.entry_reserved 0x101 0x102 Hd Ht Hne); apply reserved_image; by vm_compute.
  - rewrite first_vm. exact (Entry.entry_shared 0x101 0x102 Hd Ht Hne ∅ Palloc.booted).
  - reflexivity.
  - by split.
  - reflexivity.
  - reflexivity.
  - reflexivity.
  - exact Scheduler.no_lists_ok.
  - exact Scheduler.no_elements.
  - by vm_compute.
  - intros v. apply u32_range.
  - exact start_heap.
Qed.

Lemma loader_start : loader_bytes ⊆ start_bytes.
Proof. exact (map_union_subseteq_l _ _). Qed.

Lemma first_info :
  Mboot.boot_info 60 (Mboot.boot_bytes 0x5123) 0x8000 0x9000 72 0x8100 Memory.pc_map [Mboot.demo_module].
Proof.
  split.
  - by split; vm_compute.
  - by vm_compute.
  - by vm_compute.
  - by vm_compute.
  - by vm_compute.
  - repeat split; by vm_compute.
  - by split; vm_compute.
  - apply Nat.ltb_lt. reflexivity.
  - exact Memory.pc_map_ok.
  - repeat split; by vm_compute.
  - constructor; [|constructor]. split; [split; discriminate|by vm_compute].
  - by split; vm_compute.
Qed.

Lemma command_start : command_bytes ⊆ start_bytes.
Proof. transitivity loader_bytes; [exact (map_union_subseteq_l _ _)|exact loader_start]. Qed.

Lemma info_start : Mboot.boot_bytes 0x5123 ⊆ start_bytes.
Proof. transitivity command_bytes; [exact (map_union_subseteq_l _ _)|exact command_start]. Qed.

Lemma command_texts_at : Mboot.texts_at command_bytes command_texts.
Proof.
  split; [by vm_compute..| |repeat split; by right|by left].
  apply Mboot.writable_check. by vm_compute.
Qed.

Lemma first_command : command_line 60 first_image command_bytes 0x8000 1 0x5123 Mboot.four_cpus.
Proof.
  split.
  - by vm_compute.
  - discriminate.
  - by vm_compute.
  - by split; vm_compute.
  - exact command_texts_at.
  - by vm_compute.
  - apply Mboot.writable_check. by vm_compute.
  - by vm_compute.
  - apply Nat.ltb_lt. reflexivity.
Qed.

Lemma command_sub fuel y m m' mboot flags phys str :
  m ⊆ m' → command_line fuel y m mboot flags phys str → command_line fuel y m' mboot flags phys str.
Proof.
  intros Hs []. split; try done; first [by apply (Elf.load32_sub m)|by apply (mboot_texts_sub m)|
    by apply (Elf.cstr_sub m)|by apply (writable_sub_map m)].
Qed.

Lemma first_firmware : Cpu.firmware firmware_bytes 0x9FC00 0x9FD00 3 [0; 1].
Proof.
  split.
  - by vm_compute.
  - by vm_compute.
  - exists 3, 0. by repeat split; vm_compute.
  - do 4 (split; [by vm_compute|]). exact I.
  - repeat constructor; discriminate.
  - apply (bool_decide_unpack _). by vm_compute.
  - by vm_compute.
  - right. split; [simpl; lia|]. exists 1. split; [by vm_compute|done].
Qed.

Lemma firmware_where a : is_Some (firmware_bytes !! a) → 0x9FC00 ≤ a < 0xA0000.
Proof.
  assert (Hf : map_Forall (λ a (_ : Z), 0x9FC00 ≤ a < 0xA0000) firmware_bytes).
  { apply (bool_decide_unpack _). by vm_compute. }
  intros [v Hv]. exact (Hf a v Hv).
Qed.

Lemma message_where a : is_Some (message_memory !! a) → 0x104000 ≤ a < 0x106000.
Proof.
  assert (Hf : map_Forall (λ a (_ : Z), 0x104000 ≤ a < 0x106000) message_memory).
  { apply (bool_decide_unpack _). by vm_compute. }
  intros [v Hv]. exact (Hf a v Hv).
Qed.

Lemma demo_where a :
  is_Some ((Startup.demo_memory ∪ message_memory) !! a) → 0 ≤ a < 0x2000 ∨ 0x50000 ≤ a < 0x60000 ∨ 0x100000 ≤ a < 0x106000.
Proof.
  assert (Hf : map_Forall (λ a (_ : Z), 0 ≤ a < 0x2000 ∨ 0x50000 ≤ a < 0x60000 ∨ 0x100000 ≤ a < 0x106000)
    Startup.demo_memory).
  { apply (bool_decide_unpack _). by vm_compute. }
  rewrite lookup_union_is_Some. intros [[v Hv]|Hm%message_where]; [exact (Hf a v Hv)|lia].
Qed.

Lemma image_where a : is_Some (image_bytes !! a) →
  0 ≤ a < 0x2000 ∨ 0x50000 ≤ a < 0x60000 ∨ 0x9FC00 ≤ a < 0x106000.
Proof.
  unfold image_bytes. rewrite lookup_union_is_Some. intros [Ha%demo_where|Ha%firmware_where]; lia.
Qed.

Lemma command_where a : is_Some (command_bytes !! a) → 0x2000 ≤ a < 0x50000 ∨ 0x90000 ≤ a < 0x9FC00.
Proof.
  assert (Hf : map_Forall (λ a (_ : Z), 0x2000 ≤ a < 0x50000 ∨ 0x90000 ≤ a < 0x9FC00) command_bytes).
  { apply (bool_decide_unpack _). by vm_compute. }
  intros [v Hv]. exact (Hf a v Hv).
Qed.

Lemma image_start : image_bytes ⊆ start_bytes.
Proof.
  transitivity loader_bytes; [|exact loader_start]. apply sub_right.
  intros a Ha%command_where Hb%image_where. lia.
Qed.

Lemma firmware_image : Cpu.firmware image_bytes 0x9FC00 0x9FD00 3 [0; 1].
Proof.
  apply (firmware_sub firmware_bytes); [|exact first_firmware]. apply sub_right.
  intros a Ha%demo_where Hb%firmware_where. lia.
Qed.

Lemma image_laid_out : laid_out first_image image_bytes Startup.demo_memory ∅ Startup.demo_code Startup.demo_gdt.
Proof.
  assert (Hm : message_memory ⊆ image_bytes).
  { transitivity (Startup.demo_memory ∪ message_memory); [|exact (map_union_subseteq_l _ _)].
    apply sub_right. intros a Ha%wake_where Hb%message_where. lia. }
  split.
  - exact (Elf.cstr_sub _ _ _ _ Hm message_format).
  - exact (writable_sub_map _ _ _ _ Hm message_buffer).
  - left. by vm_compute.
  - transitivity (Startup.demo_memory ∪ message_memory); exact (map_union_subseteq_l _ _).
  - intros a Ha%wake_where. cbn [b_max first_image]. lia.
  - exact Startup.demo_layout.
  - exact Startup.demo_texts.
  - exact (map_empty_subseteq _).
  - intros a Ha. rewrite lookup_empty in Ha. destruct (is_Some_None Ha).
Qed.

Lemma first_given p : 0x400 ≤ p < 0x44F →
  Mboot.given Memory.pc_map 0x8000 0x8100 [Mboot.demo_module] p ∧ ¬ Memory.reserved p.
Proof.
  intros Hp. split; [|unfold Memory.reserved; lia]. split; [|split; [|split]].
  - exists (Memory.Mmap 20 0x100000 0 0x700000 0 1). split; [do 2 (apply elem_of_cons; right); apply elem_of_cons; by left|].
    split; [reflexivity|]. unfold Memory.whole. rewrite PAGE_SIZE_eq. simpl. lia.
  - rewrite PAGE_SIZE_eq. change (0x8000 / 4096) with 8. lia.
  - intros x ->%list_elem_of_singleton [_ Hx]. rewrite PAGE_SIZE_eq in Hx. simpl in Hx. lia.
  - intros (i & Hi & ->). simpl in Hi. replace i with 0 in Hp by lia. rewrite PAGE_SIZE_eq in Hp.
    change ((0x8100 + Mboot.MODULE_SIZE * 0) / 4096) with 8 in Hp. lia.
Qed.

Lemma first_pages : ∃ ps, NoDup ps ∧ (2 * 39 + 1 ≤ List.length ps)%nat ∧
  Forall (λ p, Mboot.given Memory.pc_map 0x8000 0x8100 [Mboot.demo_module] p ∧ ¬ Memory.reserved p) ps.
Proof.
  exists (seqZ 0x400 79). split; [apply NoDup_seqZ|]. split; [by rewrite length_seqZ|].
  apply Forall_forall. intros p Hp%elem_of_seqZ. apply first_given. lia.
Qed.

Lemma image_aside a : is_Some (image_bytes !! a) → low a ∧ ¬ (0x70000 ≤ a < 0x70000 + PAGE_SIZE) ∧
  ¬ (Mboot.t_buf (boot_texts first_image) ≤ a < Mboot.t_buf (boot_texts first_image) + 64).
Proof.
  intros Ha%image_where. unfold low. rewrite PAGE_SIZE_eq.
  cbn [first_image boot_texts Mboot.t_buf command_texts]. lia.
Qed.

Lemma pages_39 : (2 + 36 + 1 ≤ 200)%nat.
Proof. apply Nat.leb_le. reflexivity. Qed.

Lemma first_mapping j : 0 ≤ arr 0 (∅ : gmap Z Z) j < 256.
Proof. rewrite arr_empty. by vm_compute. Qed.

Lemma firmware_end : 0x9FD00 + Cpu.CONFIG_SIZE + 20 * 2 + 1 ≤ 0xC3000000.
Proof. by vm_compute. Qed.

(** The command line asks for four processors; the table has two. *)
Lemma four_asked wanted : asked start_bytes 0x5123 Mboot.four_cpus 8 wanted → wanted = 4.
Proof.
  intros [_ Hw]. rewrite (Hw 0%nat 52); [reflexivity|..].
  - simpl. lia.
  - right. exists [52]. reflexivity.
  - intros j Hj. lia.
  - apply (lookup_weaken command_bytes); [by vm_compute|exact command_start].
Qed.

Lemma one_asked wanted : asked start_bytes 0x5123 Mboot.four_cpus 8 wanted → 1 ≤ wanted.
Proof. intros ->%four_asked. by vm_compute. Qed.

Lemma two_ids : (1 ≤ List.length ([0; 1]%Z : list Z))%nat.
Proof. simpl. lia. Qed.

Lemma kmain_boot_runs_witness :
  ∃ x' kp live, kmain_boot 60 first_image 0x8000 first_kernel = Ok x' ∧
    booted Spawn.boot_canon first_image ∅ kp live 9 [0] x' ∧
    num_of_cpu (cpus_of x') = 2 ∧ maximum_cpu (cpus_of x') = 2 ∧
    Startup.processor 1 (apic (hw x')) = Startup.Running 0x50000.
Proof.
  destruct (kmain_boot_runs Spawn.boot_canon 60 first_image image_bytes Startup.demo_memory ∅ Startup.demo_code
    Startup.demo_gdt 9 0x8000 0x9000 72 0x8100 Memory.pc_map
    [Mboot.demo_module] 1 0x5123 Mboot.four_cpus 0x9FC00 0x9FD00 3 [0; 1] first_kernel first_cold pages_39
    (boot_info_sub _ _ _ _ _ _ _ _ _ info_start first_info) first_pages
    (command_sub _ _ _ _ _ _ _ _ command_start first_command) firmware_image two_ids firmware_end image_start
    image_aside first_mapping one_asked image_laid_out fuel_60)
    as (x' & kp & live & wanted & ps & Hx & Hb & _ & _ & Hn & Hw & Hm & _ & _ & _ & _ & Hrun).
  rewrite (four_asked wanted Hw) in Hm.
  exists x', kp, live. split; [exact Hx|]. split; [exact Hb|]. split; [exact Hn|]. split; [exact Hm|].
  apply (Hrun 1%nat 1); [exact (le_n 1)|rewrite Hm; reflexivity|reflexivity].
Defined.

End Boot.
